(** * Ara (confiture-rest-api): audit service and audits controller

    A shallow embedding of [src/audits/audit.service.ts] and
    [src/audits/audits.controller.ts].

    - JavaScript numbers are IEEE 754 binary64 values: Rocq's primitive
      floats, so [/], [*] and [Math.round] compute what the engine computes.
    - The relational store is a record of tables; a table is the list of its
      rows together with the next value of its [autoincrement()] sequence.
    - A Prisma call is a function from the store to either a thrown
      exception or a value and the next store; [$transaction] keeps the
      store it started from when a member throws.
    - The criteria catalogue ([./criteria]) and the RGAA topics
      ([../rgaa.json]) are not part of the sources: they are parameters.

    And of the results store of the web application ([useResultsStore]):

    - An object whose property names are array indices is the list of its
      properties in ascending order of the index.
    - An action takes what the request it awaits gave and returns its
      outcome with the stores afterwards. *)

From Stdlib Require Import ZArith NArith List Lia Bool String Ascii.
From Stdlib Require Import Permutation Sorted.
From Stdlib Require Import Decimal DecimalString DecimalZ.
From Stdlib Require Import PrimFloat FloatOps Uint63.
Import ListNotations.

Local Open Scope string_scope.
Local Open Scope list_scope.
Local Open Scope Z_scope.

(** ** JavaScript values used by the service *)

Module JS.

(** A JavaScript [number]. *)
Definition number := float.

(** The number whose value is the integer [z] (exact below 2^53). *)
Definition of_Z (z : Z) : number :=
  if z <? 0 then PrimFloat.opp (PrimFloat.of_uint63 (Uint63.of_Z (- z)))
  else PrimFloat.of_uint63 (Uint63.of_Z z).

(** [array.length] as a number. *)
Definition length {A} (l : list A) : number := of_Z (Z.of_nat (List.length l)).

(** [Math.round(x)]: NaN, the infinities, the zeros and the integers are
    returned as they are; any other [x] goes to the integer nearest to it,
    a tie to the one closer to +infinity (and to -0 from [-0.5, 0)).  With
    [x = (-1)^s * m * 2^e] and [e < 0] that integer is
    [floor ((2 * v + 2^-e) / 2^(1-e))] for [v = (-1)^s * m]. *)
Definition Math_round (x : number) : number :=
  match Prim2SF x with
  | SpecFloat.S754_finite s m e =>
      if 0 <=? e then x
      else
        let v := if s then Z.neg m else Z.pos m in
        let n := (2 * v + 2 ^ (- e)) / 2 ^ (1 - e) in
        if (n =? 0) && s then (- 0)%float else of_Z n
  | _ => x
  end.

(** The integer a number stands for, when it is finite and integral. *)
Definition int_value (x : number) : option Z :=
  match Prim2SF x with
  | SpecFloat.S754_zero _ => Some 0
  | SpecFloat.S754_finite s m e =>
      let v := if s then Z.neg m else Z.pos m in
      if 0 <=? e then Some (v * 2 ^ e)
      else if (v mod 2 ^ (- e)) =? 0 then Some (v / 2 ^ (- e)) else None
  | _ => None
  end.

(** [`${n}`] for an integer [n]: decimal digits, [-] in front of a negative. *)
Definition toString (n : Z) : string := NilEmpty.string_of_int (Z.to_int n).

(** An object with string keys that are not array indices: its properties
    in insertion order. *)
Definition object (V : Type) := list (string * V).

(** [o[key]]. *)
Fixpoint get {V} (o : object V) (key : string) : option V :=
  match o with
  | [] => None
  | (k, v) :: o' => if String.eqb k key then Some v else get o' key
  end.

(** [o[key] = v]: an existing property keeps its place, a new one goes last. *)
Fixpoint set {V} (o : object V) (key : string) (v : V) : object V :=
  match o with
  | [] => [(key, v)]
  | (k, w) :: o' =>
      if String.eqb k key then (k, v) :: o' else (k, w) :: set o' key v
  end.

(** [Object.values(o)]. *)
Definition values {V} (o : object V) : list V := map snd o.

(** [!!a] for an array [a]: every object is truthy, the empty array too. *)
Definition truthy_array {A} (a : list A) : bool := true.

(** [!!n] for an optional number: [undefined] and [0] are falsy. *)
Definition truthy_number (n : option Z) : bool :=
  match n with
  | None => false
  | Some z => negb (z =? 0)
  end.

(** A property of a request body that the column it is written to allows
    to be [NULL]: the body may lack it ([undefined]), give [null], or give
    a value. *)
Inductive optional (A : Type) : Type :=
  | undefined
  | null
  | value (a : A).
Arguments undefined {A}.
Arguments null {A}.
Arguments value {A} a.

End JS.

(** ** The data model

    The models of [prisma/schema.prisma] with the columns and the unique
    keys the service's queries name: [email_auditUniqueId],
    [name_function_url_auditUniqueId], [url_auditUniqueId],
    [auditUniqueId_pageUrl_topic_criterium] and the key over the seven
    columns of an environment. *)

Inductive CriterionResultStatus :=
  COMPLIANT | NOT_COMPLIANT | NOT_APPLICABLE | NOT_TESTED.

Inductive CriterionResultUserImpact := MINOR | MAJOR | BLOCKING.

Inductive AuditType := FAST | COMPLEMENTARY | FULL.

(** [DateTime], as milliseconds since the epoch. *)
Definition DateTime := Z.

Record Recipent := mkRecipent {
  recipent_id : Z;
  recipent_name : string;
  recipent_email : string;
  recipent_auditUniqueId : option string }.

Record Tool := mkTool {
  tool_id : Z;
  tool_name : string;
  tool_function : string;
  tool_url : string;
  tool_auditUniqueId : option string }.

Record TestEnvironment := mkTestEnvironment {
  env_id : Z;
  env_platform : string;
  env_operatingSystem : string;
  env_operatingSystemVersion : string;
  env_assistiveTechnology : string;
  env_assistiveTechnologyVersion : string;
  env_browser : string;
  env_browserVersion : string;
  env_auditUniqueId : option string }.

Record AuditedPage := mkAuditedPage {
  page_id : Z;
  page_name : string;
  page_url : string;
  page_auditUniqueId : option string }.

Record CriterionResult := mkCriterionResult {
  cr_id : Z;
  cr_status : CriterionResultStatus;
  cr_compliantComment : option string;
  cr_errorDescription : option string;
  cr_userImpact : option CriterionResultUserImpact;
  cr_recommandation : option string;
  cr_notApplicableComment : option string;
  cr_topic : Z;
  cr_criterium : Z;
  cr_pageUrl : string;
  cr_auditUniqueId : string }.

Record AuditTrace := mkAuditTrace {
  trace_id : Z;
  trace_auditEditUniqueId : string;
  trace_auditConsultUniqueId : string }.

Record Audit := mkAudit {
  audit_id : Z;
  audit_editUniqueId : string;
  audit_consultUniqueId : string;
  audit_procedureName : string;
  audit_procedureUrl : option string;
  audit_initiator : option string;
  audit_auditorEmail : option string;
  audit_auditorName : option string;
  audit_contactName : option string;
  audit_contactEmail : option string;
  audit_contactFormUrl : option string;
  audit_technologies : list string;
  audit_auditType : option AuditType;
  audit_notCompliantContent : option string;
  audit_derogatedContent : option string;
  audit_notInScopeContent : option string;
  audit_publicationDate : option DateTime;
  audit_editionDate : option DateTime;
  audit_auditTraceId : Z }.

(** A table: its rows in storage order and the sequence behind [id]. *)
Record Table (R : Type) := mkTable { rows : list R; nextval : Z }.
Arguments mkTable {R} _ _.
Arguments rows {R} _.
Arguments nextval {R} _.

Definition empty_table {R} : Table R := mkTable [] 1.

Record DB := mkDB {
  db_audit : Table Audit;
  db_recipent : Table Recipent;
  db_tool : Table Tool;
  db_testEnvironment : Table TestEnvironment;
  db_auditedPage : Table AuditedPage;
  db_criterionResult : Table CriterionResult;
  db_auditTrace : Table AuditTrace }.

Definition empty_db : DB :=
  mkDB empty_table empty_table empty_table empty_table empty_table
       empty_table empty_table.

(** ** Exceptions and results *)

(** What a [throw] can carry: a Prisma known-request error with its [code],
    any other thrown value (with its [code] property when it has one), or
    one of the controller's HTTP exceptions. *)
Inductive Exception :=
  | PrismaClientKnownRequestError (code : string)
  | Error (code : option string) (message : string)
  | ConflictException (message : string)
  | GoneException
  | NotFoundException.

(** [e?.code]. *)
Definition code (e : Exception) : option string :=
  match e with
  | PrismaClientKnownRequestError c => Some c
  | Error c _ => c
  | _ => None
  end.

(** [e?.code === 'P2025']. *)
Definition is_P2025 (e : Exception) : bool :=
  match code e with
  | Some c => String.eqb c "P2025"
  | None => false
  end.

(** "An operation failed because it depends on one or more records that
    were required but not found." *)
Definition P2025 : Exception := PrismaClientKnownRequestError "P2025".

(** "Unique constraint failed." *)
Definition P2002 : Exception := PrismaClientKnownRequestError "P2002".

(** "Value out of range for the type." *)
Definition P2020 : Exception := PrismaClientKnownRequestError "P2020".

Inductive result (A : Type) :=
  | Return (a : A)
  | Throw (e : Exception).
Arguments Return {A} _.
Arguments Throw {A} _.

(** A statement inside a transaction: it throws, or gives a value and the
    store it leaves. *)
Definition Tx (A : Type) := DB -> result (A * DB).

Definition ret {A} (a : A) : Tx A := fun db => Return (a, db).

Definition bind {A B} (m : Tx A) (k : A -> Tx B) : Tx B :=
  fun db =>
    match m db with
    | Return (a, db') => k a db'
    | Throw e => Throw e
    end.

Definition throw {A} (e : Exception) : Tx A := fun _ => Throw e.

Definition modify (f : DB -> DB) : Tx unit := fun db => Return (tt, f db).

Definition gets {A} (f : DB -> A) : Tx A := fun db => Return (f db, db).

Notation "x <- m ;; k" := (bind m (fun x => k))
  (at level 61, m at next level, right associativity).
Notation "m ;; k" := (bind m (fun _ => k))
  (at level 61, right associativity).

(** The statements of [xs], in order. *)
Fixpoint for_each {X} (f : X -> Tx unit) (xs : list X) : Tx unit :=
  match xs with
  | [] => ret tt
  | x :: xs' => f x ;; for_each f xs'
  end.

(** An awaited call of the service or the controller: its outcome and the
    store afterwards. *)
Definition Async (A : Type) := DB -> result A * DB.

(** A single Prisma call, or [prisma.$transaction([...])]: all of it is
    applied, or nothing is.  The store of a call that throws is the store
    as it was, the counters of the ids included: a database keeps its
    sequences advanced, which shows in no row. *)
Definition transaction {A} (m : Tx A) : Async A :=
  fun db =>
    match m db with
    | Return (a, db') => (Return a, db')
    | Throw e => (Throw e, db)
    end.

(** ** Prisma's table operations

    What the embedding takes from Prisma and the schema:
    - a query that must find a record and finds none throws P2025, a write
      that would break a unique key throws P2002;
    - the nested writes of one [update] are applied in the order the source
      lists them, to the rows of the audit alone;
    - [upsert] updates the row its unique key selects, or creates it under
      the next [id] of the table;
    - in the [data] of an update a property that is [undefined] leaves its
      column as it is and [null] sets it to [NULL]; in the [data] of a
      create both leave it [NULL];
    - a number outside the range of a 32-bit [Int] column makes the write
      throw P2020 (of the [Int] values a request carries, the embedding
      checks the topic and the criterion of a result);
    - deleting an audit deletes the rows of its collections and deleting or
      re-addressing a page does the same to its results ([onDelete: Cascade],
      [onUpdate: Cascade]); a trace has no parent, and stays. *)

Module Prisma.

Section Generic.
Context {R : Type}.

Definition findMany (where_ : R -> bool) (t : Table R) : list R :=
  filter where_ (rows t).

Definition findUnique (where_ : R -> bool) (t : Table R) : option R :=
  find where_ (rows t).

(** [findUniqueOrThrow]: P2025 when no row is selected. *)
Definition findUniqueOrThrow (where_ : R -> bool) (t : Table R) : result R :=
  match findUnique where_ t with
  | Some r => Return r
  | None => Throw P2025
  end.

Definition count (where_ : R -> bool) (t : Table R) : nat :=
  List.length (filter where_ (rows t)).

Definition deleteMany (where_ : R -> bool) (t : Table R) : Table R :=
  mkTable (filter (fun r => negb (where_ r)) (rows t)) (nextval t).

Definition updateMany (where_ : R -> bool) (data : R -> R) (t : Table R)
  : Table R :=
  mkTable (map (fun r => if where_ r then data r else r) (rows t)) (nextval t).

(** [create]: the new row takes the sequence's next value as its [id]. *)
Definition create (data : Z -> R) (t : Table R) : Table R :=
  mkTable (rows t ++ [data (nextval t)]) (nextval t + 1).

(** [upsert]: update the row the unique [where_] selects, or create it. *)
Definition upsert (where_ : R -> bool) (update_ : R -> R) (create_ : Z -> R)
  (t : Table R) : Table R :=
  if existsb where_ (rows t) then updateMany where_ update_ t
  else create create_ t.

End Generic.

(** [{ notIn: values }] on a string column. *)
Definition notIn (x : string) (values : list string) : bool :=
  negb (existsb (String.eqb x) values).

(** [{ id: v }] for an optional number [v] of the request. *)
Definition is_id (x : Z) (v : option Z) : bool :=
  match v with
  | Some z => Z.eqb x z
  | None => false
  end.

(** [{ notIn: values }] on an integer column. *)
Definition notInZ (x : Z) (values : list (option Z)) : bool :=
  negb (existsb (is_id x) values).

(** The relation filter of a nested write: the rows of audit [uniqueId]. *)
Definition child_of (uniqueId : string) (auditUniqueId : option string) : bool :=
  match auditUniqueId with
  | Some u => String.eqb u uniqueId
  | None => false
  end.

(** A nullable column in the [data] of a create. *)
Definition in_create {A} (x : JS.optional A) : option A :=
  match x with
  | JS.value a => Some a
  | JS.undefined | JS.null => None
  end.

(** A nullable column in the [data] of an update, [stored] being what the
    row holds. *)
Definition in_update {A} (x : JS.optional A) (stored : option A) : option A :=
  match x with
  | JS.undefined => stored
  | JS.null => None
  | JS.value a => Some a
  end.

(** The number fits an [Int] column. *)
Definition is_Int (z : Z) : bool := (- 2 ^ 31 <=? z) && (z <? 2 ^ 31).

End Prisma.

Definition set_audit (t : Table Audit) (db : DB) : DB :=
  mkDB t (db_recipent db) (db_tool db) (db_testEnvironment db)
       (db_auditedPage db) (db_criterionResult db) (db_auditTrace db).

Definition set_recipent (t : Table Recipent) (db : DB) : DB :=
  mkDB (db_audit db) t (db_tool db) (db_testEnvironment db)
       (db_auditedPage db) (db_criterionResult db) (db_auditTrace db).

Definition set_tool (t : Table Tool) (db : DB) : DB :=
  mkDB (db_audit db) (db_recipent db) t (db_testEnvironment db)
       (db_auditedPage db) (db_criterionResult db) (db_auditTrace db).

Definition set_testEnvironment (t : Table TestEnvironment) (db : DB) : DB :=
  mkDB (db_audit db) (db_recipent db) (db_tool db) t
       (db_auditedPage db) (db_criterionResult db) (db_auditTrace db).

Definition set_auditedPage (t : Table AuditedPage) (db : DB) : DB :=
  mkDB (db_audit db) (db_recipent db) (db_tool db) (db_testEnvironment db)
       t (db_criterionResult db) (db_auditTrace db).

Definition set_criterionResult (t : Table CriterionResult) (db : DB) : DB :=
  mkDB (db_audit db) (db_recipent db) (db_tool db) (db_testEnvironment db)
       (db_auditedPage db) t (db_auditTrace db).

Definition set_auditTrace (t : Table AuditTrace) (db : DB) : DB :=
  mkDB (db_audit db) (db_recipent db) (db_tool db) (db_testEnvironment db)
       (db_auditedPage db) (db_criterionResult db) t.

(** ** The request bodies *)

(** An item of [recipients]. *)
Record RecipientDto := mkRecipientDto {
  rd_name : string;
  rd_email : string }.

(** An item of [tools]. *)
Record ToolDto := mkToolDto {
  td_name : string;
  td_function : string;
  td_url : string }.

(** An item of [environments]. *)
Record EnvironmentDto := mkEnvironmentDto {
  ed_platform : string;
  ed_operatingSystem : string;
  ed_operatingSystemVersion : string;
  ed_assistiveTechnology : string;
  ed_assistiveTechnologyVersion : string;
  ed_browser : string;
  ed_browserVersion : string }.

(** [UpdateAuditPage]: a page of the payload, with the [id] of the stored
    page it stands for when it has one. *)
Record UpdateAuditPage := mkUpdateAuditPage {
  uap_id : option Z;
  uap_name : string;
  uap_url : string }.

(** [CreateAuditDto].  A property that the body lacks and one that is
    [null] are written alike by a create: both are [None] here. *)
Record CreateAuditDto := mkCreateAuditDto {
  ca_procedureName : string;
  ca_procedureUrl : option string;
  ca_initiator : option string;
  ca_auditorEmail : option string;
  ca_auditorName : option string;
  ca_contactName : option string;
  ca_contactEmail : option string;
  ca_contactFormUrl : option string;
  ca_technologies : list string;
  ca_recipients : list RecipientDto }.

(** [UpdateAuditDto].  An update tells a property that the body lacks from
    one that is [null]. *)
Record UpdateAuditDto := mkUpdateAuditDto {
  ua_procedureName : string;
  ua_procedureUrl : JS.optional string;
  ua_initiator : JS.optional string;
  ua_auditorEmail : JS.optional string;
  ua_auditorName : JS.optional string;
  ua_contactName : JS.optional string;
  ua_contactEmail : JS.optional string;
  ua_contactFormUrl : JS.optional string;
  ua_recipients : list RecipientDto;
  ua_auditType : JS.optional AuditType;
  ua_tools : list ToolDto;
  ua_environments : list EnvironmentDto;
  ua_pages : list UpdateAuditPage;
  ua_notCompliantContent : JS.optional string;
  ua_derogatedContent : JS.optional string;
  ua_notInScopeContent : JS.optional string }.

(** An item of [UpdateResultsDto.data]. *)
Record UpdateResultsItem := mkUpdateResultsItem {
  ur_criterium : Z;
  ur_topic : Z;
  ur_pageUrl : string;
  ur_status : CriterionResultStatus;
  ur_compliantComment : JS.optional string;
  ur_errorDescription : JS.optional string;
  ur_notApplicableComment : JS.optional string;
  ur_recommandation : JS.optional string;
  ur_userImpact : JS.optional CriterionResultUserImpact }.

Record UpdateResultsDto := mkUpdateResultsDto {
  urd_data : list UpdateResultsItem }.

(** An audit with [include: AUDIT_EDIT_INCLUDE]. *)
Record AuditWithIncludes := mkAuditWithIncludes {
  inc_audit : Audit;
  inc_recipients : list Recipent;
  inc_tools : list Tool;
  inc_environments : list TestEnvironment;
  inc_pages : list AuditedPage }.

(** An entry of the catalogue [CRITERIA]. *)
Record Criterion := mkCriterion {
  criterion_topic : Z;
  criterion_criterium : Z }.

(** An entry of [RGAA.topics]. *)
Record RgaaTopic := mkRgaaTopic {
  rgaa_topic : string;
  rgaa_number : Z }.

(** ** Comparisons of column values *)

Definition status_eqb (a b : CriterionResultStatus) : bool :=
  match a, b with
  | COMPLIANT, COMPLIANT
  | NOT_COMPLIANT, NOT_COMPLIANT
  | NOT_APPLICABLE, NOT_APPLICABLE
  | NOT_TESTED, NOT_TESTED => true
  | _, _ => false
  end.

Definition impact_is_blocking (i : option CriterionResultUserImpact) : bool :=
  match i with
  | Some BLOCKING => true
  | _ => false
  end.

Definition is_some {A} (o : option A) : bool :=
  match o with
  | Some _ => true
  | None => false
  end.

(** The foreign key of a result: the page with its [pageUrl] in its audit
    ([onDelete: Cascade, onUpdate: Cascade]). *)
Definition references (r : CriterionResult) (p : AuditedPage) : bool :=
  String.eqb (cr_pageUrl r) (page_url p)
  && Prisma.child_of (cr_auditUniqueId r) (page_auditUniqueId p).

(** The unique key [auditUniqueId_pageUrl_topic_criterium]. *)
Definition auditUniqueId_pageUrl_topic_criterium
  (auditUniqueId pageUrl : string) (topic criterium : Z)
  (r : CriterionResult) : bool :=
  String.eqb (cr_auditUniqueId r) auditUniqueId
  && String.eqb (cr_pageUrl r) pageUrl
  && Z.eqb (cr_topic r) topic
  && Z.eqb (cr_criterium r) criterium.

(** The unique key [url_auditUniqueId]. *)
Definition url_auditUniqueId (url auditUniqueId : string) (p : AuditedPage)
  : bool :=
  String.eqb (page_url p) url
  && Prisma.child_of auditUniqueId (page_auditUniqueId p).

(** The unique key [email_auditUniqueId]. *)
Definition email_auditUniqueId (email auditUniqueId : string) (r : Recipent)
  : bool :=
  String.eqb (recipent_email r) email
  && Prisma.child_of auditUniqueId (recipent_auditUniqueId r).

(** The unique key [name_function_url_auditUniqueId]. *)
Definition name_function_url_auditUniqueId
  (name function url auditUniqueId : string) (t : Tool) : bool :=
  String.eqb (tool_name t) name
  && String.eqb (tool_function t) function
  && String.eqb (tool_url t) url
  && Prisma.child_of auditUniqueId (tool_auditUniqueId t).

(** The unique key over the seven columns of an environment and its audit. *)
Definition environment_auditUniqueId (e : EnvironmentDto)
  (auditUniqueId : string) (t : TestEnvironment) : bool :=
  String.eqb (env_platform t) (ed_platform e)
  && String.eqb (env_operatingSystem t) (ed_operatingSystem e)
  && String.eqb (env_operatingSystemVersion t) (ed_operatingSystemVersion e)
  && String.eqb (env_assistiveTechnology t) (ed_assistiveTechnology e)
  && String.eqb (env_assistiveTechnologyVersion t)
       (ed_assistiveTechnologyVersion e)
  && String.eqb (env_browser t) (ed_browser e)
  && String.eqb (env_browserVersion t) (ed_browserVersion e)
  && Prisma.child_of auditUniqueId (env_auditUniqueId t).

(** [where: { editUniqueId: uniqueId }]. *)
Definition editUniqueId_is (uniqueId : string) (a : Audit) : bool :=
  String.eqb (audit_editUniqueId a) uniqueId.

(** [include: AUDIT_EDIT_INCLUDE]. *)
Definition include (a : Audit) (db : DB) : AuditWithIncludes :=
  let u := audit_editUniqueId a in
  mkAuditWithIncludes a
    (Prisma.findMany (fun r => Prisma.child_of u (recipent_auditUniqueId r))
       (db_recipent db))
    (Prisma.findMany (fun t => Prisma.child_of u (tool_auditUniqueId t))
       (db_tool db))
    (Prisma.findMany (fun e => Prisma.child_of u (env_auditUniqueId e))
       (db_testEnvironment db))
    (Prisma.findMany (fun p => Prisma.child_of u (page_auditUniqueId p))
       (db_auditedPage db)).

(** ** [AuditService] *)

(** An element of what [getResultsWithEditUniqueId] returns: a stored row,
    or the placeholder object, which has no [id] and no [auditUniqueId]. *)
Record ResultEntry := mkResultEntry {
  re_id : option Z;
  re_auditUniqueId : option string;
  re_status : CriterionResultStatus;
  re_compliantComment : option string;
  re_errorDescription : option string;
  re_userImpact : option CriterionResultUserImpact;
  re_recommandation : option string;
  re_notApplicableComment : option string;
  re_topic : Z;
  re_criterium : Z;
  re_pageUrl : string }.

(** A stored row as an element of that array. *)
Definition existing (r : CriterionResult) : ResultEntry :=
  mkResultEntry (Some (cr_id r)) (Some (cr_auditUniqueId r)) (cr_status r)
    (cr_compliantComment r) (cr_errorDescription r) (cr_userImpact r)
    (cr_recommandation r) (cr_notApplicableComment r)
    (cr_topic r) (cr_criterium r) (cr_pageUrl r).

(** [{ raw, percentage }]. *)
Record Distribution := mkDistribution {
  raw : nat;
  percentage : JS.number }.

(** An element of [pageDistributions] and of [topicDistributions], and
    (with no name) [resultDistribution]. *)
Record StatusDistribution := mkStatusDistribution {
  sd_name : string;
  sd_compliant : Distribution;
  sd_notApplicable : Distribution;
  sd_notCompliant : Distribution }.

(** [AuditReportDto], without its [context] and the texts copied from the
    audit row. *)
Record AuditReportDto := mkAuditReportDto {
  report_consultUniqueId : string;
  report_procedureName : string;
  report_publishDate : option DateTime;
  report_updateDate : option DateTime;
  report_errorCount : nat;
  report_blockingErrorCount : nat;
  report_totalCriteriaCount : Z;
  report_applicableCriteriaCount : nat;
  report_accessibilityRate : JS.number;
  report_pageDistributions : list StatusDistribution;
  report_resultDistribution : StatusDistribution;
  report_topicDistributions : list StatusDistribution;
  report_results : list ResultEntry }.

Module AuditService.

Section Catalogue.

(** [CRITERIA], from [./criteria]. *)
Variable CRITERIA : list Criterion.

(** [RGAA.topics], from [../rgaa.json]. *)
Variable RGAA_topics : list RgaaTopic.

(** One row of [recipients: { createMany: { data: data.recipients } }]. *)
Definition recipients_create (uniqueId : string) (r : RecipientDto)
  : Tx unit :=
  clash <- gets (fun db =>
    existsb (email_auditUniqueId (rd_email r) uniqueId)
      (rows (db_recipent db))) ;;
  if clash then throw P2002
  else
    modify (fun db =>
      set_recipent
        (Prisma.create
           (fun id => mkRecipent id (rd_name r) (rd_email r) (Some uniqueId))
           (db_recipent db)) db).

(** [createAudit]; [editUniqueId] and [consultUniqueId] are what the two
    calls of [nanoid()] returned. *)
Definition createAudit (editUniqueId consultUniqueId : string)
  (data : CreateAuditDto) : Async AuditWithIncludes :=
  transaction (
    taken <- gets (fun db =>
      existsb (fun t =>
          String.eqb (trace_auditEditUniqueId t) editUniqueId
          || String.eqb (trace_auditConsultUniqueId t) consultUniqueId)
        (rows (db_auditTrace db))
      || existsb (fun a =>
          String.eqb (audit_editUniqueId a) editUniqueId
          || String.eqb (audit_consultUniqueId a) consultUniqueId)
        (rows (db_audit db))) ;;
    if taken then throw P2002
    else
      traceId <- gets (fun db => nextval (db_auditTrace db)) ;;
      modify (fun db =>
        set_auditTrace
          (Prisma.create
             (fun id => mkAuditTrace id editUniqueId consultUniqueId)
             (db_auditTrace db)) db) ;;
      auditId <- gets (fun db => nextval (db_audit db)) ;;
      let audit :=
        mkAudit auditId editUniqueId consultUniqueId
          (ca_procedureName data) (ca_procedureUrl data) (ca_initiator data)
          (ca_auditorEmail data) (ca_auditorName data) (ca_contactName data)
          (ca_contactEmail data) (ca_contactFormUrl data)
          (ca_technologies data) None None None None None None traceId in
      modify (fun db =>
        set_audit (Prisma.create (fun _ => audit) (db_audit db)) db) ;;
      for_each (recipients_create editUniqueId) (ca_recipients data) ;;
      gets (include audit)).

Definition getAuditWithEditUniqueId (uniqueId : string) (db : DB)
  : option AuditWithIncludes :=
  match Prisma.findUnique (editUniqueId_is uniqueId) (db_audit db) with
  | Some a => Some (include a db)
  | None => None
  end.

Definition getResultsWithEditUniqueId (uniqueId : string) (db : DB)
  : list ResultEntry :=
  let pages :=
    Prisma.findMany
      (fun p => Prisma.child_of uniqueId (page_auditUniqueId p))
      (db_auditedPage db) in
  let existingResults :=
    Prisma.findMany
      (fun r =>
         existsb (fun p =>
             references r p
             && Prisma.child_of uniqueId (page_auditUniqueId p))
           (rows (db_auditedPage db)))
      (db_criterionResult db) in
  flat_map (fun page =>
      map (fun criterion =>
          let existingResult :=
            find (fun result =>
                String.eqb (cr_pageUrl result) (page_url page)
                && Z.eqb (cr_topic result) (criterion_topic criterion)
                && Z.eqb (cr_criterium result) (criterion_criterium criterion))
              existingResults in
          match existingResult with
          | Some r => existing r
          | None =>
              mkResultEntry None None NOT_TESTED None None None None None
                (criterion_topic criterion) (criterion_criterium criterion)
                (page_url page)
          end)
        CRITERIA)
    pages.

(** The scalar columns that [updateAudit] writes: a property that the
    body lacks leaves its column as it is. *)
Definition update_scalars (data : UpdateAuditDto) (a : Audit) : Audit :=
  mkAudit (audit_id a) (audit_editUniqueId a) (audit_consultUniqueId a)
    (ua_procedureName data)
    (Prisma.in_update (ua_procedureUrl data) (audit_procedureUrl a))
    (Prisma.in_update (ua_initiator data) (audit_initiator a))
    (Prisma.in_update (ua_auditorEmail data) (audit_auditorEmail a))
    (Prisma.in_update (ua_auditorName data) (audit_auditorName a))
    (Prisma.in_update (ua_contactName data) (audit_contactName a))
    (Prisma.in_update (ua_contactEmail data) (audit_contactEmail a))
    (Prisma.in_update (ua_contactFormUrl data) (audit_contactFormUrl a))
    (audit_technologies a)
    (Prisma.in_update (ua_auditType data) (audit_auditType a))
    (Prisma.in_update (ua_notCompliantContent data)
       (audit_notCompliantContent a))
    (Prisma.in_update (ua_derogatedContent data) (audit_derogatedContent a))
    (Prisma.in_update (ua_notInScopeContent data)
       (audit_notInScopeContent a))
    (audit_publicationDate a) (audit_editionDate a) (audit_auditTraceId a).

(** [deleteMany: { email: { notIn: data.recipients.map((r) => r.email) } }]
    of [recipients]. *)
Definition recipients_deleteMany (uniqueId : string)
  (recipients : list RecipientDto) (t : Table Recipent) : Table Recipent :=
  Prisma.deleteMany
    (fun r =>
       Prisma.child_of uniqueId (recipent_auditUniqueId r)
       && Prisma.notIn (recipent_email r) (map rd_email recipients))
    t.

(** One element of [upsert] of [recipients]. *)
Definition recipients_upsert (uniqueId : string) (recipient : RecipientDto)
  (t : Table Recipent) : Table Recipent :=
  Prisma.upsert
    (email_auditUniqueId (rd_email recipient) uniqueId)
    (fun r =>
       mkRecipent (recipent_id r) (rd_name recipient) (rd_email recipient)
         (recipent_auditUniqueId r))
    (fun id =>
       mkRecipent id (rd_name recipient) (rd_email recipient) (Some uniqueId))
    t.

(** [recipients: { deleteMany, upsert }]. *)
Definition update_recipients (uniqueId : string)
  (recipients : list RecipientDto) : Tx unit :=
  modify (fun db =>
    set_recipent (recipients_deleteMany uniqueId recipients (db_recipent db))
      db) ;;
  for_each (fun recipient =>
      modify (fun db =>
        set_recipent (recipients_upsert uniqueId recipient (db_recipent db))
          db))
    recipients.

(** [deleteMany: { OR: [ { name: { notIn } }, { function: { notIn } },
    { url: { notIn } } ] }] of [tools]. *)
Definition tools_deleteMany (uniqueId : string) (tools : list ToolDto)
  (t : Table Tool) : Table Tool :=
  Prisma.deleteMany
    (fun t =>
       Prisma.child_of uniqueId (tool_auditUniqueId t)
       && (Prisma.notIn (tool_name t) (map td_name tools)
           || Prisma.notIn (tool_function t) (map td_function tools)
           || Prisma.notIn (tool_url t) (map td_url tools)))
    t.

(** One element of [upsert] of [tools]. *)
Definition tools_upsert (uniqueId : string) (tool : ToolDto) (t : Table Tool)
  : Table Tool :=
  Prisma.upsert
    (name_function_url_auditUniqueId (td_name tool) (td_function tool)
       (td_url tool) uniqueId)
    (fun t =>
       mkTool (tool_id t) (td_name tool) (td_function tool) (td_url tool)
         (tool_auditUniqueId t))
    (fun id =>
       mkTool id (td_name tool) (td_function tool) (td_url tool)
         (Some uniqueId))
    t.

(** [tools: { deleteMany, upsert }]. *)
Definition update_tools (uniqueId : string) (tools : list ToolDto)
  : Tx unit :=
  modify (fun db =>
    set_tool (tools_deleteMany uniqueId tools (db_tool db)) db) ;;
  for_each (fun tool =>
      modify (fun db => set_tool (tools_upsert uniqueId tool (db_tool db)) db))
    tools.

(** [deleteMany: { OR: [ one notIn per column ] }] of [environments]. *)
Definition environments_deleteMany (uniqueId : string)
  (environments : list EnvironmentDto) (t : Table TestEnvironment)
  : Table TestEnvironment :=
  Prisma.deleteMany
    (fun e =>
       Prisma.child_of uniqueId (env_auditUniqueId e)
       && (Prisma.notIn (env_platform e) (map ed_platform environments)
           || Prisma.notIn (env_operatingSystem e)
                (map ed_operatingSystem environments)
           || Prisma.notIn (env_operatingSystemVersion e)
                (map ed_operatingSystemVersion environments)
           || Prisma.notIn (env_assistiveTechnology e)
                (map ed_assistiveTechnology environments)
           || Prisma.notIn (env_assistiveTechnologyVersion e)
                (map ed_assistiveTechnologyVersion environments)
           || Prisma.notIn (env_browser e) (map ed_browser environments)
           || Prisma.notIn (env_browserVersion e)
                (map ed_browserVersion environments)))
    t.

(** One element of [upsert] of [environments]. *)
Definition environments_upsert (uniqueId : string)
  (environment : EnvironmentDto) (t : Table TestEnvironment)
  : Table TestEnvironment :=
  Prisma.upsert
    (environment_auditUniqueId environment uniqueId)
    (fun e =>
       mkTestEnvironment (env_id e) (ed_platform environment)
         (ed_operatingSystem environment)
         (ed_operatingSystemVersion environment)
         (ed_assistiveTechnology environment)
         (ed_assistiveTechnologyVersion environment)
         (ed_browser environment) (ed_browserVersion environment)
         (env_auditUniqueId e))
    (fun id =>
       mkTestEnvironment id (ed_platform environment)
         (ed_operatingSystem environment)
         (ed_operatingSystemVersion environment)
         (ed_assistiveTechnology environment)
         (ed_assistiveTechnologyVersion environment)
         (ed_browser environment) (ed_browserVersion environment)
         (Some uniqueId))
    t.

(** [environments: { deleteMany, upsert }]. *)
Definition update_environments (uniqueId : string)
  (environments : list EnvironmentDto) : Tx unit :=
  modify (fun db =>
    set_testEnvironment
      (environments_deleteMany uniqueId environments (db_testEnvironment db))
      db) ;;
  for_each (fun environment =>
      modify (fun db =>
        set_testEnvironment
          (environments_upsert uniqueId environment (db_testEnvironment db))
          db))
    environments.

(** [pages: { deleteMany: { id: { notIn } } }]; the results of a deleted
    page go with it. *)
Definition pages_deleteMany (uniqueId : string)
  (updatedPages : list UpdateAuditPage) : Tx unit :=
  modify (fun db =>
    let gone p :=
      Prisma.child_of uniqueId (page_auditUniqueId p)
      && Prisma.notInZ (page_id p) (map uap_id updatedPages) in
    let deleted := Prisma.findMany gone (db_auditedPage db) in
    set_criterionResult
      (Prisma.deleteMany (fun r => existsb (references r) deleted)
         (db_criterionResult db))
      (set_auditedPage (Prisma.deleteMany gone (db_auditedPage db)) db)).

(** One element of [pages: { update: [...] }]: the page must be a page of
    the audit, and its new url must be free in the audit; the results of
    the page follow its url. *)
Definition pages_update (uniqueId : string) (p : UpdateAuditPage)
  : Tx unit :=
  fun db =>
    let hit q :=
      Prisma.child_of uniqueId (page_auditUniqueId q)
      && Prisma.is_id (page_id q) (uap_id p) in
    match Prisma.findUnique hit (db_auditedPage db) with
    | None => Throw P2025
    | Some _ =>
        if existsb (fun q =>
               url_auditUniqueId (uap_url p) uniqueId q && negb (hit q))
             (rows (db_auditedPage db))
        then Throw P2002
        else
          Return (tt,
            set_criterionResult
              (Prisma.updateMany
                 (fun r =>
                    existsb (fun q => hit q && references r q)
                      (rows (db_auditedPage db)))
                 (fun r =>
                    mkCriterionResult (cr_id r) (cr_status r)
                      (cr_compliantComment r) (cr_errorDescription r)
                      (cr_userImpact r) (cr_recommandation r)
                      (cr_notApplicableComment r) (cr_topic r)
                      (cr_criterium r) (uap_url p) (cr_auditUniqueId r))
                 (db_criterionResult db))
              (set_auditedPage
                 (Prisma.updateMany hit
                    (fun q =>
                       mkAuditedPage (page_id q) (uap_name p) (uap_url p)
                         (page_auditUniqueId q))
                    (db_auditedPage db)) db))
    end.

(** One row of [pages: { createMany: { data: [...] } }]. *)
Definition pages_create (uniqueId : string) (p : UpdateAuditPage)
  : Tx unit :=
  clash <- gets (fun db =>
    existsb (url_auditUniqueId (uap_url p) uniqueId)
      (rows (db_auditedPage db))) ;;
  if clash then throw P2002
  else
    modify (fun db =>
      set_auditedPage
        (Prisma.create
           (fun id => mkAuditedPage id (uap_name p) (uap_url p)
                        (Some uniqueId))
           (db_auditedPage db)) db).

(** [this.prisma.audit.update({ where: { editUniqueId }, data, include })]
    of [updateAudit]. *)
Definition audit_update (uniqueId : string) (data : UpdateAuditDto)
  (updatedPages newPages : list UpdateAuditPage) : Tx AuditWithIncludes :=
  found <- gets (fun db =>
    Prisma.findUnique (editUniqueId_is uniqueId) (db_audit db)) ;;
  match found with
  | None => throw P2025
  | Some a =>
      modify (fun db =>
        set_audit
          (Prisma.updateMany (editUniqueId_is uniqueId) (update_scalars data)
             (db_audit db)) db) ;;
      update_recipients uniqueId (ua_recipients data) ;;
      update_tools uniqueId (ua_tools data) ;;
      update_environments uniqueId (ua_environments data) ;;
      pages_deleteMany uniqueId updatedPages ;;
      for_each (pages_update uniqueId) updatedPages ;;
      for_each (pages_create uniqueId) newPages ;;
      gets (include (update_scalars data a))
  end.

(** [data: { editionDate: new Date() }]; [now] is what [new Date()] gives. *)
Definition edited (now : DateTime) (a : Audit) : Audit :=
  mkAudit (audit_id a) (audit_editUniqueId a) (audit_consultUniqueId a)
    (audit_procedureName a) (audit_procedureUrl a) (audit_initiator a)
    (audit_auditorEmail a) (audit_auditorName a) (audit_contactName a)
    (audit_contactEmail a) (audit_contactFormUrl a) (audit_technologies a)
    (audit_auditType a) (audit_notCompliantContent a)
    (audit_derogatedContent a) (audit_notInScopeContent a)
    (audit_publicationDate a) (Some now) (audit_auditTraceId a).

(** [updateAuditEditDate]: the edition date of the audit, if it is
    published. *)
Definition updateAuditEditDate (now : DateTime) (uniqueId : string)
  : Tx unit :=
  modify (fun db =>
    set_audit
      (Prisma.updateMany
         (fun a =>
            editUniqueId_is uniqueId a && is_some (audit_publicationDate a))
         (edited now)
         (db_audit db)) db).

(** The [catch] of [updateAudit], [deleteAudit] and [publishAudit]:
    [if (e?.code === 'P2025') return <missing>; throw e]. *)
Definition catch_P2025 {A B} (found : A -> B) (missing : B)
  (r : result A * DB) : result B * DB :=
  match r with
  | (Return a, db) => (Return (found a), db)
  | (Throw e, db) =>
      if is_P2025 e then (Return missing, db) else (Throw e, db)
  end.

(** The [try] block of [updateAudit]:
    [const [audit] = await this.prisma.$transaction([update, editDate])]. *)
Definition updateAudit_try (now : DateTime) (uniqueId : string)
  (data : UpdateAuditDto) : Async AuditWithIncludes :=
  let updatedPages :=
    filter (fun p => JS.truthy_number (uap_id p)) (ua_pages data) in
  let newPages :=
    filter (fun p => negb (JS.truthy_number (uap_id p))) (ua_pages data) in
  transaction (
    audit <- audit_update uniqueId data updatedPages newPages ;;
    updateAuditEditDate now uniqueId ;;
    ret audit).

(** [updateAudit]: the audit, or [undefined] ([None]). *)
Definition updateAudit (now : DateTime) (uniqueId : string)
  (data : UpdateAuditDto) : Async (option AuditWithIncludes) :=
  fun db => catch_P2025 Some None (updateAudit_try now uniqueId data db).

(** One [this.prisma.criterionResult.upsert] of [updateResults]: [connect]
    needs the page [url_auditUniqueId] to exist, and the [topic] and the
    [criterium] that are written must fit their [Int] columns.  [create]
    and [update] are given the same [data]: a comment, the recommandation
    or the user impact that the item lacks is [NULL] in a row that is
    created and is left as it is in a row that exists. *)
Definition upsert_result (uniqueId : string) (item : UpdateResultsItem)
  : Tx unit :=
  connected <- gets (fun db =>
    existsb (url_auditUniqueId (ur_pageUrl item) uniqueId)
      (rows (db_auditedPage db))) ;;
  if negb connected then throw P2025
  else
    if negb (Prisma.is_Int (ur_topic item)
             && Prisma.is_Int (ur_criterium item))
    then throw P2020
    else
      let create id :=
        mkCriterionResult id (ur_status item)
          (Prisma.in_create (ur_compliantComment item))
          (Prisma.in_create (ur_errorDescription item))
          (Prisma.in_create (ur_userImpact item))
          (Prisma.in_create (ur_recommandation item))
          (Prisma.in_create (ur_notApplicableComment item))
          (ur_topic item) (ur_criterium item) (ur_pageUrl item) uniqueId in
      let update r :=
        mkCriterionResult (cr_id r) (ur_status item)
          (Prisma.in_update (ur_compliantComment item)
             (cr_compliantComment r))
          (Prisma.in_update (ur_errorDescription item)
             (cr_errorDescription r))
          (Prisma.in_update (ur_userImpact item) (cr_userImpact r))
          (Prisma.in_update (ur_recommandation item) (cr_recommandation r))
          (Prisma.in_update (ur_notApplicableComment item)
             (cr_notApplicableComment r))
          (ur_topic item) (ur_criterium item) (ur_pageUrl item) uniqueId in
      modify (fun db =>
        set_criterionResult
          (Prisma.upsert
             (auditUniqueId_pageUrl_topic_criterium uniqueId
                (ur_pageUrl item) (ur_topic item) (ur_criterium item))
             update
             create
             (db_criterionResult db)) db).

Definition updateResults (now : DateTime) (uniqueId : string)
  (body : UpdateResultsDto) : Async unit :=
  transaction (
    for_each (upsert_result uniqueId) (urd_data body) ;;
    updateAuditEditDate now uniqueId).

(** [this.prisma.audit.delete({ where: { editUniqueId } })]: the rows of
    the audit's collections, and the results of its pages, go with it; its
    trace stays. *)
Definition audit_delete (uniqueId : string) : Tx unit :=
  found <- gets (fun db =>
    Prisma.findUnique (editUniqueId_is uniqueId) (db_audit db)) ;;
  match found with
  | None => throw P2025
  | Some _ =>
      modify (fun db =>
        let deleted :=
          Prisma.findMany
            (fun p => Prisma.child_of uniqueId (page_auditUniqueId p))
            (db_auditedPage db) in
        mkDB
          (Prisma.deleteMany (editUniqueId_is uniqueId) (db_audit db))
          (Prisma.deleteMany
             (fun r => Prisma.child_of uniqueId (recipent_auditUniqueId r))
             (db_recipent db))
          (Prisma.deleteMany
             (fun t => Prisma.child_of uniqueId (tool_auditUniqueId t))
             (db_tool db))
          (Prisma.deleteMany
             (fun e => Prisma.child_of uniqueId (env_auditUniqueId e))
             (db_testEnvironment db))
          (Prisma.deleteMany
             (fun p => Prisma.child_of uniqueId (page_auditUniqueId p))
             (db_auditedPage db))
          (Prisma.deleteMany (fun r => existsb (references r) deleted)
             (db_criterionResult db))
          (db_auditTrace db))
  end.

(** [deleteAudit]: true if an audit was deleted, false otherwise. *)
Definition deleteAudit (uniqueId : string) : Async bool :=
  fun db =>
    catch_P2025 (fun _ => true) false (transaction (audit_delete uniqueId) db).

(** [checkIfAuditWasDeleted]: whether a trace has this edit id. *)
Definition checkIfAuditWasDeleted (uniqueId : string) (db : DB) : bool :=
  match
    Prisma.findUniqueOrThrow
      (fun t => String.eqb (trace_auditEditUniqueId t) uniqueId)
      (db_auditTrace db)
  with
  | Return _ => true
  | Throw _ => false
  end.

Definition checkIfAuditWasDeletedWithConsultId (consultUniqueId : string)
  (db : DB) : bool :=
  match
    Prisma.findUniqueOrThrow
      (fun t => String.eqb (trace_auditConsultUniqueId t) consultUniqueId)
      (db_auditTrace db)
  with
  | Return _ => true
  | Throw _ => false
  end.

(** The columns that [publishAudit] writes. *)
Definition published (now : DateTime) (a : Audit) : Audit :=
  mkAudit (audit_id a) (audit_editUniqueId a) (audit_consultUniqueId a)
    (audit_procedureName a) (audit_procedureUrl a) (audit_initiator a)
    (audit_auditorEmail a) (audit_auditorName a) (audit_contactName a)
    (audit_contactEmail a) (audit_contactFormUrl a) (audit_technologies a)
    (audit_auditType a) (audit_notCompliantContent a)
    (audit_derogatedContent a) (audit_notInScopeContent a)
    (Some now) None (audit_auditTraceId a).

(** [publishAudit]: the audit, or [undefined] ([None]). *)
Definition publishAudit (now : DateTime) (uniqueId : string)
  : Async (option AuditWithIncludes) :=
  fun db =>
    catch_P2025 Some None
      (transaction (
         found <- gets (fun db =>
           Prisma.findUnique (editUniqueId_is uniqueId) (db_audit db)) ;;
         match found with
         | None => throw P2025
         | Some a =>
             modify (fun db =>
               set_audit
                 (Prisma.updateMany (editUniqueId_is uniqueId)
                    (published now) (db_audit db)) db) ;;
             gets (include (published now a))
         end) db).

(** The reducer of [groupedCriteria]. *)
Definition group_step (acc : JS.object (list CriterionResult))
  (c : CriterionResult) : JS.object (list CriterionResult) :=
  let key :=
    (JS.toString (cr_topic c) ++ "." ++ JS.toString (cr_criterium c))%string in
  match JS.get acc key with
  | Some group => JS.set acc key (group ++ [c])
  | None => JS.set acc key [c]
  end.

Definition groupedCriteria (results : list CriterionResult)
  : JS.object (list CriterionResult) :=
  fold_left group_step results [].

Definition applicableCriteria (results : list CriterionResult)
  : list (list CriterionResult) :=
  filter
    (fun criteria =>
       existsb (fun c => negb (status_eqb (cr_status c) NOT_APPLICABLE))
         criteria)
    (JS.values (groupedCriteria results)).

Definition compliantCriteria (results : list CriterionResult)
  : list (list CriterionResult) :=
  filter
    (fun criteria =>
       forallb
         (fun c =>
            status_eqb (cr_status c) COMPLIANT
            || status_eqb (cr_status c) NOT_APPLICABLE)
         criteria)
    (applicableCriteria results).

Definition accessibilityRate (results : list CriterionResult) : JS.number :=
  JS.Math_round
    (PrimFloat.mul
       (PrimFloat.div (JS.length (compliantCriteria results))
          (JS.length (applicableCriteria results)))
       100%float).

(** [{ raw: results.filter(f).length,
       percentage: (results.filter(f).length / denominator) * 100 }]. *)
Definition distribution (results : list CriterionResult)
  (f : CriterionResult -> bool) (denominator : JS.number) : Distribution :=
  mkDistribution
    (List.length (filter f results))
    (PrimFloat.mul (PrimFloat.div (JS.length (filter f results)) denominator)
       100%float).

Definition pageDistributions (pages : list AuditedPage)
  (results : list CriterionResult) : list StatusDistribution :=
  map (fun p =>
      let counted s r :=
        String.eqb (cr_pageUrl r) (page_url p) && status_eqb (cr_status r) s in
      mkStatusDistribution (page_name p)
        (distribution results (counted COMPLIANT) 106%float)
        (distribution results (counted NOT_APPLICABLE) 106%float)
        (distribution results (counted NOT_COMPLIANT) 106%float))
    pages.

Definition resultDistribution (results : list CriterionResult)
  : StatusDistribution :=
  let counted s r := status_eqb (cr_status r) s in
  mkStatusDistribution ""
    (distribution results (counted COMPLIANT) (JS.length results))
    (distribution results (counted NOT_APPLICABLE) (JS.length results))
    (distribution results (counted NOT_COMPLIANT) (JS.length results)).

Definition topicDistributions (results : list CriterionResult)
  : list StatusDistribution :=
  map (fun t =>
      let counted s r :=
        Z.eqb (cr_topic r) (rgaa_number t) && status_eqb (cr_status r) s in
      let sharing :=
        JS.length (filter (fun r => Z.eqb (cr_topic r) (rgaa_number t)) results)
      in
      mkStatusDistribution (rgaa_topic t)
        (distribution results (counted COMPLIANT) sharing)
        (distribution results (counted NOT_APPLICABLE) sharing)
        (distribution results (counted NOT_COMPLIANT) sharing))
    RGAA_topics.

(** [getAuditReportData]: the report, or [undefined] ([None]). *)
Definition getAuditReportData (consultUniqueId : string) (db : DB)
  : option AuditReportDto :=
  match
    Prisma.findUnique
      (fun a => String.eqb (audit_consultUniqueId a) consultUniqueId)
      (db_audit db)
  with
  | None => None
  | Some audit =>
      let pages := inc_pages (include audit db) in
      let results :=
        Prisma.findMany
          (fun r => String.eqb (cr_auditUniqueId r) (audit_editUniqueId audit))
          (db_criterionResult db) in
      Some (mkAuditReportDto
        (audit_consultUniqueId audit)
        (audit_procedureName audit)
        (audit_publicationDate audit)
        (audit_editionDate audit)
        (List.length
           (filter (fun r => status_eqb (cr_status r) NOT_COMPLIANT) results))
        (List.length
           (filter
              (fun r =>
                 status_eqb (cr_status r) NOT_COMPLIANT
                 && impact_is_blocking (cr_userImpact r))
              results))
        106
        (List.length (applicableCriteria results))
        (accessibilityRate results)
        (pageDistributions pages results)
        (resultDistribution results)
        (topicDistributions results)
        (map (fun r =>
            mkResultEntry None None (cr_status r) (cr_compliantComment r)
              (cr_errorDescription r) (cr_userImpact r) (cr_recommandation r)
              (cr_notApplicableComment r) (cr_topic r) (cr_criterium r)
              (cr_pageUrl r))
           results))
  end.

Definition isAuditComplete (uniqueId : string) (db : DB) : bool :=
  let notTestedCount :=
    Prisma.count
      (fun r =>
         String.eqb (cr_auditUniqueId r) uniqueId
         && status_eqb (cr_status r) NOT_TESTED)
      (db_criterionResult db) in
  Nat.eqb notTestedCount 0.

End Catalogue.

End AuditService.

(** ** [AuditsController] *)

Module AuditsController.

Section Catalogue.

Variable CRITERIA : list Criterion.

(** [sendAuditNotFoundStatus]: 410 (Gone) for audits that existed but were
    deleted, 404 (Not Found) for audits that never existed. *)
Definition sendAuditNotFoundStatus {A} (editUniqueId : string) : Async A :=
  fun db =>
    if AuditService.checkIfAuditWasDeleted editUniqueId db
    then (Throw GoneException, db)
    else (Throw NotFoundException, db).

Definition createAudit (editUniqueId consultUniqueId : string)
  (body : CreateAuditDto) : Async AuditWithIncludes :=
  AuditService.createAudit editUniqueId consultUniqueId body.

Definition getAudit (uniqueId : string) : Async AuditWithIncludes :=
  fun db =>
    match AuditService.getAuditWithEditUniqueId uniqueId db with
    | None => sendAuditNotFoundStatus uniqueId db
    | Some audit => (Return audit, db)
    end.

Definition updateAudit (now : DateTime) (uniqueId : string)
  (body : UpdateAuditDto) : Async AuditWithIncludes :=
  fun db =>
    match AuditService.updateAudit now uniqueId body db with
    | (Throw e, db') => (Throw e, db')
    | (Return None, db') => sendAuditNotFoundStatus uniqueId db'
    | (Return (Some audit), db') => (Return audit, db')
    end.

Definition getAuditResults (uniqueId : string) : Async (list ResultEntry) :=
  fun db =>
    let results :=
      AuditService.getResultsWithEditUniqueId CRITERIA uniqueId db in
    if negb (JS.truthy_array results)
    then sendAuditNotFoundStatus uniqueId db
    else (Return results, db).

Definition updateAuditResults (now : DateTime) (uniqueId : string)
  (body : UpdateResultsDto) : Async unit :=
  fun db =>
    match AuditService.getAuditWithEditUniqueId uniqueId db with
    | None => sendAuditNotFoundStatus uniqueId db
    | Some _ => AuditService.updateResults now uniqueId body db
    end.

(** [UploadImageDto]. *)
Record UploadImageDto := mkUploadImageDto {
  ui_pageId : Z;
  ui_topic : Z;
  ui_criterium : Z }.

Section ExampleImages.

(** [saveExampleImage] and [deleteExampleImage] of the service are not in
    the sources: the handlers take them as they come, the first with the
    file that passed the pipe, the second answering whether it deleted. *)
Context {File StoredFile : Type}.
Variable saveExampleImage :
  string -> Z -> Z -> Z -> File -> Async StoredFile.
Variable service_deleteExampleImage : string -> Z -> Async bool.

Definition uploadExampleImage (uniqueId : string) (file : File)
  (body : UploadImageDto) : Async StoredFile :=
  fun db =>
    match AuditService.getAuditWithEditUniqueId uniqueId db with
    | None => sendAuditNotFoundStatus uniqueId db
    | Some _ =>
        saveExampleImage uniqueId (ui_pageId body) (ui_topic body)
          (ui_criterium body) file db
    end.

Definition deleteExampleImage (uniqueId : string) (exampleId : Z)
  : Async unit :=
  fun db =>
    match service_deleteExampleImage uniqueId exampleId db with
    | (Throw e, db') => (Throw e, db')
    | (Return false, db') => (Throw NotFoundException, db')
    | (Return true, db') => (Return tt, db')
    end.

End ExampleImages.

Definition publishAudit (now : DateTime) (uniqueId : string)
  : Async AuditWithIncludes :=
  fun db =>
    let auditIsComplete := AuditService.isAuditComplete uniqueId db in
    if negb auditIsComplete
    then
      (Throw (ConflictException "Cannot publish audit if it is not complete."),
       db)
    else
      match AuditService.publishAudit now uniqueId db with
      | (Throw e, db') => (Throw e, db')
      | (Return None, db') => sendAuditNotFoundStatus uniqueId db'
      | (Return (Some audit), db') => (Return audit, db')
      end.

Definition deleteAudit (uniqueId : string) : Async unit :=
  fun db =>
    match AuditService.deleteAudit uniqueId db with
    | (Throw e, db') => (Throw e, db')
    | (Return false, db') => sendAuditNotFoundStatus uniqueId db'
    | (Return true, db') => (Return tt, db')
    end.

End Catalogue.

End AuditsController.

(** ** The results store of the web application

    [useResultsStore], the Pinia store that keeps the results of the audit
    being edited and sends their changes to the API.  The requests it
    awaits ([ky.get], [ky.patch], [ky.post], [ky.delete]) are not part of
    the store: an action takes what its request gave, a value or the
    exception [ky] throws for a response that is not a success.

    Results are values here.  The actions never make two results of the
    data share an [exampleImages] array ([{ ...r, status }] takes the place
    of [r]), and the updates a caller hands to [updateResults] are taken
    not to share theirs. *)

Module ResultsStore.

(** An object whose property names are array indices (page ids, topic
    numbers and criterion numbers, all below [2^32 - 1]): the engine lists
    such properties in ascending order of the index, whatever the order
    they were created in. *)
Definition indexed (V : Type) := list (N * V).

(** [o[k]]. *)
Fixpoint get {V} (o : indexed V) (k : N) : option V :=
  match o with
  | [] => None
  | (k', v) :: o' => if N.eqb k' k then Some v else get o' k
  end.

(** [o[k] = v]. *)
Fixpoint set {V} (o : indexed V) (k : N) (v : V) : indexed V :=
  match o with
  | [] => [(k, v)]
  | (k', w) :: o' =>
      if N.ltb k k' then (k, v) :: (k', w) :: o'
      else if N.eqb k' k then (k, v) :: o'
      else (k', w) :: set o' k v
  end.

(** [delete o[k]]. *)
Definition delete {V} (o : indexed V) (k : N) : indexed V :=
  filter (fun p => negb (N.eqb (fst p) k)) o.

(** [Object.values(o)], [Object.keys(o)] and [Object.entries(o)]. *)
Definition values {V} (o : indexed V) : list V := map snd o.
Definition keys {V} (o : indexed V) : list N := map fst o.
Definition entries {V} (o : indexed V) : list (N * V) := o.

(** An element of [exampleImages]: a stored file as [schema.prisma] has it;
    the store reads its [id]. *)
Record ExampleImage := mkExampleImage {
  example_id : Z;
  example_originalFilename : string;
  example_mimetype : string;
  example_size : Z;
  example_key : string;
  example_thumbnailKey : string }.

(** [CriteriumResult], with the properties the store names. *)
Record CriteriumResult := mkCriteriumResult {
  pageId : N;
  topic : N;
  criterium : N;
  status : CriterionResultStatus;
  compliantComment : option string;
  errorDescription : option string;
  notApplicableComment : option string;
  recommandation : option string;
  userImpact : option CriterionResultUserImpact;
  exampleImages : list ExampleImage }.

(** [ResultsStoreState]; [data] is [null] ([None]) until it is fetched. *)
Record ResultsStoreState := mkResultsStoreState {
  data : option (indexed (indexed (indexed CriteriumResult)));
  previousStatuses : indexed (indexed (indexed CriterionResultStatus)) }.

(** The stores an action reads and writes: this one, and of the audit
    store ([useAuditStore]) the [editionDate] of its [data], when it has
    [data]. *)
Record Stores := mkStores {
  results : ResultsStoreState;
  auditStore_editionDate : option (option string) }.

(** [state: () => ({ data: null, previousStatuses: {} })]. *)
Definition state : ResultsStoreState := mkResultsStoreState None [].

(** What the engine throws on reading or writing a property of [undefined]
    or [null]. *)
Definition TypeError : Exception := Error None "TypeError".

(** An awaited action: its outcome and the stores afterwards; what it wrote
    before it threw stays written. *)
Definition Action (A : Type) := Stores -> result A * Stores.

(** *** Getters *)

Definition getCriteriumResult (s : ResultsStoreState)
  (pageId topicNumber criteriumNumber : N) : option CriteriumResult :=
  match data s with
  | None => None
  | Some d =>
      match get d pageId with
      | None => None
      | Some page =>
          match get page topicNumber with
          | None => None
          | Some criteria => get criteria criteriumNumber
          end
      end
  end.

Definition getTopicResults (s : ResultsStoreState) (pageId topicNumber : N)
  : list CriteriumResult :=
  match data s with
  | None => []
  | Some d =>
      match get d pageId with
      | None => []
      | Some page =>
          match get page topicNumber with
          | None => []
          | Some criteria => values criteria
          end
      end
  end.

(** [allResults]: [undefined] ([None]) if the data is not fetched yet. *)
Definition allResults (s : ResultsStoreState)
  : option (list CriteriumResult) :=
  match data s with
  | None => None
  | Some d =>
      Some (List.concat (List.concat
        (map (fun page => map (fun criteria => values criteria) (values page))
           (values d))))
  end.

(** [!this.allResults?.some((r) => r.status === NOT_TESTED) ?? false]:
    [undefined?.some(...)] is [undefined], and [!undefined] is [true]. *)
Definition everyCriteriumAreTested (s : ResultsStoreState) : bool :=
  match allResults s with
  | None => true
  | Some rs => negb (existsb (fun r => status_eqb (status r) NOT_TESTED) rs)
  end.

Definition pagesCount (s : ResultsStoreState) : nat :=
  match data s with
  | Some d => List.length (keys d)
  | None => 0%nat
  end.

(** *** Actions *)

(** The body of [response.forEach] in [fetchResults]: the page object and
    the topic object are created if [data] does not have them, then
    [data[r.pageId][r.topic][r.criterium] = r]. *)
Definition index_result (d : indexed (indexed (indexed CriteriumResult)))
  (r : CriteriumResult) : indexed (indexed (indexed CriteriumResult)) :=
  let page := match get d (pageId r) with Some o => o | None => [] end in
  let criteria := match get page (topic r) with Some o => o | None => [] end in
  set d (pageId r) (set page (topic r) (set criteria (criterium r) r)).

(** [fetchResults]; [response] is what
    [await ky.get(`/api/audits/${uniqueId}/results`).json()] gave. *)
Definition fetchResults (response : result (list CriteriumResult))
  : Action unit :=
  fun s =>
    match response with
    | Throw e => (Throw e, s)
    | Return rs =>
        (Return tt,
         mkStores
           (mkResultsStoreState (Some (fold_left index_result rs []))
              (previousStatuses (results s)))
           (auditStore_editionDate s))
    end.

(** An element of [updates]: [{ ...r, status }], which has the property
    [status] alone when [r] is [undefined]. *)
Inductive Update :=
  | Whole (r : CriteriumResult)
  | StatusOnly (status : CriterionResultStatus).

(** [{ ...r, status }] for a result [r]. *)
Definition with_status (r : CriteriumResult) (s : CriterionResultStatus)
  : CriteriumResult :=
  mkCriteriumResult (pageId r) (topic r) (criterium r) s
    (compliantComment r) (errorDescription r) (notApplicableComment r)
    (recommandation r) (userImpact r) (exampleImages r).

(** [this.data![update.pageId][update.topic][update.criterium] = update]. *)
Definition assign (d : indexed (indexed (indexed CriteriumResult)))
  (update : Update)
  : result (indexed (indexed (indexed CriteriumResult))) :=
  match update with
  | StatusOnly _ => Throw TypeError
  | Whole r =>
      match get d (pageId r) with
      | None => Throw TypeError
      | Some page =>
          match get page (topic r) with
          | None => Throw TypeError
          | Some criteria =>
              Return
                (set d (pageId r)
                   (set page (topic r) (set criteria (criterium r) r)))
          end
      end
  end.

(** [updates.forEach(...)]: the data once the loop has stopped, and the
    exception that stopped it, if one did. *)
Fixpoint assign_each (d : indexed (indexed (indexed CriteriumResult)))
  (updates : list Update)
  : indexed (indexed (indexed CriteriumResult)) * option Exception :=
  match updates with
  | [] => (d, None)
  | update :: updates' =>
      match assign d update with
      | Throw e => (d, Some e)
      | Return d' => assign_each d' updates'
      end
  end.

(** [updateResults]; [patch] is what [await ky.patch(...)] gave and [now]
    is [new Date().toISOString()]. *)
Definition updateResults (patch : result unit) (now : string)
  (updates : list Update) : Action unit :=
  fun s =>
    match patch with
    | Throw e => (Throw e, s)
    | Return _ =>
        match data (results s) with
        | None => (Return tt, s)
        | Some d =>
            match assign_each d updates with
            | (d', Some e) =>
                (Throw e,
                 mkStores
                   (mkResultsStoreState (Some d')
                      (previousStatuses (results s)))
                   (auditStore_editionDate s))
            | (d', None) =>
                (Return tt,
                 mkStores
                   (mkResultsStoreState (Some d')
                      (previousStatuses (results s)))
                   (match auditStore_editionDate s with
                    | Some _ => Some (Some now)
                    | None => None
                    end))
            end
        end
    end.

(** lodash's [setWith(object, [a, b, c], value, Object)]: the objects on
    the path are created where they are missing. *)
Definition setWith {V} (object : indexed (indexed (indexed V)))
  (a b c : N) (value : V) : indexed (indexed (indexed V)) :=
  let oa := match get object a with Some o => o | None => [] end in
  let ob := match get oa b with Some o => o | None => [] end in
  set object a (set oa b (set ob c value)).

(** lodash's [has(object, [a, b])]. *)
Definition has {V} (object : indexed (indexed V)) (a b : N) : bool :=
  match get object a with
  | Some oa => is_some (get oa b)
  | None => false
  end.

(** lodash's [unset(object, [a, b])]. *)
Definition unset {V} (object : indexed (indexed V)) (a b : N)
  : indexed (indexed V) :=
  match get object a with
  | Some oa => set object a (delete oa b)
  | None => object
  end.

(** [setTopicStatus]. *)
Definition setTopicStatus (patch : result unit) (now : string)
  (pageId topicNumber : N) (status : CriterionResultStatus) : Action unit :=
  fun s =>
    let results_ := getTopicResults (results s) pageId topicNumber in
    let s1 :=
      if status_eqb status NOT_APPLICABLE
      then
        mkStores
          (mkResultsStoreState (data (results s))
             (fold_left
                (fun previous r =>
                   setWith previous (ResultsStore.pageId r)
                     (ResultsStore.topic r) (ResultsStore.criterium r)
                     (ResultsStore.status r))
                results_ (previousStatuses (results s))))
          (auditStore_editionDate s)
      else s in
    let updates := map (fun r => Whole (with_status r status)) results_ in
    updateResults patch now updates s1.

(** [revertTopicStatus]. *)
Definition revertTopicStatus (patch : result unit) (now : string)
  (pageId topicNumber : N) : Action unit :=
  fun s =>
    if has (previousStatuses (results s)) pageId topicNumber
    then
      let saved :=
        match get (previousStatuses (results s)) pageId with
        | Some page =>
            match get page topicNumber with
            | Some statuses => entries statuses
            | None => []
            end
        | None => []
        end in
      let updates :=
        map (fun entry =>
            match
              getCriteriumResult (results s) pageId topicNumber (fst entry)
            with
            | Some r => Whole (with_status r (snd entry))
            | None => StatusOnly (snd entry)
            end)
          saved in
      match updateResults patch now updates s with
      | (Throw e, s') => (Throw e, s')
      | (Return _, s') =>
          (Return tt,
           mkStores
             (mkResultsStoreState (data (results s'))
                (unset (previousStatuses (results s')) pageId topicNumber))
             (auditStore_editionDate s'))
      end
    else setTopicStatus patch now pageId topicNumber NOT_TESTED s.

(** [array.findIndex(f)]: [-1] when no element satisfies [f]. *)
Fixpoint findIndex {A} (f : A -> bool) (l : list A) : Z :=
  match l with
  | [] => -1
  | x :: l' =>
      if f x then 0
      else let i := findIndex f l' in if i <? 0 then -1 else i + 1
  end.

(** [array.splice(start, 1)]: a negative [start] counts from the end. *)
Definition splice1 {A} (l : list A) (start : Z) : list A :=
  let len := Z.of_nat (List.length l) in
  let actualStart :=
    if start <? 0 then Z.max (len + start) 0 else Z.min start len in
  firstn (Z.to_nat actualStart) l ++ skipn (Z.to_nat actualStart + 1) l.

(** The result with other example images. *)
Definition with_images (r : CriteriumResult) (images : list ExampleImage)
  : CriteriumResult :=
  mkCriteriumResult (pageId r) (topic r) (criterium r) (status r)
    (compliantComment r) (errorDescription r) (notApplicableComment r)
    (recommandation r) (userImpact r) images.

(** [const result = this.data![pageId][topic][criterium]], then, if there is
    a result, the change [change] of its [exampleImages] array: reading the
    path throws when the data, the page or the topic is missing. *)
Definition change_images (pageId topic criterium : N)
  (change : list ExampleImage -> list ExampleImage) : Action unit :=
  fun s =>
    match data (results s) with
    | None => (Throw TypeError, s)
    | Some d =>
        match get d pageId with
        | None => (Throw TypeError, s)
        | Some page =>
            match get page topic with
            | None => (Throw TypeError, s)
            | Some t =>
                match get t criterium with
                | None => (Return tt, s)
                | Some r =>
                    (Return tt,
                     mkStores
                       (mkResultsStoreState
                          (Some
                             (set d pageId
                                (set page topic
                                   (set t criterium
                                      (with_images r
                                         (change (exampleImages r)))))))
                          (previousStatuses (results s)))
                       (auditStore_editionDate s))
                end
            end
        end
    end.

(** [uploadExampleImage]; [post] is what [await ky.post(...).json()] gave. *)
Definition uploadExampleImage (post : result ExampleImage)
  (pageId topic criterium : N) : Action unit :=
  fun s =>
    match post with
    | Throw e => (Throw e, s)
    | Return exampleImage =>
        change_images pageId topic criterium
          (fun images => images ++ [exampleImage]) s
    end.

(** [deleteExampleImage]; [deleted] is what [await ky.delete(...)] gave. *)
Definition deleteExampleImage (deleted : result unit)
  (pageId topic criterium : N) (exampleId : Z) : Action unit :=
  fun s =>
    match deleted with
    | Throw e => (Throw e, s)
    | Return _ =>
        change_images pageId topic criterium
          (fun images =>
             let exampleIndex :=
               findIndex (fun ex => Z.eqb (example_id ex) exampleId) images in
             splice1 images exampleIndex)
          s
    end.

End ResultsStore.

(** ** Predicates and functions of the specification *)

(** A live audit answers to the edit token. *)
Definition live (uniqueId : string) (db : DB) : Prop :=
  exists a, In a (rows (db_audit db)) /\ audit_editUniqueId a = uniqueId.

(** A trace record holds the edit token. *)
Definition has_trace (uniqueId : string) (db : DB) : Prop :=
  exists t, In t (rows (db_auditTrace db))
            /\ trace_auditEditUniqueId t = uniqueId.

(** Every live audit has its trace record. *)
Definition traced (db : DB) : Prop :=
  forall a, In a (rows (db_audit db)) -> has_trace (audit_editUniqueId a) db.

(** The foreign key of pages: a page of an audit belongs to a live audit. *)
Definition pages_fk (db : DB) : Prop :=
  forall p u, In p (rows (db_auditedPage db)) ->
    page_auditUniqueId p = Some u -> live u db.

(** The foreign key of results: a result row has its page. *)
Definition results_fk (db : DB) : Prop :=
  forall r, In r (rows (db_criterionResult db)) ->
    exists p, In p (rows (db_auditedPage db)) /\ references r p = true.

(** The exception the trace table decides. *)
Definition lookup_miss (uniqueId : string) (db : DB) : Exception :=
  if AuditService.checkIfAuditWasDeleted uniqueId db
  then GoneException else NotFoundException.

(** The pages of an audit: the first query of
    [getResultsWithEditUniqueId]. *)
Definition audit_pages (uniqueId : string) (db : DB) : list AuditedPage :=
  Prisma.findMany (fun p => Prisma.child_of uniqueId (page_auditUniqueId p))
    (db_auditedPage db).

(** The stored results of the pages of an audit: its second query. *)
Definition audit_results (uniqueId : string) (db : DB)
  : list CriterionResult :=
  Prisma.findMany
    (fun r =>
       existsb (fun p =>
           references r p && Prisma.child_of uniqueId (page_auditUniqueId p))
         (rows (db_auditedPage db)))
    (db_criterionResult db).

(** The row is the result of this page for this criterion. *)
Definition row_of (r : CriterionResult) (page : AuditedPage)
  (criterion : Criterion) : Prop :=
  cr_pageUrl r = page_url page
  /\ cr_topic r = criterion_topic criterion
  /\ cr_criterium r = criterion_criterium criterion.

(** At most one row per (page, topic, criterion), as the unique key
    [auditUniqueId_pageUrl_topic_criterium] has it within one audit. *)
Definition one_row_per_key (rs : list CriterionResult) : Prop :=
  forall r r', In r rs -> In r' rs ->
    cr_pageUrl r = cr_pageUrl r' -> cr_topic r = cr_topic r' ->
    cr_criterium r = cr_criterium r' -> r = r'.

(** [(count / base) * 100] in binary64, with the count it is taken of. *)
Definition share (count : nat) (base : JS.number) : Distribution :=
  mkDistribution count
    (PrimFloat.mul (PrimFloat.div (JS.of_Z (Z.of_nat count)) base) 100%float).

(** The number of results that satisfy [f]. *)
Definition count_of (f : CriterionResult -> bool)
  (results : list CriterionResult) : nat :=
  List.length (filter f results).

(** [x] is a finite number at most [num / den * 2^-51] away from the
    fraction [num / den] (for [0 <= num] and [0 < den]): the fraction, up
    to the rounding of binary64. *)
Definition within_rounding (x : JS.number) (num den : Z) : bool :=
  match Prim2SF x with
  | SpecFloat.S754_zero _ => num =? 0
  | SpecFloat.S754_finite false m e =>
      if e <? 0
      then Z.abs (Z.pos m * den - num * 2 ^ (- e)) * 2 ^ 51 <=? num * 2 ^ (- e)
      else Z.abs (Z.pos m * 2 ^ e * den - num) * 2 ^ 51 <=? num
  | _ => false
  end.

(** [x] is the fraction [num / den] itself (for [0 <= num] and
    [0 < den]). *)
Definition is_fraction (x : JS.number) (num den : Z) : bool :=
  match Prim2SF x with
  | SpecFloat.S754_zero _ => num =? 0
  | SpecFloat.S754_finite false m e =>
      if e <? 0 then Z.pos m * den =? num * 2 ^ (- e)
      else Z.pos m * 2 ^ e * den =? num
  | _ => false
  end.

(** The property name under which [groupedCriteria] files a result. *)
Definition key_of (c : CriterionResult) : string :=
  (JS.toString (cr_topic c) ++ "." ++ JS.toString (cr_criterium c))%string.

(** Two results judge the same criterion of the same topic. *)
Definition same_criterion (r r' : CriterionResult) : bool :=
  Z.eqb (cr_topic r') (cr_topic r) && Z.eqb (cr_criterium r') (cr_criterium r).

(** No character of the string is a full stop. *)
Fixpoint dotless (s : string) : bool :=
  match s with
  | EmptyString => true
  | String a s' => negb (Ascii.eqb a ".") && dotless s'
  end.

(** [Math.round((compliant / applicable) * 100)] on the two counts. *)
Definition rate_of (compliant applicable : nat) : JS.number :=
  JS.Math_round
    (PrimFloat.mul
       (PrimFloat.div (JS.of_Z (Z.of_nat compliant))
          (JS.of_Z (Z.of_nat applicable)))
       100%float).

(** The spec's formula, [round (num / den)] for [0 <= num] and [0 < den],
    a tie going up as [Math.round] has it. *)
Definition round_half_up (num den : Z) : Z := (2 * num + den) / (2 * den).

(** The same with a tie going to the even neighbour. *)
Definition round_half_even (num den : Z) : Z :=
  let q := num / den in
  let r := num mod den in
  if 2 * r <? den then q
  else if den <? 2 * r then q + 1
  else if Z.even q then q else q + 1.

(** What [rate_of] is checked against: an integer nearest to
    [100 * compliant / applicable], the one [round_half_up] gives unless
    the ratio is 23/40, where it is 57. *)
Definition rate_check (compliant applicable : nat) : bool :=
  let c := Z.of_nat compliant in
  let a := Z.of_nat applicable in
  match JS.int_value (rate_of compliant applicable) with
  | Some z =>
      (Z.abs (2 * a * z - 200 * c) <=? a)
      && (if 40 * c =? 23 * a then z =? 57
          else z =? round_half_up (100 * c) a)
  | None => false
  end.

(** What the accumulator of [groupedCriteria] holds once the results [seen]
    have gone through it. *)
Definition grouped (acc : JS.object (list CriterionResult))
  (seen : list CriterionResult) : Prop :=
  NoDup (map fst acc)
  /\ (forall k g, In (k, g) acc ->
        g = filter (fun r => String.eqb (key_of r) k) seen /\ g <> [])
  /\ (forall r, In r seen -> In (key_of r) (map fst acc)).

(** The row [upsert_result] creates for an item, under the given [id]. *)
Definition row_data (uniqueId : string) (item : UpdateResultsItem) (id : Z)
  : CriterionResult :=
  mkCriterionResult id (ur_status item)
    (Prisma.in_create (ur_compliantComment item))
    (Prisma.in_create (ur_errorDescription item))
    (Prisma.in_create (ur_userImpact item))
    (Prisma.in_create (ur_recommandation item))
    (Prisma.in_create (ur_notApplicableComment item))
    (ur_topic item) (ur_criterium item) (ur_pageUrl item) uniqueId.

(** What [upsert_result] makes of the row [r] that an item selects. *)
Definition row_update (uniqueId : string) (item : UpdateResultsItem)
  (r : CriterionResult) : CriterionResult :=
  mkCriterionResult (cr_id r) (ur_status item)
    (Prisma.in_update (ur_compliantComment item) (cr_compliantComment r))
    (Prisma.in_update (ur_errorDescription item) (cr_errorDescription r))
    (Prisma.in_update (ur_userImpact item) (cr_userImpact r))
    (Prisma.in_update (ur_recommandation item) (cr_recommandation r))
    (Prisma.in_update (ur_notApplicableComment item)
       (cr_notApplicableComment r))
    (ur_topic item) (ur_criterium item) (ur_pageUrl item) uniqueId.

(** The row is the one the item's unique key selects. *)
Definition hits (uniqueId : string) (item : UpdateResultsItem)
  (r : CriterionResult) : bool :=
  auditUniqueId_pageUrl_topic_criterium uniqueId (ur_pageUrl item)
    (ur_topic item) (ur_criterium item) r.

(** The item's page exists, so that [connect] succeeds. *)
Definition connectable (uniqueId : string) (db : DB)
  (item : UpdateResultsItem) : bool :=
  existsb (url_auditUniqueId (ur_pageUrl item) uniqueId)
    (rows (db_auditedPage db)).

(** The item's topic and criterion fit their [Int] columns. *)
Definition storable (item : UpdateResultsItem) : bool :=
  Prisma.is_Int (ur_topic item) && Prisma.is_Int (ur_criterium item).

(** The upsert of the item goes through. *)
Definition writable (uniqueId : string) (db : DB) (item : UpdateResultsItem)
  : bool :=
  connectable uniqueId db item && storable item.

(** What the upserts of a batch throw: the exception of the first item
    whose upsert does not go through. *)
Definition refusal (uniqueId : string) (db : DB)
  : list UpdateResultsItem -> Exception :=
  fix first_of (items : list UpdateResultsItem) : Exception :=
    match items with
    | [] => P2025
    | item :: items' =>
        if negb (connectable uniqueId db item) then P2025
        else if negb (storable item) then P2020
        else first_of items'
    end.

(** What one upsert does to the result table. *)
Definition upsert_table (uniqueId : string) (t : Table CriterionResult)
  (item : UpdateResultsItem) : Table CriterionResult :=
  Prisma.upsert (hits uniqueId item)
    (row_update uniqueId item) (row_data uniqueId item) t.

(** What the upserts of a batch do to the result table. *)
Definition apply_batch (uniqueId : string) (items : list UpdateResultsItem)
  (t : Table CriterionResult) : Table CriterionResult :=
  fold_left (upsert_table uniqueId) items t.

(** A column of the row stored under a key, nothing without a row. *)
Definition stored_column {A} (f : CriterionResult -> option A)
  (was : option CriterionResult) : option A :=
  match was with
  | Some r => f r
  | None => None
  end.

(** What one upsert does to a row that exists. *)
Definition overwrite_step (uniqueId : string) (r : CriterionResult)
  (item : UpdateResultsItem) : CriterionResult :=
  if hits uniqueId item r then row_update uniqueId item r else r.

(** What the upserts of a batch do to a row that exists. *)
Definition overwrite (uniqueId : string) (items : list UpdateResultsItem)
  (r : CriterionResult) : CriterionResult :=
  fold_left (overwrite_step uniqueId) items r.

(** The audit table after [updateAuditEditDate]. *)
Definition stamped (now : DateTime) (uniqueId : string) (t : Table Audit)
  : Table Audit :=
  Prisma.updateMany
    (fun a => editUniqueId_is uniqueId a && is_some (audit_publicationDate a))
    (AuditService.edited now) t.

(** The recipient table after [update_recipients]. *)
Definition recipients_after (uniqueId : string)
  (recipients : list RecipientDto) (t : Table Recipent) : Table Recipent :=
  fold_left (fun t r => AuditService.recipients_upsert uniqueId r t) recipients
    (AuditService.recipients_deleteMany uniqueId recipients t).

(** The tool table after [update_tools]. *)
Definition tools_after (uniqueId : string) (tools : list ToolDto)
  (t : Table Tool) : Table Tool :=
  fold_left (fun t x => AuditService.tools_upsert uniqueId x t) tools
    (AuditService.tools_deleteMany uniqueId tools t).

(** The environment table after [update_environments]. *)
Definition environments_after (uniqueId : string)
  (environments : list EnvironmentDto) (t : Table TestEnvironment)
  : Table TestEnvironment :=
  fold_left (fun t e => AuditService.environments_upsert uniqueId e t)
    environments
    (AuditService.environments_deleteMany uniqueId environments t).

(** The two stores differ in their pages and results at most. *)
Definition same_but_pages (db0 db : DB) : Prop :=
  db_audit db = db_audit db0
  /\ db_recipent db = db_recipent db0
  /\ db_tool db = db_tool db0
  /\ db_testEnvironment db = db_testEnvironment db0
  /\ db_auditTrace db = db_auditTrace db0.

(** The emails of the recipients of an audit. *)
Definition recipient_emails (uniqueId : string) (t : Table Recipent)
  : list string :=
  map recipent_email
    (filter (fun r => Prisma.child_of uniqueId (recipent_auditUniqueId r))
       (rows t)).

(** The (name, function, url) tuples of the tools of an audit. *)
Definition tool_tuples (uniqueId : string) (t : Table Tool)
  : list (string * string * string) :=
  map (fun x => (tool_name x, tool_function x, tool_url x))
    (filter (fun x => Prisma.child_of uniqueId (tool_auditUniqueId x))
       (rows t)).

(** The (name, function, url) tuple of a tool of the payload. *)
Definition tuple_of (t : ToolDto) : string * string * string :=
  (td_name t, td_function t, td_url t).

(** From [db] to [db'] no trace is lost, and live audits keep having their
    trace. *)
Definition keeps_traces (db db' : DB) : Prop :=
  (forall u, has_trace u db -> has_trace u db')
  /\ (traced db -> traced db').

(** The foreign keys of pages and of results hold in the store. *)
Definition foreign_keys (db : DB) : Prop := pages_fk db /\ results_fk db.

(** One request served: the store before and the store after. *)
Inductive handled (CRITERIA : list Criterion) : DB -> DB -> Prop :=
  | handled_createAudit (e c : string) (body : CreateAuditDto) (db : DB) :
      handled CRITERIA db (snd (AuditsController.createAudit e c body db))
  | handled_getAudit (u : string) (db : DB) :
      handled CRITERIA db (snd (AuditsController.getAudit u db))
  | handled_updateAudit (now : DateTime) (u : string) (body : UpdateAuditDto)
      (db : DB) :
      handled CRITERIA db (snd (AuditsController.updateAudit now u body db))
  | handled_getAuditResults (u : string) (db : DB) :
      handled CRITERIA db
        (snd (AuditsController.getAuditResults CRITERIA u db))
  | handled_updateAuditResults (now : DateTime) (u : string)
      (body : UpdateResultsDto) (db : DB) :
      handled CRITERIA db
        (snd (AuditsController.updateAuditResults now u body db))
  | handled_publishAudit (now : DateTime) (u : string) (db : DB) :
      handled CRITERIA db (snd (AuditsController.publishAudit now u db))
  | handled_deleteAudit (u : string) (db : DB) :
      handled CRITERIA db (snd (AuditsController.deleteAudit u db)).

(** The stores the handlers can bring the empty store to. *)
Inductive reachable (CRITERIA : list Criterion) : DB -> Prop :=
  | reachable_empty : reachable CRITERIA empty_db
  | reachable_next (db db' : DB) :
      reachable CRITERIA db -> handled CRITERIA db db' ->
      reachable CRITERIA db'.

(** The audit has a page at this url. *)
Definition has_page (uniqueId url : string) (db : DB) : Prop :=
  exists p, In p (rows (db_auditedPage db))
            /\ page_auditUniqueId p = Some uniqueId /\ page_url p = url.

(** Any number of requests served, one after the other. *)
Inductive handled_many (CRITERIA : list Criterion) : DB -> DB -> Prop :=
  | handled_none (db : DB) : handled_many CRITERIA db db
  | handled_more (db db1 db2 : DB) :
      handled_many CRITERIA db db1 -> handled CRITERIA db1 db2 ->
      handled_many CRITERIA db db2.

(** The store with the result rows in another order. *)
Definition with_result_rows (rs : list CriterionResult) (db : DB) : DB :=
  set_criterionResult (mkTable rs (nextval (db_criterionResult db))) db.

(** What one element of [pages: { update }] makes of a stored page. *)
Definition page_written (uniqueId : string) (p : UpdateAuditPage)
  (q : AuditedPage) : AuditedPage :=
  if Prisma.child_of uniqueId (page_auditUniqueId q)
     && Prisma.is_id (page_id q) (uap_id p)
  then mkAuditedPage (page_id q) (uap_name p) (uap_url p)
         (page_auditUniqueId q)
  else q.

(** The payload page and the stored page have the same name and url. *)
Definition page_matches (p : UpdateAuditPage) (q : AuditedPage) : Prop :=
  page_name q = uap_name p /\ page_url q = uap_url p.

(** The columns that identify a result within its audit. *)
Definition result_key (r : CriterionResult) : string * Z * Z :=
  (cr_pageUrl r, cr_topic r, cr_criterium r).

(** The result rows that carry the token of the audit. *)
Definition audit_rows (uniqueId : string) (db : DB) : list CriterionResult :=
  filter (fun r => String.eqb (cr_auditUniqueId r) uniqueId)
    (rows (db_criterionResult db)).

(** No two audits have the same edit token, or the same consult token. *)
Definition unique_tokens (db : DB) : Prop :=
  NoDup (map audit_editUniqueId (rows (db_audit db)))
  /\ NoDup (map audit_consultUniqueId (rows (db_audit db))).

(** No two pages have the same id, the ids come from the sequence, no two
    pages of an audit have the same url ([url_auditUniqueId]) and no two
    results of an audit are for the same page url, topic and criterion
    ([auditUniqueId_pageUrl_topic_criterium]). *)
Definition unique_pages_and_results (db : DB) : Prop :=
  NoDup (map page_id (rows (db_auditedPage db)))
  /\ (forall p, In p (rows (db_auditedPage db)) ->
        page_id p < nextval (db_auditedPage db))
  /\ (forall u, NoDup (map page_url (audit_pages u db)))
  /\ (forall u, NoDup (map result_key (audit_rows u db))).

(** The unique keys of the audits, the pages and the results hold. *)
Definition unique_keys (db : DB) : Prop :=
  unique_tokens db /\ unique_pages_and_results db.

(** The page url, the topic and the criterion an entry of get-results is
    for. *)
Definition entry_key (e : ResultEntry) : string * Z * Z :=
  (re_pageUrl e, re_topic e, re_criterium e).

(** The topic and the criterion numbers of a criterion of the catalogue. *)
Definition criterion_key (c : Criterion) : Z * Z :=
  (criterion_topic c, criterion_criterium c).

(** ** Predicates on the results store *)

(** The property names of the object are in ascending order, none twice. *)
Definition ascending {V} (o : ResultsStore.indexed V) : Prop :=
  StronglySorted N.lt (ResultsStore.keys o).

(** The result sits at this page, topic and criterion. *)
Definition placed_at (p t c : N) (r : ResultsStore.CriteriumResult) : bool :=
  N.eqb (ResultsStore.pageId r) p && N.eqb (ResultsStore.topic r) t
  && N.eqb (ResultsStore.criterium r) c.

(** [data]: every object lists its properties in ascending order and every
    result is stored under its own page id, topic and criterion. *)
Definition well_indexed
  (d : ResultsStore.indexed
         (ResultsStore.indexed
            (ResultsStore.indexed ResultsStore.CriteriumResult))) : Prop :=
  ascending d
  /\ forall p page, ResultsStore.get d p = Some page ->
       ascending page
       /\ forall t criteria, ResultsStore.get page t = Some criteria ->
            ascending criteria
            /\ forall c r, ResultsStore.get criteria c = Some r ->
                 placed_at p t c r = true.

(** The data of a store are well indexed, if it has data. *)
Definition well_indexed_store (s : ResultsStore.Stores) : Prop :=
  match ResultsStore.data (ResultsStore.results s) with
  | Some d => well_indexed d
  | None => True
  end.

(** [data[p][t][c]], when the page and the topic are there. *)
Definition lookup
  (d : ResultsStore.indexed
         (ResultsStore.indexed
            (ResultsStore.indexed ResultsStore.CriteriumResult)))
  (p t c : N) : option ResultsStore.CriteriumResult :=
  match ResultsStore.get d p with
  | Some page =>
      match ResultsStore.get page t with
      | Some criteria => ResultsStore.get criteria c
      | None => None
      end
  | None => None
  end.

(** The object with [f] applied to the value of each property. *)
Definition map_values {V W} (f : V -> W) (o : ResultsStore.indexed V)
  : ResultsStore.indexed W :=
  map (fun p => (fst p, f (snd p))) o.

(** The saved statuses of a topic of a page, when there are some. *)
Definition saved_statuses (s : ResultsStore.ResultsStoreState) (p t : N)
  : option (ResultsStore.indexed CriterionResultStatus) :=
  match ResultsStore.get (ResultsStore.previousStatuses s) p with
  | Some page => ResultsStore.get page t
  | None => None
  end.

(** The results of a topic of a page, by criterion, when the data have the
    topic. *)
Definition topic_results (s : ResultsStore.ResultsStoreState) (p t : N)
  : option (ResultsStore.indexed ResultsStore.CriteriumResult) :=
  match ResultsStore.data s with
  | Some d =>
      match ResultsStore.get d p with
      | Some page => ResultsStore.get page t
      | None => None
      end
  | None => None
  end.

(** The stores after a batch of updates that went through. *)
Definition updated (s : ResultsStore.Stores) (now : string)
  (d : ResultsStore.indexed
         (ResultsStore.indexed
            (ResultsStore.indexed ResultsStore.CriteriumResult)))
  : ResultsStore.Stores :=
  ResultsStore.mkStores
    (ResultsStore.mkResultsStoreState (Some d)
       (ResultsStore.previousStatuses (ResultsStore.results s)))
    (match ResultsStore.auditStore_editionDate s with
     | Some _ => Some (Some now)
     | None => None
     end).

(** ** Sample stores and payloads *)

Definition sample_create : CreateAuditDto :=
  mkCreateAuditDto "Site" None None None None None None None [] [].

Definition created_sample_db : DB :=
  Eval vm_compute in
  snd (AuditService.createAudit "edit-1" "consult-1" sample_create empty_db).

Definition sample_item : UpdateResultsItem :=
  mkUpdateResultsItem 1 1 "https://example.org/" COMPLIANT
    JS.undefined JS.undefined JS.undefined JS.undefined JS.undefined.

Definition sample_topics : list RgaaTopic :=
  [mkRgaaTopic "Images" 1; mkRgaaTopic "Cadres" 2].

Definition sample_update : UpdateAuditDto :=
  mkUpdateAuditDto "Site" JS.undefined JS.undefined JS.undefined JS.undefined
    JS.undefined JS.undefined JS.undefined [] (JS.value FULL)
    [] []
    [mkUpdateAuditPage None "Accueil" "https://example.org/";
     mkUpdateAuditPage None "Contact" "https://example.org/contact"]
    JS.undefined JS.undefined JS.undefined.

(** An audit with two pages and three stored results, not published. *)
Definition audited_sample_db : DB :=
  Eval vm_compute in
  snd (AuditService.updateResults 20 "edit-1"
         (mkUpdateResultsDto
            [sample_item;
             mkUpdateResultsItem 2 1 "https://example.org/" NOT_COMPLIANT
               JS.undefined JS.undefined JS.undefined JS.undefined
               (JS.value BLOCKING);
             mkUpdateResultsItem 1 1 "https://example.org/contact"
               NOT_APPLICABLE
               JS.undefined JS.undefined JS.undefined JS.undefined
               JS.undefined])
         (snd (AuditService.updateAudit 10 "edit-1" sample_update
                 created_sample_db))).

(** The sample audit with its pages and results, beside the trace of a
    second audit that was created and then deleted. *)
Definition bereft_sample_db : DB :=
  Eval vm_compute in
  snd (AuditService.deleteAudit "edit-2"
         (snd (AuditService.createAudit "edit-2" "consult-2" sample_create
                 audited_sample_db))).

(** The sample audit, published at time 30. *)
Definition published_sample_db : DB :=
  Eval vm_compute in
  snd (AuditService.publishAudit 30 "edit-1" audited_sample_db).

(** A payload with the given tools and environments, and no page. *)
Definition payload_with (tools : list ToolDto)
  (environments : list EnvironmentDto) : UpdateAuditDto :=
  mkUpdateAuditDto "Site" JS.undefined JS.undefined JS.undefined JS.undefined
    JS.undefined JS.undefined JS.undefined [] (JS.value FULL)
    tools environments [] JS.undefined JS.undefined JS.undefined.

Definition nvda_firefox : EnvironmentDto :=
  mkEnvironmentDto "desktop" "Windows" "11" "NVDA" "2023" "Firefox" "120".

Definition jaws_chrome : EnvironmentDto :=
  mkEnvironmentDto "desktop" "Windows" "11" "JAWS" "2023" "Chrome" "120".

Definition nvda_chrome : EnvironmentDto :=
  mkEnvironmentDto "desktop" "Windows" "11" "NVDA" "2023" "Chrome" "120".

Definition jaws_firefox : EnvironmentDto :=
  mkEnvironmentDto "desktop" "Windows" "11" "JAWS" "2023" "Firefox" "120".

(** The sample audit with the tools (Wave, extension) and (Axe,
    application) and the environments NVDA with Firefox and JAWS with
    Chrome. *)
Definition tools_sample_db : DB :=
  Eval vm_compute in
  snd (AuditService.updateAudit 10 "edit-1"
         (payload_with
            [mkToolDto "Wave" "extension" "https://tools.example";
             mkToolDto "Axe" "application" "https://tools.example"]
            [nvda_firefox; jaws_chrome])
         created_sample_db).

(** The payload that pairs the same names and functions the other way
    round, and the same assistive technologies and browsers the other way
    round. *)
Definition swapped_payload : UpdateAuditDto :=
  payload_with
    [mkToolDto "Wave" "application" "https://tools.example";
     mkToolDto "Axe" "extension" "https://tools.example"]
    [nvda_chrome; jaws_firefox].

(** A request to create an audit with two recipients. *)
Definition invited_create : CreateAuditDto :=
  mkCreateAuditDto "Site" None None None None None None None []
    [mkRecipientDto "Ada" "ada@example.org";
     mkRecipientDto "Bob" "bob@example.org"].

Definition invited_sample_db : DB :=
  Eval vm_compute in
  snd (AuditService.createAudit "edit-2" "consult-2" invited_create
         created_sample_db).

(** The same request with the first recipient given twice. *)
Definition repeated_create : CreateAuditDto :=
  mkCreateAuditDto "Site" None None None None None None None []
    [mkRecipientDto "Ada" "ada@example.org";
     mkRecipientDto "Ada again" "ada@example.org"].

(** The sample audit with its two pages and no result. *)
Definition paged_sample_db : DB :=
  Eval vm_compute in
  snd (AuditService.updateAudit 10 "edit-1" sample_update created_sample_db).

(** The three results of the sample audit. *)
Definition sample_results : UpdateResultsDto :=
  mkUpdateResultsDto
    [sample_item;
     mkUpdateResultsItem 2 1 "https://example.org/" NOT_COMPLIANT
       JS.undefined JS.undefined JS.undefined JS.undefined
       (JS.value BLOCKING);
     mkUpdateResultsItem 1 1 "https://example.org/contact" NOT_APPLICABLE
       JS.undefined JS.undefined JS.undefined JS.undefined JS.undefined].

(** Forty results for the first page of the sample audit, one per
    criterion of one topic: the first twenty-three compliant, the others
    not. *)
Definition forty_items : list UpdateResultsItem :=
  map (fun i =>
      mkUpdateResultsItem (Z.of_nat i) 1 "https://example.org/"
        (if (i <=? 23)%nat then COMPLIANT else NOT_COMPLIANT)
        JS.undefined JS.undefined JS.undefined JS.undefined JS.undefined)
    (seq 1 40).

Definition forty_db : DB :=
  Eval vm_compute in
  snd (AuditService.updateResults 20 "edit-1"
         (mkUpdateResultsDto forty_items) paged_sample_db).

(** A first result of the sample audit, with a comment and a
    recommandation. *)
Definition commented_item : UpdateResultsItem :=
  mkUpdateResultsItem 1 1 "https://example.org/" COMPLIANT
    (JS.value "ok") JS.undefined JS.undefined (JS.value "keep it")
    JS.undefined.

Definition commented_sample_db : DB :=
  Eval vm_compute in
  snd (AuditService.updateResults 20 "edit-1"
         (mkUpdateResultsDto [commented_item]) paged_sample_db).

(** The same criterion found not compliant: the request has no
    [compliantComment] and has [null] as its [recommandation]. *)
Definition revised_item : UpdateResultsItem :=
  mkUpdateResultsItem 1 1 "https://example.org/" NOT_COMPLIANT
    JS.undefined (JS.value "no alt") JS.undefined JS.null
    (JS.value BLOCKING).

Definition revised_sample_db : DB :=
  Eval vm_compute in
  snd (AuditService.updateResults 40 "edit-1"
         (mkUpdateResultsDto [revised_item]) commented_sample_db).

(** A payload that names the initiator and a contact. *)
Definition dinum_update : UpdateAuditDto :=
  mkUpdateAuditDto "Site" JS.undefined (JS.value "DINUM") JS.undefined
    JS.undefined (JS.value "Ada") JS.undefined JS.undefined []
    (JS.value FULL) [] []
    [mkUpdateAuditPage (Some 1) "Accueil" "https://example.org/";
     mkUpdateAuditPage (Some 2) "Contact" "https://example.org/contact"]
    JS.undefined JS.undefined JS.undefined.

(** The published sample audit with its initiator and its contact. *)
Definition dinum_sample_db : DB :=
  Eval vm_compute in
  snd (AuditService.updateAudit 35 "edit-1" dinum_update
         published_sample_db).

(** A payload without [initiator] and with [null] as its [contactName]. *)
Definition clearing_update : UpdateAuditDto :=
  mkUpdateAuditDto "Site web" JS.undefined JS.undefined JS.undefined
    JS.undefined JS.null JS.undefined JS.undefined []
    (JS.value FULL) [] []
    [mkUpdateAuditPage (Some 1) "Accueil" "https://example.org/";
     mkUpdateAuditPage (Some 2) "Contact" "https://example.org/contact"]
    JS.undefined JS.undefined JS.undefined.

(** Two audits with the same two recipients each. *)
Definition twice_invited_db : DB :=
  Eval vm_compute in
  snd (AuditService.createAudit "edit-3" "consult-3" invited_create
         invited_sample_db).

(** A payload that keeps the second recipient under another name, drops
    the first and invites a third. *)
Definition reinvited_update : UpdateAuditDto :=
  mkUpdateAuditDto "Site" JS.undefined JS.undefined JS.undefined JS.undefined
    JS.undefined JS.undefined JS.undefined
    [mkRecipientDto "Robert" "bob@example.org";
     mkRecipientDto "Eve" "eve@example.org"]
    (JS.value FULL) [] [] [] JS.undefined JS.undefined JS.undefined.

(** A payload that renames the first page of the sample audit, keeps the
    second and adds a third. *)
Definition renaming_update : UpdateAuditDto :=
  mkUpdateAuditDto "Site" JS.undefined JS.undefined JS.undefined JS.undefined
    JS.undefined JS.undefined JS.undefined [] (JS.value FULL)
    [] []
    [mkUpdateAuditPage (Some 1) "Home" "https://example.org/home";
     mkUpdateAuditPage (Some 2) "Contact" "https://example.org/contact";
     mkUpdateAuditPage None "Plan" "https://example.org/plan"]
    JS.undefined JS.undefined JS.undefined.

(** A payload with the id of a page that the sample audit does not have. *)
Definition foreign_page_update : UpdateAuditDto :=
  mkUpdateAuditDto "Site" JS.undefined JS.undefined JS.undefined JS.undefined
    JS.undefined JS.undefined JS.undefined [] (JS.value FULL)
    [] []
    [mkUpdateAuditPage (Some 99) "Accueil" "https://example.org/"]
    JS.undefined JS.undefined JS.undefined.

(** The store once the sample audit is deleted. *)
Definition deleted_sample_db : DB :=
  Eval vm_compute in
  snd (AuditService.deleteAudit "edit-1" audited_sample_db).

(** What the API answers to the web application for the sample audit. *)
Definition sample_response : list ResultsStore.CriteriumResult :=
  [ResultsStore.mkCriteriumResult 2 1 1 NOT_APPLICABLE None None None None
     None [];
   ResultsStore.mkCriteriumResult 1 1 2 NOT_COMPLIANT None None None None
     (Some BLOCKING)
     [ResultsStore.mkExampleImage 7 "capture.png" "image/png" 2048
        "uploads/capture.png" "uploads/capture-thumbnail.png"];
   ResultsStore.mkCriteriumResult 1 1 1 COMPLIANT None None None None None []].

(** The stores of the web application once the sample results are fetched. *)
Definition fetched_sample_stores : ResultsStore.Stores :=
  Eval vm_compute in
  snd (ResultsStore.fetchResults (Return sample_response)
         (ResultsStore.mkStores ResultsStore.state
            (Some (Some "2023-05-01T08:00:00.000Z")))).

Definition fetched_sample_data
  : ResultsStore.indexed
      (ResultsStore.indexed
         (ResultsStore.indexed ResultsStore.CriteriumResult)) :=
  Eval vm_compute in
  fold_left ResultsStore.index_result sample_response [].

(** * Properties *)

(** ** Lists, strings and column comparisons *)

Lemma status_eqb_eq (a b : CriterionResultStatus) :
  status_eqb a b = true <-> a = b.
Proof. destruct a, b; simpl; split; intro H; congruence. Qed.

Lemma status_eqb_refl (a : CriterionResultStatus) : status_eqb a a = true.
Proof. now apply status_eqb_eq. Qed.

Lemma existsb_false_iff {A} (f : A -> bool) (l : list A) :
  existsb f l = false <-> forall x, In x l -> f x = false.
Proof.
  induction l as [|y l IH]; simpl.
  - split; [intros _ x [] | reflexivity].
  - rewrite orb_false_iff, IH. split.
    + intros [Hy Hl] x [<-|Hx]; auto.
    + intros H. split; [apply H; now left | intros x Hx; apply H; now right].
Qed.

Lemma find_none_iff {A} (f : A -> bool) (l : list A) :
  find f l = None <-> forall x, In x l -> f x = false.
Proof.
  split.
  - apply find_none.
  - induction l as [|y l IH]; simpl; intros H; [reflexivity|].
    rewrite (H y (or_introl eq_refl)). apply IH. intros x Hx. apply H. now right.
Qed.

Lemma find_existsb {A} (f : A -> bool) (l : list A) :
  existsb f l = is_some (find f l).
Proof.
  induction l as [|y l IH]; simpl; [reflexivity|].
  destruct (f y); simpl; [reflexivity | exact IH].
Qed.

Lemma filter_length_zero_iff {A} (f : A -> bool) (l : list A) :
  List.length (filter f l) = 0%nat <-> forall x, In x l -> f x = false.
Proof.
  induction l as [|y l IH]; simpl.
  - split; [intros _ x [] | reflexivity].
  - destruct (f y) eqn:Hy; simpl.
    + split; [discriminate|]. intros H.
      specialize (H y (or_introl eq_refl)). congruence.
    + rewrite IH. split.
      * intros H x [<-|Hx]; auto.
      * intros H x Hx. apply H. now right.
Qed.

Lemma child_of_iff (u : string) (o : option string) :
  Prisma.child_of u o = true <-> o = Some u.
Proof.
  destruct o as [v|]; simpl.
  - rewrite String.eqb_eq. split; congruence.
  - split; discriminate.
Qed.

(** ** The completion check *)

Lemma not_tested_row_iff (uniqueId : string) (r : CriterionResult) :
  String.eqb (cr_auditUniqueId r) uniqueId
  && status_eqb (cr_status r) NOT_TESTED = false
  <-> (cr_auditUniqueId r = uniqueId -> cr_status r <> NOT_TESTED).
Proof.
  destruct (String.eqb_spec (cr_auditUniqueId r) uniqueId) as [E|E];
    destruct (cr_status r); simpl; intuition congruence.
Qed.

Lemma isAuditComplete_spec (uniqueId : string) (db : DB) :
  AuditService.isAuditComplete uniqueId db = true
  <-> forall r, In r (rows (db_criterionResult db)) ->
        cr_auditUniqueId r = uniqueId -> cr_status r <> NOT_TESTED.
Proof.
  unfold AuditService.isAuditComplete, Prisma.count.
  rewrite Nat.eqb_eq, filter_length_zero_iff.
  split; intros H r Hr; apply not_tested_row_iff; now apply H.
Qed.

(** C5. The completion check answers true exactly when no stored result row
    of the audit has the status NOT_TESTED.  It answers true when the audit
    has no stored row at all, and it reads nothing but the result table:
    whatever the pages of the audit are, and so however many (page,
    criterion) pairs have no row, the answer is the same. *)
Theorem isAuditComplete_iff_no_stored_not_tested :
  forall (uniqueId : string) (db : DB),
    (AuditService.isAuditComplete uniqueId db = true
     <-> ~ exists r, In r (rows (db_criterionResult db))
                     /\ cr_auditUniqueId r = uniqueId
                     /\ cr_status r = NOT_TESTED)
    /\ ((forall r, In r (rows (db_criterionResult db)) ->
           cr_auditUniqueId r <> uniqueId) ->
        AuditService.isAuditComplete uniqueId db = true)
    /\ (forall pages : Table AuditedPage,
          AuditService.isAuditComplete uniqueId (set_auditedPage pages db)
          = AuditService.isAuditComplete uniqueId db).
Proof.
  intros uniqueId db. split; [|split].
  - rewrite isAuditComplete_spec. split.
    + intros H (r & Hr & Hu & Hs). exact (H r Hr Hu Hs).
    + intros H r Hr Hu Hs. apply H. now exists r.
  - intros H. apply isAuditComplete_spec. intros r Hr Hu.
    exfalso. exact (H r Hr Hu).
  - intros pages. reflexivity.
Qed.

Lemma isAuditComplete_iff_no_stored_not_tested_example :
  AuditService.isAuditComplete "edit-1" created_sample_db = true
  /\ AuditService.isAuditComplete "edit-1" audited_sample_db = true
  /\ map re_status
       (AuditService.getResultsWithEditUniqueId
          [mkCriterion 1 1; mkCriterion 1 3] "edit-1" audited_sample_db)
     = [COMPLIANT; NOT_TESTED; NOT_APPLICABLE; NOT_TESTED].
Proof.
  split; [|split; [|reflexivity]].
  - destruct (isAuditComplete_iff_no_stored_not_tested "edit-1"
                created_sample_db) as (_ & H & _).
    apply H. intros r [].
  - destruct (isAuditComplete_iff_no_stored_not_tested "edit-1"
                audited_sample_db) as (H & _).
    apply H. intros (r & Hr & _ & Hs). simpl in Hr.
    destruct Hr as [<-|[<-|[<-|[]]]]; discriminate.
Defined.

(** ** Publishing *)

Lemma service_publishAudit_found (now : DateTime) (uniqueId : string)
  (db : DB) (a : Audit) :
  Prisma.findUnique (editUniqueId_is uniqueId) (db_audit db) = Some a ->
  let db' :=
    set_audit
      (Prisma.updateMany (editUniqueId_is uniqueId)
         (AuditService.published now) (db_audit db)) db in
  AuditService.publishAudit now uniqueId db
  = (Return (Some (include (AuditService.published now a) db')), db').
Proof.
  intros H. unfold AuditService.publishAudit, transaction, bind, gets, modify.
  rewrite H. reflexivity.
Qed.

Lemma service_publishAudit_missing (now : DateTime) (uniqueId : string)
  (db : DB) :
  Prisma.findUnique (editUniqueId_is uniqueId) (db_audit db) = None ->
  AuditService.publishAudit now uniqueId db = (Return None, db).
Proof.
  intros H. unfold AuditService.publishAudit, transaction, bind, gets, throw.
  rewrite H. reflexivity.
Qed.

Lemma isAuditComplete_false_iff (uniqueId : string) (db : DB) :
  AuditService.isAuditComplete uniqueId db = false
  <-> exists r, In r (rows (db_criterionResult db))
                /\ cr_auditUniqueId r = uniqueId
                /\ cr_status r = NOT_TESTED.
Proof.
  rewrite <- not_true_iff_false.
  unfold AuditService.isAuditComplete, Prisma.count.
  rewrite Nat.eqb_eq. split.
  - intros H.
    destruct (filter
                (fun r => String.eqb (cr_auditUniqueId r) uniqueId
                          && status_eqb (cr_status r) NOT_TESTED)
                (rows (db_criterionResult db))) as [|r l] eqn:E.
    + now contradiction H.
    + assert (Hr : In r (r :: l)) by now left.
      rewrite <- E in Hr. apply filter_In in Hr as [Hr Hf].
      apply andb_true_iff in Hf as [Hu Hs].
      exists r. now rewrite String.eqb_eq in Hu; rewrite status_eqb_eq in Hs.
  - intros (r & Hr & Hu & Hs) H.
    apply filter_length_zero_iff with (x := r) in H; [|exact Hr].
    rewrite Hu, Hs, String.eqb_refl in H. discriminate.
Qed.

(** ** Statements inside a transaction *)

Lemma bind_Return {A B} (m : Tx A) (k : A -> Tx B) (db : DB) (r : B * DB) :
  bind m k db = Return r
  <-> exists a db', m db = Return (a, db') /\ k a db' = Return r.
Proof.
  unfold bind. destruct (m db) as [[a db']|e].
  - split; [intros H; now exists a, db' | intros (a0 & d0 & H & H0); congruence].
  - split; [discriminate | intros (a0 & d0 & H & _); discriminate].
Qed.

(** What every statement of a loop preserves, the loop preserves. *)
Lemma for_each_preserves {X} (P : DB -> Prop) (f : X -> Tx unit)
  (xs : list X) :
  (forall x db db', f x db = Return (tt, db') -> P db -> P db') ->
  forall db db', for_each f xs db = Return (tt, db') -> P db -> P db'.
Proof.
  intros Hf. induction xs as [|x xs IH]; simpl; intros db db' H HP.
  - unfold ret in H. now inversion H; subst.
  - apply bind_Return in H as ([] & db1 & H1 & H2).
    eapply IH; [exact H2|]. eapply Hf; eassumption.
Qed.

(** ** Gone and Not Found *)

Lemma checkIfAuditWasDeleted_iff (uniqueId : string) (db : DB) :
  AuditService.checkIfAuditWasDeleted uniqueId db = true
  <-> has_trace uniqueId db.
Proof.
  unfold AuditService.checkIfAuditWasDeleted, Prisma.findUniqueOrThrow,
    Prisma.findUnique, has_trace.
  destruct (find _ _) as [t|] eqn:E.
  - split; [intros _|reflexivity]. apply find_some in E as [Hin Ht].
    exists t. split; [exact Hin | now apply String.eqb_eq].
  - split; [discriminate|]. intros (t & Hin & Ht).
    apply (find_none _ _ E) in Hin. rewrite Ht, String.eqb_refl in Hin.
    discriminate.
Qed.

Lemma findUnique_audit_none_iff (uniqueId : string) (db : DB) :
  Prisma.findUnique (editUniqueId_is uniqueId) (db_audit db) = None
  <-> ~ live uniqueId db.
Proof.
  unfold Prisma.findUnique, live. rewrite find_none_iff. split.
  - intros H (a & Hin & Hu). specialize (H a Hin).
    unfold editUniqueId_is in H. rewrite Hu, String.eqb_refl in H.
    discriminate.
  - intros H a Hin. unfold editUniqueId_is.
    destruct (String.eqb_spec (audit_editUniqueId a) uniqueId) as [E|E];
      [|reflexivity].
    exfalso. apply H. now exists a.
Qed.

Lemma sendAuditNotFoundStatus_eq {A} (uniqueId : string) (db : DB) :
  @AuditsController.sendAuditNotFoundStatus A uniqueId db
  = (Throw (lookup_miss uniqueId db), db).
Proof.
  unfold AuditsController.sendAuditNotFoundStatus, lookup_miss.
  now destruct (AuditService.checkIfAuditWasDeleted uniqueId db).
Qed.

Lemma lookup_miss_gone (uniqueId : string) (db : DB) :
  has_trace uniqueId db -> lookup_miss uniqueId db = GoneException.
Proof.
  intros H. apply checkIfAuditWasDeleted_iff in H.
  unfold lookup_miss. now rewrite H.
Qed.

Lemma lookup_miss_not_found (uniqueId : string) (db : DB) :
  ~ has_trace uniqueId db -> lookup_miss uniqueId db = NotFoundException.
Proof.
  intros H. unfold lookup_miss.
  destruct (AuditService.checkIfAuditWasDeleted uniqueId db) eqn:E;
    [|reflexivity].
  apply checkIfAuditWasDeleted_iff in E. now contradiction H.
Qed.

Lemma service_updateAudit_missing (now : DateTime) (uniqueId : string)
  (data : UpdateAuditDto) (db : DB) :
  ~ live uniqueId db ->
  AuditService.updateAudit now uniqueId data db = (Return None, db).
Proof.
  intros H. apply findUnique_audit_none_iff in H.
  unfold AuditService.updateAudit, AuditService.updateAudit_try, transaction,
    AuditService.audit_update, bind, gets, throw.
  rewrite H. reflexivity.
Qed.

Lemma service_deleteAudit_missing (uniqueId : string) (db : DB) :
  ~ live uniqueId db ->
  AuditService.deleteAudit uniqueId db = (Return false, db).
Proof.
  intros H. apply findUnique_audit_none_iff in H.
  unfold AuditService.deleteAudit, AuditService.audit_delete, transaction,
    bind, gets, throw.
  rewrite H. reflexivity.
Qed.

(** Every handler that looks the audit up answers a miss with the exception
    the trace table decides, and leaves the store as it was. *)
Lemma handlers_on_miss (uniqueId : string) (db : DB) :
  ~ live uniqueId db ->
  let miss {A} : result A * DB := (Throw (lookup_miss uniqueId db), db) in
  AuditsController.getAudit uniqueId db = miss
  /\ (forall now body, AuditsController.updateAudit now uniqueId body db = miss)
  /\ (forall now body,
        AuditsController.updateAuditResults now uniqueId body db = miss)
  /\ AuditsController.deleteAudit uniqueId db = miss
  /\ (forall now,
        AuditService.isAuditComplete uniqueId db = true ->
        AuditsController.publishAudit now uniqueId db = miss).
Proof.
  intros H miss. pose proof H as Hf. apply findUnique_audit_none_iff in Hf.
  repeat split.
  - unfold AuditsController.getAudit, AuditService.getAuditWithEditUniqueId.
    rewrite Hf. apply sendAuditNotFoundStatus_eq.
  - intros now body. unfold AuditsController.updateAudit.
    rewrite service_updateAudit_missing by exact H.
    apply sendAuditNotFoundStatus_eq.
  - intros now body.
    unfold AuditsController.updateAuditResults,
      AuditService.getAuditWithEditUniqueId.
    rewrite Hf. apply sendAuditNotFoundStatus_eq.
  - unfold AuditsController.deleteAudit.
    rewrite service_deleteAudit_missing by exact H.
    apply sendAuditNotFoundStatus_eq.
  - intros now Hc. unfold AuditsController.publishAudit.
    rewrite Hc, service_publishAudit_missing by exact Hf.
    apply sendAuditNotFoundStatus_eq.
Qed.

(** C4. publish-audit throws the Conflict exception exactly when some
    stored result row of the audit is NOT_TESTED, and then leaves the store
    as it was.  When no stored row is NOT_TESTED, the case of no stored row
    included, it returns the audit with the publication date set to the time
    of the call and the edition date null, and that is what the audit's row
    holds afterwards. *)
Theorem publishAudit_conflict_iff_stored_not_tested :
  forall (now : DateTime) (uniqueId : string) (db : DB),
    let stored_not_tested :=
      exists r, In r (rows (db_criterionResult db))
                /\ cr_auditUniqueId r = uniqueId
                /\ cr_status r = NOT_TESTED in
    ((exists message,
        fst (AuditsController.publishAudit now uniqueId db)
        = Throw (ConflictException message))
     <-> stored_not_tested)
    /\ (stored_not_tested ->
        snd (AuditsController.publishAudit now uniqueId db) = db)
    /\ (live uniqueId db -> ~ stored_not_tested ->
        exists audit db',
          AuditsController.publishAudit now uniqueId db = (Return audit, db')
          /\ audit_editUniqueId (inc_audit audit) = uniqueId
          /\ audit_publicationDate (inc_audit audit) = Some now
          /\ audit_editionDate (inc_audit audit) = None
          /\ live uniqueId db'
          /\ (forall a', In a' (rows (db_audit db')) ->
                audit_editUniqueId a' = uniqueId ->
                audit_publicationDate a' = Some now
                /\ audit_editionDate a' = None)).
Proof.
  intros now uniqueId db stored_not_tested.
  unfold AuditsController.publishAudit.
  destruct (AuditService.isAuditComplete uniqueId db) eqn:Hc; simpl negb; cbv iota.
  - assert (Hn : ~ stored_not_tested).
    { intros H. apply isAuditComplete_false_iff in H. congruence. }
    split; [|split].
    + split; [|intros H; now contradiction Hn].
      intros [m Hm].
      destruct (AuditService.publishAudit now uniqueId db) as [[[a|]|e] d] eqn:E.
      * discriminate.
      * rewrite sendAuditNotFoundStatus_eq in Hm. simpl in Hm.
        unfold lookup_miss in Hm.
        destruct (AuditService.checkIfAuditWasDeleted uniqueId d); discriminate.
      * exfalso.
        destruct (Prisma.findUnique (editUniqueId_is uniqueId) (db_audit db))
          as [a|] eqn:Ef.
        -- rewrite (service_publishAudit_found now uniqueId db a Ef) in E.
           discriminate.
        -- rewrite (service_publishAudit_missing now uniqueId db Ef) in E.
           discriminate.
    + intros H. now contradiction Hn.
    + intros Hl _.
      destruct (Prisma.findUnique (editUniqueId_is uniqueId) (db_audit db))
        as [a|] eqn:Ha;
        [|apply findUnique_audit_none_iff in Ha; now contradiction Ha].
      rewrite (service_publishAudit_found now uniqueId db a Ha). cbv zeta.
      apply find_some in Ha as [Hin Hhit].
      assert (Hu : audit_editUniqueId a = uniqueId)
        by (unfold editUniqueId_is in Hhit; now apply String.eqb_eq).
      eexists. eexists. split; [reflexivity|].
      split; [exact Hu|]. split; [reflexivity|]. split; [reflexivity|]. split.
      * exists (AuditService.published now a). split; [|exact Hu].
        simpl. apply in_map_iff. exists a. now rewrite Hhit.
      * simpl. intros a' Ha' Hu'. apply in_map_iff in Ha' as (x & <- & Hx).
        destruct (editUniqueId_is uniqueId x) eqn:Hhx; [now split|].
        unfold editUniqueId_is in Hhx. rewrite Hu', String.eqb_refl in Hhx.
        discriminate.
  - assert (Hs : stored_not_tested) by now apply isAuditComplete_false_iff.
    split; [|split].
    + split; [intros _; exact Hs | intros _; eexists; reflexivity].
    + intros _. reflexivity.
    + intros _ Hn. now contradiction Hn.
Qed.

Lemma publishAudit_conflict_iff_stored_not_tested_example :
  exists audit db',
    AuditsController.publishAudit 1700000000000 "edit-1" created_sample_db
    = (Return audit, db')
    /\ audit_publicationDate (inc_audit audit) = Some 1700000000000
    /\ audit_editionDate (inc_audit audit) = None.
Proof.
  destruct (publishAudit_conflict_iff_stored_not_tested 1700000000000 "edit-1"
              created_sample_db) as (_ & _ & H).
  destruct H as (audit & db' & H1 & _ & H2 & H3 & _).
  - eexists. split; [now left | reflexivity].
  - intros (r & Hr & _). destruct Hr.
  - exists audit, db'. repeat split; assumption.
Defined.

Lemma recipients_create_frame (uniqueId : string) (xs : list RecipientDto)
  (db db' : DB) :
  for_each (AuditService.recipients_create uniqueId) xs db = Return (tt, db') ->
  db_auditTrace db' = db_auditTrace db /\ db_audit db' = db_audit db.
Proof.
  intros H.
  apply (for_each_preserves
           (fun x => db_auditTrace x = db_auditTrace db
                     /\ db_audit x = db_audit db)) in H; [exact H| |now split].
  intros r d0 d0' Hr [H1 H2].
  unfold AuditService.recipients_create in Hr. cbv [bind gets] in Hr.
  destruct (existsb _ _); [discriminate|].
  cbv [modify] in Hr. inversion Hr; subst. simpl. now split.
Qed.

Lemma createAudit_effect (editUniqueId consultUniqueId : string)
  (data : CreateAuditDto) (db db1 : DB) (created : AuditWithIncludes) :
  AuditService.createAudit editUniqueId consultUniqueId data db
  = (Return created, db1) ->
  db_auditTrace db1
  = Prisma.create (fun id => mkAuditTrace id editUniqueId consultUniqueId)
      (db_auditTrace db)
  /\ db_audit db1
     = Prisma.create (fun _ => inc_audit created) (db_audit db)
  /\ audit_editUniqueId (inc_audit created) = editUniqueId
  /\ audit_consultUniqueId (inc_audit created) = consultUniqueId.
Proof.
  unfold AuditService.createAudit, transaction. intros H.
  cbv [bind gets] in H.
  destruct (existsb _ (rows (db_auditTrace db)) || existsb _ (rows (db_audit db)));
    [discriminate|].
  cbv [modify] in H.
  destruct (for_each _ _ _) as [[[] d2]|e] eqn:E; [|discriminate].
  apply recipients_create_frame in E as [Ht Ha].
  inversion H; subst. simpl.
  rewrite Ht, Ha. simpl. repeat split; reflexivity.
Qed.

Lemma deleteAudit_live (uniqueId : string) (db : DB) :
  live uniqueId db ->
  exists db2,
    AuditService.deleteAudit uniqueId db = (Return true, db2)
    /\ db_auditTrace db2 = db_auditTrace db
    /\ db_audit db2
       = Prisma.deleteMany (editUniqueId_is uniqueId) (db_audit db).
Proof.
  intros H.
  destruct (Prisma.findUnique (editUniqueId_is uniqueId) (db_audit db))
    as [a|] eqn:E.
  - unfold AuditService.deleteAudit, AuditService.audit_delete, transaction,
      bind, gets, modify.
    rewrite E. simpl. eexists. split; [reflexivity|]. now split.
  - apply findUnique_audit_none_iff in E. now contradiction E.
Qed.

Lemma deleteMany_not_live (uniqueId : string) (db db2 : DB) :
  db_audit db2 = Prisma.deleteMany (editUniqueId_is uniqueId) (db_audit db) ->
  ~ live uniqueId db2.
Proof.
  intros E (a & Hin & Hu). rewrite E in Hin. simpl in Hin.
  apply filter_In in Hin as [_ Hn]. unfold editUniqueId_is in Hn.
  rewrite Hu, String.eqb_refl in Hn. discriminate.
Qed.

(** No stored result row carries the token of an audit that is not live,
    results being results of pages and pages being pages of live audits. *)
Lemma complete_without_audit (uniqueId : string) (db : DB) :
  pages_fk db -> results_fk db -> ~ live uniqueId db ->
  AuditService.isAuditComplete uniqueId db = true.
Proof.
  intros Hp Hr Hl. apply isAuditComplete_spec. intros r Hin Hu _.
  destruct (Hr r Hin) as (p & Hpin & Href).
  unfold references in Href. apply andb_true_iff in Href as [_ Hc].
  apply child_of_iff in Hc. apply Hl. rewrite <- Hu.
  exact (Hp p (cr_auditUniqueId r) Hpin Hc).
Qed.

(** A handler that looks the audit up and finds no live audit for the token
    throws Gone when a trace record holds the token and Not Found when none
    does: get-audit, update-audit, update-results, delete-audit,
    publish-audit (which counts the result rows first: none carries the
    token, by the foreign keys of results and pages) and the upload of an
    example image, whatever the service does with the image.  After
    create-audit then delete-audit, get-audit on the edit token throws Gone;
    in a store where every live audit has its trace, get-audit on a token
    that no trace holds throws Not Found. *)
Lemma gone_iff_trace_else_not_found :
  (forall (uniqueId : string) (db : DB),
     ~ live uniqueId db ->
     exists e : Exception,
       ((has_trace uniqueId db /\ e = GoneException)
        \/ (~ has_trace uniqueId db /\ e = NotFoundException))
       /\ AuditsController.getAudit uniqueId db = (Throw e, db)
       /\ (forall now body,
             AuditsController.updateAudit now uniqueId body db = (Throw e, db))
       /\ (forall now body,
             AuditsController.updateAuditResults now uniqueId body db
             = (Throw e, db))
       /\ AuditsController.deleteAudit uniqueId db = (Throw e, db)
       /\ (pages_fk db -> results_fk db ->
           forall now,
             AuditsController.publishAudit now uniqueId db = (Throw e, db))
       /\ (forall (File StoredFile : Type)
             (saveExampleImage :
                string -> Z -> Z -> Z -> File -> Async StoredFile)
             (file : File) (body : AuditsController.UploadImageDto),
             AuditsController.uploadExampleImage saveExampleImage uniqueId
               file body db
             = (Throw e, db)))
  /\ (forall (editUniqueId consultUniqueId : string) (body : CreateAuditDto)
        (db db1 : DB) (created : AuditWithIncludes),
        AuditsController.createAudit editUniqueId consultUniqueId body db
        = (Return created, db1) ->
        exists db2,
          AuditsController.deleteAudit editUniqueId db1 = (Return tt, db2)
          /\ AuditsController.getAudit editUniqueId db2
             = (Throw GoneException, db2))
  /\ (forall (uniqueId : string) (db : DB),
        traced db -> ~ has_trace uniqueId db ->
        AuditsController.getAudit uniqueId db = (Throw NotFoundException, db)).
Proof.
  split; [|split].
  - intros uniqueId db Hl.
    destruct (handlers_on_miss uniqueId db Hl) as (H1 & H2 & H3 & H4 & H5).
    cbv zeta in H1, H2, H3, H4, H5.
    exists (lookup_miss uniqueId db). split.
    { destruct (AuditService.checkIfAuditWasDeleted uniqueId db) eqn:E.
      - apply checkIfAuditWasDeleted_iff in E. left.
        split; [exact E | now apply lookup_miss_gone].
      - right.
        assert (Hn : ~ has_trace uniqueId db).
        { intros H. apply checkIfAuditWasDeleted_iff in H. congruence. }
        split; [exact Hn | now apply lookup_miss_not_found]. }
    split; [exact H1|]. split; [exact H2|]. split; [exact H3|].
    split; [exact H4|]. split.
    + intros Hp Hr now. apply H5.
      exact (complete_without_audit uniqueId db Hp Hr Hl).
    + intros File StoredFile saveExampleImage file body.
      pose proof Hl as Hf. apply findUnique_audit_none_iff in Hf.
      unfold AuditsController.uploadExampleImage,
        AuditService.getAuditWithEditUniqueId.
      rewrite Hf. apply sendAuditNotFoundStatus_eq.
  - intros e c body db db1 created H.
    apply createAudit_effect in H as (Ht & Ha & He & _).
    assert (Hlive : live e db1).
    { exists (inc_audit created). split; [|exact He].
      rewrite Ha. simpl. apply in_or_app. right. now left. }
    destruct (deleteAudit_live e db1 Hlive) as (db2 & Hd & Ht2 & Ha2).
    exists db2. unfold AuditsController.deleteAudit. rewrite Hd.
    split; [reflexivity|].
    destruct (handlers_on_miss e db2 (deleteMany_not_live e db1 db2 Ha2))
      as (H1 & _).
    rewrite H1. cbv zeta. rewrite lookup_miss_gone; [reflexivity|].
    exists (mkAuditTrace (nextval (db_auditTrace db)) e c).
    split; [|reflexivity].
    rewrite Ht2, Ht. simpl. apply in_or_app. right. now left.
  - intros uniqueId db Htr Hn.
    assert (Hl : ~ live uniqueId db).
    { intros (a & Hin & Hu). apply Hn. rewrite <- Hu. now apply Htr. }
    destruct (handlers_on_miss uniqueId db Hl) as (H1 & _).
    rewrite H1. cbv zeta. now rewrite lookup_miss_not_found.
Qed.

Lemma gone_iff_trace_else_not_found_example :
  exists db2,
    AuditsController.deleteAudit "edit-1" created_sample_db = (Return tt, db2)
    /\ AuditsController.getAudit "edit-1" db2 = (Throw GoneException, db2)
    /\ AuditsController.getAudit "never-issued" db2
       = (Throw NotFoundException, db2).
Proof.
  destruct gone_iff_trace_else_not_found as (_ & H & _).
  destruct (H "edit-1" "consult-1" sample_create empty_db created_sample_db
              _ eq_refl) as (db2 & Hd & Hg).
  exists db2. split; [exact Hd|]. split; [exact Hg|].
  vm_compute in Hd. inversion Hd; subst. reflexivity.
Defined.

(** ** The result matrix *)



Lemma getResults_unfold (CRITERIA : list Criterion) (uniqueId : string)
  (db : DB) :
  AuditService.getResultsWithEditUniqueId CRITERIA uniqueId db
  = flat_map (fun page =>
        map (fun criterion =>
            match
              find (fun result =>
                  String.eqb (cr_pageUrl result) (page_url page)
                  && Z.eqb (cr_topic result) (criterion_topic criterion)
                  && Z.eqb (cr_criterium result)
                       (criterion_criterium criterion))
                (audit_results uniqueId db)
            with
            | Some r => existing r
            | None =>
                mkResultEntry None None NOT_TESTED None None None None None
                  (criterion_topic criterion) (criterion_criterium criterion)
                  (page_url page)
            end)
          CRITERIA)
      (audit_pages uniqueId db).
Proof. reflexivity. Qed.

Lemma row_of_iff (r : CriterionResult) (page : AuditedPage)
  (criterion : Criterion) :
  String.eqb (cr_pageUrl r) (page_url page)
  && Z.eqb (cr_topic r) (criterion_topic criterion)
  && Z.eqb (cr_criterium r) (criterion_criterium criterion) = true
  <-> row_of r page criterion.
Proof.
  unfold row_of.
  rewrite !andb_true_iff, String.eqb_eq, !Z.eqb_eq. tauto.
Qed.



(** C10. get-results never takes its not-found branch: whatever the token,
    the handler returns the array the service built and throws nothing.
    For a token with no live audit that array is empty, the pages of an
    audit being pages of a live audit: the token gets an empty matrix, not
    Gone or Not Found. *)
Theorem getAuditResults_never_not_found :
  forall (CRITERIA : list Criterion) (uniqueId : string) (db : DB),
    AuditsController.getAuditResults CRITERIA uniqueId db
    = (Return (AuditService.getResultsWithEditUniqueId CRITERIA uniqueId db),
       db)
    /\ (pages_fk db -> ~ live uniqueId db ->
        AuditService.getResultsWithEditUniqueId CRITERIA uniqueId db = []
        /\ AuditsController.getAuditResults CRITERIA uniqueId db
           = (Return [], db)).
Proof.
  intros CRITERIA uniqueId db.
  assert (H : AuditsController.getAuditResults CRITERIA uniqueId db
              = (Return
                   (AuditService.getResultsWithEditUniqueId CRITERIA uniqueId
                      db), db)) by reflexivity.
  split; [exact H|].
  intros Hfk Hl.
  assert (E : AuditService.getResultsWithEditUniqueId CRITERIA uniqueId db = []).
  { rewrite getResults_unfold.
    assert (Hp : audit_pages uniqueId db = []).
    { unfold audit_pages, Prisma.findMany.
      destruct (filter _ _) as [|p l] eqn:Ef; [reflexivity|].
      assert (Hin : In p (p :: l)) by now left.
      rewrite <- Ef in Hin. apply filter_In in Hin as [Hin Hc].
      apply child_of_iff in Hc. exfalso. apply Hl.
      exact (Hfk p uniqueId Hin Hc). }
    now rewrite Hp. }
  split; [exact E|]. now rewrite H, E.
Qed.

Lemma getAuditResults_never_not_found_example :
  AuditsController.getAuditResults [mkCriterion 1 1; mkCriterion 1 2]
    "never-issued" created_sample_db
  = (Return [], created_sample_db)
  /\ AuditsController.getAuditResults [mkCriterion 1 1; mkCriterion 1 2]
       "never-issued" bereft_sample_db
     = (Return [], bereft_sample_db)
  /\ AuditsController.getAuditResults [mkCriterion 1 1; mkCriterion 1 2]
       "edit-2" bereft_sample_db
     = (Return [], bereft_sample_db)
  /\ List.length (rows (db_auditedPage bereft_sample_db)) = 2%nat.
Proof.
  assert (Hfk : pages_fk bereft_sample_db).
  { intros p u [<-|[<-|[]]] Hu; inversion Hu; subst u; eexists;
      (split; [left; reflexivity | reflexivity]). }
  split; [|split; [|split; [|reflexivity]]].
  - destruct (getAuditResults_never_not_found
                [mkCriterion 1 1; mkCriterion 1 2]
                "never-issued" created_sample_db) as [_ H].
    apply H.
    + intros p u [].
    + intros (a & [<-|[]] & Hu). discriminate.
  - destruct (getAuditResults_never_not_found
                [mkCriterion 1 1; mkCriterion 1 2]
                "never-issued" bereft_sample_db) as [_ H].
    apply H; [exact Hfk|].
    intros (a & [<-|[]] & Hu). discriminate.
  - destruct (getAuditResults_never_not_found
                [mkCriterion 1 1; mkCriterion 1 2]
                "edit-2" bereft_sample_db) as [_ H].
    apply H; [exact Hfk|].
    intros (a & [<-|[]] & Hu). discriminate.
Defined.

(** ** The handlers that do not look at the trace table *)

(** C6, at handlers the code mishandles.  In [deleted_sample_db] the sample
    audit is deleted: no audit has the token "edit-1" and a trace holds it,
    while no trace holds "never-issued".  get-audit throws Gone on the first
    token and Not Found on the second, as every handler that looks the
    audit up does.  get-results returns the empty array on both and throws
    nothing: the deleted audit and the token never issued get the same
    success.  delete-example-image does not look at the trace table: when
    the service has deleted nothing it throws Not Found on the token of the
    deleted audit too, and it throws Gone only when the service does. *)
Theorem getAuditResults_and_deleteExampleImage_skip_the_trace :
  AuditService.getAuditWithEditUniqueId "edit-1" deleted_sample_db = None
  /\ AuditService.checkIfAuditWasDeleted "edit-1" deleted_sample_db = true
  /\ AuditService.checkIfAuditWasDeleted "never-issued" deleted_sample_db
     = false
  /\ AuditsController.getAudit "edit-1" deleted_sample_db
     = (Throw GoneException, deleted_sample_db)
  /\ AuditsController.getAudit "never-issued" deleted_sample_db
     = (Throw NotFoundException, deleted_sample_db)
  /\ (forall CRITERIA : list Criterion,
        AuditsController.getAuditResults CRITERIA "edit-1" deleted_sample_db
        = (Return [], deleted_sample_db)
        /\ AuditsController.getAuditResults CRITERIA "never-issued"
             deleted_sample_db
           = (Return [], deleted_sample_db))
  /\ (forall exampleId : Z,
        AuditsController.deleteExampleImage
          (fun _ _ db => (Return false, db)) "edit-1" exampleId
          deleted_sample_db
        = (Throw NotFoundException, deleted_sample_db))
  /\ (forall (service_deleteExampleImage : string -> Z -> Async bool)
        (uniqueId : string) (exampleId : Z) (db : DB),
        fst (AuditsController.deleteExampleImage service_deleteExampleImage
               uniqueId exampleId db)
        = Throw GoneException
        <-> fst (service_deleteExampleImage uniqueId exampleId db)
            = Throw GoneException).
Proof.
  split; [reflexivity|]. split; [reflexivity|]. split; [reflexivity|].
  split; [reflexivity|]. split; [reflexivity|]. split; [|split].
  - intros CRITERIA. split; reflexivity.
  - intros exampleId. reflexivity.
  - intros service uniqueId exampleId db.
    unfold AuditsController.deleteExampleImage.
    destruct (service uniqueId exampleId db) as [[[|]|e] d]; simpl;
      split; intros H; try discriminate; now inversion H.
Qed.

(** ** The missing audit as a persistence failure *)



Lemma transaction_fail_keeps {A} (m : Tx A) (db db1 : DB) (e : Exception) :
  transaction m db = (Throw e, db1) -> db1 = db.
Proof.
  unfold transaction. destruct (m db) as [[a d]|e']; intros H; inversion H.
  reflexivity.
Qed.

(** A call of [updateAudit] that does not return the audit leaves the
    store as it was. *)
Lemma updateAudit_unchanged (now : DateTime) (uniqueId : string)
  (data : UpdateAuditDto) (db : DB) :
  (forall audit,
     fst (AuditService.updateAudit now uniqueId data db)
     <> Return (Some audit)) ->
  snd (AuditService.updateAudit now uniqueId data db) = db.
Proof.
  unfold AuditService.updateAudit. intros H.
  destruct (AuditService.updateAudit_try now uniqueId data db)
    as [[x|e] d] eqn:E.
  - exfalso. apply (H x). reflexivity.
  - unfold AuditService.updateAudit_try in E.
    apply transaction_fail_keeps in E. subst d.
    unfold AuditService.catch_P2025. now destruct (is_P2025 e).
Qed.



Lemma audit_pages_not_live (uniqueId : string) (db : DB) :
  pages_fk db -> ~ live uniqueId db -> audit_pages uniqueId db = [].
Proof.
  intros Hfk Hl. unfold audit_pages, Prisma.findMany.
  destruct (filter _ _) as [|p l] eqn:Ef; [reflexivity|].
  assert (Hin : In p (p :: l)) by now left.
  rewrite <- Ef in Hin. apply filter_In in Hin as [Hin Hc].
  apply child_of_iff in Hc. exfalso. apply Hl. exact (Hfk p uniqueId Hin Hc).
Qed.




(** ** The distributions of the report *)

Lemma share_per_page_accurate :
  forallb (fun n =>
      within_rounding (percentage (share n 106%float))
        (100 * Z.of_nat n) 106)
    (seq 0 107) = true.
Proof. vm_compute. reflexivity. Qed.

Lemma share_per_topic_accurate :
  forallb (fun d =>
      forallb (fun n =>
          within_rounding
            (percentage (share n (JS.of_Z (Z.of_nat d))))
            (100 * Z.of_nat n) (Z.of_nat d))
        (seq 0 (S d)))
    (seq 1 318) = true.
Proof. vm_compute. reflexivity. Qed.

Lemma forallb_seq (f : nat -> bool) (start len : nat) :
  forallb f (seq start len) = true ->
  forall n, (start <= n < start + len)%nat -> f n = true.
Proof.
  intros H n Hn. rewrite forallb_forall in H. apply H. apply in_seq. lia.
Qed.

(** C8, as the code has it.  A consult token that no audit has gets no
    report; a token that an audit has gets one.  In it every page's three
    percentages are [(count / 106) * 100], the count being that of the
    stored results of the status on that page and 106 a number written in
    the code, the same for every page and every catalogue; every topic's
    three percentages are [(count / sharing) * 100], the count being that of
    the stored results of the status in the topic and [sharing] the number
    of stored results of that topic.  The percentages are binary64 numbers
    computed in that order: they are the fractions [100 * count / 106] and
    [100 * count / sharing] up to rounding (checked for counts up to 106 and
    for up to 318 results in a topic), and NaN for a topic with no stored
    result. *)
Theorem distributions_per_page_over_106_per_topic_over_sharing :
  forall (RGAA_topics : list RgaaTopic) (consultUniqueId : string) (db : DB),
    let found :=
      Prisma.findUnique
        (fun a => String.eqb (audit_consultUniqueId a) consultUniqueId)
        (db_audit db) in
    (found = None ->
     AuditService.getAuditReportData RGAA_topics consultUniqueId db = None)
    /\ (forall audit, found = Some audit ->
        exists report,
          AuditService.getAuditReportData RGAA_topics consultUniqueId db
          = Some report
          /\ let results :=
               Prisma.findMany
                 (fun r =>
                    String.eqb (cr_auditUniqueId r)
                      (audit_editUniqueId audit))
                 (db_criterionResult db) in
             let on_page p s :=
               count_of
                 (fun r =>
                    String.eqb (cr_pageUrl r) (page_url p)
                    && status_eqb (cr_status r) s) results in
             let in_topic t s :=
               count_of
                 (fun r =>
                    Z.eqb (cr_topic r) (rgaa_number t)
                    && status_eqb (cr_status r) s) results in
             let sharing t :=
               count_of (fun r => Z.eqb (cr_topic r) (rgaa_number t))
                 results in
             report_totalCriteriaCount report = 106
             /\ report_pageDistributions report
                = map (fun p =>
                      mkStatusDistribution (page_name p)
                        (share (on_page p COMPLIANT) 106%float)
                        (share (on_page p NOT_APPLICABLE) 106%float)
                        (share (on_page p NOT_COMPLIANT) 106%float))
                    (audit_pages (audit_editUniqueId audit) db)
             /\ report_topicDistributions report
                = map (fun t =>
                      mkStatusDistribution (rgaa_topic t)
                        (share (in_topic t COMPLIANT)
                           (JS.of_Z (Z.of_nat (sharing t))))
                        (share (in_topic t NOT_APPLICABLE)
                           (JS.of_Z (Z.of_nat (sharing t))))
                        (share (in_topic t NOT_COMPLIANT)
                           (JS.of_Z (Z.of_nat (sharing t)))))
                    RGAA_topics)
    /\ (forall n, (n <= 106)%nat ->
          within_rounding (percentage (share n 106%float))
            (100 * Z.of_nat n) 106 = true)
    /\ (forall n d, (n <= d)%nat -> (1 <= d <= 318)%nat ->
          within_rounding
            (percentage (share n (JS.of_Z (Z.of_nat d))))
            (100 * Z.of_nat n) (Z.of_nat d) = true)
    /\ percentage (share 0 (JS.of_Z 0)) = PrimFloat.nan.
Proof.
  intros RGAA_topics consultUniqueId db found.
  split; [|split; [|split; [|split]]].
  - intros H. unfold AuditService.getAuditReportData. fold found.
    now rewrite H.
  - intros audit H. unfold AuditService.getAuditReportData. fold found.
    rewrite H. eexists. split; [reflexivity|]. cbv zeta. simpl.
    split; [reflexivity|]. split; reflexivity.
  - intros n Hn.
    apply (forallb_seq _ 0 107 share_per_page_accurate). lia.
  - intros n d Hn Hd.
    pose proof (forallb_seq _ 1 318 share_per_topic_accurate d) as H.
    cbv beta in H.
    apply (forallb_seq _ 0 (S d) (H ltac:(lia))). lia.
  - reflexivity.
Qed.

(** C8 as stated fails on a third.  In the report of the sample audit the
    topic "Images" has three stored results, one of them COMPLIANT: its
    compliant percentage is [(1 / 3) * 100] in binary64,
    33.33333333333333, which is not the fraction 100/3 and not
    [100 * 1 / 3] in binary64 either, 33.333333333333336.  The topic
    "Cadres" has no stored result and its percentage is NaN.  The page
    "Accueil" has one compliant result and its percentage is
    [(1 / 106) * 100], whatever the size of the catalogue. *)
Lemma topic_percentage_of_one_in_three :
  exists report accueil contact images cadres,
    AuditService.getAuditReportData sample_topics "consult-1"
      audited_sample_db
    = Some report
    /\ report_pageDistributions report = [accueil; contact]
    /\ report_topicDistributions report = [images; cadres]
    /\ sd_name images = "Images"
    /\ count_of (fun r => Z.eqb (cr_topic r) 1)
         (rows (db_criterionResult audited_sample_db))
       = 3%nat
    /\ raw (sd_compliant images) = 1%nat
    /\ percentage (sd_compliant images)
       = PrimFloat.mul (PrimFloat.div 1%float 3%float) 100%float
    /\ is_fraction (percentage (sd_compliant images)) 100 3 = false
    /\ PrimFloat.ltb (percentage (sd_compliant images))
         (PrimFloat.div (PrimFloat.mul 100%float 1%float) 3%float)
       = true
    /\ sd_name cadres = "Cadres"
    /\ raw (sd_compliant cadres) = 0%nat
    /\ PrimFloat.is_nan (percentage (sd_compliant cadres)) = true
    /\ sd_name accueil = "Accueil"
    /\ raw (sd_compliant accueil) = 1%nat
    /\ percentage (sd_compliant accueil)
       = PrimFloat.mul (PrimFloat.div 1%float 106%float) 100%float.
Proof.
  do 5 eexists. split; [vm_compute; reflexivity|].
  split; [reflexivity|]. split; [reflexivity|].
  vm_compute. repeat split; reflexivity.
Qed.

Lemma distributions_per_page_over_106_per_topic_over_sharing_witness :
  AuditService.getAuditReportData sample_topics "no-such-token"
    audited_sample_db
  = None
  /\ exists report,
       AuditService.getAuditReportData sample_topics "consult-1"
         audited_sample_db
       = Some report
       /\ map (fun d =>
               (sd_name d, raw (sd_compliant d), percentage (sd_compliant d)))
            (report_pageDistributions report)
          = [("Accueil", 1%nat,
              PrimFloat.mul (PrimFloat.div 1%float 106%float) 100%float);
             ("Contact", 0%nat, 0%float)]
       /\ map (fun d =>
               (sd_name d, raw (sd_notCompliant d),
                PrimFloat.is_nan (percentage (sd_notCompliant d))))
            (report_topicDistributions report)
          = [("Images", 1%nat, false); ("Cadres", 0%nat, true)]
       /\ within_rounding (percentage (share 1 106%float)) 100 106 = true
       /\ within_rounding (percentage (share 1 (JS.of_Z 3))) 100 3 = true.
Proof.
  split.
  - apply (distributions_per_page_over_106_per_topic_over_sharing
             sample_topics "no-such-token" audited_sample_db).
    reflexivity.
  - destruct (distributions_per_page_over_106_per_topic_over_sharing
                sample_topics "consult-1" audited_sample_db)
      as (_ & H & Hpage & Htopic & _).
    destruct (H _ eq_refl) as (report & E & _ & Hp & Ht).
    exists report. split; [exact E|].
    rewrite Hp, Ht. split; [vm_compute; reflexivity|].
    split; [vm_compute; reflexivity|]. split.
    + apply (Hpage 1%nat). lia.
    + apply (Htopic 1%nat 3%nat); lia.
Defined.

(** ** Objects as maps *)

Lemma get_Some_In {V} (o : JS.object V) (k : string) (v : V) :
  JS.get o k = Some v -> In (k, v) o.
Proof.
  induction o as [|[k' w] o IH]; simpl; [discriminate|].
  destruct (String.eqb_spec k' k) as [->|Hk].
  - intros H. inversion H. now left.
  - intros H. right. now apply IH.
Qed.

Lemma get_None_iff {V} (o : JS.object V) (k : string) :
  JS.get o k = None <-> ~ In k (map fst o).
Proof.
  induction o as [|[k' w] o IH]; simpl; [tauto|].
  destruct (String.eqb_spec k' k) as [->|Hk].
  - split; [discriminate | intros H; exfalso; apply H; now left].
  - rewrite IH. tauto.
Qed.

Lemma set_keys_present {V} (o : JS.object V) (k : string) (v : V) :
  In k (map fst o) -> map fst (JS.set o k v) = map fst o.
Proof.
  induction o as [|[k' w] o IH]; simpl; [intros []|].
  destruct (String.eqb_spec k' k) as [->|Hk]; [reflexivity|].
  intros [H|H]; [congruence|]. simpl. now rewrite IH.
Qed.

Lemma set_absent {V} (o : JS.object V) (k : string) (v : V) :
  ~ In k (map fst o) -> JS.set o k v = o ++ [(k, v)].
Proof.
  induction o as [|[k' w] o IH]; simpl; [reflexivity|].
  destruct (String.eqb_spec k' k) as [->|Hk].
  - intros H. exfalso. apply H. now left.
  - intros H. rewrite IH; [reflexivity | tauto].
Qed.

Lemma set_present_In {V} (o : JS.object V) (k : string) (v : V)
  (k' : string) (v' : V) :
  NoDup (map fst o) -> In k (map fst o) ->
  (In (k', v') (JS.set o k v)
   <-> (k' = k /\ v' = v) \/ (k' <> k /\ In (k', v') o)).
Proof.
  induction o as [|[k0 w] o IH]; simpl; [intros _ []|].
  intros Hnd Hin. inversion Hnd as [|? ? Hnotin Hnd']; subst.
  destruct (String.eqb_spec k0 k) as [->|Hk].
  - simpl. split.
    + intros [H|H].
      * inversion H; subst. now left.
      * right. split; [|now right]. intros ->. apply Hnotin.
        apply in_map_iff. now exists (k, v').
    + intros [[-> ->]|[Hne [H|H]]].
      * now left.
      * inversion H; subst. now contradiction Hne.
      * now right.
  - destruct Hin as [Hin|Hin]; [congruence|]. simpl.
    rewrite (IH Hnd' Hin). split.
    + intros [H|[H|[Hne H]]].
      * inversion H; subst. right. split; [congruence | now left].
      * now left.
      * right. split; [exact Hne | now right].
    + intros [H|[Hne [H|H]]].
      * right. now left.
      * now left.
      * right. right. now split.
Qed.

(** ** Grouping by topic and criterion *)

Lemma group_step_unfold (acc : JS.object (list CriterionResult))
  (c : CriterionResult) :
  AuditService.group_step acc c
  = match JS.get acc (key_of c) with
    | Some group => JS.set acc (key_of c) (group ++ [c])
    | None => JS.set acc (key_of c) [c]
    end.
Proof. reflexivity. Qed.

Lemma grouped_step (acc : JS.object (list CriterionResult))
  (seen : list CriterionResult) (c : CriterionResult) :
  grouped acc seen -> grouped (AuditService.group_step acc c) (seen ++ [c]).
Proof.
  intros (Hnd & Hg & Hk). rewrite group_step_unfold.
  destruct (JS.get acc (key_of c)) as [group|] eqn:E.
  - pose proof (get_Some_In _ _ _ E) as Hin.
    assert (Hkin : In (key_of c) (map fst acc)).
    { apply in_map_iff. now exists (key_of c, group). }
    split; [|split].
    + now rewrite set_keys_present.
    + intros k g H. apply set_present_In in H; [|assumption|assumption].
      rewrite filter_app. simpl.
      destruct H as [[-> ->]|[Hne H]].
      * rewrite String.eqb_refl. destruct (Hg _ _ Hin) as [-> _].
        split; [reflexivity|]. intros Hnil.
        apply app_eq_nil in Hnil as [_ Hnil]. discriminate.
      * destruct (String.eqb_spec (key_of c) k) as [Heq|_]; [congruence|].
        rewrite app_nil_r. now apply Hg.
    + intros r Hr. rewrite set_keys_present by assumption.
      apply in_app_or in Hr as [Hr|[<-|[]]]; [now apply Hk | assumption].
  - apply get_None_iff in E. rewrite set_absent by assumption.
    split; [|split].
    + rewrite map_app. simpl. apply NoDup_app; [assumption | | ].
      * constructor; [intros [] | constructor].
      * intros k Hk1 [<-|[]]. now apply E.
    + intros k g H. rewrite filter_app. simpl.
      apply in_app_or in H as [H|[H|[]]].
      * assert (Hne : key_of c <> k).
        { intros <-. apply E. apply in_map_iff. now exists (key_of c, g). }
        destruct (String.eqb_spec (key_of c) k) as [Heq|_]; [congruence|].
        rewrite app_nil_r. now apply Hg.
      * inversion H; subst. rewrite String.eqb_refl.
        assert (Hnone : filter (fun r => String.eqb (key_of r) (key_of c)) seen
                        = []).
        { destruct (filter _ seen) as [|r l] eqn:Ef; [reflexivity|].
          assert (Hr : In r (r :: l)) by now left.
          rewrite <- Ef in Hr. apply filter_In in Hr as [Hr Hkey].
          apply String.eqb_eq in Hkey. exfalso. apply E.
          rewrite <- Hkey. now apply Hk. }
        rewrite Hnone. split; [reflexivity | discriminate].
    + intros r Hr. rewrite map_app. apply in_or_app.
      apply in_app_or in Hr as [Hr|[<-|[]]]; [left; now apply Hk|].
      right. now left.
Qed.

Lemma grouped_fold (rs : list CriterionResult) :
  forall acc seen,
    grouped acc seen -> grouped (fold_left AuditService.group_step rs acc) (seen ++ rs).
Proof.
  induction rs as [|c rs IH]; intros acc seen H; simpl.
  - now rewrite app_nil_r.
  - replace (seen ++ c :: rs) with ((seen ++ [c]) ++ rs)
      by now rewrite <- app_assoc.
    apply IH. now apply grouped_step.
Qed.

Lemma groupedCriteria_grouped (results : list CriterionResult) :
  grouped (AuditService.groupedCriteria results) results.
Proof.
  apply (grouped_fold results [] []).
  split; [constructor|]. split; [intros k g [] | intros r []].
Qed.

(** ** The property names are the (topic, criterion) pairs *)

Lemma string_of_uint_dotless (d : Decimal.uint) :
  dotless (NilEmpty.string_of_uint d) = true.
Proof. induction d; simpl; auto. Qed.

Lemma toString_dotless (n : Z) : dotless (JS.toString n) = true.
Proof.
  unfold JS.toString. destruct (Z.to_int n); simpl;
    apply string_of_uint_dotless.
Qed.

Lemma toString_inj (a b : Z) : JS.toString a = JS.toString b -> a = b.
Proof.
  unfold JS.toString. intros H.
  apply (f_equal NilEmpty.int_of_string) in H.
  rewrite !NilEmpty.isi in H. inversion H as [H'].
  apply (f_equal Z.of_int) in H'. now rewrite !DecimalZ.of_to in H'.
Qed.

Lemma dotless_split (s1 t1 s2 t2 : string) :
  dotless s1 = true -> dotless t1 = true ->
  (s1 ++ "." ++ s2)%string = (t1 ++ "." ++ t2)%string ->
  s1 = t1 /\ s2 = t2.
Proof.
  revert t1. induction s1 as [|a s1 IH]; intros [|b t1] Hs Ht H; simpl in *.
  - inversion H. now split.
  - inversion H; subst. simpl in Ht. discriminate.
  - inversion H; subst. simpl in Hs. discriminate.
  - inversion H; subst.
    apply andb_true_iff in Hs as [_ Hs]. apply andb_true_iff in Ht as [_ Ht].
    destruct (IH t1 Hs Ht) as [-> ->]; [assumption | now split].
Qed.

Lemma key_of_inj (r r' : CriterionResult) :
  key_of r = key_of r'
  <-> cr_topic r = cr_topic r' /\ cr_criterium r = cr_criterium r'.
Proof.
  unfold key_of. split.
  - intros H. apply dotless_split in H as [Ht Hc];
      try apply toString_dotless.
    split; now apply toString_inj.
  - intros [-> ->]. reflexivity.
Qed.

Lemma key_eqb_same_criterion (r r' : CriterionResult) :
  String.eqb (key_of r') (key_of r) = same_criterion r r'.
Proof.
  unfold same_criterion.
  destruct (String.eqb_spec (key_of r') (key_of r)) as [E|E].
  - apply key_of_inj in E as [-> ->]. now rewrite !Z.eqb_refl.
  - destruct (Z.eqb_spec (cr_topic r') (cr_topic r)) as [Ht|Ht];
      [|reflexivity].
    destruct (Z.eqb_spec (cr_criterium r') (cr_criterium r)) as [Hc|Hc];
      [|reflexivity].
    exfalso. apply E. now apply key_of_inj.
Qed.

(** The values of [groupedCriteria]: one group for each (topic, criterion)
    that has a stored result, holding the results of that pair in their
    order; no group comes twice. *)
Lemma groups_are_criterion_classes (results : list CriterionResult) :
  let groups := JS.values (AuditService.groupedCriteria results) in
  (forall g, In g groups
     <-> exists r, In r results /\ g = filter (same_criterion r) results)
  /\ NoDup groups.
Proof.
  destruct (groupedCriteria_grouped results) as (Hnd & Hg & Hk).
  set (G := AuditService.groupedCriteria results) in *.
  assert (Hclass : forall k g, In (k, g) G ->
            exists r, In r results /\ key_of r = k
                      /\ g = filter (same_criterion r) results).
  { intros k g Hin. destruct (Hg k g Hin) as [Hf Hne].
    destruct g as [|r g']; [now contradiction Hne|].
    assert (Hr : In r (r :: g')) by now left.
    rewrite Hf in Hr. apply filter_In in Hr as [Hr Hkey].
    apply String.eqb_eq in Hkey.
    exists r. split; [exact Hr|]. split; [exact Hkey|].
    rewrite Hf. apply filter_ext. intros x.
    rewrite <- Hkey. apply key_eqb_same_criterion. }
  cbv zeta. unfold JS.values. split.
  - intros g. split.
    + intros Hin. apply in_map_iff in Hin as ([k g0] & <- & Hin).
      destruct (Hclass k g0 Hin) as (r & Hr & _ & E). now exists r.
    + intros (r & Hr & ->).
      pose proof (Hk r Hr) as Hin.
      apply in_map_iff in Hin as ([k g0] & Hfst & Hin). simpl in Hfst. subst k.
      apply in_map_iff. exists (key_of r, g0). split; [|exact Hin].
      simpl. destruct (Hg _ _ Hin) as [-> _].
      apply filter_ext. intros x. apply key_eqb_same_criterion.
  - revert Hnd Hclass. generalize G. clear.
    induction G as [|[k g] G IH]; simpl; intros Hnd Hclass; [constructor|].
    inversion Hnd as [|? ? Hnotin Hnd']; subst. constructor.
    + intros Hin. apply in_map_iff in Hin as ([k' g'] & Heq & Hin).
      simpl in Heq. subst g'.
      destruct (Hclass k g (or_introl eq_refl)) as (r & Hr & Hkr & Eg).
      destruct (Hclass k' g (or_intror Hin)) as (r' & Hr' & Hkr' & Eg').
      assert (Hmem : In r g).
      { rewrite Eg. apply filter_In. split; [exact Hr|].
        unfold same_criterion. now rewrite !Z.eqb_refl. }
      rewrite Eg' in Hmem. apply filter_In in Hmem as [_ Hsame].
      rewrite <- key_eqb_same_criterion in Hsame.
      apply String.eqb_eq in Hsame.
      apply Hnotin. apply in_map_iff. exists (k', g). split; [|exact Hin].
      simpl. congruence.
    + apply IH; [exact Hnd'|]. intros k' g' Hin. apply Hclass. now right.
Qed.

(** ** The accessibility rate *)

Lemma accessibilityRate_rate_of (results : list CriterionResult) :
  AuditService.accessibilityRate results
  = rate_of (List.length (AuditService.compliantCriteria results))
      (List.length (AuditService.applicableCriteria results)).
Proof. reflexivity. Qed.

Lemma rate_of_checked :
  forallb (fun a => forallb (fun c => rate_check c a) (seq 0 (S a)))
    (seq 1 106) = true.
Proof. vm_compute. reflexivity. Qed.

Lemma rate_check_spec (c a : nat) :
  (c <= a)%nat -> (1 <= a <= 106)%nat -> rate_check c a = true.
Proof.
  intros Hc Ha.
  pose proof (forallb_seq _ 1 106 rate_of_checked a ltac:(lia)) as H.
  cbv beta in H. apply (forallb_seq _ 0 (S a) H). lia.
Qed.

Lemma compliant_le_applicable (results : list CriterionResult) :
  (List.length (AuditService.compliantCriteria results)
   <= List.length (AuditService.applicableCriteria results))%nat.
Proof. unfold AuditService.compliantCriteria. apply filter_length_le. Qed.

(** The groups and the rate as the code has them.  The values of the
    grouping are the (topic, criterion) classes of the stored results.  A
    group is applicable iff one of its results has a status other than
    NOT_APPLICABLE, and compliant iff it is applicable and each of its
    results is COMPLIANT or NOT_APPLICABLE.  The rate is
    [Math.round((compliant / applicable) * 100)] in binary64: with no
    applicable group it is NaN and nothing is thrown; with 7 compliant
    groups of 10 it is 70; with up to 106 applicable groups it is an
    integer nearest to [100 * compliant / applicable], the one rounding
    half up gives unless the ratio is 23/40, and 57 then. *)
Lemma accessibilityRate_is_binary64_round :
  forall results : list CriterionResult,
    let groups := JS.values (AuditService.groupedCriteria results) in
    let applicable := AuditService.applicableCriteria results in
    let compliant := AuditService.compliantCriteria results in
    let a := Z.of_nat (List.length applicable) in
    let c := Z.of_nat (List.length compliant) in
    (forall g, In g groups
       <-> exists r, In r results /\ g = filter (same_criterion r) results)
    /\ NoDup groups
    /\ (forall g, In g applicable
          <-> In g groups
              /\ exists r, In r g /\ cr_status r <> NOT_APPLICABLE)
    /\ (forall g, In g compliant
          <-> In g applicable
              /\ forall r, In r g ->
                   cr_status r = COMPLIANT \/ cr_status r = NOT_APPLICABLE)
    /\ (a = 0 -> AuditService.accessibilityRate results = PrimFloat.nan)
    /\ (a = 10 -> c = 7 ->
        AuditService.accessibilityRate results = 70%float)
    /\ (1 <= a <= 106 ->
        exists z,
          JS.int_value (AuditService.accessibilityRate results) = Some z
          /\ Z.abs (2 * a * z - 200 * c) <= a
          /\ (40 * c <> 23 * a -> z = round_half_up (100 * c) a)
          /\ (40 * c = 23 * a -> z = 57)).
Proof.
  intros results groups applicable compliant a c.
  destruct (groups_are_criterion_classes results) as [Hclass Hnd].
  split; [exact Hclass|]. split; [exact Hnd|]. split; [|split].
  - intros g. unfold applicable, AuditService.applicableCriteria.
    rewrite filter_In. fold groups. rewrite existsb_exists.
    split; intros [Hg (r & Hr & Hs)]; (split; [exact Hg|]); exists r;
      (split; [exact Hr|]).
    + intros E. rewrite E in Hs. discriminate.
    + destruct (cr_status r); try reflexivity. now contradiction Hs.
  - intros g. unfold compliant, AuditService.compliantCriteria.
    rewrite filter_In. fold applicable. rewrite forallb_forall.
    split; intros [Hg H]; (split; [exact Hg|]); intros r Hr;
      specialize (H r Hr).
    + apply orb_true_iff in H as [H|H]; apply status_eqb_eq in H; auto.
    + destruct H as [-> | ->]; reflexivity.
  - pose proof (compliant_le_applicable results) as Hle.
    fold applicable compliant in Hle.
    rewrite accessibilityRate_rate_of. fold applicable compliant.
    split; [|split].
    + intros Ha.
      assert (E : List.length applicable = 0%nat) by (unfold a in Ha; lia).
      assert (E' : List.length compliant = 0%nat) by lia.
      rewrite E, E'. reflexivity.
    + intros Ha Hc.
      assert (E : List.length applicable = 10%nat) by (unfold a in Ha; lia).
      assert (E' : List.length compliant = 7%nat) by (unfold c in Hc; lia).
      rewrite E, E'. reflexivity.
    + intros Ha.
      pose proof (rate_check_spec (List.length compliant)
                    (List.length applicable) Hle
                    ltac:(unfold a in Ha; lia)) as H.
      unfold rate_check in H. fold a c in H.
      destruct (JS.int_value _) as [z|]; [|discriminate].
      exists z. split; [reflexivity|].
      apply andb_true_iff in H as [H1 H2]. apply Z.leb_le in H1.
      split; [exact H1|].
      destruct (Z.eqb_spec (40 * c) (23 * a)) as [E|E];
        apply Z.eqb_eq in H2; split; intros H; congruence.
Qed.

(** C2, at a store the code mishandles.  In [forty_db] the sample audit has
    forty stored results on one page, one per criterion: twenty-three
    COMPLIANT and seventeen NOT_COMPLIANT.  get-report counts forty
    applicable groups, twenty-three of them compliant, and gives the rate
    57, while [round (100 * 23 / 40)], the rounding of 57.5, is 58: with the
    tie going up, with it going to the even neighbour, and as
    [Math.round(100 * 23 / 40)] in binary64.  The code divides first, and
    [(23 / 40) * 100] is 57.49999999999999 in binary64, below the tie that
    [Math.round] would send up. *)
Theorem getAuditReportData_rate_of_23_in_40_is_57 :
  exists report : AuditReportDto,
    AuditService.getAuditReportData sample_topics "consult-1" forty_db
    = Some report
    /\ report_applicableCriteriaCount report = 40%nat
    /\ List.length
         (AuditService.compliantCriteria (rows (db_criterionResult forty_db)))
       = 23%nat
    /\ report_accessibilityRate report = 57%float
    /\ round_half_up (100 * 23) 40 = 58
    /\ round_half_even (100 * 23) 40 = 58
    /\ JS.Math_round
         (PrimFloat.div (PrimFloat.mul 100%float (JS.of_Z 23)) (JS.of_Z 40))
       = 58%float
    /\ PrimFloat.ltb
         (PrimFloat.mul (PrimFloat.div (JS.of_Z 23) (JS.of_Z 40)) 100%float)
         (PrimFloat.div (PrimFloat.mul 100%float (JS.of_Z 23)) (JS.of_Z 40))
       = true.
Proof.
  eexists. split; [vm_compute; reflexivity|].
  vm_compute. repeat split; reflexivity.
Qed.

(** ** update-results, applied again *)

Lemma hits_row_data (uniqueId : string) (i : UpdateResultsItem) (id : Z) :
  hits uniqueId i (row_data uniqueId i id) = true.
Proof.
  unfold hits, auditUniqueId_pageUrl_topic_criterium, row_data. simpl.
  now rewrite !String.eqb_refl, !Z.eqb_refl.
Qed.

Lemma hits_row_update (uniqueId : string) (i : UpdateResultsItem)
  (r : CriterionResult) :
  hits uniqueId i (row_update uniqueId i r) = true.
Proof.
  unfold hits, auditUniqueId_pageUrl_topic_criterium, row_update. simpl.
  now rewrite !String.eqb_refl, !Z.eqb_refl.
Qed.

(** Two rows are the same row when their columns are the same. *)
Lemma row_ext (r r' : CriterionResult) :
  cr_id r = cr_id r' -> cr_status r = cr_status r' ->
  cr_compliantComment r = cr_compliantComment r' ->
  cr_errorDescription r = cr_errorDescription r' ->
  cr_userImpact r = cr_userImpact r' ->
  cr_recommandation r = cr_recommandation r' ->
  cr_notApplicableComment r = cr_notApplicableComment r' ->
  cr_topic r = cr_topic r' -> cr_criterium r = cr_criterium r' ->
  cr_pageUrl r = cr_pageUrl r' -> cr_auditUniqueId r = cr_auditUniqueId r' ->
  r = r'.
Proof. destruct r, r'. simpl. intros. now subst. Qed.

(** Written twice, a property is as written once. *)
Lemma in_update_twice {A} (x : JS.optional A) (stored : option A) :
  Prisma.in_update x (Prisma.in_update x stored) = Prisma.in_update x stored.
Proof. now destruct x. Qed.

Lemma in_update_created {A} (x : JS.optional A) :
  Prisma.in_update x (Prisma.in_create x) = Prisma.in_create x.
Proof. now destruct x. Qed.

(** An upsert leaves every row under the key it had. *)
Lemma hits_overwrite_step (uniqueId : string) (i j : UpdateResultsItem)
  (r : CriterionResult) :
  hits uniqueId j (overwrite_step uniqueId r i) = hits uniqueId j r.
Proof.
  unfold overwrite_step. destruct (hits uniqueId i r) eqn:E; [|reflexivity].
  unfold hits, auditUniqueId_pageUrl_topic_criterium in *. simpl.
  apply andb_true_iff in E as [E E4]. apply andb_true_iff in E as [E E3].
  apply andb_true_iff in E as [E1 E2].
  apply String.eqb_eq in E1, E2. apply Z.eqb_eq in E3, E4.
  now rewrite E1, E2, E3, E4.
Qed.

Lemma cr_id_overwrite_step (uniqueId : string) (i : UpdateResultsItem)
  (r : CriterionResult) :
  cr_id (overwrite_step uniqueId r i) = cr_id r.
Proof. unfold overwrite_step. now destruct (hits uniqueId i r). Qed.

Lemma hits_overwrite (uniqueId : string) (b : list UpdateResultsItem)
  (j : UpdateResultsItem) (r : CriterionResult) :
  hits uniqueId j (overwrite uniqueId b r) = hits uniqueId j r.
Proof.
  unfold overwrite. revert r. induction b as [|i b IH]; intros r; simpl;
    [reflexivity|].
  now rewrite IH, hits_overwrite_step.
Qed.

Lemma cr_id_overwrite (uniqueId : string) (b : list UpdateResultsItem)
  (r : CriterionResult) :
  cr_id (overwrite uniqueId b r) = cr_id r.
Proof.
  unfold overwrite. revert r. induction b as [|i b IH]; intros r; simpl;
    [reflexivity|].
  now rewrite IH, cr_id_overwrite_step.
Qed.

Lemma upsert_table_present (uniqueId : string) (t : Table CriterionResult)
  (i : UpdateResultsItem) :
  existsb (hits uniqueId i) (rows t) = true ->
  upsert_table uniqueId t i
  = mkTable (map (fun r => overwrite_step uniqueId r i) (rows t)) (nextval t).
Proof.
  intros H. unfold upsert_table, Prisma.upsert. now rewrite H.
Qed.

Lemma upsert_table_absent (uniqueId : string) (t : Table CriterionResult)
  (i : UpdateResultsItem) :
  existsb (hits uniqueId i) (rows t) = false ->
  upsert_table uniqueId t i
  = mkTable (rows t ++ [row_data uniqueId i (nextval t)]) (nextval t + 1).
Proof.
  intros H. unfold upsert_table, Prisma.upsert. now rewrite H.
Qed.

Lemma existsb_map_hits (uniqueId : string) (i j : UpdateResultsItem)
  (l : list CriterionResult) :
  existsb (hits uniqueId j) (map (fun r => overwrite_step uniqueId r i) l)
  = existsb (hits uniqueId j) l.
Proof.
  induction l as [|r l IH]; simpl; [reflexivity|].
  now rewrite IH, hits_overwrite_step.
Qed.

(** A key that has its row keeps it through an upsert. *)
Lemma upsert_table_keeps (uniqueId : string) (t : Table CriterionResult)
  (i j : UpdateResultsItem) :
  existsb (hits uniqueId j) (rows t) = true ->
  existsb (hits uniqueId j) (rows (upsert_table uniqueId t i)) = true.
Proof.
  intros H. destruct (existsb (hits uniqueId i) (rows t)) eqn:E.
  - rewrite upsert_table_present by exact E. simpl.
    now rewrite existsb_map_hits.
  - rewrite upsert_table_absent by exact E. simpl.
    rewrite existsb_app, H. reflexivity.
Qed.

(** The key of an upsert has its row afterwards. *)
Lemma upsert_table_adds (uniqueId : string) (t : Table CriterionResult)
  (i : UpdateResultsItem) :
  existsb (hits uniqueId i) (rows (upsert_table uniqueId t i)) = true.
Proof.
  destruct (existsb (hits uniqueId i) (rows t)) eqn:E.
  - now apply upsert_table_keeps.
  - rewrite upsert_table_absent by exact E. simpl.
    rewrite existsb_app. simpl. rewrite hits_row_data.
    now rewrite orb_true_r.
Qed.

Lemma apply_batch_keeps (uniqueId : string) (b : list UpdateResultsItem)
  (j : UpdateResultsItem) :
  forall t,
    existsb (hits uniqueId j) (rows t) = true ->
    existsb (hits uniqueId j) (rows (apply_batch uniqueId b t)) = true.
Proof.
  unfold apply_batch. induction b as [|i b IH]; intros t H; simpl;
    [exact H|].
  apply IH. now apply upsert_table_keeps.
Qed.

(** Every key of a batch has its row once the batch is applied. *)
Lemma apply_batch_adds (uniqueId : string) (b : list UpdateResultsItem) :
  forall t j,
    In j b ->
    existsb (hits uniqueId j) (rows (apply_batch uniqueId b t)) = true.
Proof.
  induction b as [|i b IH]; intros t j Hj; [destruct Hj|].
  destruct Hj as [<-|Hj].
  - change (apply_batch uniqueId (i :: b) t)
      with (apply_batch uniqueId b (upsert_table uniqueId t i)).
    apply apply_batch_keeps. apply upsert_table_adds.
  - change (apply_batch uniqueId (i :: b) t)
      with (apply_batch uniqueId b (upsert_table uniqueId t i)).
    now apply IH.
Qed.

(** When every key of the batch has its row, the batch creates nothing:
    it overwrites the rows in place. *)
Lemma apply_batch_present (uniqueId : string) (b : list UpdateResultsItem) :
  forall t,
    (forall j, In j b -> existsb (hits uniqueId j) (rows t) = true) ->
    apply_batch uniqueId b t
    = mkTable (map (overwrite uniqueId b) (rows t)) (nextval t).
Proof.
  induction b as [|i b IH]; intros t H.
  - simpl. unfold overwrite. simpl. rewrite map_id. now destruct t.
  - change (apply_batch uniqueId (i :: b) t)
      with (apply_batch uniqueId b (upsert_table uniqueId t i)).
    rewrite upsert_table_present by (apply H; now left).
    rewrite IH.
    + simpl. rewrite map_map. reflexivity.
    + intros j Hj. simpl. rewrite existsb_map_hits. apply H. now right.
Qed.

(** An upsert that selects the row writes the columns of the item, and
    leaves a nullable column that the item lacks. *)
Lemma overwrite_step_hit (uniqueId : string) (i : UpdateResultsItem)
  (r : CriterionResult) :
  hits uniqueId i r = true ->
  overwrite_step uniqueId r i = row_update uniqueId i r.
Proof. intros H. unfold overwrite_step. now rewrite H. Qed.

Lemma overwrite_step_miss (uniqueId : string) (i : UpdateResultsItem)
  (r : CriterionResult) :
  hits uniqueId i r = false -> overwrite_step uniqueId r i = r.
Proof. intros H. unfold overwrite_step. now rewrite H. Qed.

(** The upserts of a batch treat alike a nullable column of two rows of
    the same key that hold the same in it. *)
Lemma overwrite_field {A} (f : CriterionResult -> option A)
  (g : UpdateResultsItem -> JS.optional A) (uniqueId : string) :
  (forall i r, f (row_update uniqueId i r) = Prisma.in_update (g i) (f r)) ->
  forall (b : list UpdateResultsItem) (r r' : CriterionResult),
    (forall j, hits uniqueId j r = hits uniqueId j r') ->
    f r = f r' ->
    f (overwrite uniqueId b r) = f (overwrite uniqueId b r').
Proof.
  intros Hf b. unfold overwrite.
  induction b as [|i b IH]; intros r r' Hk E; simpl; [exact E|].
  apply IH.
  - intros j. now rewrite !hits_overwrite_step.
  - unfold overwrite_step. rewrite <- (Hk i).
    destruct (hits uniqueId i r); [|exact E]. now rewrite !Hf, E.
Qed.

(** A batch leaves a row that none of its items selects. *)
Lemma overwrite_no_hit (uniqueId : string) (b : list UpdateResultsItem)
  (r : CriterionResult) :
  (forall j, In j b -> hits uniqueId j r = false) ->
  overwrite uniqueId b r = r.
Proof.
  unfold overwrite. induction b as [|i b IH]; intros H; simpl; [reflexivity|].
  rewrite overwrite_step_miss by (apply H; now left).
  apply IH. intros j Hj. apply H. now right.
Qed.

(** Two items that select one row select the same rows. *)
Lemma hits_same_key (uniqueId : string) (i j : UpdateResultsItem)
  (r : CriterionResult) :
  hits uniqueId i r = true -> hits uniqueId j r = true ->
  forall r', hits uniqueId i r' = hits uniqueId j r'.
Proof.
  unfold hits, auditUniqueId_pageUrl_topic_criterium. intros Hi Hj r'.
  apply andb_true_iff in Hi as [Hi I4]. apply andb_true_iff in Hi as [Hi I3].
  apply andb_true_iff in Hi as [_ I2].
  apply andb_true_iff in Hj as [Hj J4]. apply andb_true_iff in Hj as [Hj J3].
  apply andb_true_iff in Hj as [_ J2].
  apply String.eqb_eq in I2, J2. apply Z.eqb_eq in I3, I4, J3, J4.
  now rewrite <- I2, <- I3, <- I4, J2, J3, J4.
Qed.

(** A row of the table a batch leaves is one the batch writes back as it
    is. *)
Lemma apply_batch_fixed (uniqueId : string) (b : list UpdateResultsItem) :
  forall t r,
    In r (rows (apply_batch uniqueId b t)) -> overwrite uniqueId b r = r.
Proof.
  induction b as [|i b IH] using rev_ind; intros t r Hr; [reflexivity|].
  unfold apply_batch in Hr. rewrite fold_left_app in Hr. simpl in Hr.
  fold (apply_batch uniqueId b t) in Hr.
  unfold overwrite. rewrite fold_left_app. simpl.
  fold (overwrite uniqueId b r).
  set (T := apply_batch uniqueId b t) in *.
  destruct (existsb (hits uniqueId i) (rows T)) eqn:E.
  - rewrite upsert_table_present in Hr by exact E. simpl in Hr.
    apply in_map_iff in Hr as (r0 & Hr0 & Hin).
    pose proof (IH t r0 Hin) as Hfix.
    destruct (hits uniqueId i r0) eqn:Eh.
    + rewrite overwrite_step_hit in Hr0 by exact Eh. subst r.
      assert (Hk : forall j, hits uniqueId j (row_update uniqueId i r0)
                             = hits uniqueId j r0).
      { intros j. rewrite <- (overwrite_step_hit uniqueId i r0 Eh).
        apply hits_overwrite_step. }
      assert (Hkeep : forall {A} (f : CriterionResult -> option A)
                        (g : UpdateResultsItem -> JS.optional A),
                 (forall i0 r1, f (row_update uniqueId i0 r1)
                                = Prisma.in_update (g i0) (f r1)) ->
                 Prisma.in_update (g i)
                   (f (overwrite uniqueId b (row_update uniqueId i r0)))
                 = Prisma.in_update (g i) (f r0)).
      { intros A f g Hf. destruct (g i) eqn:Eg; [|reflexivity..].
        simpl. rewrite <- Hfix at 2.
        apply (overwrite_field f g uniqueId Hf b _ _ Hk).
        now rewrite Hf, Eg. }
      rewrite overwrite_step_hit
        by (rewrite hits_overwrite; apply hits_row_update).
      apply row_ext; simpl; try reflexivity.
      * now rewrite cr_id_overwrite.
      * exact (Hkeep _ cr_compliantComment ur_compliantComment
                 (fun _ _ => eq_refl)).
      * exact (Hkeep _ cr_errorDescription ur_errorDescription
                 (fun _ _ => eq_refl)).
      * exact (Hkeep _ cr_userImpact ur_userImpact (fun _ _ => eq_refl)).
      * exact (Hkeep _ cr_recommandation ur_recommandation
                 (fun _ _ => eq_refl)).
      * exact (Hkeep _ cr_notApplicableComment ur_notApplicableComment
                 (fun _ _ => eq_refl)).
    + rewrite overwrite_step_miss in Hr0 by exact Eh. subst r0.
      rewrite Hfix. now apply overwrite_step_miss.
  - rewrite upsert_table_absent in Hr by exact E. simpl in Hr.
    apply in_app_or in Hr as [Hin|[<-|[]]].
    + rewrite (IH t r Hin). apply overwrite_step_miss.
      rewrite existsb_false_iff in E. exact (E r Hin).
    + rewrite overwrite_no_hit.
      * rewrite overwrite_step_hit by apply hits_row_data.
        apply row_ext; simpl; try reflexivity; apply in_update_created.
      * intros j Hj.
        destruct (hits uniqueId j (row_data uniqueId i (nextval T))) eqn:Ej;
          [|reflexivity].
        exfalso.
        pose proof (apply_batch_adds uniqueId b t j Hj) as Hadd.
        fold T in Hadd. apply existsb_exists in Hadd as (r1 & Hr1 & Hh).
        rewrite existsb_false_iff in E. specialize (E r1 Hr1).
        rewrite (hits_same_key uniqueId i j _
                   (hits_row_data uniqueId i (nextval T)) Ej r1) in E.
        congruence.
Qed.

(** The upserts of a batch, applied to the table they left, leave it. *)
Lemma apply_batch_idempotent (uniqueId : string)
  (b : list UpdateResultsItem) (t : Table CriterionResult) :
  apply_batch uniqueId b (apply_batch uniqueId b t)
  = apply_batch uniqueId b t.
Proof.
  rewrite apply_batch_present by (intros j Hj; now apply apply_batch_adds).
  rewrite (map_ext_in _ (fun r => r)).
  - rewrite map_id. now destruct (apply_batch uniqueId b t).
  - intros r Hr. exact (apply_batch_fixed uniqueId b t r Hr).
Qed.

Lemma upsert_result_eq (uniqueId : string) (i : UpdateResultsItem) (db : DB) :
  AuditService.upsert_result uniqueId i db
  = if connectable uniqueId db i
    then if storable i
         then Return (tt,
                set_criterionResult
                  (upsert_table uniqueId (db_criterionResult db) i) db)
         else Throw P2020
    else Throw P2025.
Proof.
  unfold AuditService.upsert_result, connectable, storable.
  cbv [bind gets].
  destruct (existsb _ _); [|reflexivity]. simpl.
  destruct (Prisma.is_Int (ur_topic i) && Prisma.is_Int (ur_criterium i));
    reflexivity.
Qed.

Lemma set_criterionResult_same (db : DB) :
  set_criterionResult (db_criterionResult db) db = db.
Proof. now destruct db. Qed.

Lemma upserts_eq (uniqueId : string) (b : list UpdateResultsItem) :
  forall db,
    for_each (AuditService.upsert_result uniqueId) b db
    = if forallb (writable uniqueId db) b
      then Return (tt,
             set_criterionResult
               (apply_batch uniqueId b (db_criterionResult db)) db)
      else Throw (refusal uniqueId db b).
Proof.
  induction b as [|i b IH]; intros db.
  - simpl. unfold ret. now rewrite set_criterionResult_same.
  - cbn [for_each forallb]. unfold bind. rewrite upsert_result_eq.
    unfold writable at 1.
    destruct (connectable uniqueId db i) eqn:Ec;
      [|simpl; now rewrite Ec].
    destruct (storable i) eqn:Es; [|simpl; now rewrite Ec, Es].
    rewrite IH. simpl. rewrite Ec, Es. reflexivity.
Qed.

Lemma updateResults_eq (now : DateTime) (uniqueId : string)
  (body : UpdateResultsDto) (db : DB) :
  AuditService.updateResults now uniqueId body db
  = if forallb (writable uniqueId db) (urd_data body)
    then (Return tt,
          set_audit (stamped now uniqueId (db_audit db))
            (set_criterionResult
               (apply_batch uniqueId (urd_data body) (db_criterionResult db))
               db))
    else (Throw (refusal uniqueId db (urd_data body)), db).
Proof.
  unfold AuditService.updateResults, transaction, bind.
  rewrite upserts_eq.
  destruct (forallb _ _); reflexivity.
Qed.

Lemma stamped_absorbs (t1 t2 : DateTime) (uniqueId : string)
  (t : Table Audit) :
  stamped t2 uniqueId (stamped t1 uniqueId t) = stamped t2 uniqueId t.
Proof.
  unfold stamped, Prisma.updateMany. simpl. rewrite map_map. f_equal.
  apply map_ext. intros a.
  destruct (editUniqueId_is uniqueId a && is_some (audit_publicationDate a))
    eqn:E.
  - unfold editUniqueId_is in *. simpl. now rewrite E.
  - now rewrite E.
Qed.

Lemma stamped_unpublished (now : DateTime) (uniqueId : string)
  (t : Table Audit) :
  (forall a, In a (rows t) -> audit_editUniqueId a = uniqueId ->
     audit_publicationDate a = None) ->
  stamped now uniqueId t = t.
Proof.
  intros H. unfold stamped, Prisma.updateMany.
  rewrite (map_ext_in _ (fun a => a)).
  - rewrite map_id. now destruct t.
  - intros a Ha.
    destruct (String.eqb_spec (audit_editUniqueId a) uniqueId) as [E|E].
    + unfold editUniqueId_is. rewrite (H a Ha E). simpl.
      now rewrite andb_false_r.
    + unfold editUniqueId_is.
      destruct (String.eqb_spec (audit_editUniqueId a) uniqueId);
        [congruence | reflexivity].
Qed.

(** C9, as the code has it.  Calling update-results again with the same
    batch gives the outcome and the store of a single call made at the time
    of the second one.  The result rows, and every table but the audits,
    are as the first call left them; so is the audit row when the audit is
    not published or the two calls carry the same time.  For a published
    audit the second call stamps the edition date anew. *)
Theorem updateResults_again_is_once_at_the_later_time :
  forall (t1 t2 : DateTime) (uniqueId : string) (body : UpdateResultsDto)
    (db : DB),
    let once := AuditService.updateResults t1 uniqueId body db in
    let twice := AuditService.updateResults t2 uniqueId body (snd once) in
    twice = AuditService.updateResults t2 uniqueId body db
    /\ fst twice = fst once
    /\ db_criterionResult (snd twice) = db_criterionResult (snd once)
    /\ db_auditedPage (snd twice) = db_auditedPage (snd once)
    /\ db_recipent (snd twice) = db_recipent (snd once)
    /\ db_tool (snd twice) = db_tool (snd once)
    /\ db_testEnvironment (snd twice) = db_testEnvironment (snd once)
    /\ db_auditTrace (snd twice) = db_auditTrace (snd once)
    /\ (fst once = Return tt ->
        db_audit (snd twice) = stamped t2 uniqueId (db_audit (snd once)))
    /\ (t1 = t2
        \/ (forall a, In a (rows (db_audit db)) ->
              audit_editUniqueId a = uniqueId ->
              audit_publicationDate a = None) ->
        snd twice = snd once).
Proof.
  intros t1 t2 uniqueId body db once twice.
  unfold twice, once. rewrite !updateResults_eq.
  destruct (forallb (writable uniqueId db) (urd_data body)) eqn:E.
  - simpl snd. simpl db_audit. simpl db_criterionResult.
    change (forallb (writable uniqueId
                       (set_audit (stamped t1 uniqueId (db_audit db))
                          (set_criterionResult
                             (apply_batch uniqueId (urd_data body)
                                (db_criterionResult db)) db)))
              (urd_data body))
      with (forallb (writable uniqueId db) (urd_data body)).
    rewrite E, apply_batch_idempotent, stamped_absorbs.
    repeat split; try reflexivity.
    intros [->|H]; [reflexivity|].
    simpl. now rewrite !stamped_unpublished.
  - simpl snd. rewrite E. repeat split; try reflexivity.
    intros H. discriminate.
Qed.

(** C9 as stated fails on the audit row of a published audit: after a call
    at time 41 and a second one at time 42 the edition date is 42, after
    the single call at time 41 it is 41. *)
Lemma updateResults_again_moves_edition_date :
  let body := mkUpdateResultsDto [sample_item] in
  let once := snd (AuditService.updateResults 41 "edit-1" body
                     published_sample_db) in
  let twice := snd (AuditService.updateResults 42 "edit-1" body once) in
  map audit_editionDate (rows (db_audit once)) = [Some 41]
  /\ map audit_editionDate (rows (db_audit twice)) = [Some 42]
  /\ twice <> once.
Proof.
  cbv zeta. split; [reflexivity|]. split; [reflexivity|].
  intros H.
  apply (f_equal (fun d => map audit_editionDate (rows (db_audit d)))) in H.
  vm_compute in H. discriminate.
Qed.

Lemma updateResults_again_is_once_at_the_later_time_example :
  let body := mkUpdateResultsDto [sample_item] in
  let once := AuditService.updateResults 41 "edit-1" body published_sample_db in
  let twice := AuditService.updateResults 42 "edit-1" body (snd once) in
  fst once = Return tt
  /\ db_criterionResult (snd twice) = db_criterionResult (snd once)
  /\ twice = AuditService.updateResults 42 "edit-1" body published_sample_db.
Proof.
  cbv zeta.
  destruct (updateResults_again_is_once_at_the_later_time 41 42 "edit-1"
              (mkUpdateResultsDto [sample_item]) published_sample_db)
    as (H1 & _ & H3 & _).
  split; [reflexivity|]. split; [exact H3 | exact H1].
Defined.

(** ** update-audit and the rows that stay *)

(** C1, at a payload the code mishandles.  The audit holds the tools (Wave,
    extension) and (Axe, application); the payload holds (Wave, application)
    and (Axe, extension).  Neither stored tuple is in the payload, yet each
    of their names, functions and urls is in the payload's column of that
    field, so [deleteMany] deletes neither: after the call, which succeeds,
    the audit has four tools.  The environments fare the same. *)
Theorem updateAudit_keeps_tools_absent_from_payload :
  exists audit db',
    AuditService.updateAudit 50 "edit-1" swapped_payload tools_sample_db
    = (Return (Some audit), db')
    /\ map (fun t => (tool_name t, tool_function t))
         (rows (db_tool tools_sample_db))
       = [("Wave", "extension"); ("Axe", "application")]
    /\ map (fun t => (td_name t, td_function t)) (ua_tools swapped_payload)
       = [("Wave", "application"); ("Axe", "extension")]
    /\ map (fun t => (tool_name t, tool_function t)) (rows (db_tool db'))
       = [("Wave", "extension"); ("Axe", "application");
          ("Wave", "application"); ("Axe", "extension")]
    /\ map (fun e => (env_assistiveTechnology e, env_browser e))
         (rows (db_testEnvironment db'))
       = [("NVDA", "Firefox"); ("JAWS", "Chrome");
          ("NVDA", "Chrome"); ("JAWS", "Firefox")].
Proof.
  eexists. eexists. split; [vm_compute; reflexivity|].
  repeat split; reflexivity.
Qed.

(** ** What update-audit does to each table *)

Lemma for_each_modify {X} (F : X -> DB -> DB) (xs : list X) :
  forall db,
    for_each (fun x => modify (F x)) xs db
    = Return (tt, fold_left (fun d x => F x d) xs db).
Proof.
  induction xs as [|x xs IH]; intros db; simpl; [reflexivity|].
  unfold bind, modify at 1. now rewrite IH.
Qed.

Lemma fold_left_lens {X T} (get : DB -> T) (set : T -> DB -> DB)
  (G : X -> T -> T) (xs : list X) :
  (forall t d, get (set t d) = t) ->
  (forall t t' d, set t (set t' d) = set t d) ->
  (forall d, set (get d) d = d) ->
  forall db,
    fold_left (fun d x => set (G x (get d)) d) xs db
    = set (fold_left (fun t x => G x t) xs (get db)) db.
Proof.
  intros Hgs Hss Hsg. induction xs as [|x xs IH]; intros db; simpl.
  - now rewrite Hsg.
  - now rewrite IH, Hgs, Hss.
Qed.

Lemma update_recipients_eq (uniqueId : string) (rs : list RecipientDto)
  (db : DB) :
  AuditService.update_recipients uniqueId rs db
  = Return (tt,
      set_recipent (recipients_after uniqueId rs (db_recipent db)) db).
Proof.
  unfold AuditService.update_recipients, bind, modify at 1.
  rewrite for_each_modify.
  rewrite (fold_left_lens db_recipent set_recipent
             (fun r t => AuditService.recipients_upsert uniqueId r t));
    try reflexivity.
  intros d. now destruct d.
Qed.

Lemma update_tools_eq (uniqueId : string) (ts : list ToolDto) (db : DB) :
  AuditService.update_tools uniqueId ts db
  = Return (tt, set_tool (tools_after uniqueId ts (db_tool db)) db).
Proof.
  unfold AuditService.update_tools, bind, modify at 1.
  rewrite for_each_modify.
  rewrite (fold_left_lens db_tool set_tool
             (fun x t => AuditService.tools_upsert uniqueId x t));
    try reflexivity.
  intros d. now destruct d.
Qed.

Lemma update_environments_eq (uniqueId : string) (es : list EnvironmentDto)
  (db : DB) :
  AuditService.update_environments uniqueId es db
  = Return (tt,
      set_testEnvironment
        (environments_after uniqueId es (db_testEnvironment db)) db).
Proof.
  unfold AuditService.update_environments, bind, modify at 1.
  rewrite for_each_modify.
  rewrite (fold_left_lens db_testEnvironment set_testEnvironment
             (fun e t => AuditService.environments_upsert uniqueId e t));
    try reflexivity.
  intros d. now destruct d.
Qed.

Lemma same_but_pages_refl (db : DB) : same_but_pages db db.
Proof. repeat split. Qed.

Lemma pages_update_frame (uniqueId : string) (p : UpdateAuditPage)
  (db0 db db' : DB) :
  AuditService.pages_update uniqueId p db = Return (tt, db') ->
  same_but_pages db0 db -> same_but_pages db0 db'.
Proof.
  unfold AuditService.pages_update. intros H Hs.
  destruct (Prisma.findUnique _ _); [|discriminate].
  destruct (existsb _ _); [discriminate|].
  inversion H; subst. exact Hs.
Qed.

Lemma pages_create_frame (uniqueId : string) (p : UpdateAuditPage)
  (db0 db db' : DB) :
  AuditService.pages_create uniqueId p db = Return (tt, db') ->
  same_but_pages db0 db -> same_but_pages db0 db'.
Proof.
  unfold AuditService.pages_create. cbv [bind gets]. intros H Hs.
  destruct (existsb _ _); [discriminate|].
  cbv [modify] in H. inversion H; subst. exact Hs.
Qed.

(** The store a successful [audit_update] leaves: the audit row with its
    new scalar columns, the three collections as their [deleteMany] and
    upserts leave them, the traces as they were. *)
Lemma audit_update_effect (uniqueId : string) (data : UpdateAuditDto)
  (updatedPages newPages : list UpdateAuditPage) (db db' : DB)
  (audit : AuditWithIncludes) :
  AuditService.audit_update uniqueId data updatedPages newPages db
  = Return (audit, db') ->
  live uniqueId db
  /\ db_audit db'
     = Prisma.updateMany (editUniqueId_is uniqueId)
         (AuditService.update_scalars data) (db_audit db)
  /\ db_recipent db'
     = recipients_after uniqueId (ua_recipients data) (db_recipent db)
  /\ db_tool db' = tools_after uniqueId (ua_tools data) (db_tool db)
  /\ db_testEnvironment db'
     = environments_after uniqueId (ua_environments data)
         (db_testEnvironment db)
  /\ db_auditTrace db' = db_auditTrace db.
Proof.
  unfold AuditService.audit_update. intros H.
  apply bind_Return in H as (found & d0 & H0 & H).
  unfold gets in H0. inversion H0; subst; clear H0.
  destruct (Prisma.findUnique _ _) as [a|] eqn:Ef; [|discriminate].
  split.
  { destruct (findUnique_audit_none_iff uniqueId d0) as [_ Hn].
    destruct (Prisma.findUnique (editUniqueId_is uniqueId) (db_audit d0))
      eqn:E; [|discriminate].
    apply find_some in E as [Hin Hh]. exists a0. split; [exact Hin|].
    now apply String.eqb_eq. }
  apply bind_Return in H as ([] & d1 & H1 & H).
  unfold modify in H1. inversion H1; subst; clear H1.
  apply bind_Return in H as ([] & d2 & H2 & H).
  rewrite update_recipients_eq in H2. inversion H2; subst; clear H2.
  apply bind_Return in H as ([] & d3 & H3 & H).
  rewrite update_tools_eq in H3. inversion H3; subst; clear H3.
  apply bind_Return in H as ([] & d4 & H4 & H).
  rewrite update_environments_eq in H4. inversion H4; subst; clear H4.
  apply bind_Return in H as ([] & d5 & H5 & H).
  unfold AuditService.pages_deleteMany, modify in H5.
  inversion H5; subst; clear H5.
  apply bind_Return in H as ([] & d6 & H6 & H).
  apply bind_Return in H as ([] & d7 & H7 & H).
  unfold gets in H. inversion H; subst; clear H.
  match type of H6 with
  | for_each _ _ ?d = _ =>
      assert (Hs : same_but_pages d db')
  end.
  { eapply (for_each_preserves _ _ _
              (fun x d d' => pages_create_frame uniqueId x _ d d'));
      [exact H7|].
    eapply (for_each_preserves _ _ _
              (fun x d d' => pages_update_frame uniqueId x _ d d'));
      [exact H6|].
    apply same_but_pages_refl. }
  destruct Hs as (Ha & Hr & Ht & He & Htr).
  rewrite Ha, Hr, Ht, He, Htr. simpl. repeat split; reflexivity.
Qed.

(** ** The recipients after update-audit *)

Lemma existsb_eqb_In (x : string) (l : list string) :
  existsb (String.eqb x) l = true <-> In x l.
Proof.
  rewrite existsb_exists. split.
  - intros (y & Hy & E). apply String.eqb_eq in E. now subst.
  - intros H. exists x. split; [exact H | apply String.eqb_refl].
Qed.

Lemma notIn_false_iff (x : string) (l : list string) :
  Prisma.notIn x l = false <-> In x l.
Proof.
  unfold Prisma.notIn. rewrite negb_false_iff. apply existsb_eqb_In.
Qed.

Lemma recipient_emails_In (uniqueId email : string) (t : Table Recipent) :
  In email (recipient_emails uniqueId t)
  <-> exists r, In r (rows t)
                /\ recipent_auditUniqueId r = Some uniqueId
                /\ recipent_email r = email.
Proof.
  unfold recipient_emails. rewrite in_map_iff. split.
  - intros (r & He & Hin). apply filter_In in Hin as [Hin Hc].
    apply child_of_iff in Hc. now exists r.
  - intros (r & Hin & Hc & He). exists r. split; [exact He|].
    apply filter_In. split; [exact Hin | now apply child_of_iff].
Qed.

Lemma recipients_deleteMany_emails (uniqueId : string)
  (rs : list RecipientDto) (t : Table Recipent) (email : string) :
  In email
    (recipient_emails uniqueId
       (AuditService.recipients_deleteMany uniqueId rs t))
  <-> In email (recipient_emails uniqueId t) /\ In email (map rd_email rs).
Proof.
  rewrite !recipient_emails_In.
  unfold AuditService.recipients_deleteMany, Prisma.deleteMany. simpl. split.
  - intros (r & Hin & Hc & He). apply filter_In in Hin as [Hin Hk].
    apply negb_true_iff, andb_false_iff in Hk.
    split; [now exists r|].
    destruct Hk as [Hk|Hk].
    + apply child_of_iff in Hc. congruence.
    + apply notIn_false_iff in Hk. now rewrite <- He.
  - intros [(r & Hin & Hc & He) Hi]. exists r.
    split; [|now split]. apply filter_In. split; [exact Hin|].
    apply negb_true_iff, andb_false_iff. right.
    apply notIn_false_iff. now rewrite He.
Qed.

Lemma recipients_updateMany_emails (uniqueId : string) (r : RecipientDto)
  (t : Table Recipent) :
  recipient_emails uniqueId
    (Prisma.updateMany (email_auditUniqueId (rd_email r) uniqueId)
       (fun r0 =>
          mkRecipent (recipent_id r0) (rd_name r) (rd_email r)
            (recipent_auditUniqueId r0)) t)
  = recipient_emails uniqueId t.
Proof.
  unfold recipient_emails, Prisma.updateMany. simpl.
  induction (rows t) as [|x l IH]; simpl; [reflexivity|].
  destruct (email_auditUniqueId (rd_email r) uniqueId x) eqn:Eh; simpl.
  - unfold email_auditUniqueId in Eh.
    apply andb_true_iff in Eh as [He Hc]. rewrite Hc. simpl.
    apply String.eqb_eq in He. now rewrite IH, He.
  - destruct (Prisma.child_of uniqueId (recipent_auditUniqueId x));
      simpl; now rewrite IH.
Qed.

Lemma recipients_upsert_emails (uniqueId : string) (r : RecipientDto)
  (t : Table Recipent) (email : string) :
  In email
    (recipient_emails uniqueId (AuditService.recipients_upsert uniqueId r t))
  <-> In email (recipient_emails uniqueId t) \/ email = rd_email r.
Proof.
  unfold AuditService.recipients_upsert, Prisma.upsert.
  destruct (existsb (email_auditUniqueId (rd_email r) uniqueId) (rows t))
    eqn:E.
  - rewrite recipients_updateMany_emails.
    split; [now left|]. intros [H| ->]; [exact H|].
    apply existsb_exists in E as (x & Hin & Hh).
    unfold email_auditUniqueId in Hh. apply andb_true_iff in Hh as [He Hc].
    apply recipient_emails_In. exists x. split; [exact Hin|].
    split; [now apply child_of_iff | now apply String.eqb_eq].
  - rewrite !recipient_emails_In. unfold Prisma.create. simpl. split.
    + intros (x & Hin & Hc & He). apply in_app_or in Hin as [Hin|[<-|[]]].
      * left. now exists x.
      * right. now rewrite <- He.
    + intros [(x & Hin & Hc & He)| ->].
      * exists x. split; [apply in_or_app; now left | now split].
      * eexists. split; [apply in_or_app; right; now left|].
        now split.
Qed.

Lemma recipients_upserts_emails (uniqueId : string) (rs : list RecipientDto)
  (email : string) :
  forall t,
    In email
      (recipient_emails uniqueId
         (fold_left (fun t r => AuditService.recipients_upsert uniqueId r t)
            rs t))
    <-> In email (recipient_emails uniqueId t) \/ In email (map rd_email rs).
Proof.
  induction rs as [|r rs IH]; intros t; simpl; [tauto|].
  rewrite IH, recipients_upsert_emails. split.
  - intros [[H|H]|H]; auto.
  - intros [H|[H|H]]; auto.
Qed.

(** The rows of other audits, and of no audit, are left as they are. *)
Lemma recipients_after_others (uniqueId : string) (rs : list RecipientDto)
  (t : Table Recipent) :
  filter (fun r => negb (Prisma.child_of uniqueId (recipent_auditUniqueId r)))
    (rows (recipients_after uniqueId rs t))
  = filter (fun r => negb (Prisma.child_of uniqueId (recipent_auditUniqueId r)))
      (rows t).
Proof.
  unfold recipients_after.
  assert (Hd : filter
                 (fun r =>
                    negb (Prisma.child_of uniqueId (recipent_auditUniqueId r)))
                 (rows (AuditService.recipients_deleteMany uniqueId rs t))
               = filter
                   (fun r =>
                      negb
                        (Prisma.child_of uniqueId (recipent_auditUniqueId r)))
                   (rows t)).
  { unfold AuditService.recipients_deleteMany, Prisma.deleteMany. simpl.
    induction (rows t) as [|x l IH]; simpl; [reflexivity|].
    destruct (Prisma.child_of uniqueId (recipent_auditUniqueId x)) eqn:Ec;
      simpl.
    - destruct (Prisma.notIn _ _); simpl; [exact IH|]. now rewrite Ec.
    - rewrite Ec. simpl. now rewrite IH. }
  rewrite <- Hd. generalize (AuditService.recipients_deleteMany uniqueId rs t).
  generalize rs at 1. intros l. induction l as [|r l IH]; intros t0; simpl;
    [reflexivity|].
  rewrite IH. unfold AuditService.recipients_upsert, Prisma.upsert.
  destruct (existsb _ (rows t0)).
  - unfold Prisma.updateMany. simpl.
    induction (rows t0) as [|x l0 IH0]; simpl; [reflexivity|].
    destruct (email_auditUniqueId (rd_email r) uniqueId x) eqn:Eh; simpl.
    + unfold email_auditUniqueId in Eh.
      apply andb_true_iff in Eh as [_ Hc]. rewrite Hc. simpl. exact IH0.
    + destruct (Prisma.child_of uniqueId (recipent_auditUniqueId x)); simpl;
        now rewrite IH0.
  - unfold Prisma.create. simpl. rewrite filter_app. simpl.
    rewrite String.eqb_refl. simpl. now rewrite app_nil_r.
Qed.

(** For the recipients update-audit does what the spec says: after a call
    that succeeds, the emails of the audit's recipients are those of the
    payload, no more and no fewer, and the recipients of other audits are
    as they were. *)
Theorem updateAudit_recipients_are_the_payload :
  forall (now : DateTime) (uniqueId : string) (data : UpdateAuditDto)
    (db db' : DB) (audit : AuditWithIncludes),
    AuditService.updateAudit now uniqueId data db = (Return (Some audit), db') ->
    (forall email,
       In email (recipient_emails uniqueId (db_recipent db'))
       <-> In email (map rd_email (ua_recipients data)))
    /\ filter
         (fun r => negb (Prisma.child_of uniqueId (recipent_auditUniqueId r)))
         (rows (db_recipent db'))
       = filter
           (fun r => negb (Prisma.child_of uniqueId (recipent_auditUniqueId r)))
           (rows (db_recipent db)).
Proof.
  intros now uniqueId data db db' audit H.
  unfold AuditService.updateAudit, AuditService.updateAudit_try, transaction
    in H.
  match type of H with
  | AuditService.catch_P2025 _ _ (match ?m with _ => _ end) = _ =>
      destruct m as [[x d]|e] eqn:E
  end.
  2:{ unfold AuditService.catch_P2025 in H.
      destruct (is_P2025 e); discriminate. }
  simpl in H. inversion H; subst; clear H.
  apply bind_Return in E as (a & d1 & E1 & E).
  apply bind_Return in E as ([] & d2 & E2 & E).
  unfold ret in E. inversion E; subst; clear E.
  unfold AuditService.updateAuditEditDate, modify in E2.
  inversion E2; subst; clear E2.
  apply audit_update_effect in E1 as (_ & _ & Hr & _).
  simpl. rewrite Hr. split.
  - intros email. unfold recipients_after.
    rewrite recipients_upserts_emails, recipients_deleteMany_emails. tauto.
  - apply recipients_after_others.
Qed.

(** ** The tools after update-audit *)

Lemma updateAudit_effect (now : DateTime) (uniqueId : string)
  (data : UpdateAuditDto) (db db' : DB) (audit : AuditWithIncludes) :
  AuditService.updateAudit now uniqueId data db = (Return (Some audit), db') ->
  live uniqueId db
  /\ db_audit db'
     = stamped now uniqueId
         (Prisma.updateMany (editUniqueId_is uniqueId)
            (AuditService.update_scalars data) (db_audit db))
  /\ db_recipent db'
     = recipients_after uniqueId (ua_recipients data) (db_recipent db)
  /\ db_tool db' = tools_after uniqueId (ua_tools data) (db_tool db)
  /\ db_testEnvironment db'
     = environments_after uniqueId (ua_environments data)
         (db_testEnvironment db)
  /\ db_auditTrace db' = db_auditTrace db.
Proof.
  intros H.
  unfold AuditService.updateAudit, AuditService.updateAudit_try, transaction
    in H.
  match type of H with
  | AuditService.catch_P2025 _ _ (match ?m with _ => _ end) = _ =>
      destruct m as [[x d]|e] eqn:E
  end.
  2:{ unfold AuditService.catch_P2025 in H.
      destruct (is_P2025 e); discriminate. }
  simpl in H. inversion H; subst; clear H.
  apply bind_Return in E as (a & d1 & E1 & E).
  apply bind_Return in E as ([] & d2 & E2 & E).
  unfold ret in E. inversion E; subst; clear E.
  unfold AuditService.updateAuditEditDate, modify in E2.
  inversion E2; subst; clear E2.
  apply audit_update_effect in E1 as (Hl & Ha & Hr & Ht & He & Htr).
  simpl. rewrite Ha, Hr, Ht, He, Htr. repeat split. exact Hl.
Qed.

Lemma tool_tuples_In (uniqueId : string) (x : string * string * string)
  (t : Table Tool) :
  In x (tool_tuples uniqueId t)
  <-> exists r, In r (rows t)
                /\ tool_auditUniqueId r = Some uniqueId
                /\ (tool_name r, tool_function r, tool_url r) = x.
Proof.
  unfold tool_tuples. rewrite in_map_iff. split.
  - intros (r & He & Hin). apply filter_In in Hin as [Hin Hc].
    apply child_of_iff in Hc. now exists r.
  - intros (r & Hin & Hc & He). exists r. split; [exact He|].
    apply filter_In. split; [exact Hin | now apply child_of_iff].
Qed.

Lemma tools_deleteMany_tuples (uniqueId : string) (ts : list ToolDto)
  (t : Table Tool) (n f u : string) :
  In (n, f, u) (tool_tuples uniqueId (AuditService.tools_deleteMany uniqueId ts t))
  <-> In (n, f, u) (tool_tuples uniqueId t)
      /\ In n (map td_name ts)
      /\ In f (map td_function ts)
      /\ In u (map td_url ts).
Proof.
  rewrite !tool_tuples_In.
  unfold AuditService.tools_deleteMany, Prisma.deleteMany. simpl. split.
  - intros (r & Hin & Hc & He). apply filter_In in Hin as [Hin Hk].
    inversion He; subst; clear He.
    apply negb_true_iff, andb_false_iff in Hk.
    split; [now exists r|].
    destruct Hk as [Hk|Hk]; [apply child_of_iff in Hc; congruence|].
    apply orb_false_iff in Hk as [Hk H3].
    apply orb_false_iff in Hk as [H1 H2].
    apply notIn_false_iff in H1, H2, H3. now repeat split.
  - intros [(r & Hin & Hc & He) (H1 & H2 & H3)]. exists r.
    split; [|now split]. apply filter_In. split; [exact Hin|].
    inversion He; subst; clear He.
    apply negb_true_iff, andb_false_iff. right.
    apply notIn_false_iff in H1, H2, H3. now rewrite H1, H2, H3.
Qed.

Lemma tools_updateMany_tuples (uniqueId : string) (x : ToolDto)
  (t : Table Tool) :
  tool_tuples uniqueId
    (Prisma.updateMany
       (name_function_url_auditUniqueId (td_name x) (td_function x) (td_url x)
          uniqueId)
       (fun r =>
          mkTool (tool_id r) (td_name x) (td_function x) (td_url x)
            (tool_auditUniqueId r)) t)
  = tool_tuples uniqueId t.
Proof.
  unfold tool_tuples, Prisma.updateMany. simpl.
  induction (rows t) as [|r l IH]; simpl; [reflexivity|].
  destruct (name_function_url_auditUniqueId _ _ _ _ r) eqn:Eh; simpl.
  - unfold name_function_url_auditUniqueId in Eh.
    apply andb_true_iff in Eh as [Eh Hc]. apply andb_true_iff in Eh as [Eh H3].
    apply andb_true_iff in Eh as [H1 H2]. rewrite Hc. simpl.
    apply String.eqb_eq in H1, H2, H3. now rewrite IH, H1, H2, H3.
  - destruct (Prisma.child_of uniqueId (tool_auditUniqueId r)); simpl;
      now rewrite IH.
Qed.

Lemma tools_upsert_tuples (uniqueId : string) (x : ToolDto) (t : Table Tool)
  (y : string * string * string) :
  In y (tool_tuples uniqueId (AuditService.tools_upsert uniqueId x t))
  <-> In y (tool_tuples uniqueId t) \/ y = tuple_of x.
Proof.
  unfold AuditService.tools_upsert, Prisma.upsert, tuple_of.
  destruct (existsb _ (rows t)) eqn:E.
  - rewrite tools_updateMany_tuples.
    split; [now left|]. intros [H| ->]; [exact H|].
    apply existsb_exists in E as (r & Hin & Hh).
    unfold name_function_url_auditUniqueId in Hh.
    apply andb_true_iff in Hh as [Hh Hc]. apply andb_true_iff in Hh as [Hh H3].
    apply andb_true_iff in Hh as [H1 H2].
    apply String.eqb_eq in H1, H2, H3. apply child_of_iff in Hc.
    apply tool_tuples_In. exists r. split; [exact Hin|].
    split; [exact Hc | now rewrite H1, H2, H3].
  - rewrite !tool_tuples_In. unfold Prisma.create. simpl. split.
    + intros (r & Hin & Hc & He). apply in_app_or in Hin as [Hin|[<-|[]]].
      * left. now exists r.
      * right. now rewrite <- He.
    + intros [(r & Hin & Hc & He)| ->].
      * exists r. split; [apply in_or_app; now left | now split].
      * eexists. split; [apply in_or_app; right; now left|].
        now split.
Qed.

Lemma tools_upserts_tuples (uniqueId : string) (ts : list ToolDto)
  (y : string * string * string) :
  forall t,
    In y (tool_tuples uniqueId
            (fold_left (fun t x => AuditService.tools_upsert uniqueId x t) ts t))
    <-> In y (tool_tuples uniqueId t) \/ In y (map tuple_of ts).
Proof.
  induction ts as [|x ts IH]; intros t; simpl; [tauto|].
  rewrite IH, tools_upsert_tuples. split.
  - intros [[H|H]|H]; auto.
  - intros [H|[H|H]]; auto.
Qed.

(** What update-audit does for the tools: after a call that succeeds, the
    tuples of the audit's tools are those of the payload together with
    every stored tuple whose name, function and url each occur in the
    payload's column of that field.  Every tuple of the payload is stored;
    a stored tuple that is not in the payload is deleted only if one of its
    three fields occurs in no tuple of the payload. *)
Theorem updateAudit_tools_are_payload_and_columnwise_survivors :
  forall (now : DateTime) (uniqueId : string) (data : UpdateAuditDto)
    (db db' : DB) (audit : AuditWithIncludes),
    AuditService.updateAudit now uniqueId data db = (Return (Some audit), db') ->
    forall n f u : string,
      In (n, f, u) (tool_tuples uniqueId (db_tool db'))
      <-> In (n, f, u) (map tuple_of (ua_tools data))
          \/ (In (n, f, u) (tool_tuples uniqueId (db_tool db))
              /\ In n (map td_name (ua_tools data))
              /\ In f (map td_function (ua_tools data))
              /\ In u (map td_url (ua_tools data))).
Proof.
  intros now uniqueId data db db' audit H n f u.
  apply updateAudit_effect in H as (_ & _ & _ & Ht & _).
  rewrite Ht. unfold tools_after.
  rewrite tools_upserts_tuples, tools_deleteMany_tuples. tauto.
Qed.

(** ** Traces are never lost *)

Lemma keeps_traces_refl (db : DB) : keeps_traces db db.
Proof. split; auto. Qed.

Lemma keeps_traces_of_tables (db db' : DB) :
  db_auditTrace db' = db_auditTrace db ->
  (forall a', In a' (rows (db_audit db')) ->
     exists a, In a (rows (db_audit db))
               /\ audit_editUniqueId a = audit_editUniqueId a') ->
  keeps_traces db db'.
Proof.
  intros Ht Ha. split.
  - intros u (t & Hin & Hu). exists t. rewrite Ht. now split.
  - intros Htr a' Ha'. destruct (Ha a' Ha') as (a & Hin & <-).
    destruct (Htr a Hin) as (t & Htin & Hu). exists t. rewrite Ht. now split.
Qed.

Lemma updateMany_edit_ids (w : Audit -> bool) (f : Audit -> Audit)
  (t : Table Audit) :
  (forall a, audit_editUniqueId (f a) = audit_editUniqueId a) ->
  forall a', In a' (rows (Prisma.updateMany w f t)) ->
    exists a, In a (rows t) /\ audit_editUniqueId a = audit_editUniqueId a'.
Proof.
  intros Hf a' Hin. unfold Prisma.updateMany in Hin. simpl in Hin.
  apply in_map_iff in Hin as (a & <- & Hin). exists a. split; [exact Hin|].
  destruct (w a); [now rewrite Hf | reflexivity].
Qed.

Lemma createAudit_keeps_traces (e c : string) (body : CreateAuditDto)
  (db : DB) :
  keeps_traces db (snd (AuditService.createAudit e c body db)).
Proof.
  destruct (AuditService.createAudit e c body db) as [[created|ex] db1] eqn:E.
  - apply createAudit_effect in E as (Ht & Ha & He & _). simpl. split.
    + intros u (t & Hin & Hu). exists t. rewrite Ht. simpl.
      split; [apply in_or_app; now left | exact Hu].
    + intros Htr a Hin. rewrite Ha in Hin. simpl in Hin.
      apply in_app_or in Hin as [Hin|[<-|[]]].
      * destruct (Htr a Hin) as (t & Htin & Hu). exists t. rewrite Ht. simpl.
        split; [apply in_or_app; now left | exact Hu].
      * eexists. rewrite Ht. simpl.
        split; [apply in_or_app; right; now left|]. simpl. now rewrite He.
  - unfold AuditService.createAudit in E.
    apply transaction_fail_keeps in E. subst. apply keeps_traces_refl.
Qed.

Lemma updateAudit_keeps_traces (now : DateTime) (u : string)
  (data : UpdateAuditDto) (db : DB) :
  keeps_traces db (snd (AuditService.updateAudit now u data db)).
Proof.
  destruct (AuditService.updateAudit now u data db) as [[[audit|]|ex] db1]
    eqn:E.
  - apply updateAudit_effect in E as (_ & Ha & _ & _ & _ & Ht). simpl.
    apply keeps_traces_of_tables; [exact Ht|].
    intros a' Hin. rewrite Ha in Hin. unfold stamped in Hin.
    apply updateMany_edit_ids in Hin as (a1 & Hin & <-); [|reflexivity].
    apply updateMany_edit_ids in Hin as (a0 & Hin & <-); [|reflexivity].
    now exists a0.
  - pose proof (updateAudit_unchanged now u data db) as H.
    rewrite E in H. simpl in H. rewrite H by discriminate.
    apply keeps_traces_refl.
  - pose proof (updateAudit_unchanged now u data db) as H.
    rewrite E in H. simpl in H. rewrite H by discriminate.
    apply keeps_traces_refl.
Qed.

Lemma updateResults_keeps_traces (now : DateTime) (u : string)
  (body : UpdateResultsDto) (db : DB) :
  keeps_traces db (snd (AuditService.updateResults now u body db)).
Proof.
  rewrite updateResults_eq.
  destruct (forallb _ _); [|apply keeps_traces_refl].
  simpl. apply keeps_traces_of_tables; [reflexivity|].
  intros a' Hin. simpl in Hin. unfold stamped in Hin.
  now apply updateMany_edit_ids in Hin.
Qed.

Lemma publishAudit_keeps_traces (now : DateTime) (u : string) (db : DB) :
  keeps_traces db (snd (AuditService.publishAudit now u db)).
Proof.
  destruct (Prisma.findUnique (editUniqueId_is u) (db_audit db)) as [a|] eqn:E.
  - rewrite (service_publishAudit_found now u db a E). simpl.
    apply keeps_traces_of_tables; [reflexivity|].
    intros a' Hin. simpl in Hin.
    now apply updateMany_edit_ids in Hin.
  - rewrite (service_publishAudit_missing now u db E).
    apply keeps_traces_refl.
Qed.

Lemma deleteAudit_keeps_traces (u : string) (db : DB) :
  keeps_traces db (snd (AuditService.deleteAudit u db)).
Proof.
  destruct (Prisma.findUnique (editUniqueId_is u) (db_audit db)) as [a|] eqn:E.
  - assert (Hl : live u db).
    { apply find_some in E as [Hin Hh]. exists a. split; [exact Hin|].
      now apply String.eqb_eq. }
    destruct (deleteAudit_live u db Hl) as (db2 & Hd & Ht & Ha).
    rewrite Hd. simpl. apply keeps_traces_of_tables; [exact Ht|].
    intros a' Hin. rewrite Ha in Hin. simpl in Hin.
    apply filter_In in Hin as [Hin _]. now exists a'.
  - apply findUnique_audit_none_iff in E.
    rewrite (service_deleteAudit_missing u db E). apply keeps_traces_refl.
Qed.

(** Whatever a handler does, no trace record is lost and, if every live
    audit had its trace before, every live audit has its trace afterwards.
    The empty store has the property; so a token that no trace holds in a
    store reached from it is the token of no audit, live or deleted. *)
Lemma handlers_keep_traces :
  traced empty_db
  /\ forall (CRITERIA : list Criterion) (db : DB),
       (forall e c body,
          keeps_traces db (snd (AuditsController.createAudit e c body db)))
       /\ (forall u, keeps_traces db (snd (AuditsController.getAudit u db)))
       /\ (forall now u body,
             keeps_traces db (snd (AuditsController.updateAudit now u body db)))
       /\ (forall u,
             keeps_traces db
               (snd (AuditsController.getAuditResults CRITERIA u db)))
       /\ (forall now u body,
             keeps_traces db
               (snd (AuditsController.updateAuditResults now u body db)))
       /\ (forall now u,
             keeps_traces db (snd (AuditsController.publishAudit now u db)))
       /\ (forall u, keeps_traces db (snd (AuditsController.deleteAudit u db))).
Proof.
  split; [intros a []|].
  intros CRITERIA db.
  split; [|split; [|split; [|split; [|split; [|split]]]]].
  - intros e c body. apply createAudit_keeps_traces.
  - intros u. unfold AuditsController.getAudit.
    destruct (AuditService.getAuditWithEditUniqueId u db);
      [|rewrite sendAuditNotFoundStatus_eq]; apply keeps_traces_refl.
  - intros now u body.
    pose proof (updateAudit_keeps_traces now u body db) as H.
    unfold AuditsController.updateAudit.
    destruct (AuditService.updateAudit now u body db) as [[[a|]|ex] d];
      [exact H | | exact H].
    rewrite sendAuditNotFoundStatus_eq. exact H.
  - intros u. apply keeps_traces_refl.
  - intros now u body. unfold AuditsController.updateAuditResults.
    destruct (AuditService.getAuditWithEditUniqueId u db).
    + apply updateResults_keeps_traces.
    + rewrite sendAuditNotFoundStatus_eq. apply keeps_traces_refl.
  - intros now u.
    pose proof (publishAudit_keeps_traces now u db) as H.
    unfold AuditsController.publishAudit.
    destruct (negb (AuditService.isAuditComplete u db));
      [apply keeps_traces_refl|].
    destruct (AuditService.publishAudit now u db) as [[[a|]|ex] d];
      [exact H | | exact H].
    rewrite sendAuditNotFoundStatus_eq. exact H.
  - intros u.
    pose proof (deleteAudit_keeps_traces u db) as H.
    unfold AuditsController.deleteAudit.
    destruct (AuditService.deleteAudit u db) as [[[|]|ex] d];
      [exact H | | exact H].
    rewrite sendAuditNotFoundStatus_eq. exact H.
Qed.

Lemma updateAudit_recipients_are_the_payload_witness :
  exists db',
    snd (AuditService.updateAudit 50 "edit-2" reinvited_update
           twice_invited_db)
    = db'
    /\ In "bob@example.org" (recipient_emails "edit-2" (db_recipent db'))
    /\ In "eve@example.org" (recipient_emails "edit-2" (db_recipent db'))
    /\ (In "ada@example.org" (recipient_emails "edit-2" (db_recipent db'))
        <-> False)
    /\ filter
         (fun r => negb (Prisma.child_of "edit-2" (recipent_auditUniqueId r)))
         (rows (db_recipent db'))
       = [mkRecipent 3 "Ada" "ada@example.org" (Some "edit-3");
          mkRecipent 4 "Bob" "bob@example.org" (Some "edit-3")].
Proof.
  destruct (AuditService.updateAudit 50 "edit-2" reinvited_update
              twice_invited_db) as [[[audit|]|e] db'] eqn:E;
    [|vm_compute in E; discriminate..].
  exists db'. split; [reflexivity|].
  destruct (updateAudit_recipients_are_the_payload 50 "edit-2"
              reinvited_update twice_invited_db db' audit E) as [H ->].
  split; [apply H; left; reflexivity|].
  split; [apply H; right; left; reflexivity|].
  split; [|reflexivity].
  rewrite H. simpl. split; [|intros []].
  intros [Hx|[Hx|[]]]; discriminate.
Defined.

Lemma updateAudit_tools_are_payload_and_columnwise_survivors_witness :
  exists db',
    snd (AuditService.updateAudit 50 "edit-1" swapped_payload tools_sample_db)
    = db'
    /\ In ("Wave", "extension", "https://tools.example")
         (tool_tuples "edit-1" (db_tool db'))
    /\ ~ In ("Wave", "extension", "https://tools.example")
           (map tuple_of (ua_tools swapped_payload)).
Proof.
  destruct (AuditService.updateAudit 50 "edit-1" swapped_payload
              tools_sample_db) as [[[audit|]|e] db'] eqn:E;
    [|vm_compute in E; discriminate..].
  exists db'. split; [reflexivity|]. split.
  - apply (updateAudit_tools_are_payload_and_columnwise_survivors 50 "edit-1"
             swapped_payload tools_sample_db db' audit E).
    right. vm_compute. intuition.
  - vm_compute. intros [H|[H|[]]]; discriminate.
Defined.

(** ** The foreign keys hold in every store reached *)

Lemma foreign_keys_ext (db db' : DB) :
  db_auditedPage db' = db_auditedPage db ->
  db_criterionResult db' = db_criterionResult db ->
  (forall u, live u db -> live u db') ->
  foreign_keys db -> foreign_keys db'.
Proof.
  intros Hp Hr Hl [H1 H2]. split.
  - intros p u Hin Hu. rewrite Hp in Hin. apply Hl. exact (H1 p u Hin Hu).
  - intros r Hin. rewrite Hr in Hin. rewrite Hp. exact (H2 r Hin).
Qed.

Lemma live_updateMany (w : Audit -> bool) (f : Audit -> Audit)
  (db db' : DB) (u : string) :
  (forall a, audit_editUniqueId (f a) = audit_editUniqueId a) ->
  db_audit db' = Prisma.updateMany w f (db_audit db) ->
  live u db -> live u db'.
Proof.
  intros Hf E (a & Hin & Hu). rewrite <- Hu.
  exists (if w a then f a else a). split.
  - rewrite E. simpl. apply in_map_iff. now exists a.
  - destruct (w a); [apply Hf | reflexivity].
Qed.

Lemma live_same_audits (db db' : DB) (u : string) :
  db_audit db' = db_audit db -> live u db -> live u db'.
Proof. intros E (a & Hin & Hu). exists a. rewrite E. now split. Qed.

Lemma pages_deleteMany_foreign_keys (uniqueId : string)
  (updatedPages : list UpdateAuditPage) (db db' : DB) :
  AuditService.pages_deleteMany uniqueId updatedPages db = Return (tt, db') ->
  foreign_keys db -> foreign_keys db'.
Proof.
  unfold AuditService.pages_deleteMany, modify. intros H [H1 H2].
  inversion H; subst; clear H. split.
  - intros p u Hin Hu. simpl in Hin. apply filter_In in Hin as [Hin _].
    destruct (H1 p u Hin Hu) as (a & Ha & Hau). exists a. now split.
  - intros r Hin. simpl in Hin. apply filter_In in Hin as [Hin Hkeep].
    apply negb_true_iff in Hkeep.
    destruct (H2 r Hin) as (p & Hp & Href). exists p. split; [|exact Href].
    simpl. apply filter_In. split; [exact Hp|].
    apply negb_true_iff.
    destruct (Prisma.child_of uniqueId (page_auditUniqueId p)
              && Prisma.notInZ (page_id p) (map uap_id updatedPages)) eqn:Eg;
      [|reflexivity].
    exfalso. rewrite existsb_false_iff in Hkeep.
    rewrite (Hkeep p) in Href; [discriminate|].
    apply filter_In. now split.
Qed.

Lemma pages_update_foreign_keys (uniqueId : string) (p : UpdateAuditPage)
  (db db' : DB) :
  AuditService.pages_update uniqueId p db = Return (tt, db') ->
  foreign_keys db -> foreign_keys db'.
Proof.
  unfold AuditService.pages_update. intros H [H1 H2].
  destruct (Prisma.findUnique _ _) as [old|]; [|discriminate].
  destruct (existsb _ _); [discriminate|].
  inversion H; subst; clear H. split.
  - intros q u Hin Hu. simpl in Hin. apply in_map_iff in Hin as (q0 & <- & Hin).
    destruct (H1 q0 u Hin) as (a & Ha & Hau).
    + destruct (_ && _) in Hu; exact Hu.
    + exists a. now split.
  - intros r Hin. simpl in Hin. apply in_map_iff in Hin as (r0 & Er & Hin).
    destruct (H2 r0 Hin) as (q & Hq & Href).
    match type of Er with
    | (if ?c then _ else _) = _ => destruct c eqn:Ec
    end; subst r.
    + apply existsb_exists in Ec as (q1 & Hq1 & Hh).
      apply andb_true_iff in Hh as [Hh Href1].
      exists (mkAuditedPage (page_id q1) (uap_name p) (uap_url p)
                (page_auditUniqueId q1)).
      split.
      * simpl. apply in_map_iff. exists q1. now rewrite Hh.
      * unfold references in *. simpl.
        apply andb_true_iff in Href1 as [_ Hc1].
        now rewrite String.eqb_refl, Hc1.
    + exists q. split; [|exact Href].
      simpl. apply in_map_iff. exists q. split; [|exact Hq].
      rewrite existsb_false_iff in Ec. specialize (Ec q Hq).
      cbv beta in Ec. rewrite Href, andb_true_r in Ec. now rewrite Ec.
Qed.

Lemma pages_create_foreign_keys (uniqueId : string) (p : UpdateAuditPage)
  (db db' : DB) :
  AuditService.pages_create uniqueId p db = Return (tt, db') ->
  live uniqueId db -> foreign_keys db -> foreign_keys db'.
Proof.
  unfold AuditService.pages_create. cbv [bind gets]. intros H Hl [H1 H2].
  destruct (existsb _ _); [discriminate|].
  cbv [modify] in H. inversion H; subst; clear H. split.
  - intros q u Hin Hu. simpl in Hin.
    apply in_app_or in Hin as [Hin|[<-|[]]].
    + destruct (H1 q u Hin Hu) as (a & Ha & Hau). exists a. now split.
    + simpl in Hu. inversion Hu; subst.
      destruct Hl as (a & Ha & Hau). exists a. now split.
  - intros r Hin. simpl in Hin. destruct (H2 r Hin) as (q & Hq & Href).
    exists q. split; [|exact Href]. simpl. apply in_or_app. now left.
Qed.

Lemma audit_update_foreign_keys (uniqueId : string) (data : UpdateAuditDto)
  (updatedPages newPages : list UpdateAuditPage) (db db' : DB)
  (audit : AuditWithIncludes) :
  AuditService.audit_update uniqueId data updatedPages newPages db
  = Return (audit, db') ->
  foreign_keys db -> foreign_keys db'.
Proof.
  unfold AuditService.audit_update. intros H Hfk.
  apply bind_Return in H as (found & d0 & H0 & H).
  unfold gets in H0. inversion H0; subst; clear H0.
  destruct (Prisma.findUnique _ _) as [a|] eqn:Ef; [|discriminate].
  assert (Hl : live uniqueId d0).
  { apply find_some in Ef as [Hin Hh]. exists a. split; [exact Hin|].
    now apply String.eqb_eq. }
  apply bind_Return in H as ([] & d1 & H1 & H).
  unfold modify in H1. inversion H1; subst; clear H1.
  apply bind_Return in H as ([] & d2 & H2 & H).
  rewrite update_recipients_eq in H2. inversion H2; subst; clear H2.
  apply bind_Return in H as ([] & d3 & H3 & H).
  rewrite update_tools_eq in H3. inversion H3; subst; clear H3.
  apply bind_Return in H as ([] & d4 & H4 & H).
  rewrite update_environments_eq in H4. inversion H4; subst; clear H4.
  apply bind_Return in H as ([] & d5 & H5 & H).
  apply bind_Return in H as ([] & d6 & H6 & H).
  apply bind_Return in H as ([] & d7 & H7 & H).
  unfold gets in H. inversion H; subst; clear H.
  match type of H5 with
  | AuditService.pages_deleteMany _ _ ?d = _ =>
      assert (Hl4 : live uniqueId d);
      [|assert (Hfk4 : foreign_keys d)]
  end.
  { apply (live_updateMany (editUniqueId_is uniqueId)
             (AuditService.update_scalars data) d0); [reflexivity..|exact Hl]. }
  { apply (foreign_keys_ext d0); [reflexivity..| |exact Hfk].
    intros u. apply (live_updateMany (editUniqueId_is uniqueId)
                       (AuditService.update_scalars data));
      reflexivity. }
  pose proof (pages_deleteMany_foreign_keys _ _ _ _ H5 Hfk4) as Hfk5.
  assert (Hl5 : live uniqueId d5).
  { unfold AuditService.pages_deleteMany, modify in H5.
    inversion H5; subst. exact Hl4. }
  assert (Hfk6 : foreign_keys d6).
  { exact (for_each_preserves foreign_keys _ _
             (fun x d d' Hx => pages_update_foreign_keys uniqueId x d d' Hx)
             d5 d6 H6 Hfk5). }
  assert (Hs6 : same_but_pages d5 d6).
  { exact (for_each_preserves (same_but_pages d5) _ _
             (fun x d d' => pages_update_frame uniqueId x d5 d d')
             d5 d6 H6 (same_but_pages_refl d5)). }
  assert (Hl6 : live uniqueId d6).
  { destruct Hs6 as (Ha & _). now apply (live_same_audits d5). }
  assert (H : same_but_pages d6 db' /\ foreign_keys db').
  { apply (for_each_preserves
             (fun d => same_but_pages d6 d /\ foreign_keys d) _ _) with
      (db := d6) (db' := db') in H7; [exact H7| |].
    - intros x d d' Hx [Hs Hk]. split.
      + exact (pages_create_frame uniqueId x d6 d d' Hx Hs).
      + apply (pages_create_foreign_keys uniqueId x d d' Hx); [|exact Hk].
        destruct Hs as (Ha & _). now apply (live_same_audits d6).
    - split; [apply same_but_pages_refl | exact Hfk6]. }
  exact (proj2 H).
Qed.

Lemma updateAudit_foreign_keys (now : DateTime) (u : string)
  (data : UpdateAuditDto) (db : DB) :
  foreign_keys db ->
  foreign_keys (snd (AuditService.updateAudit now u data db)).
Proof.
  intros Hfk.
  destruct (AuditService.updateAudit now u data db) as [[[audit|]|ex] db1]
    eqn:E.
  - simpl. unfold AuditService.updateAudit, AuditService.updateAudit_try,
      transaction in E.
    match type of E with
    | AuditService.catch_P2025 _ _ (match ?m with _ => _ end) = _ =>
        destruct m as [[x d]|e] eqn:Em
    end.
    2:{ unfold AuditService.catch_P2025 in E.
        destruct (is_P2025 e); discriminate. }
    simpl in E. inversion E; subst; clear E.
    apply bind_Return in Em as (a & d1 & E1 & Em).
    apply bind_Return in Em as ([] & d2 & E2 & Em).
    unfold ret in Em. inversion Em; subst; clear Em.
    unfold AuditService.updateAuditEditDate, modify in E2.
    inversion E2; subst; clear E2.
    apply audit_update_foreign_keys in E1; [|exact Hfk].
    apply (foreign_keys_ext d1); [reflexivity..| |exact E1].
    intros v.
    apply (live_updateMany
             (fun a0 =>
                editUniqueId_is u a0 && is_some (audit_publicationDate a0))
             (AuditService.edited now)); reflexivity.
  - pose proof (updateAudit_unchanged now u data db) as H.
    rewrite E in H. simpl in H. simpl. rewrite H by discriminate. exact Hfk.
  - pose proof (updateAudit_unchanged now u data db) as H.
    rewrite E in H. simpl in H. simpl. rewrite H by discriminate. exact Hfk.
Qed.

Lemma apply_batch_rows (uniqueId : string) (b : list UpdateResultsItem) :
  forall t r,
    In r (rows (apply_batch uniqueId b t)) ->
    In r (rows t) \/ exists i, In i b /\ hits uniqueId i r = true.
Proof.
  induction b as [|i b IH]; intros t r Hr; [now left|].
  change (apply_batch uniqueId (i :: b) t)
    with (apply_batch uniqueId b (upsert_table uniqueId t i)) in Hr.
  apply IH in Hr as [Hr|(j & Hj & E)].
  - destruct (existsb (hits uniqueId i) (rows t)) eqn:E.
    + rewrite upsert_table_present in Hr by exact E. simpl in Hr.
      apply in_map_iff in Hr as (r0 & <- & Hr0).
      destruct (hits uniqueId i r0) eqn:Eh.
      * right. exists i. split; [now left|].
        now rewrite hits_overwrite_step.
      * left. now rewrite overwrite_step_miss.
    + rewrite upsert_table_absent in Hr by exact E. simpl in Hr.
      apply in_app_or in Hr as [Hr|[<-|[]]]; [now left|].
      right. exists i. split; [now left | apply hits_row_data].
  - right. exists j. split; [now right | exact E].
Qed.

Lemma updateResults_foreign_keys (now : DateTime) (u : string)
  (body : UpdateResultsDto) (db : DB) :
  foreign_keys db ->
  foreign_keys (snd (AuditService.updateResults now u body db)).
Proof.
  intros [H1 H2]. rewrite updateResults_eq.
  destruct (forallb (writable u db) (urd_data body)) eqn:E;
    [|now split].
  simpl. split.
  - intros p v Hin Hv. simpl in Hin.
    apply (live_updateMany
             (fun a0 =>
                editUniqueId_is u a0 && is_some (audit_publicationDate a0))
             (AuditService.edited now) db); [reflexivity..|].
    exact (H1 p v Hin Hv).
  - intros r Hin. simpl in Hin. simpl.
    apply apply_batch_rows in Hin as [Hin|(i & Hi & Hh)];
      [exact (H2 r Hin)|].
    rewrite forallb_forall in E. specialize (E i Hi).
    unfold writable in E. apply andb_true_iff in E as [E _].
    unfold connectable in E. apply existsb_exists in E as (p & Hp & Hc).
    exists p. split; [exact Hp|].
    unfold url_auditUniqueId in Hc. apply andb_true_iff in Hc as [Hu Hc].
    apply String.eqb_eq in Hu.
    unfold hits, auditUniqueId_pageUrl_topic_criterium in Hh.
    apply andb_true_iff in Hh as [Hh _]. apply andb_true_iff in Hh as [Hh _].
    apply andb_true_iff in Hh as [Ha Hurl].
    apply String.eqb_eq in Ha, Hurl.
    unfold references. now rewrite Hurl, Hu, String.eqb_refl, Ha.
Qed.

Lemma publishAudit_foreign_keys (now : DateTime) (u : string) (db : DB) :
  foreign_keys db ->
  foreign_keys (snd (AuditService.publishAudit now u db)).
Proof.
  intros Hfk.
  destruct (Prisma.findUnique (editUniqueId_is u) (db_audit db)) as [a|] eqn:E.
  - rewrite (service_publishAudit_found now u db a E). simpl.
    apply (foreign_keys_ext db); [reflexivity..| |exact Hfk].
    intros v.
    apply (live_updateMany (editUniqueId_is u) (AuditService.published now));
      reflexivity.
  - now rewrite (service_publishAudit_missing now u db E).
Qed.

Lemma deleteAudit_foreign_keys (u : string) (db : DB) :
  foreign_keys db -> foreign_keys (snd (AuditService.deleteAudit u db)).
Proof.
  intros [H1 H2].
  destruct (Prisma.findUnique (editUniqueId_is u) (db_audit db)) as [a|] eqn:E.
  - unfold AuditService.deleteAudit, AuditService.audit_delete, transaction,
      bind, gets, modify.
    rewrite E. simpl. split.
    + intros p v Hin Hv. simpl in Hin. apply filter_In in Hin as [Hin Hk].
      apply negb_true_iff in Hk.
      destruct (H1 p v Hin Hv) as (a0 & Ha0 & Hu0).
      exists a0. split; [|exact Hu0]. simpl. apply filter_In.
      split; [exact Ha0|]. apply negb_true_iff. unfold editUniqueId_is.
      rewrite Hu0. rewrite Hv in Hk. simpl in Hk. exact Hk.
    + intros r Hin. simpl in Hin. apply filter_In in Hin as [Hin Hk].
      apply negb_true_iff in Hk.
      destruct (H2 r Hin) as (p & Hp & Href). exists p. split; [|exact Href].
      simpl. apply filter_In. split; [exact Hp|]. apply negb_true_iff.
      destruct (Prisma.child_of u (page_auditUniqueId p)) eqn:Ec;
        [|reflexivity].
      exfalso. rewrite existsb_false_iff in Hk.
      rewrite (Hk p) in Href; [discriminate|].
      apply filter_In. now split.
  - apply findUnique_audit_none_iff in E.
    rewrite (service_deleteAudit_missing u db E). now split.
Qed.

Lemma recipients_create_frame_pages (uniqueId : string)
  (xs : list RecipientDto) (db db' : DB) :
  for_each (AuditService.recipients_create uniqueId) xs db = Return (tt, db') ->
  db_auditedPage db' = db_auditedPage db
  /\ db_criterionResult db' = db_criterionResult db.
Proof.
  intros H.
  apply (for_each_preserves
           (fun x => db_auditedPage x = db_auditedPage db
                     /\ db_criterionResult x = db_criterionResult db)) in H;
    [exact H| |now split].
  intros r d0 d0' Hr [H1 H2].
  unfold AuditService.recipients_create in Hr. cbv [bind gets] in Hr.
  destruct (existsb _ _); [discriminate|].
  cbv [modify] in Hr. inversion Hr; subst. simpl. now split.
Qed.

Lemma createAudit_foreign_keys (e c : string) (body : CreateAuditDto)
  (db : DB) :
  foreign_keys db ->
  foreign_keys (snd (AuditService.createAudit e c body db)).
Proof.
  intros Hfk.
  destruct (AuditService.createAudit e c body db) as [[created|ex] db1] eqn:E.
  - pose proof (createAudit_effect _ _ _ _ _ _ E) as (_ & Ha & _).
    unfold AuditService.createAudit, transaction in E.
    cbv [bind gets] in E.
    destruct (existsb _ (rows (db_auditTrace db))
              || existsb _ (rows (db_audit db))); [discriminate|].
    cbv [modify] in E.
    destruct (for_each _ _ _) as [[[] d2]|e'] eqn:Ef; [|discriminate].
    apply recipients_create_frame_pages in Ef as [Hp Hr].
    inversion E; subst. simpl.
    apply (foreign_keys_ext db); [exact Hp | exact Hr | | exact Hfk].
    intros u (a & Hin & Hu). exists a. split; [|exact Hu].
    rewrite Ha. simpl. apply in_or_app. now left.
  - unfold AuditService.createAudit in E.
    apply transaction_fail_keeps in E. now subst.
Qed.

(** What every handler preserves: no trace is lost, live audits keep their
    trace, and the foreign keys of pages and of results keep holding. *)
Lemma handled_keeps_invariants (CRITERIA : list Criterion) (db db' : DB) :
  handled CRITERIA db db' ->
  traced db /\ foreign_keys db -> traced db' /\ foreign_keys db'.
Proof.
  intros Hs [Ht Hfk].
  destruct handlers_keep_traces as [_ H].
  destruct (H CRITERIA db) as (H1 & H2 & H3 & H4 & H5 & H6 & H7).
  destruct Hs.
  - split; [now apply H1|]. now apply createAudit_foreign_keys.
  - split; [now apply H2|]. unfold AuditsController.getAudit.
    destruct (AuditService.getAuditWithEditUniqueId u db);
      [|rewrite sendAuditNotFoundStatus_eq]; exact Hfk.
  - split; [now apply H3|].
    pose proof (updateAudit_foreign_keys now u body db Hfk) as Hk.
    unfold AuditsController.updateAudit.
    destruct (AuditService.updateAudit now u body db) as [[[a|]|ex] d];
      [exact Hk | | exact Hk].
    rewrite sendAuditNotFoundStatus_eq. exact Hk.
  - split; [now apply H4 | exact Hfk].
  - split; [now apply H5|]. unfold AuditsController.updateAuditResults.
    destruct (AuditService.getAuditWithEditUniqueId u db).
    + now apply updateResults_foreign_keys.
    + rewrite sendAuditNotFoundStatus_eq. exact Hfk.
  - split; [now apply H6|].
    pose proof (publishAudit_foreign_keys now u db Hfk) as Hk.
    unfold AuditsController.publishAudit.
    destruct (negb (AuditService.isAuditComplete u db)); [exact Hfk|].
    destruct (AuditService.publishAudit now u db) as [[[a|]|ex] d];
      [exact Hk | | exact Hk].
    rewrite sendAuditNotFoundStatus_eq. exact Hk.
  - split; [now apply H7|].
    pose proof (deleteAudit_foreign_keys u db Hfk) as Hk.
    unfold AuditsController.deleteAudit.
    destruct (AuditService.deleteAudit u db) as [[[|]|ex] d];
      [exact Hk | | exact Hk].
    rewrite sendAuditNotFoundStatus_eq. exact Hk.
Qed.

(** In every store the handlers can reach from the empty one, each live
    audit has its trace record, every page of an audit belongs to a live
    audit and every result row has its page.  So, there, get-audit on a
    token that no trace holds throws Not Found, and a token with no live
    audit has no stored result and gets the empty array from get-results. *)
Theorem reachable_stores_are_consistent :
  forall (CRITERIA : list Criterion) (db : DB),
    reachable CRITERIA db ->
    traced db
    /\ pages_fk db
    /\ results_fk db
    /\ (forall uniqueId,
          ~ has_trace uniqueId db ->
          AuditsController.getAudit uniqueId db
          = (Throw NotFoundException, db))
    /\ (forall uniqueId,
          ~ live uniqueId db ->
          AuditService.isAuditComplete uniqueId db = true
          /\ AuditsController.getAuditResults CRITERIA uniqueId db
             = (Return [], db)).
Proof.
  intros CRITERIA db Hr.
  assert (Hinv : traced db /\ foreign_keys db).
  { induction Hr as [|db db' Hr IH Hs].
    - split; [intros a []|]. split; [intros p u [] | intros r []].
    - exact (handled_keeps_invariants CRITERIA db db' Hs IH). }
  destruct Hinv as (Ht & Hp & Hres).
  split; [exact Ht|]. split; [exact Hp|]. split; [exact Hres|]. split.
  - intros uniqueId Hn.
    assert (Hl : ~ live uniqueId db).
    { intros (a & Hin & Hu). apply Hn. rewrite <- Hu. now apply Ht. }
    destruct (handlers_on_miss uniqueId db Hl) as (H1 & _).
    rewrite H1. cbv zeta. now rewrite lookup_miss_not_found.
  - intros uniqueId Hl. split.
    + now apply complete_without_audit.
    + unfold AuditsController.getAuditResults. simpl.
      rewrite getResults_unfold.
      now rewrite (audit_pages_not_live uniqueId db Hp Hl).
Qed.

Lemma reachable_stores_are_consistent_witness :
  reachable [] created_sample_db
  /\ AuditsController.getAudit "never-issued" created_sample_db
     = (Throw NotFoundException, created_sample_db)
  /\ AuditsController.getAuditResults [] "never-issued" created_sample_db
     = (Return [], created_sample_db)
  /\ reachable [mkCriterion 1 1; mkCriterion 1 2] bereft_sample_db
  /\ List.length (rows (db_auditedPage bereft_sample_db)) = 2%nat
  /\ List.length (rows (db_criterionResult bereft_sample_db)) = 3%nat
  /\ AuditsController.getAudit "never-issued" bereft_sample_db
     = (Throw NotFoundException, bereft_sample_db)
  /\ AuditsController.getAuditResults [mkCriterion 1 1; mkCriterion 1 2]
       "edit-2" bereft_sample_db
     = (Return [], bereft_sample_db).
Proof.
  assert (Hr : reachable [] created_sample_db).
  { apply (reachable_next [] empty_db); [apply reachable_empty|].
    exact (handled_createAudit [] "edit-1" "consult-1" sample_create
             empty_db). }
  split; [exact Hr|].
  destruct (reachable_stores_are_consistent [] created_sample_db Hr)
    as (_ & _ & _ & H1 & H2).
  split; [|split].
  - apply H1. intros (t & [<-|[]] & Hu). discriminate.
  - apply H2. intros (a & [<-|[]] & Hu). discriminate.
  - set (catalogue := [mkCriterion 1 1; mkCriterion 1 2]).
    assert (Hb : reachable catalogue bereft_sample_db).
    { apply (reachable_next catalogue
               (snd (AuditsController.createAudit "edit-2" "consult-2"
                       sample_create audited_sample_db)));
        [|exact (handled_deleteAudit catalogue "edit-2" _)].
      apply (reachable_next catalogue audited_sample_db);
        [|exact (handled_createAudit catalogue "edit-2" "consult-2"
                   sample_create audited_sample_db)].
      apply (reachable_next catalogue paged_sample_db);
        [|exact (handled_updateAuditResults catalogue 20 "edit-1"
                   sample_results paged_sample_db)].
      apply (reachable_next catalogue created_sample_db);
        [|exact (handled_updateAudit catalogue 10 "edit-1" sample_update
                   created_sample_db)].
      apply (reachable_next catalogue empty_db); [apply reachable_empty|].
      exact (handled_createAudit catalogue "edit-1" "consult-1"
               sample_create empty_db). }
    split; [exact Hb|]. split; [reflexivity|]. split; [reflexivity|].
    destruct (reachable_stores_are_consistent catalogue bereft_sample_db Hb)
      as (_ & _ & _ & H3 & H4).
    split.
    + apply H3. intros (t & [<-|[<-|[]]] & Hu); discriminate.
    + apply H4. intros (a & [<-|[]] & Hu). discriminate.
Defined.

Lemma connectable_iff (uniqueId : string) (db : DB) (item : UpdateResultsItem) :
  connectable uniqueId db item = true
  <-> has_page uniqueId (ur_pageUrl item) db.
Proof.
  unfold connectable, has_page. rewrite existsb_exists. split.
  - intros (p & Hp & Hc). unfold url_auditUniqueId in Hc.
    apply andb_true_iff in Hc as [Hu Hc]. apply String.eqb_eq in Hu.
    apply child_of_iff in Hc. now exists p.
  - intros (p & Hp & Hc & Hu). exists p. split; [exact Hp|].
    unfold url_auditUniqueId. apply andb_true_iff. split.
    + now apply String.eqb_eq.
    + now apply child_of_iff.
Qed.

Lemma getAudit_live (uniqueId : string) (db : DB) :
  live uniqueId db ->
  exists a, AuditService.getAuditWithEditUniqueId uniqueId db = Some a.
Proof.
  intros Hl. unfold AuditService.getAuditWithEditUniqueId.
  destruct (Prisma.findUnique _ _) eqn:E; [eauto|].
  apply findUnique_audit_none_iff in E. contradiction.
Qed.

(** What the upserts of a batch throw when they throw. *)
Lemma refusal_in_range (uniqueId : string) (db : DB)
  (b : list UpdateResultsItem) :
  (forall item, In item b -> storable item = true) ->
  refusal uniqueId db b = P2025.
Proof.
  intros Hs. induction b as [|i b IH]; simpl; [reflexivity|].
  destruct (connectable uniqueId db i); [|reflexivity]. simpl.
  rewrite (Hs i) by now left. simpl. apply IH. intros j Hj. apply Hs.
  now right.
Qed.

Lemma refusal_out_of_range (uniqueId : string) (db : DB)
  (b : list UpdateResultsItem) :
  (forall item, In item b -> connectable uniqueId db item = true) ->
  forallb (writable uniqueId db) b = false ->
  refusal uniqueId db b = P2020.
Proof.
  intros Hc. induction b as [|i b IH]; simpl; [discriminate|].
  unfold writable at 1. rewrite (Hc i) by now left. simpl.
  destruct (storable i); [|reflexivity]. simpl.
  apply IH. intros j Hj. apply Hc. now right.
Qed.

Lemma refusal_is_P2025_or_P2020 (uniqueId : string) (db : DB)
  (b : list UpdateResultsItem) :
  refusal uniqueId db b = P2025 \/ refusal uniqueId db b = P2020.
Proof.
  induction b as [|i b IH]; simpl; [now left|].
  destruct (connectable uniqueId db i); [|now left]. simpl.
  destruct (storable i); [exact IH | now right].
Qed.

(** update-results on an audit that exists stores the whole batch or nothing.
    The handler returns exactly when every item of the batch names the url
    of a page of the audit and has a topic and a criterion that fit their
    [Int] columns.  Otherwise it throws a Prisma error as it is (neither
    Gone nor Not Found) and the store is left as it was, the items that come
    before the failing one included: P2025 when the numbers fit and an item
    names no page of the audit, the [connect] of its upsert failing; P2020
    when the pages are there and a number does not fit.  When the handler
    returns, every item of the batch has its row. *)
Theorem updateAuditResults_needs_every_page :
  forall (now : DateTime) (uniqueId : string) (body : UpdateResultsDto)
    (db : DB),
    live uniqueId db ->
    let answer := AuditsController.updateAuditResults now uniqueId body db in
    (fst answer = Return tt
     <-> forall item, In item (urd_data body) ->
           has_page uniqueId (ur_pageUrl item) db /\ storable item = true)
    /\ (fst answer = Return tt
        \/ answer = (Throw P2025, db) \/ answer = (Throw P2020, db))
    /\ ((forall item, In item (urd_data body) -> storable item = true) ->
        (exists item, In item (urd_data body)
                      /\ ~ has_page uniqueId (ur_pageUrl item) db) ->
        answer = (Throw P2025, db))
    /\ ((forall item, In item (urd_data body) ->
           has_page uniqueId (ur_pageUrl item) db) ->
        (exists item, In item (urd_data body) /\ storable item = false) ->
        answer = (Throw P2020, db))
    /\ (fst answer = Return tt ->
        forall item, In item (urd_data body) ->
          exists r, In r (rows (db_criterionResult (snd answer)))
                    /\ hits uniqueId item r = true).
Proof.
  intros now uniqueId body db Hl answer.
  destruct (getAudit_live uniqueId db Hl) as (a & Ha).
  assert (E : answer = AuditService.updateResults now uniqueId body db).
  { unfold answer, AuditsController.updateAuditResults. now rewrite Ha. }
  rewrite E, updateResults_eq.
  destruct (forallb (writable uniqueId db) (urd_data body)) eqn:Ew.
  - rewrite forallb_forall in Ew.
    assert (Hw : forall item, In item (urd_data body) ->
                   has_page uniqueId (ur_pageUrl item) db
                   /\ storable item = true).
    { intros item Hi. specialize (Ew item Hi). unfold writable in Ew.
      apply andb_true_iff in Ew as [Ec Es]. split; [|exact Es].
      now apply connectable_iff. }
    split; [|split; [|split; [|split]]].
    + split; [|reflexivity]. intros _. exact Hw.
    + now left.
    + intros _ (item & Hi & Hn). exfalso. apply Hn. now apply Hw.
    + intros _ (item & Hi & Hn). exfalso.
      destruct (Hw item Hi) as [_ Hs]. congruence.
    + intros _ item Hi. simpl.
      pose proof (apply_batch_adds uniqueId (urd_data body)
                    (db_criterionResult db) item Hi) as H.
      apply existsb_exists in H. exact H.
  - split; [|split; [|split; [|split]]].
    + split; [discriminate|]. intros H. exfalso.
      assert (forallb (writable uniqueId db) (urd_data body) = true).
      { apply forallb_forall. intros item Hi. destruct (H item Hi) as [Hp Hs].
        unfold writable. apply andb_true_iff. split; [|exact Hs].
        now apply connectable_iff. }
      congruence.
    + right.
      destruct (refusal_is_P2025_or_P2020 uniqueId db (urd_data body))
        as [-> | ->]; [now left | now right].
    + intros Hs _.
      now rewrite (refusal_in_range uniqueId db (urd_data body) Hs).
    + intros Hp _.
      rewrite (refusal_out_of_range uniqueId db (urd_data body));
        [reflexivity| |exact Ew].
      intros item Hi. apply connectable_iff. now apply Hp.
    + discriminate.
Qed.

(** ** create-audit *)

Lemma find_app_None {A} (f : A -> bool) (l l' : list A) :
  find f l = None -> find f (l ++ l') = find f l'.
Proof.
  induction l as [|x l IH]; simpl; [reflexivity|].
  destruct (f x); [discriminate | exact IH].
Qed.

Lemma recipients_create_frame_children (uniqueId : string)
  (xs : list RecipientDto) (db db' : DB) :
  for_each (AuditService.recipients_create uniqueId) xs db = Return (tt, db') ->
  db_tool db' = db_tool db
  /\ db_testEnvironment db' = db_testEnvironment db.
Proof.
  intros H.
  apply (for_each_preserves
           (fun x => db_tool x = db_tool db
                     /\ db_testEnvironment x = db_testEnvironment db)) in H;
    [exact H| |now split].
  intros r d0 d0' Hr [H1 H2].
  unfold AuditService.recipients_create in Hr. cbv [bind gets] in Hr.
  destruct (existsb _ _); [discriminate|].
  cbv [modify] in Hr. inversion Hr; subst. simpl. now split.
Qed.

(** The recipients created so far are rows of the table, and the payload's
    emails do not repeat. *)
Lemma recipients_create_rows (uniqueId : string) (xs : list RecipientDto) :
  forall db db',
    for_each (AuditService.recipients_create uniqueId) xs db = Return (tt, db') ->
    NoDup (map rd_email xs)
    /\ (forall x, In x xs ->
          ~ exists r, In r (rows (db_recipent db))
                      /\ email_auditUniqueId (rd_email x) uniqueId r = true)
    /\ exists ids,
         List.length ids = List.length xs
         /\ rows (db_recipent db')
            = rows (db_recipent db)
              ++ map (fun p => mkRecipent (fst p) (rd_name (snd p))
                                 (rd_email (snd p)) (Some uniqueId))
                   (combine ids xs).
Proof.
  induction xs as [|x xs IH]; intros db db' H.
  - simpl in H. unfold ret in H. inversion H; subst.
    split; [constructor|]. split; [intros x []|].
    exists []. split; [reflexivity|]. simpl. now rewrite app_nil_r.
  - simpl in H. apply bind_Return in H as ([] & d1 & H1 & H2).
    unfold AuditService.recipients_create in H1. cbv [bind gets] in H1.
    destruct (existsb _ _) eqn:Ec; [discriminate|].
    cbv [modify] in H1. inversion H1; subst; clear H1.
    apply IH in H2 as (Hnd & Hfree & ids & Hlen & Hrows).
    simpl in Hrows. rewrite existsb_false_iff in Ec.
    split; [|split].
    + simpl. constructor; [|exact Hnd].
      intros Hin. apply in_map_iff in Hin as (y & Hy & Hin).
      apply (Hfree y Hin).
      exists (mkRecipent (nextval (db_recipent db)) (rd_name x) (rd_email x)
                (Some uniqueId)).
      split.
      * simpl. apply in_or_app. right. now left.
      * unfold email_auditUniqueId. simpl.
        rewrite Hy, !String.eqb_refl. reflexivity.
    + intros y [<-|Hy] (r & Hr & Hh).
      * rewrite (Ec r Hr) in Hh. discriminate.
      * apply (Hfree y Hy). exists r. split; [|exact Hh].
        simpl. apply in_or_app. now left.
    + exists (nextval (db_recipent db) :: ids). split; [simpl; now rewrite Hlen|].
      rewrite Hrows. simpl. now rewrite <- app_assoc.
Qed.

(** create-audit refuses an edit token that an audit or a trace holds. *)
Lemma createAudit_token_taken (e c : string) (body : CreateAuditDto)
  (db : DB) :
  has_trace e db \/ live e db ->
  AuditService.createAudit e c body db = (Throw P2002, db).
Proof.
  intros H. unfold AuditService.createAudit, transaction. cbv [bind gets].
  destruct (existsb _ (rows (db_auditTrace db))
            || existsb _ (rows (db_audit db))) eqn:Et; [reflexivity|].
  exfalso. apply orb_false_iff in Et as [Et1 Et2].
  rewrite existsb_false_iff in Et1. rewrite existsb_false_iff in Et2.
  destruct H as [(t & Hin & Hu)|(a & Hin & Hu)].
  - specialize (Et1 t Hin). cbv beta in Et1.
    rewrite Hu, String.eqb_refl in Et1. discriminate.
  - specialize (Et2 a Hin). cbv beta in Et2.
    rewrite Hu, String.eqb_refl in Et2. discriminate.
Qed.

Lemma createAudit_token_fresh (e c : string) (body : CreateAuditDto)
  (db db1 : DB) (created : AuditWithIncludes) :
  AuditService.createAudit e c body db = (Return created, db1) ->
  ~ has_trace e db /\ ~ live e db.
Proof.
  intros H. split; intros Hn.
  - rewrite createAudit_token_taken in H by now left. discriminate.
  - rewrite createAudit_token_taken in H by now right. discriminate.
Qed.

(** When create-audit returns, get-audit on the new edit token returns the
    same audit.  That audit carries the two tokens and the fields of the
    body, no audit type, no publication date and no edition date, and the
    ids that the sequences of the audit table and of the trace table gave.
    No audit and no trace held the edit token before, no two recipients of
    the body have the same email, every recipient of the body is a
    recipient of the audit, and the audit has no page (pages being pages of
    live audits). *)
Theorem createAudit_then_getAudit :
  forall (editUniqueId consultUniqueId : string) (body : CreateAuditDto)
    (db db1 : DB) (created : AuditWithIncludes),
    AuditsController.createAudit editUniqueId consultUniqueId body db
    = (Return created, db1) ->
    AuditsController.getAudit editUniqueId db1 = (Return created, db1)
    /\ inc_audit created
       = mkAudit (nextval (db_audit db)) editUniqueId consultUniqueId
           (ca_procedureName body) (ca_procedureUrl body) (ca_initiator body)
           (ca_auditorEmail body) (ca_auditorName body) (ca_contactName body)
           (ca_contactEmail body) (ca_contactFormUrl body)
           (ca_technologies body) None None None None None None
           (nextval (db_auditTrace db))
    /\ ~ live editUniqueId db
    /\ ~ has_trace editUniqueId db
    /\ NoDup (map rd_email (ca_recipients body))
    /\ (forall r, In r (ca_recipients body) ->
          exists row, In row (inc_recipients created)
                      /\ recipent_name row = rd_name r
                      /\ recipent_email row = rd_email r)
    /\ (pages_fk db -> inc_pages created = []).
Proof.
  intros e c body db db1 created H.
  unfold AuditsController.createAudit in H.
  pose proof H as H0.
  unfold AuditService.createAudit, transaction in H. cbv [bind gets] in H.
  destruct (existsb _ (rows (db_auditTrace db))
            || existsb _ (rows (db_audit db))) eqn:Et; [discriminate|].
  cbv [modify] in H.
  destruct (for_each _ _ _) as [[[] d2]|ex] eqn:Ef; [|discriminate].
  pose proof (recipients_create_frame _ _ _ _ Ef) as [Htr Ha].
  pose proof (recipients_create_frame_pages _ _ _ _ Ef) as [Hp Hr].
  pose proof (recipients_create_frame_children _ _ _ _ Ef) as [Hto Hen].
  pose proof (recipients_create_rows _ _ _ _ Ef) as (Hnd & _ & ids & Hlen & Hrows).
  inversion H; subst; clear H.
  apply orb_false_iff in Et as [Et1 Et2].
  rewrite existsb_false_iff in Et1. rewrite existsb_false_iff in Et2.
  assert (Hnl : ~ live e db).
  { intros (a & Hin & Hu). specialize (Et2 a Hin). cbv beta in Et2.
    rewrite Hu, String.eqb_refl in Et2. discriminate. }
  split; [|split; [|split; [|split; [|split; [|split]]]]].
  - unfold AuditsController.getAudit, AuditService.getAuditWithEditUniqueId,
      Prisma.findUnique.
    rewrite Ha. simpl.
    apply findUnique_audit_none_iff in Hnl. unfold Prisma.findUnique in Hnl.
    rewrite find_app_None by exact Hnl. simpl.
    unfold editUniqueId_is at 1. simpl. rewrite String.eqb_refl. reflexivity.
  - reflexivity.
  - exact Hnl.
  - intros (t & Hin & Hu). specialize (Et1 t Hin). cbv beta in Et1.
    rewrite Hu, String.eqb_refl in Et1. discriminate.
  - exact Hnd.
  - intros r Hin. simpl. simpl in Hrows.
    destruct (In_nth_error _ _ Hin) as (n & Hn).
    assert (Hlt : (n < List.length ids)%nat).
    { rewrite Hlen. apply nth_error_Some. congruence. }
    apply nth_error_Some in Hlt.
    destruct (nth_error ids n) as [id|] eqn:Eid; [|congruence].
    exists (mkRecipent id (rd_name r) (rd_email r) (Some e)).
    split; [|now split].
    unfold Prisma.findMany. apply filter_In. split.
    + rewrite Hrows. apply in_or_app. right.
      apply in_map_iff. exists (id, r). split; [reflexivity|].
      apply (nth_error_In _ n).
      clear - Eid Hn. revert ids Eid Hn.
      generalize (ca_recipients body) as xs.
      induction n as [|n IH]; intros xs ids Eid Hn;
        destruct ids as [|i ids]; destruct xs as [|x xs]; try discriminate;
        simpl in *.
      * congruence.
      * now apply IH.
    + simpl. now rewrite String.eqb_refl.
  - intros Hfk. simpl. unfold Prisma.findMany. rewrite Hp.
    destruct (filter _ _) as [|p l] eqn:E; [reflexivity|]. exfalso.
    assert (Hin : In p (p :: l)) by now left.
    rewrite <- E in Hin. apply filter_In in Hin as [Hin Hc].
    apply child_of_iff in Hc. exact (Hnl (Hfk p e Hin Hc)).
Qed.


(** A recipient email given twice makes create-audit fail. *)
Lemma recipients_create_clash (uniqueId : string) (xs : list RecipientDto) :
  forall db,
    (exists x, In x xs
               /\ existsb (email_auditUniqueId (rd_email x) uniqueId)
                    (rows (db_recipent db)) = true)
    \/ ~ NoDup (map rd_email xs) ->
    for_each (AuditService.recipients_create uniqueId) xs db = Throw P2002.
Proof.
  induction xs as [|x xs IH]; intros db H.
  - destruct H as [(x & [] & _)|H]; exfalso. apply H. constructor.
  - simpl. unfold bind.
    destruct (AuditService.recipients_create uniqueId x db)
      as [[[] d1]|ex] eqn:E1.
    + unfold AuditService.recipients_create in E1. cbv [bind gets] in E1.
      destruct (existsb _ _) eqn:Ec; [discriminate|].
      cbv [modify] in E1. inversion E1; subst; clear E1.
      apply IH.
      assert (Hnew : forall y, rd_email y = rd_email x ->
                existsb (email_auditUniqueId (rd_email y) uniqueId)
                  (rows (db_recipent db)
                   ++ [mkRecipent (nextval (db_recipent db)) (rd_name x)
                         (rd_email x) (Some uniqueId)]) = true).
      { intros y Hy. rewrite existsb_app. apply orb_true_iff. right.
        simpl. unfold email_auditUniqueId. simpl.
        now rewrite Hy, !String.eqb_refl. }
      destruct H as [(y & [<-|Hy] & Hc)|H].
      * congruence.
      * left. exists y. split; [exact Hy|]. simpl.
        rewrite existsb_app, Hc. reflexivity.
      * destruct (in_dec string_dec (rd_email x) (map rd_email xs)) as [Hi|Hi].
        -- left. apply in_map_iff in Hi as (y & Hy & Hi).
           exists y. split; [exact Hi|]. simpl. now apply Hnew.
        -- right. intros Hnd. apply H. simpl. now constructor.
    + unfold AuditService.recipients_create in E1. cbv [bind gets] in E1.
      destruct (existsb _ _); [|discriminate].
      unfold throw in E1. congruence.
Qed.

(** create-audit with a recipient email given twice in the body, or with an
    edit token that a trace or an audit already holds, throws P2002 (a
    unique constraint) and stores nothing: neither the trace, nor the
    audit, nor the recipients that come before the repeated one. *)
Theorem createAudit_rejects_repeated_recipient :
  forall (editUniqueId consultUniqueId : string) (body : CreateAuditDto)
    (db : DB),
    ~ NoDup (map rd_email (ca_recipients body))
    \/ has_trace editUniqueId db \/ live editUniqueId db ->
    AuditsController.createAudit editUniqueId consultUniqueId body db
    = (Throw P2002, db).
Proof.
  intros e c body db H.
  unfold AuditsController.createAudit, AuditService.createAudit, transaction.
  cbv [bind gets].
  destruct (existsb _ (rows (db_auditTrace db))
            || existsb _ (rows (db_audit db))) eqn:Et; [reflexivity|].
  cbv [modify].
  destruct H as [H|H].
  - rewrite recipients_create_clash; [reflexivity | now right].
  - pose proof (createAudit_token_taken e c body db H) as E.
    unfold AuditService.createAudit, transaction in E. cbv [bind gets] in E.
    rewrite Et in E. cbv [modify] in E.
    destruct (for_each _ _ _) as [[[] d2]|ex]; [discriminate|].
    congruence.
Qed.

(** ** What update-audit returns *)

Lemma audit_update_returns (uniqueId : string) (data : UpdateAuditDto)
  (updatedPages newPages : list UpdateAuditPage) (db db' : DB)
  (audit : AuditWithIncludes) :
  AuditService.audit_update uniqueId data updatedPages newPages db
  = Return (audit, db') ->
  exists a0,
    Prisma.findUnique (editUniqueId_is uniqueId) (db_audit db) = Some a0
    /\ audit = include (AuditService.update_scalars data a0) db'.
Proof.
  unfold AuditService.audit_update. intros H.
  apply bind_Return in H as (found & d0 & H0 & H).
  unfold gets in H0. inversion H0; subst; clear H0.
  destruct (Prisma.findUnique _ _) as [a|] eqn:Ef; [|discriminate].
  exists a. split; [reflexivity|].
  repeat (apply bind_Return in H as ([] & ? & _ & H)).
  unfold gets in H. now inversion H.
Qed.

Lemma find_map_stable {A} (p : A -> bool) (f : A -> A) (l : list A) :
  (forall x, p (f x) = p x) ->
  find p (map f l) = option_map f (find p l).
Proof.
  intros Hf. induction l as [|x l IH]; simpl; [reflexivity|].
  rewrite Hf. destruct (p x); [reflexivity | exact IH].
Qed.

Lemma include_set_audit (a : Audit) (t : Table Audit) (db : DB) :
  include a (set_audit t db)
  = mkAuditWithIncludes a (inc_recipients (include a db))
      (inc_tools (include a db)) (inc_environments (include a db))
      (inc_pages (include a db)).
Proof. reflexivity. Qed.

(** The audit that update-audit returns is the one its update query read,
    before [updateAuditEditDate] wrote the edition date.  It has the scalar
    fields of the payload and still the edition date that the audit had
    before the call, while the stored audit, if it is published, has the
    time of the call as its edition date: get-audit right after the call
    shows it.  The recipients, tools, environments and pages returned are
    the stored ones, and for an audit that is not published what is
    returned is what is stored. *)
Theorem updateAudit_returns_the_earlier_edition_date :
  forall (now : DateTime) (uniqueId : string) (data : UpdateAuditDto)
    (db db' : DB) (audit : AuditWithIncludes),
    AuditsController.updateAudit now uniqueId data db = (Return audit, db') ->
    exists before after,
      AuditService.getAuditWithEditUniqueId uniqueId db = Some before
      /\ AuditService.getAuditWithEditUniqueId uniqueId db' = Some after
      /\ inc_audit audit = AuditService.update_scalars data (inc_audit before)
      /\ audit_editionDate (inc_audit audit)
         = audit_editionDate (inc_audit before)
      /\ (audit_publicationDate (inc_audit before) <> None ->
          inc_audit after = AuditService.edited now (inc_audit audit)
          /\ audit_editionDate (inc_audit after) = Some now)
      /\ (audit_publicationDate (inc_audit before) = None ->
          after = audit)
      /\ inc_recipients after = inc_recipients audit
      /\ inc_tools after = inc_tools audit
      /\ inc_environments after = inc_environments audit
      /\ inc_pages after = inc_pages audit.
Proof.
  intros now uniqueId data db db' audit H.
  unfold AuditsController.updateAudit in H.
  destruct (AuditService.updateAudit now uniqueId data db)
    as [[[x|]|ex] d] eqn:E.
  2:{ rewrite sendAuditNotFoundStatus_eq in H. discriminate. }
  2:{ discriminate. }
  inversion H; subst; clear H.
  unfold AuditService.updateAudit, AuditService.updateAudit_try, transaction
    in E.
  match type of E with
  | AuditService.catch_P2025 _ _ (match ?m with _ => _ end) = _ =>
      destruct m as [[x d]|e] eqn:Em
  end.
  2:{ unfold AuditService.catch_P2025 in E.
      destruct (is_P2025 e); discriminate. }
  simpl in E. inversion E; subst; clear E.
  apply bind_Return in Em as (a & d1 & E1 & Em).
  apply bind_Return in Em as ([] & d2 & E2 & Em).
  unfold ret in Em. inversion Em; subst; clear Em.
  unfold AuditService.updateAuditEditDate, modify in E2.
  inversion E2; subst; clear E2.
  pose proof (audit_update_returns _ _ _ _ _ _ _ E1) as (a0 & Hf & ->).
  apply audit_update_effect in E1 as (_ & Ha & _).
  exists (include a0 db).
  set (stamp := fun a1 : Audit =>
         if editUniqueId_is uniqueId a1 && is_some (audit_publicationDate a1)
         then AuditService.edited now a1 else a1).
  set (upd := fun a1 : Audit =>
         if editUniqueId_is uniqueId a1
         then AuditService.update_scalars data a1 else a1).
  assert (Hfind :
    Prisma.findUnique (editUniqueId_is uniqueId)
      (Prisma.updateMany
         (fun a1 =>
            editUniqueId_is uniqueId a1 && is_some (audit_publicationDate a1))
         (AuditService.edited now) (db_audit d1))
    = Some (stamp (upd a0))).
  { rewrite Ha. unfold Prisma.findUnique, Prisma.updateMany. simpl.
    change (map _ (map _ (rows (db_audit db))))
      with (map stamp (map upd (rows (db_audit db)))).
    rewrite map_map.
    rewrite find_map_stable with (f := fun x => stamp (upd x)).
    - unfold Prisma.findUnique in Hf. rewrite Hf. reflexivity.
    - intros x. unfold stamp, upd, editUniqueId_is.
      destruct (String.eqb (audit_editUniqueId x) uniqueId) eqn:Ex; simpl.
      + rewrite Ex. simpl. destruct (is_some _); simpl; exact Ex.
      + rewrite Ex. simpl. exact Ex. }
  assert (Hu : editUniqueId_is uniqueId a0 = true).
  { unfold Prisma.findUnique in Hf. now apply find_some in Hf. }
  eexists. split; [|split].
  - unfold AuditService.getAuditWithEditUniqueId. now rewrite Hf.
  - unfold AuditService.getAuditWithEditUniqueId. simpl. rewrite Hfind.
    reflexivity.
  - unfold upd. rewrite Hu.
    assert (Hu' : editUniqueId_is uniqueId (AuditService.update_scalars data a0)
                  = true) by exact Hu.
    unfold stamp. rewrite Hu'. simpl.
    split; [reflexivity|]. split; [reflexivity|].
    split; [|split; [|repeat split; simpl;
                       destruct (is_some (audit_publicationDate a0));
                       reflexivity]].
    + intros Hp. simpl.
      destruct (audit_publicationDate a0); [now split|congruence].
    + intros Hp. simpl. rewrite Hp. simpl. reflexivity.
Qed.

(** ** A page id of another audit *)

Lemma audit_update_foreign_page (uniqueId : string) (data : UpdateAuditDto)
  (p : UpdateAuditPage) (rest newPages : list UpdateAuditPage) (db : DB) :
  (forall q, In q (rows (db_auditedPage db)) ->
     page_auditUniqueId q = Some uniqueId -> Some (page_id q) <> uap_id p) ->
  exists e,
    AuditService.audit_update uniqueId data (p :: rest) newPages db = Throw e
    /\ is_P2025 e = true.
Proof.
  intros Hp. unfold AuditService.audit_update.
  cbv [bind gets].
  destruct (Prisma.findUnique (editUniqueId_is uniqueId) (db_audit db));
    [|now exists P2025].
  cbv [modify].
  rewrite update_recipients_eq, update_tools_eq, update_environments_eq.
  unfold AuditService.pages_deleteMany. cbv [modify]. simpl for_each.
  cbv [bind].
  match goal with
  | |- context [AuditService.pages_update uniqueId p ?d] =>
      assert (E : AuditService.pages_update uniqueId p d = Throw P2025)
  end.
  { unfold AuditService.pages_update.
    match goal with
    | |- match ?f with _ => _ end = _ =>
        assert (Ef : f = None); [|now rewrite Ef]
    end.
    apply find_none_iff. intros q Hq. simpl in Hq.
    apply filter_In in Hq as [Hq _].
    destruct (Prisma.child_of uniqueId (page_auditUniqueId q)) eqn:Ec;
      [|reflexivity].
    apply child_of_iff in Ec. specialize (Hp q Hq Ec). simpl.
    unfold Prisma.is_id. destruct (uap_id p) as [z|]; [|reflexivity].
    apply Z.eqb_neq. congruence. }
  rewrite E. now exists P2025.
Qed.

(** update-audit on an audit that exists, with a payload whose first page
    that carries an id carries the id of no page of the audit: the nested
    update of that page fails with P2025, the [catch] of the service takes
    it for a missing audit and returns undefined, and the handler answers
    Gone for an audit that is there.  Nothing is written. *)
Theorem updateAudit_foreign_page_id_answers_gone :
  forall (now : DateTime) (uniqueId : string) (data : UpdateAuditDto)
    (db : DB) (p : UpdateAuditPage) (rest : list UpdateAuditPage),
    live uniqueId db ->
    has_trace uniqueId db ->
    filter (fun p => JS.truthy_number (uap_id p)) (ua_pages data) = p :: rest ->
    (forall q, In q (rows (db_auditedPage db)) ->
       page_auditUniqueId q = Some uniqueId -> Some (page_id q) <> uap_id p) ->
    AuditService.updateAudit now uniqueId data db = (Return None, db)
    /\ AuditsController.updateAudit now uniqueId data db
       = (Throw GoneException, db).
Proof.
  intros now uniqueId data db p rest Hl Ht Hf Hp.
  assert (E : AuditService.updateAudit now uniqueId data db = (Return None, db)).
  { unfold AuditService.updateAudit, AuditService.updateAudit_try, transaction.
    rewrite Hf. unfold bind at 1.
    destruct (audit_update_foreign_page uniqueId data p rest
                (filter (fun p0 => negb (JS.truthy_number (uap_id p0)))
                   (ua_pages data)) db Hp) as (e & -> & He).
    unfold AuditService.catch_P2025. now rewrite He. }
  split; [exact E|].
  unfold AuditsController.updateAudit. rewrite E.
  rewrite sendAuditNotFoundStatus_eq. now rewrite lookup_miss_gone.
Qed.


(** ** What a request can do to the store *)

(** A relation between the store before and the store after that holds
    when nothing is written and across each write of the service holds
    across every request. *)
Lemma handled_by_service (CRITERIA : list Criterion) (R : DB -> DB -> Prop) :
  (forall db, R db db) ->
  (forall e c body db, R db (snd (AuditService.createAudit e c body db))) ->
  (forall now u body db, R db (snd (AuditService.updateAudit now u body db))) ->
  (forall now u body db,
     R db (snd (AuditService.updateResults now u body db))) ->
  (forall now u db, R db (snd (AuditService.publishAudit now u db))) ->
  (forall u db, R db (snd (AuditService.deleteAudit u db))) ->
  forall db db', handled CRITERIA db db' -> R db db'.
Proof.
  intros Hrefl Hc Hu Hr Hp Hd db db' Hs. destruct Hs.
  - apply Hc.
  - unfold AuditsController.getAudit.
    destruct (AuditService.getAuditWithEditUniqueId u db);
      [|rewrite sendAuditNotFoundStatus_eq]; apply Hrefl.
  - specialize (Hu now u body db). unfold AuditsController.updateAudit.
    destruct (AuditService.updateAudit now u body db) as [[[a|]|ex] d];
      [exact Hu | | exact Hu].
    rewrite sendAuditNotFoundStatus_eq. exact Hu.
  - apply Hrefl.
  - unfold AuditsController.updateAuditResults.
    destruct (AuditService.getAuditWithEditUniqueId u db).
    + apply Hr.
    + rewrite sendAuditNotFoundStatus_eq. apply Hrefl.
  - specialize (Hp now u db). unfold AuditsController.publishAudit.
    destruct (negb (AuditService.isAuditComplete u db)); [apply Hrefl|].
    destruct (AuditService.publishAudit now u db) as [[[a|]|ex] d];
      [exact Hp | | exact Hp].
    rewrite sendAuditNotFoundStatus_eq. exact Hp.
  - specialize (Hd u db). unfold AuditsController.deleteAudit.
    destruct (AuditService.deleteAudit u db) as [[[|]|ex] d];
      [exact Hd | | exact Hd].
    rewrite sendAuditNotFoundStatus_eq. exact Hd.
Qed.

(** No request makes an audit live under a token that a trace holds and no
    live audit has. *)
Lemma handled_keeps_deleted (CRITERIA : list Criterion) (db db' : DB) :
  handled CRITERIA db db' ->
  forall u, has_trace u db -> live u db' -> live u db.
Proof.
  revert db db'.
  apply (handled_by_service CRITERIA
           (fun db db' => forall u, has_trace u db -> live u db' -> live u db)).
  - auto.
  - intros e c body db u Ht Hl.
    destruct (AuditService.createAudit e c body db) as [[created|ex] db1] eqn:E.
    + pose proof (createAudit_token_fresh e c body db db1 created E)
        as (Hnt & _).
      apply createAudit_effect in E as (_ & Ha & He & _). simpl in Hl.
      destruct Hl as (a & Hin & Hu). rewrite Ha in Hin. simpl in Hin.
      apply in_app_or in Hin as [Hin|[<-|[]]].
      * now exists a.
      * exfalso. apply Hnt. now rewrite <- He, Hu.
    + unfold AuditService.createAudit in E.
      apply transaction_fail_keeps in E. now subst.
  - intros now u body db v _ (a' & Hin & Hu).
    destruct (AuditService.updateAudit now u body db) as [[[audit|]|ex] db1]
      eqn:E.
    + apply updateAudit_effect in E as (_ & Ha & _). simpl in Hin.
      rewrite Ha in Hin. unfold stamped in Hin.
      apply updateMany_edit_ids in Hin as (a1 & Hin & E1); [|reflexivity].
      apply updateMany_edit_ids in Hin as (a0 & Hin & E0); [|reflexivity].
      exists a0. split; [exact Hin | congruence].
    + pose proof (updateAudit_unchanged now u body db) as H.
      rewrite E in H. simpl in H, Hin. rewrite H in Hin by discriminate.
      now exists a'.
    + pose proof (updateAudit_unchanged now u body db) as H.
      rewrite E in H. simpl in H, Hin. rewrite H in Hin by discriminate.
      now exists a'.
  - intros now u body db v _ (a' & Hin & Hu). rewrite updateResults_eq in Hin.
    destruct (forallb _ _); [|now exists a'].
    simpl in Hin. unfold stamped in Hin.
    apply updateMany_edit_ids in Hin as (a0 & Hin & E0); [|reflexivity].
    exists a0. split; [exact Hin | congruence].
  - intros now u db v _ (a' & Hin & Hu).
    destruct (Prisma.findUnique (editUniqueId_is u) (db_audit db)) as [a|] eqn:E.
    + rewrite (service_publishAudit_found now u db a E) in Hin. simpl in Hin.
      apply updateMany_edit_ids in Hin as (a0 & Hin & E0); [|reflexivity].
      exists a0. split; [exact Hin | congruence].
    + rewrite (service_publishAudit_missing now u db E) in Hin. now exists a'.
  - intros u db v _ (a' & Hin & Hu).
    destruct (Prisma.findUnique (editUniqueId_is u) (db_audit db)) as [a|] eqn:E.
    + assert (Hl : live u db).
      { apply find_some in E as [Hi Hh]. exists a. split; [exact Hi|].
        now apply String.eqb_eq. }
      destruct (deleteAudit_live u db Hl) as (db2 & Hd & _ & Ha).
      rewrite Hd in Hin. simpl in Hin. rewrite Ha in Hin. simpl in Hin.
      apply filter_In in Hin as [Hin _]. now exists a'.
    + apply findUnique_audit_none_iff in E.
      rewrite (service_deleteAudit_missing u db E) in Hin. now exists a'.
Qed.

Lemma handled_keeps_trace (CRITERIA : list Criterion) (db db' : DB) :
  handled CRITERIA db db' -> forall u, has_trace u db -> has_trace u db'.
Proof.
  intros Hs u.
  destruct handlers_keep_traces as [_ H].
  destruct (H CRITERIA db) as (H1 & H2 & H3 & H4 & H5 & H6 & H7).
  destruct Hs; [apply H1|apply H2|apply H3|apply H4|apply H5|apply H6|apply H7].
Qed.

(** Gone is for good.  If a trace holds the edit token and no audit does,
    then whatever requests are served next this stays so: get-audit,
    update-audit, update-results and delete-audit on the token throw Gone,
    and create-audit with this edit token throws P2002. *)
Theorem deleted_audit_stays_gone :
  forall (CRITERIA : list Criterion) (uniqueId : string) (db db' : DB),
    has_trace uniqueId db -> ~ live uniqueId db ->
    handled_many CRITERIA db db' ->
    has_trace uniqueId db'
    /\ ~ live uniqueId db'
    /\ AuditsController.getAudit uniqueId db' = (Throw GoneException, db')
    /\ (forall now body,
          AuditsController.updateAudit now uniqueId body db'
          = (Throw GoneException, db'))
    /\ (forall now body,
          AuditsController.updateAuditResults now uniqueId body db'
          = (Throw GoneException, db'))
    /\ AuditsController.deleteAudit uniqueId db' = (Throw GoneException, db')
    /\ (forall c body,
          AuditsController.createAudit uniqueId c body db' = (Throw P2002, db')).
Proof.
  intros CRITERIA u db db' Ht Hl Hs.
  assert (H : has_trace u db' /\ ~ live u db').
  { induction Hs as [db|db db1 db2 Hs IH H12]; [now split|].
    destruct (IH Ht Hl) as [Ht1 Hl1]. split.
    - exact (handled_keeps_trace CRITERIA db1 db2 H12 u Ht1).
    - intros Hl2. apply Hl1.
      exact (handled_keeps_deleted CRITERIA db1 db2 H12 u Ht1 Hl2). }
  destruct H as [Ht' Hl'].
  destruct (handlers_on_miss u db' Hl') as (H1 & H2 & H3 & H4 & _).
  cbv zeta in H1, H2, H3, H4.
  rewrite (lookup_miss_gone u db' Ht') in H1, H2, H3, H4.
  repeat split; try assumption.
  intros c body. unfold AuditsController.createAudit.
  apply createAudit_token_taken. now left.
Qed.

(** ** delete-audit *)

Lemma filter_filter_subsumed {A} (p q : A -> bool) (l : list A) :
  (forall x, In x l -> p x = true -> q x = true) ->
  filter p (filter q l) = filter p l.
Proof.
  induction l as [|x l IH]; intros H; simpl; [reflexivity|].
  destruct (q x) eqn:Eq; simpl.
  - rewrite IH; [reflexivity|]. intros y Hy. apply H. now right.
  - destruct (p x) eqn:Ep.
    + rewrite (H x (or_introl eq_refl) Ep) in Eq. discriminate.
    + apply IH. intros y Hy. apply H. now right.
Qed.

Lemma find_filter_subsumed {A} (p q : A -> bool) (l : list A) :
  (forall x, In x l -> p x = true -> q x = true) ->
  find p (filter q l) = find p l.
Proof.
  induction l as [|x l IH]; intros H; simpl; [reflexivity|].
  destruct (q x) eqn:Eq; simpl.
  - destruct (p x); [reflexivity|]. apply IH. intros y Hy. apply H. now right.
  - destruct (p x) eqn:Ep.
    + rewrite (H x (or_introl eq_refl) Ep) in Eq. discriminate.
    + apply IH. intros y Hy. apply H. now right.
Qed.

Lemma existsb_filter_subsumed {A} (p q : A -> bool) (l : list A) :
  (forall x, In x l -> p x = true -> q x = true) ->
  existsb p (filter q l) = existsb p l.
Proof.
  intros H. rewrite !find_existsb. now rewrite find_filter_subsumed.
Qed.

Lemma child_of_other (u v : string) (o : option string) :
  v <> u -> Prisma.child_of v o = true -> negb (Prisma.child_of u o) = true.
Proof.
  intros Hn Hc. apply child_of_iff in Hc. subst. simpl.
  apply negb_true_iff. apply String.eqb_neq. exact Hn.
Qed.

Lemma deleteAudit_store (u : string) (db db2 : DB) :
  AuditService.deleteAudit u db = (Return true, db2) ->
  AuditService.audit_delete u db = Return (tt, db2).
Proof.
  unfold AuditService.deleteAudit, transaction. intros H.
  destruct (AuditService.audit_delete u db) as [[[] d]|e]; simpl in H.
  - now inversion H.
  - destruct (is_P2025 e); discriminate.
Qed.

Lemma audit_delete_store (u : string) (db db2 : DB) :
  AuditService.audit_delete u db = Return (tt, db2) ->
  db2
  = mkDB
      (Prisma.deleteMany (editUniqueId_is u) (db_audit db))
      (Prisma.deleteMany
         (fun r => Prisma.child_of u (recipent_auditUniqueId r))
         (db_recipent db))
      (Prisma.deleteMany
         (fun t => Prisma.child_of u (tool_auditUniqueId t)) (db_tool db))
      (Prisma.deleteMany
         (fun e => Prisma.child_of u (env_auditUniqueId e))
         (db_testEnvironment db))
      (Prisma.deleteMany
         (fun p => Prisma.child_of u (page_auditUniqueId p))
         (db_auditedPage db))
      (Prisma.deleteMany
         (fun r =>
            existsb (references r)
              (Prisma.findMany
                 (fun p => Prisma.child_of u (page_auditUniqueId p))
                 (db_auditedPage db)))
         (db_criterionResult db))
      (db_auditTrace db).
Proof.
  unfold AuditService.audit_delete. cbv [bind gets]. intros H.
  destruct (Prisma.findUnique _ _); [|discriminate].
  cbv [modify] in H. now inversion H.
Qed.

(** A result that goes with the pages of audit [u] is a result of audit
    [u]. *)
Lemma deleted_results_are_of_the_audit (u : string) (db : DB)
  (r : CriterionResult) :
  existsb (references r)
    (Prisma.findMany (fun p => Prisma.child_of u (page_auditUniqueId p))
       (db_auditedPage db)) = true ->
  cr_auditUniqueId r = u.
Proof.
  intros H. apply existsb_exists in H as (p & Hp & Href).
  apply filter_In in Hp as [_ Hc]. apply child_of_iff in Hc.
  unfold references in Href. apply andb_true_iff in Href as [_ Hr].
  rewrite Hc in Hr. simpl in Hr. apply String.eqb_eq in Hr. congruence.
Qed.

(** When delete-audit returns, no audit has the token, the traces are as
    they were, and no recipient, tool, environment or page of the audit is
    left, nor (every result having its page) any of its results.  For
    every other token get-audit, get-results and the completeness check
    give what they gave before. *)
Theorem deleteAudit_deletes_the_audit_alone :
  forall (CRITERIA : list Criterion) (uniqueId : string) (db db2 : DB),
    AuditsController.deleteAudit uniqueId db = (Return tt, db2) ->
    ~ live uniqueId db2
    /\ db_auditTrace db2 = db_auditTrace db
    /\ (forall r, In r (rows (db_recipent db2)) ->
          recipent_auditUniqueId r <> Some uniqueId)
    /\ (forall t, In t (rows (db_tool db2)) ->
          tool_auditUniqueId t <> Some uniqueId)
    /\ (forall e, In e (rows (db_testEnvironment db2)) ->
          env_auditUniqueId e <> Some uniqueId)
    /\ (forall p, In p (rows (db_auditedPage db2)) ->
          page_auditUniqueId p <> Some uniqueId)
    /\ (results_fk db ->
        forall r, In r (rows (db_criterionResult db2)) ->
          cr_auditUniqueId r <> uniqueId)
    /\ (forall other, other <> uniqueId ->
          AuditService.getAuditWithEditUniqueId other db2
          = AuditService.getAuditWithEditUniqueId other db
          /\ AuditService.getResultsWithEditUniqueId CRITERIA other db2
             = AuditService.getResultsWithEditUniqueId CRITERIA other db
          /\ AuditService.isAuditComplete other db2
             = AuditService.isAuditComplete other db).
Proof.
  intros CRITERIA u db db2 H.
  unfold AuditsController.deleteAudit in H.
  destruct (AuditService.deleteAudit u db) as [[[|]|ex] d] eqn:E.
  2:{ rewrite sendAuditNotFoundStatus_eq in H. discriminate. }
  2:{ discriminate. }
  inversion H; subst; clear H.
  apply deleteAudit_store, audit_delete_store in E. subst db2.
  assert (Hgone : forall (o : option string),
            negb (Prisma.child_of u o) = true -> o <> Some u).
  { intros o Hn Ho. subst. simpl in Hn. rewrite String.eqb_refl in Hn.
    discriminate. }
  split; [now apply (deleteMany_not_live u db)|].
  split; [reflexivity|].
  split; [intros r Hin; apply filter_In in Hin as [_ Hn]; now apply Hgone|].
  split; [intros r Hin; apply filter_In in Hin as [_ Hn]; now apply Hgone|].
  split; [intros r Hin; apply filter_In in Hin as [_ Hn]; now apply Hgone|].
  split; [intros r Hin; apply filter_In in Hin as [_ Hn]; now apply Hgone|].
  split.
  - intros Hfk r Hin Hu. simpl in Hin. apply filter_In in Hin as [Hin Hn].
    apply negb_true_iff in Hn. rewrite existsb_false_iff in Hn.
    destruct (Hfk r Hin) as (p & Hp & Href).
    rewrite (Hn p) in Href; [discriminate|].
    apply filter_In. split; [exact Hp|].
    unfold references in Href. apply andb_true_iff in Href as [_ Hc].
    now rewrite Hu in Hc.
  - intros v Hv.
    assert (Hpages :
      filter (fun p => Prisma.child_of v (page_auditUniqueId p))
        (filter (fun p => negb (Prisma.child_of u (page_auditUniqueId p)))
           (rows (db_auditedPage db)))
      = filter (fun p => Prisma.child_of v (page_auditUniqueId p))
          (rows (db_auditedPage db))).
    { apply filter_filter_subsumed. intros p _. now apply child_of_other. }
    split; [|split].
    + unfold AuditService.getAuditWithEditUniqueId, Prisma.findUnique. simpl.
      rewrite find_filter_subsumed.
      2:{ intros a _ Ha. unfold editUniqueId_is in *.
          apply String.eqb_eq in Ha. rewrite Ha. apply negb_true_iff.
          now apply String.eqb_neq. }
      destruct (find _ _) as [a|] eqn:Ef; [|reflexivity].
      apply find_some in Ef as [_ Ha]. apply String.eqb_eq in Ha.
      unfold include, Prisma.findMany. simpl. rewrite Ha.
      rewrite Hpages.
      rewrite !filter_filter_subsumed;
        try (intros x _; now apply child_of_other).
      reflexivity.
    + rewrite !getResults_unfold. unfold audit_pages, audit_results,
        Prisma.findMany. simpl. rewrite Hpages.
      assert (Hres :
        filter
          (fun r =>
             existsb
               (fun p => references r p
                         && Prisma.child_of v (page_auditUniqueId p))
               (filter
                  (fun p => negb (Prisma.child_of u (page_auditUniqueId p)))
                  (rows (db_auditedPage db))))
          (filter
             (fun r =>
                negb
                  (existsb (references r)
                     (filter
                        (fun p => Prisma.child_of u (page_auditUniqueId p))
                        (rows (db_auditedPage db)))))
             (rows (db_criterionResult db)))
        = filter
            (fun r =>
               existsb
                 (fun p => references r p
                           && Prisma.child_of v (page_auditUniqueId p))
                 (rows (db_auditedPage db)))
            (rows (db_criterionResult db))).
      { rewrite filter_filter_subsumed.
        - apply filter_ext. intros r. apply existsb_filter_subsumed.
          intros p _ Hp. apply andb_true_iff in Hp as [_ Hc].
          now apply child_of_other with (v := v).
        - intros r _ Hr. apply negb_true_iff.
          destruct (existsb (references r) _) eqn:Ed; [|reflexivity].
          exfalso. apply (deleted_results_are_of_the_audit u db) in Ed.
          apply existsb_exists in Hr as (p & Hp & Hh).
          apply andb_true_iff in Hh as [Href Hc].
          apply filter_In in Hp as [_ _].
          unfold references in Href. apply andb_true_iff in Href as [_ Hr].
          apply child_of_iff in Hc. rewrite Hc in Hr. simpl in Hr.
          apply String.eqb_eq in Hr. congruence. }
      rewrite Hres. reflexivity.
    + unfold AuditService.isAuditComplete, Prisma.count. simpl.
      rewrite filter_filter_subsumed; [reflexivity|].
      intros r _ Hr. apply andb_true_iff in Hr as [Hr _].
      apply String.eqb_eq in Hr. apply negb_true_iff.
      destruct (existsb (references r) _) eqn:Ed; [|reflexivity].
      exfalso. apply (deleted_results_are_of_the_audit u db) in Ed.
      congruence.
Qed.

(** ** update-results, then get-results *)

Lemma hits_iff (uniqueId : string) (item : UpdateResultsItem)
  (r : CriterionResult) :
  hits uniqueId item r = true
  <-> cr_auditUniqueId r = uniqueId /\ cr_pageUrl r = ur_pageUrl item
      /\ cr_topic r = ur_topic item /\ cr_criterium r = ur_criterium item.
Proof.
  unfold hits, auditUniqueId_pageUrl_topic_criterium.
  rewrite !andb_true_iff, !String.eqb_eq, !Z.eqb_eq. tauto.
Qed.

Lemma in_update_defined {A} (x : JS.optional A) (stored : option A) :
  x <> JS.undefined -> Prisma.in_update x stored = Prisma.in_create x.
Proof. now destruct x. Qed.

Lemma in_update_nothing {A} (x : JS.optional A) :
  Prisma.in_update x None = Prisma.in_create x.
Proof. now destruct x. Qed.

(** The row of an item after its upsert: the row that was there with the
    item written over it, or a new row. *)
Lemma upsert_table_sets (uniqueId : string) (t : Table CriterionResult)
  (item : UpdateResultsItem) (r : CriterionResult) :
  In r (rows (upsert_table uniqueId t item)) ->
  hits uniqueId item r = true ->
  (exists r0, In r0 (rows t) /\ hits uniqueId item r0 = true
              /\ r = row_update uniqueId item r0)
  \/ (existsb (hits uniqueId item) (rows t) = false
      /\ r = row_data uniqueId item (cr_id r)).
Proof.
  intros Hin Hh.
  destruct (existsb (hits uniqueId item) (rows t)) eqn:E.
  - left. rewrite upsert_table_present in Hin by exact E. simpl in Hin.
    apply in_map_iff in Hin as (r0 & <- & Hr0).
    rewrite hits_overwrite_step in Hh. exists r0.
    split; [exact Hr0|]. split; [exact Hh|]. now apply overwrite_step_hit.
  - right. split; [reflexivity|].
    rewrite upsert_table_absent in Hin by exact E. simpl in Hin.
    apply in_app_or in Hin as [Hin|[<-|[]]]; [|reflexivity].
    rewrite existsb_false_iff in E. rewrite (E r Hin) in Hh. discriminate.
Qed.

Lemma upsert_table_other (uniqueId : string) (t : Table CriterionResult)
  (j item : UpdateResultsItem) (r : CriterionResult) :
  ~ (ur_pageUrl j = ur_pageUrl item /\ ur_topic j = ur_topic item
     /\ ur_criterium j = ur_criterium item) ->
  In r (rows (upsert_table uniqueId t j)) ->
  hits uniqueId item r = true ->
  In r (rows t).
Proof.
  intros Hk Hin Hh.
  assert (Hnew : forall id, hits uniqueId item (row_data uniqueId j id) = false).
  { intros id. destruct (hits uniqueId item (row_data uniqueId j id)) eqn:E;
      [|reflexivity].
    exfalso. apply Hk. apply hits_iff in E. simpl in E. tauto. }
  destruct (existsb (hits uniqueId j) (rows t)) eqn:E.
  - rewrite upsert_table_present in Hin by exact E. simpl in Hin.
    apply in_map_iff in Hin as (r0 & <- & Hr0).
    unfold overwrite_step in *. destruct (hits uniqueId j r0); [|exact Hr0].
    exfalso. apply Hk. apply hits_iff in Hh. simpl in Hh. tauto.
  - rewrite upsert_table_absent in Hin by exact E. simpl in Hin.
    apply in_app_or in Hin as [Hin|[<-|[]]]; [exact Hin|].
    rewrite Hnew in Hh. discriminate.
Qed.

Lemma upsert_table_keeps_strangers (uniqueId : string)
  (t : Table CriterionResult) (j item : UpdateResultsItem)
  (r : CriterionResult) :
  ~ (ur_pageUrl j = ur_pageUrl item /\ ur_topic j = ur_topic item
     /\ ur_criterium j = ur_criterium item) ->
  In r (rows t) ->
  hits uniqueId item r = true ->
  In r (rows (upsert_table uniqueId t j)).
Proof.
  intros Hk Hin Hh.
  assert (Hj : hits uniqueId j r = false).
  { destruct (hits uniqueId j r) eqn:E; [|reflexivity].
    exfalso. apply Hk. apply hits_iff in E, Hh.
    repeat split; destruct E as (_ & ? & ? & ?), Hh as (_ & ? & ? & ?);
      congruence. }
  destruct (existsb (hits uniqueId j) (rows t)) eqn:E.
  - rewrite upsert_table_present by exact E. simpl. apply in_map_iff.
    exists r. split; [now apply overwrite_step_miss | exact Hin].
  - rewrite upsert_table_absent by exact E. simpl. apply in_or_app.
    now left.
Qed.

(** The items of other keys leave the rows of a key as they are. *)
Lemma apply_batch_strangers (uniqueId : string) (b : list UpdateResultsItem)
  (item : UpdateResultsItem) (r : CriterionResult) :
  (forall j, In j b ->
     ~ (ur_pageUrl j = ur_pageUrl item /\ ur_topic j = ur_topic item
        /\ ur_criterium j = ur_criterium item)) ->
  hits uniqueId item r = true ->
  forall t, In r (rows (apply_batch uniqueId b t)) <-> In r (rows t).
Proof.
  intros Hb Hh. unfold apply_batch.
  induction b as [|j b IH]; intros t; simpl; [tauto|].
  rewrite IH by (intros k Hk; apply Hb; now right).
  split; intros Hin.
  - apply (upsert_table_other uniqueId t j item r); auto. apply Hb. now left.
  - apply upsert_table_keeps_strangers with (item := item); auto.
    apply Hb. now left.
Qed.

(** Once the batch is through, a row that the key of an item selects is the
    item's own upsert of what the items before it left, unless a later item
    of the batch has the key. *)
Lemma apply_batch_last_wins (uniqueId : string)
  (before after : list UpdateResultsItem) (item : UpdateResultsItem)
  (t : Table CriterionResult) (r : CriterionResult) :
  (forall j, In j after ->
     ~ (ur_pageUrl j = ur_pageUrl item /\ ur_topic j = ur_topic item
        /\ ur_criterium j = ur_criterium item)) ->
  In r (rows (apply_batch uniqueId (before ++ item :: after) t)) ->
  hits uniqueId item r = true ->
  (exists r0, In r0 (rows (apply_batch uniqueId before t))
              /\ hits uniqueId item r0 = true
              /\ r = row_update uniqueId item r0)
  \/ (existsb (hits uniqueId item) (rows (apply_batch uniqueId before t))
      = false
      /\ r = row_data uniqueId item (cr_id r)).
Proof.
  intros Hafter Hin Hh.
  assert (E : apply_batch uniqueId (before ++ item :: after) t
              = apply_batch uniqueId after
                  (upsert_table uniqueId (apply_batch uniqueId before t)
                     item)).
  { unfold apply_batch. now rewrite fold_left_app. }
  rewrite E in Hin.
  apply (proj1 (apply_batch_strangers uniqueId after item r Hafter Hh _))
    in Hin.
  now apply upsert_table_sets.
Qed.

Lemma getResults_In (CRITERIA : list Criterion) (uniqueId : string) (db : DB)
  (entry : ResultEntry) :
  In entry (AuditService.getResultsWithEditUniqueId CRITERIA uniqueId db)
  <-> exists page criterion,
        In page (audit_pages uniqueId db) /\ In criterion CRITERIA
        /\ entry
           = match
               find (fun result =>
                   String.eqb (cr_pageUrl result) (page_url page)
                   && Z.eqb (cr_topic result) (criterion_topic criterion)
                   && Z.eqb (cr_criterium result)
                        (criterion_criterium criterion))
                 (audit_results uniqueId db)
             with
             | Some r => existing r
             | None =>
                 mkResultEntry None None NOT_TESTED None None None None None
                   (criterion_topic criterion)
                   (criterion_criterium criterion) (page_url page)
             end.
Proof.
  rewrite getResults_unfold, in_flat_map. split.
  - intros (page & Hp & Hin). apply in_map_iff in Hin as (c & <- & Hc).
    now exists page, c.
  - intros (page & c & Hp & Hc & ->). exists page. split; [exact Hp|].
    apply in_map_iff. now exists c.
Qed.

Lemma audit_results_In (uniqueId : string) (db : DB) (r : CriterionResult) :
  In r (audit_results uniqueId db)
  <-> In r (rows (db_criterionResult db))
      /\ cr_auditUniqueId r = uniqueId
      /\ has_page uniqueId (cr_pageUrl r) db.
Proof.
  unfold audit_results, Prisma.findMany. rewrite filter_In, existsb_exists.
  unfold has_page. split.
  - intros (Hin & p & Hp & Hh). apply andb_true_iff in Hh as [Href Hc].
    unfold references in Href. apply andb_true_iff in Href as [Hu Hr].
    apply child_of_iff in Hc. rewrite Hc in Hr. simpl in Hr.
    apply String.eqb_eq in Hu, Hr. split; [exact Hin|]. split; [congruence|].
    exists p. repeat split; congruence.
  - intros (Hin & Hu & p & Hp & Hc & Hurl). split; [exact Hin|].
    exists p. split; [exact Hp|]. unfold references.
    rewrite Hc. simpl. subst uniqueId.
    now rewrite Hurl, !String.eqb_refl.
Qed.

(** What update-results stored is what get-results shows.  After a call that
    succeeds, take an item of the batch that is the last one of the batch
    for its page url, topic and criterion.  Every entry of get-results for
    that page url, topic and criterion carries the status of the item and
    the token of the audit, and the comments, the user impact and the
    recommandation that the item gives, a [null] showing as none; a property
    that the item leaves out is not written.  When the item is also the
    first of the batch for its key, each of these five is the property of
    the item written over the column of the row that was stored under the
    key: what was stored where the item leaves the property out, nothing
    where no row was stored.  And there is such an entry when the catalogue
    lists the criterion. *)
Theorem updateResults_then_getResults :
  forall (CRITERIA : list Criterion) (now : DateTime) (uniqueId : string)
    (body : UpdateResultsDto) (db db' : DB)
    (before after : list UpdateResultsItem) (item : UpdateResultsItem),
    AuditService.updateResults now uniqueId body db = (Return tt, db') ->
    urd_data body = before ++ item :: after ->
    (forall j, In j after ->
       ~ (ur_pageUrl j = ur_pageUrl item /\ ur_topic j = ur_topic item
          /\ ur_criterium j = ur_criterium item)) ->
    let shows entry :=
      re_pageUrl entry = ur_pageUrl item /\ re_topic entry = ur_topic item
      /\ re_criterium entry = ur_criterium item in
    let results :=
      AuditService.getResultsWithEditUniqueId CRITERIA uniqueId db' in
    (forall entry, In entry results -> shows entry ->
       re_status entry = ur_status item
       /\ re_auditUniqueId entry = Some uniqueId
       /\ (ur_compliantComment item <> JS.undefined ->
           re_compliantComment entry
           = Prisma.in_create (ur_compliantComment item))
       /\ (ur_errorDescription item <> JS.undefined ->
           re_errorDescription entry
           = Prisma.in_create (ur_errorDescription item))
       /\ (ur_userImpact item <> JS.undefined ->
           re_userImpact entry = Prisma.in_create (ur_userImpact item))
       /\ (ur_recommandation item <> JS.undefined ->
           re_recommandation entry
           = Prisma.in_create (ur_recommandation item))
       /\ (ur_notApplicableComment item <> JS.undefined ->
           re_notApplicableComment entry
           = Prisma.in_create (ur_notApplicableComment item)))
    /\ ((forall j, In j before ->
           ~ (ur_pageUrl j = ur_pageUrl item /\ ur_topic j = ur_topic item
              /\ ur_criterium j = ur_criterium item)) ->
        forall entry, In entry results -> shows entry ->
        exists was : option CriterionResult,
          match was with
          | Some r0 => In r0 (rows (db_criterionResult db))
                       /\ hits uniqueId item r0 = true
          | None => forall r0, In r0 (rows (db_criterionResult db)) ->
                      hits uniqueId item r0 = false
          end
          /\ re_compliantComment entry
             = Prisma.in_update (ur_compliantComment item)
                 (stored_column cr_compliantComment was)
          /\ re_errorDescription entry
             = Prisma.in_update (ur_errorDescription item)
                 (stored_column cr_errorDescription was)
          /\ re_userImpact entry
             = Prisma.in_update (ur_userImpact item)
                 (stored_column cr_userImpact was)
          /\ re_recommandation entry
             = Prisma.in_update (ur_recommandation item)
                 (stored_column cr_recommandation was)
          /\ re_notApplicableComment entry
             = Prisma.in_update (ur_notApplicableComment item)
                 (stored_column cr_notApplicableComment was))
    /\ (In (mkCriterion (ur_topic item) (ur_criterium item)) CRITERIA ->
        exists entry, In entry results /\ shows entry).
Proof.
  intros CRITERIA now u body db db' before after item H Hb Hafter shows
    results.
  rewrite updateResults_eq in H.
  destruct (forallb (writable u db) (urd_data body)) eqn:Ec;
    [|discriminate].
  inversion H; subst db'; clear H.
  rewrite forallb_forall in Ec.
  assert (Hitem : In item (urd_data body)).
  { rewrite Hb. apply in_or_app. right. now left. }
  set (db' := set_audit _ _) in *.
  assert (Hpage : has_page u (ur_pageUrl item) db').
  { apply connectable_iff. specialize (Ec item Hitem). unfold writable in Ec.
    now apply andb_true_iff in Ec as [Ec _]. }
  assert (Hrow : exists r0, In r0 (audit_results u db')
                         /\ hits u item r0 = true).
  { pose proof (apply_batch_adds u (urd_data body) (db_criterionResult db)
                  item Hitem) as Hx.
    apply existsb_exists in Hx as (r0 & Hr0 & Hh). exists r0.
    split; [|exact Hh]. apply audit_results_In. split; [exact Hr0|].
    apply hits_iff in Hh as (Hu & Hurl & _). split; [exact Hu|].
    now rewrite Hurl. }
  assert (Hfound : forall page criterion r,
    page_url page = ur_pageUrl item ->
    criterion_topic criterion = ur_topic item ->
    criterion_criterium criterion = ur_criterium item ->
    find (fun result =>
        String.eqb (cr_pageUrl result) (page_url page)
        && Z.eqb (cr_topic result) (criterion_topic criterion)
        && Z.eqb (cr_criterium result) (criterion_criterium criterion))
      (audit_results u db') = r ->
    exists r1, r = Some r1
      /\ ((exists r0,
              In r0 (rows (apply_batch u before (db_criterionResult db)))
              /\ hits u item r0 = true /\ r1 = row_update u item r0)
          \/ (existsb (hits u item)
                (rows (apply_batch u before (db_criterionResult db))) = false
              /\ r1 = row_data u item (cr_id r1)))).
  { intros page c r Hp Ht Hcr Hf.
    destruct r as [r1|].
    - exists r1. split; [reflexivity|].
      apply find_some in Hf as [Hin Hk].
      apply audit_results_In in Hin as (Hin & Hu & _).
      apply (apply_batch_last_wins u before after item
               (db_criterionResult db) r1 Hafter).
      + rewrite <- Hb. exact Hin.
      + apply hits_iff. rewrite !andb_true_iff, String.eqb_eq, !Z.eqb_eq in Hk.
        repeat split; try congruence;
          tauto || (destruct Hk as [[? ?] ?]; congruence).
    - exfalso. destruct Hrow as (r0 & Hr0 & Hh).
      rewrite find_none_iff in Hf. specialize (Hf r0 Hr0). cbv beta in Hf.
      apply hits_iff in Hh as (_ & H1 & H2 & H3).
      rewrite Hp, Ht, Hcr, H1, H2, H3, String.eqb_refl, !Z.eqb_refl in Hf.
      discriminate. }
  assert (Hentry : forall entry, In entry results -> shows entry ->
    exists r1, entry = existing r1
      /\ ((exists r0,
              In r0 (rows (apply_batch u before (db_criterionResult db)))
              /\ hits u item r0 = true /\ r1 = row_update u item r0)
          \/ (existsb (hits u item)
                (rows (apply_batch u before (db_criterionResult db))) = false
              /\ r1 = row_data u item (cr_id r1)))).
  { intros entry Hin (S1 & S2 & S3).
    apply getResults_In in Hin as (page & c & Hp & Hc & He).
    assert (Hk : page_url page = ur_pageUrl item
                 /\ criterion_topic c = ur_topic item
                 /\ criterion_criterium c = ur_criterium item).
    { destruct (find _ _) as [r1|] eqn:Ef.
      - apply find_some in Ef as [_ Hk].
        rewrite !andb_true_iff, String.eqb_eq, !Z.eqb_eq in Hk.
        destruct Hk as [[K1 K2] K3]. subst entry. simpl in S1, S2, S3.
        repeat split; congruence.
      - subst entry. simpl in S1, S2, S3. now repeat split. }
    destruct Hk as (K1 & K2 & K3).
    destruct (Hfound page c _ K1 K2 K3 eq_refl) as (r1 & Ef & Hr1).
    rewrite Ef in He. now exists r1. }
  split; [|split].
  - intros entry Hin Hs.
    destruct (Hentry entry Hin Hs) as (r1 & -> & [(r0 & _ & _ & ->)|[_ ->]]);
      simpl; repeat split; try reflexivity; intros Hx;
      now apply in_update_defined.
  - intros Hbefore entry Hin Hs.
    destruct (Hentry entry Hin Hs)
      as (r1 & -> & [(r0 & Hr0 & Hh & ->)|[Hnone ->]]).
    + exists (Some r0). split; [|simpl; now repeat split].
      split; [|exact Hh].
      now apply (proj1 (apply_batch_strangers u before item r0 Hbefore Hh _)).
    + exists None. split; [|simpl; now rewrite !in_update_nothing].
      intros r0 Hr0. destruct (hits u item r0) eqn:Hh; [|reflexivity].
      rewrite existsb_false_iff in Hnone. rewrite <- Hh. apply Hnone.
      now apply (proj2 (apply_batch_strangers u before item r0 Hbefore Hh _)).
  - intros Hcat. destruct Hpage as (p & Hp & Hpu & Hurl).
    destruct (Hfound p (mkCriterion (ur_topic item) (ur_criterium item)) _
                Hurl eq_refl eq_refl eq_refl) as (r1 & Ef & Hr1).
    exists (existing r1). split.
    + apply getResults_In.
      exists p, (mkCriterion (ur_topic item) (ur_criterium item)).
      split; [|split; [exact Hcat | now rewrite Ef]].
      unfold audit_pages, Prisma.findMany. apply filter_In.
      split; [exact Hp | now apply child_of_iff].
    + unfold shows.
      destruct Hr1 as [(r0 & _ & _ & ->)|[_ ->]]; simpl; now repeat split.
Qed.

(** ** Results for criteria that the catalogue does not have *)

Lemma find_map_skipped {A} (g : A -> bool) (h : A -> A) (l : list A) :
  (forall x, In x l -> h x = x \/ (g x = false /\ g (h x) = false)) ->
  find g (map h l) = find g l.
Proof.
  induction l as [|x l IH]; intros H; simpl; [reflexivity|].
  destruct (H x (or_introl eq_refl)) as [E|[E1 E2]].
  - rewrite E. destruct (g x); [reflexivity|].
    apply IH. intros y Hy. apply H. now right.
  - rewrite E1, E2. apply IH. intros y Hy. apply H. now right.
Qed.

Lemma find_filter {A} (p f : A -> bool) (l : list A) :
  find f (filter p l) = find (fun x => p x && f x) l.
Proof.
  induction l as [|x l IH]; simpl; [reflexivity|].
  destruct (p x); simpl; [|exact IH].
  destruct (f x); [reflexivity | exact IH].
Qed.

Lemma find_app_last {A} (g : A -> bool) (l : list A) (x : A) :
  g x = false -> find g (l ++ [x]) = find g l.
Proof.
  intros Hx. induction l as [|y l IH]; simpl.
  - now rewrite Hx.
  - destruct (g y); [reflexivity | exact IH].
Qed.

(** A search that no row with the key of a batch item can satisfy finds the
    same row before and after the batch. *)
Lemma apply_batch_find (uniqueId : string) (g : CriterionResult -> bool)
  (b : list UpdateResultsItem) :
  (forall i r, In i b ->
     cr_auditUniqueId r = uniqueId -> cr_pageUrl r = ur_pageUrl i ->
     cr_topic r = ur_topic i -> cr_criterium r = ur_criterium i ->
     g r = false) ->
  forall t,
    find g (rows (apply_batch uniqueId b t)) = find g (rows t).
Proof.
  intros Hg. induction b as [|i b IH]; intros t; [reflexivity|].
  change (apply_batch uniqueId (i :: b) t)
    with (apply_batch uniqueId b (upsert_table uniqueId t i)).
  rewrite IH by (intros j r Hj; apply Hg; now right).
  assert (Hnew : forall id, g (row_data uniqueId i id) = false).
  { intros id. apply (Hg i); [now left|reflexivity..]. }
  destruct (existsb (hits uniqueId i) (rows t)) eqn:E.
  - rewrite upsert_table_present by exact E. simpl.
    apply find_map_skipped. intros r _. unfold overwrite_step.
    destruct (hits uniqueId i r) eqn:Eh; [|now left].
    right. split.
    + apply hits_iff in Eh as (H1 & H2 & H3 & H4).
      apply (Hg i); [now left|assumption..].
    + apply (Hg i); [now left|reflexivity..].
  - rewrite upsert_table_absent by exact E. simpl.
    apply find_app_last, Hnew.
Qed.

(** update-results does not look at the catalogue.  A batch whose items are
    for criteria that the catalogue does not list is stored all the same:
    every item has its row.  get-results shows nothing of it and returns
    what it returned before, but the completeness check counts it: such an
    item with status NOT_TESTED (the last of the batch for its key) makes
    [isAuditComplete] false and publish-audit throw Conflict. *)
Theorem updateResults_stores_what_the_catalogue_lacks :
  forall (CRITERIA : list Criterion) (now : DateTime) (uniqueId : string)
    (body : UpdateResultsDto) (db db' : DB),
    AuditService.updateResults now uniqueId body db = (Return tt, db') ->
    (forall item, In item (urd_data body) ->
       ~ In (mkCriterion (ur_topic item) (ur_criterium item)) CRITERIA) ->
    AuditService.getResultsWithEditUniqueId CRITERIA uniqueId db'
    = AuditService.getResultsWithEditUniqueId CRITERIA uniqueId db
    /\ (forall item, In item (urd_data body) ->
          exists r, In r (rows (db_criterionResult db'))
                    /\ hits uniqueId item r = true)
    /\ (forall before after item,
          urd_data body = before ++ item :: after ->
          (forall j, In j after ->
             ~ (ur_pageUrl j = ur_pageUrl item /\ ur_topic j = ur_topic item
                /\ ur_criterium j = ur_criterium item)) ->
          ur_status item = NOT_TESTED ->
          AuditService.isAuditComplete uniqueId db' = false
          /\ forall later,
               AuditsController.publishAudit later uniqueId db'
               = (Throw (ConflictException
                           "Cannot publish audit if it is not complete."),
                  db')).
Proof.
  intros CRITERIA now u body db db' H Hout.
  rewrite updateResults_eq in H.
  destruct (forallb (writable u db) (urd_data body)) eqn:Ec;
    [|discriminate].
  inversion H; subst db'; clear H.
  set (db' := set_audit _ _).
  split; [|split].
  - rewrite !getResults_unfold.
    change (audit_pages u db') with (audit_pages u db).
    apply flat_map_ext. intros page. apply map_ext_in. intros c Hc.
    unfold audit_results, Prisma.findMany. rewrite !find_filter.
    change (rows (db_criterionResult db'))
      with (rows (apply_batch u (urd_data body) (db_criterionResult db))).
    change (rows (db_auditedPage db')) with (rows (db_auditedPage db)).
    rewrite apply_batch_find; [reflexivity|].
    intros i r Hi _ _ Ht Hcr. apply andb_false_iff. right.
    destruct (Z.eqb (cr_topic r) (criterion_topic c)) eqn:E1;
      [|now rewrite andb_false_r].
    destruct (Z.eqb (cr_criterium r) (criterion_criterium c)) eqn:E2;
      [|now rewrite andb_false_r].
    exfalso. apply (Hout i Hi). apply Z.eqb_eq in E1, E2.
    rewrite <- Ht, <- Hcr, E1, E2. now destruct c.
  - intros item Hi.
    pose proof (apply_batch_adds u (urd_data body) (db_criterionResult db)
                  item Hi) as Hx.
    apply existsb_exists in Hx. exact Hx.
  - intros before after item Hb Hafter Hs.
    assert (Hitem : In item (urd_data body)).
    { rewrite Hb. apply in_or_app. right. now left. }
    pose proof (apply_batch_adds u (urd_data body) (db_criterionResult db)
                  item Hitem) as Hx.
    apply existsb_exists in Hx as (r0 & Hr0 & Hh).
    assert (Hinc : AuditService.isAuditComplete u db' = false).
    { apply isAuditComplete_false_iff. exists r0. split; [exact Hr0|].
      pose proof Hh as Hk. apply hits_iff in Hk as (Hu & _).
      split; [exact Hu|].
      rewrite Hb in Hr0.
      destruct (apply_batch_last_wins u before after item _ r0 Hafter Hr0 Hh)
        as [(r1 & _ & _ & ->)|[_ ->]]; exact Hs. }
    split; [exact Hinc|]. intros later.
    unfold AuditsController.publishAudit. now rewrite Hinc.
Qed.


(** ** The report and the order of the rows *)

Lemma filter_perm {A} (f : A -> bool) (l l' : list A) :
  Permutation l l' -> Permutation (filter f l) (filter f l').
Proof.
  induction 1 as [|x l l' _ IH|x y l|l l1 l2 _ IH1 _ IH2]; simpl.
  - constructor.
  - destruct (f x); [now constructor | exact IH].
  - destruct (f x), (f y); try apply Permutation_refl.
    apply perm_swap.
  - now transitivity (filter f l1).
Qed.

Lemma count_perm {A} (f : A -> bool) (l l' : list A) :
  Permutation l l' ->
  List.length (filter f l) = List.length (filter f l').
Proof. intros H. apply Permutation_length. now apply filter_perm. Qed.

Lemma existsb_same_elements {A} (f : A -> bool) (l l' : list A) :
  (forall x, In x l <-> In x l') -> existsb f l = existsb f l'.
Proof.
  intros H. destruct (existsb f l') eqn:E.
  - apply existsb_exists in E as (x & Hx & Hf). apply existsb_exists.
    exists x. split; [now apply H | exact Hf].
  - rewrite existsb_false_iff in E. apply existsb_false_iff.
    intros x Hx. apply E. now apply H.
Qed.

Lemma forallb_same_elements {A} (f : A -> bool) (l l' : list A) :
  (forall x, In x l <-> In x l') -> forallb f l = forallb f l'.
Proof.
  intros H. destruct (forallb f l') eqn:E.
  - rewrite forallb_forall in E. apply forallb_forall.
    intros x Hx. apply E. now apply H.
  - destruct (forallb f l) eqn:E'; [|reflexivity].
    rewrite forallb_forall in E'.
    assert (forallb f l' = true).
    { apply forallb_forall. intros x Hx. apply E'. now apply H. }
    congruence.
Qed.

Lemma filter_map_swap {A B} (P : B -> bool) (G : A -> B) (l : list A) :
  filter P (map G l) = map G (filter (fun x => P (G x)) l).
Proof.
  induction l as [|x l IH]; simpl; [reflexivity|].
  destruct (P (G x)); simpl; now rewrite IH.
Qed.

Lemma filter_twice {A} (P C : A -> bool) (l : list A) :
  filter C (filter P l) = filter (fun x => P x && C x) l.
Proof.
  induction l as [|x l IH]; simpl; [reflexivity|].
  destruct (P x); simpl; [|exact IH].
  destruct (C x); now rewrite IH.
Qed.

(** The groups, by their property names. *)
Lemma groups_by_key (results : list CriterionResult) :
  JS.values (AuditService.groupedCriteria results)
  = map (fun k => filter (fun r => String.eqb (key_of r) k) results)
      (map fst (AuditService.groupedCriteria results)).
Proof.
  destruct (groupedCriteria_grouped results) as (_ & Hg & _).
  unfold JS.values. rewrite map_map. apply map_ext_in.
  intros [k g] Hin. simpl. now destruct (Hg k g Hin).
Qed.

Lemma group_keys_In (results : list CriterionResult) (k : string) :
  In k (map fst (AuditService.groupedCriteria results))
  <-> exists r, In r results /\ key_of r = k.
Proof.
  destruct (groupedCriteria_grouped results) as (_ & Hg & Hk). split.
  - intros Hin. apply in_map_iff in Hin as ([k0 g] & E & Hin).
    simpl in E. subst k0. destruct (Hg k g Hin) as [Hf Hne].
    destruct g as [|r g']; [now contradiction Hne|].
    assert (Hr : In r (r :: g')) by now left.
    rewrite Hf in Hr. apply filter_In in Hr as [Hr Hkey].
    apply String.eqb_eq in Hkey. now exists r.
  - intros (r & Hr & <-). now apply Hk.
Qed.

Lemma group_keys_perm (results results' : list CriterionResult) :
  Permutation results results' ->
  Permutation (map fst (AuditService.groupedCriteria results))
    (map fst (AuditService.groupedCriteria results')).
Proof.
  intros H. apply NoDup_Permutation.
  - now destruct (groupedCriteria_grouped results).
  - now destruct (groupedCriteria_grouped results').
  - intros k. rewrite !group_keys_In. split; intros (r & Hr & Hk); exists r;
      (split; [|exact Hk]).
    + now apply (Permutation_in _ H).
    + now apply (Permutation_in _ (Permutation_sym H)).
Qed.

Lemma group_counts_perm (P : list CriterionResult -> bool)
  (results results' : list CriterionResult) :
  (forall l l', (forall x, In x l <-> In x l') -> P l = P l') ->
  Permutation results results' ->
  List.length (filter P (JS.values (AuditService.groupedCriteria results)))
  = List.length
      (filter P (JS.values (AuditService.groupedCriteria results'))).
Proof.
  intros HP H.
  assert (Hby : forall rs,
    List.length (filter P (JS.values (AuditService.groupedCriteria rs)))
    = List.length
        (filter
           (fun k => P (filter (fun r => String.eqb (key_of r) k) rs))
           (map fst (AuditService.groupedCriteria rs)))).
  { intros rs. rewrite groups_by_key, filter_map_swap. apply length_map. }
  rewrite !Hby.
  rewrite (count_perm
             (fun k => P (filter (fun r => String.eqb (key_of r) k) results))
             _ _ (group_keys_perm _ _ H)).
  f_equal. apply filter_ext. intros k. apply HP. intros x.
  rewrite !filter_In. split; intros [Hx Hk]; (split; [|exact Hk]).
  - now apply (Permutation_in _ H).
  - now apply (Permutation_in _ (Permutation_sym H)).
Qed.

Lemma applicable_perm (results results' : list CriterionResult) :
  Permutation results results' ->
  List.length (AuditService.applicableCriteria results)
  = List.length (AuditService.applicableCriteria results')
  /\ List.length (AuditService.compliantCriteria results)
     = List.length (AuditService.compliantCriteria results').
Proof.
  intros H. unfold AuditService.compliantCriteria,
    AuditService.applicableCriteria. split.
  - apply group_counts_perm; [|exact H].
    intros l l' Hl. now apply existsb_same_elements.
  - rewrite !filter_twice. apply group_counts_perm; [|exact H].
    intros l l' Hl. f_equal.
    + now apply existsb_same_elements.
    + now apply forallb_same_elements.
Qed.

Lemma distribution_perm (results results' : list CriterionResult)
  (f : CriterionResult -> bool) (d : JS.number) :
  Permutation results results' ->
  AuditService.distribution results f d
  = AuditService.distribution results' f d.
Proof.
  intros H. unfold AuditService.distribution, JS.length.
  now rewrite (count_perm f _ _ H).
Qed.

(** The two reports, of the store and of the store with its result rows in
    another order. *)
Lemma report_under_permutation :
  forall (RGAA_topics : list RgaaTopic) (consultUniqueId : string) (db : DB)
    (rows' : list CriterionResult),
    Permutation (rows (db_criterionResult db)) rows' ->
    match
      AuditService.getAuditReportData RGAA_topics consultUniqueId db,
      AuditService.getAuditReportData RGAA_topics consultUniqueId
        (with_result_rows rows' db)
    with
    | Some report, Some report' =>
        report_accessibilityRate report' = report_accessibilityRate report
        /\ report_applicableCriteriaCount report'
           = report_applicableCriteriaCount report
        /\ report_errorCount report' = report_errorCount report
        /\ report_blockingErrorCount report'
           = report_blockingErrorCount report
        /\ report_pageDistributions report' = report_pageDistributions report
        /\ report_resultDistribution report' = report_resultDistribution report
        /\ report_topicDistributions report' = report_topicDistributions report
        /\ Permutation (report_results report) (report_results report')
    | None, None => True
    | _, _ => False
    end.
Proof.
  intros RGAA_topics c db rows' H.
  unfold AuditService.getAuditReportData.
  change (db_audit (with_result_rows rows' db)) with (db_audit db).
  destruct (Prisma.findUnique _ (db_audit db)) as [audit|]; [|exact I].
  change (inc_pages (include audit (with_result_rows rows' db)))
    with (inc_pages (include audit db)).
  unfold Prisma.findMany.
  change (rows (db_criterionResult (with_result_rows rows' db))) with rows'.
  set (f := fun r => String.eqb (cr_auditUniqueId r) (audit_editUniqueId audit)).
  pose proof (filter_perm f _ _ H) as Hp.
  set (rs := filter f (rows (db_criterionResult db))) in *.
  set (rs' := filter f rows') in *.
  destruct (applicable_perm rs rs' Hp) as [Ha Hc].
  simpl.
  split; [|split; [|split; [|split; [|split; [|split; [|split]]]]]].
  - unfold AuditService.accessibilityRate, JS.length. now rewrite Ha, Hc.
  - now rewrite Ha.
  - symmetry. now apply count_perm.
  - symmetry. now apply count_perm.
  - unfold AuditService.pageDistributions. apply map_ext. intros p.
    now rewrite !(distribution_perm rs rs').
  - unfold AuditService.resultDistribution, JS.length.
    rewrite (Permutation_length Hp).
    now rewrite !(distribution_perm rs rs').
  - unfold AuditService.topicDistributions, JS.length. apply map_ext.
    intros t.
    rewrite (count_perm (fun r => Z.eqb (cr_topic r) (rgaa_number t)) _ _ Hp).
    now rewrite !(distribution_perm rs rs').
  - now apply Permutation_map.
Qed.

(** The report does not depend on the order in which the store gives the
    result rows ([findMany] asks for none): with the rows in any other
    order there is a report or there is none alike, and the accessibility
    rate, the number of applicable criteria, the two error counts and the
    distributions per page, overall and per topic are the same; the results
    listed are the same up to their order. *)
Theorem report_numbers_ignore_row_order :
  forall (RGAA_topics : list RgaaTopic) (consultUniqueId : string) (db : DB)
    (rows' : list CriterionResult),
    Permutation (rows (db_criterionResult db)) rows' ->
    let report_of := AuditService.getAuditReportData RGAA_topics
                       consultUniqueId in
    (report_of db = None <-> report_of (with_result_rows rows' db) = None)
    /\ forall report report',
         report_of db = Some report ->
         report_of (with_result_rows rows' db) = Some report' ->
         report_accessibilityRate report' = report_accessibilityRate report
         /\ report_applicableCriteriaCount report'
            = report_applicableCriteriaCount report
         /\ report_errorCount report' = report_errorCount report
         /\ report_blockingErrorCount report'
            = report_blockingErrorCount report
         /\ report_pageDistributions report' = report_pageDistributions report
         /\ report_resultDistribution report'
            = report_resultDistribution report
         /\ report_topicDistributions report'
            = report_topicDistributions report
         /\ Permutation (report_results report) (report_results report').
Proof.
  intros RGAA_topics c db rows' H report_of. unfold report_of.
  pose proof (report_under_permutation RGAA_topics c db rows' H) as Hm.
  destruct (AuditService.getAuditReportData RGAA_topics c db) as [r|],
    (AuditService.getAuditReportData RGAA_topics c (with_result_rows rows' db))
    as [r'|]; try contradiction.
  - split; [split; discriminate|].
    intros report report' E E'. inversion E; inversion E'; subst. exact Hm.
  - split; [tauto|]. discriminate.
Qed.

(** ** Publishing with criteria that have no stored result *)

(** publish-audit looks at the stored rows only.  A live audit that has, for
    one of its pages and a criterion of the catalogue, no stored result,
    and that has no stored result with status NOT_TESTED, is published; and
    get-results on the published audit still lists the NOT_TESTED
    placeholder for that page and criterion. *)
Theorem publishAudit_publishes_untested_criteria :
  forall (CRITERIA : list Criterion) (now : DateTime) (uniqueId : string)
    (db : DB) (page : AuditedPage) (criterion : Criterion),
    live uniqueId db ->
    In page (audit_pages uniqueId db) ->
    In criterion CRITERIA ->
    (forall r, In r (audit_results uniqueId db) ->
       ~ row_of r page criterion) ->
    (forall r, In r (rows (db_criterionResult db)) ->
       cr_auditUniqueId r = uniqueId -> cr_status r <> NOT_TESTED) ->
    exists audit db',
      AuditsController.publishAudit now uniqueId db = (Return audit, db')
      /\ audit_publicationDate (inc_audit audit) = Some now
      /\ In (mkResultEntry None None NOT_TESTED None None None None None
               (criterion_topic criterion) (criterion_criterium criterion)
               (page_url page))
           (AuditService.getResultsWithEditUniqueId CRITERIA uniqueId db').
Proof.
  intros CRITERIA now u db page c Hl Hp Hc Hnone Htested.
  assert (Hcomplete : AuditService.isAuditComplete u db = true)
    by now apply isAuditComplete_spec.
  destruct (Prisma.findUnique (editUniqueId_is u) (db_audit db)) as [a|] eqn:E.
  2:{ apply findUnique_audit_none_iff in E. contradiction. }
  unfold AuditsController.publishAudit. rewrite Hcomplete. simpl.
  rewrite (service_publishAudit_found now u db a E).
  eexists. eexists. split; [reflexivity|]. split; [reflexivity|].
  apply getResults_In. exists page, c.
  split; [exact Hp|]. split; [exact Hc|].
  change (audit_results u (set_audit _ db)) with (audit_results u db).
  destruct (find _ _) as [r|] eqn:Ef; [|reflexivity].
  exfalso. apply find_some in Ef as [Hin Hk].
  apply (Hnone r Hin). now apply row_of_iff.
Qed.


(** ** The pages after update-audit *)

Lemma pages_update_rows (uniqueId : string) (p : UpdateAuditPage)
  (db db' : DB) :
  AuditService.pages_update uniqueId p db = Return (tt, db') ->
  rows (db_auditedPage db')
  = map (page_written uniqueId p) (rows (db_auditedPage db))
  /\ exists q, In q (rows (db_auditedPage db))
               /\ Prisma.child_of uniqueId (page_auditUniqueId q) = true
               /\ Prisma.is_id (page_id q) (uap_id p) = true.
Proof.
  unfold AuditService.pages_update. intros H.
  destruct (Prisma.findUnique _ _) as [q|] eqn:Ef; [|discriminate].
  destruct (existsb _ _); [discriminate|].
  inversion H; subst; clear H. split; [reflexivity|].
  apply find_some in Ef as [Hin Hh]. apply andb_true_iff in Hh as [H1 H2].
  now exists q.
Qed.

Lemma pages_updates_rows (uniqueId : string) (ps : list UpdateAuditPage) :
  forall db db',
    for_each (AuditService.pages_update uniqueId) ps db = Return (tt, db') ->
    rows (db_auditedPage db')
    = map (fun q => fold_left (fun q p => page_written uniqueId p q) ps q)
        (rows (db_auditedPage db)).
Proof.
  induction ps as [|p ps IH]; intros db db' H.
  - simpl in H. unfold ret in H. inversion H; subst. simpl.
    now rewrite map_id.
  - simpl in H. apply bind_Return in H as ([] & d1 & H1 & H2).
    apply pages_update_rows in H1 as [E1 _].
    rewrite (IH _ _ H2), E1, map_map. reflexivity.
Qed.

Lemma page_written_keeps (uniqueId : string) (p : UpdateAuditPage)
  (q : AuditedPage) :
  page_id (page_written uniqueId p q) = page_id q
  /\ page_auditUniqueId (page_written uniqueId p q) = page_auditUniqueId q.
Proof. unfold page_written. now destruct (_ && _). Qed.

Lemma pages_written_keep (uniqueId : string) (ps : list UpdateAuditPage) :
  forall q,
    page_id (fold_left (fun q p => page_written uniqueId p q) ps q) = page_id q
    /\ page_auditUniqueId
         (fold_left (fun q p => page_written uniqueId p q) ps q)
       = page_auditUniqueId q.
Proof.
  induction ps as [|p ps IH]; intros q; [now split|].
  simpl. destruct (IH (page_written uniqueId p q)) as [E1 E2].
  destruct (page_written_keeps uniqueId p q) as [E3 E4].
  split; congruence.
Qed.

(** A stored page whose id the payload names has, after the updates, the
    name and the url of a page of the payload with that id. *)
Lemma pages_written_match (uniqueId : string) (ps : list UpdateAuditPage)
  (q : AuditedPage) :
  Prisma.child_of uniqueId (page_auditUniqueId q) = true ->
  existsb (Prisma.is_id (page_id q)) (map uap_id ps) = true ->
  exists p, In p ps
            /\ uap_id p = Some (page_id q)
            /\ page_matches p
                 (fold_left (fun q p => page_written uniqueId p q) ps q).
Proof.
  intros Hc. induction ps as [|p ps IH] using rev_ind; intros He;
    [discriminate|].
  rewrite fold_left_app. simpl.
  set (q1 := fold_left (fun q p => page_written uniqueId p q) ps q).
  destruct (pages_written_keep uniqueId ps q) as [Eid Eau]. fold q1 in Eid, Eau.
  unfold page_written. rewrite Eid, Eau, Hc. simpl.
  destruct (Prisma.is_id (page_id q) (uap_id p)) eqn:Ei.
  - exists p. split; [apply in_or_app; right; now left|].
    split; [|now split].
    unfold Prisma.is_id in Ei. destruct (uap_id p) as [z|]; [|discriminate].
    apply Z.eqb_eq in Ei. now subst.
  - rewrite map_app, existsb_app in He. simpl in He.
    rewrite Ei, orb_false_r in He.
    destruct (IH He) as (p0 & Hin & Hid & Hm).
    exists p0. split; [apply in_or_app; now left|]. now split.
Qed.

Lemma pages_written_other (uniqueId : string) (ps : list UpdateAuditPage)
  (q : AuditedPage) :
  (forall p, In p ps ->
     Prisma.child_of uniqueId (page_auditUniqueId q)
     && Prisma.is_id (page_id q) (uap_id p) = false) ->
  fold_left (fun q p => page_written uniqueId p q) ps q = q.
Proof.
  induction ps as [|p ps IH]; intros H; [reflexivity|].
  simpl. unfold page_written at 2. rewrite (H p (or_introl eq_refl)).
  apply IH. intros p' Hp'. apply H. now right.
Qed.

(** Each page of the payload that carries an id is stored after the
    updates, if no two of them carry the same id. *)
Lemma pages_updates_stored (uniqueId : string) (ps : list UpdateAuditPage) :
  forall db db',
    for_each (AuditService.pages_update uniqueId) ps db = Return (tt, db') ->
    NoDup (map uap_id ps) ->
    forall p, In p ps ->
      exists q, In q (rows (db_auditedPage db'))
                /\ page_auditUniqueId q = Some uniqueId
                /\ uap_id p = Some (page_id q)
                /\ page_matches p q.
Proof.
  induction ps as [|p0 ps IH]; intros db db' H Hnd p Hin; [destruct Hin|].
  simpl in H. apply bind_Return in H as ([] & d1 & H1 & H2).
  simpl in Hnd. inversion Hnd as [|? ? Hnotin Hnd']; subst.
  destruct Hin as [<-|Hin]; [|exact (IH _ _ H2 Hnd' p Hin)].
  apply pages_update_rows in H1 as [E1 (q & Hq & Hc & Hi)].
  rewrite (pages_updates_rows _ _ _ _ H2), E1, map_map.
  assert (Hid : uap_id p0 = Some (page_id q)).
  { unfold Prisma.is_id in Hi. destruct (uap_id p0) as [z|]; [|discriminate].
    apply Z.eqb_eq in Hi. now subst. }
  exists (page_written uniqueId p0 q).
  assert (Hw : page_written uniqueId p0 q
               = mkAuditedPage (page_id q) (uap_name p0) (uap_url p0)
                   (page_auditUniqueId q)).
  { unfold page_written. now rewrite Hc, Hi. }
  split; [|split; [|split]].
  - apply in_map_iff. exists q. split; [|exact Hq].
    apply pages_written_other. intros p' Hp'.
    rewrite Hw. simpl. rewrite Hc. simpl.
    unfold Prisma.is_id. destruct (uap_id p') as [z|] eqn:Ez; [|reflexivity].
    apply Z.eqb_neq. intros E. subst z. apply Hnotin.
    apply in_map_iff. exists p'. split; [congruence | exact Hp'].
  - rewrite Hw. simpl. now apply child_of_iff.
  - rewrite Hw. exact Hid.
  - rewrite Hw. now split.
Qed.

Lemma pages_create_rows (uniqueId : string) (ps : list UpdateAuditPage) :
  forall db db',
    for_each (AuditService.pages_create uniqueId) ps db = Return (tt, db') ->
    exists ids,
      List.length ids = List.length ps
      /\ rows (db_auditedPage db')
         = rows (db_auditedPage db)
           ++ map (fun x => mkAuditedPage (fst x) (uap_name (snd x))
                              (uap_url (snd x)) (Some uniqueId))
                (combine ids ps).
Proof.
  induction ps as [|p ps IH]; intros db db' H.
  - simpl in H. unfold ret in H. inversion H; subst.
    exists []. split; [reflexivity|]. simpl. now rewrite app_nil_r.
  - simpl in H. apply bind_Return in H as ([] & d1 & H1 & H2).
    unfold AuditService.pages_create in H1. cbv [bind gets] in H1.
    destruct (existsb _ _); [discriminate|].
    cbv [modify] in H1. inversion H1; subst; clear H1.
    apply IH in H2 as (ids & Hlen & Hrows). simpl in Hrows.
    exists (nextval (db_auditedPage db) :: ids).
    split; [simpl; now rewrite Hlen|].
    rewrite Hrows. simpl. now rewrite <- app_assoc.
Qed.

Lemma combine_In_snd {A B} (l : list A) (l' : list B) (y : B) :
  List.length l = List.length l' -> In y l' ->
  exists x, In (x, y) (combine l l').
Proof.
  revert l'. induction l as [|a l IH]; intros [|b l'] Hlen Hin;
    try discriminate; [destruct Hin|].
  simpl in Hlen. inversion Hlen. destruct Hin as [<-|Hin].
  - exists a. now left.
  - destruct (IH l' H0 Hin) as (x & Hx). exists x. now right.
Qed.

(** The steps of the audit update that write the pages. *)
Lemma audit_update_pages (uniqueId : string) (data : UpdateAuditDto)
  (updatedPages newPages : list UpdateAuditPage) (db db' : DB)
  (audit : AuditWithIncludes) :
  AuditService.audit_update uniqueId data updatedPages newPages db
  = Return (audit, db') ->
  exists d4 d5 d6,
    db_auditedPage d4 = db_auditedPage db
    /\ AuditService.pages_deleteMany uniqueId updatedPages d4
       = Return (tt, d5)
    /\ for_each (AuditService.pages_update uniqueId) updatedPages d5
       = Return (tt, d6)
    /\ for_each (AuditService.pages_create uniqueId) newPages d6
       = Return (tt, db').
Proof.
  unfold AuditService.audit_update. intros H.
  apply bind_Return in H as (found & d0 & H0 & H).
  unfold gets in H0. inversion H0; subst; clear H0.
  destruct (Prisma.findUnique _ _) as [a|] eqn:Ef; [|discriminate].
  apply bind_Return in H as ([] & d1 & H1 & H).
  unfold modify in H1. inversion H1; subst; clear H1.
  apply bind_Return in H as ([] & d2 & H2 & H).
  rewrite update_recipients_eq in H2. inversion H2; subst; clear H2.
  apply bind_Return in H as ([] & d3 & H3 & H).
  rewrite update_tools_eq in H3. inversion H3; subst; clear H3.
  apply bind_Return in H as ([] & d4 & H4 & H).
  rewrite update_environments_eq in H4. inversion H4; subst; clear H4.
  apply bind_Return in H as ([] & d5 & H5 & H).
  apply bind_Return in H as ([] & d6 & H6 & H).
  apply bind_Return in H as ([] & d7 & H7 & H).
  unfold gets in H. inversion H; subst; clear H.
  eexists. exists d5, d6. split; [|split; [exact H5|split; [exact H6|exact H7]]].
  reflexivity.
Qed.

(** After an update-audit that succeeds, the pages returned are the stored
    pages of the audit and they are the pages of the payload.  Every stored
    page has the name and the url of a page of the payload, and its id when
    that page carries one; every page of the payload without an id is
    stored; every page of the payload with an id is stored under that id,
    provided no two pages of the payload carry the same id; and the pages
    of the other audits are as they were. *)
Theorem updateAudit_pages_are_the_payload :
  forall (now : DateTime) (uniqueId : string) (data : UpdateAuditDto)
    (db db' : DB) (audit : AuditWithIncludes),
    AuditService.updateAudit now uniqueId data db = (Return (Some audit), db') ->
    let with_id p := JS.truthy_number (uap_id p) in
    inc_pages audit = audit_pages uniqueId db'
    /\ (forall q, In q (audit_pages uniqueId db') ->
          exists p, In p (ua_pages data) /\ page_matches p q
                    /\ (with_id p = true -> uap_id p = Some (page_id q)))
    /\ (forall p, In p (ua_pages data) -> with_id p = false ->
          exists q, In q (audit_pages uniqueId db') /\ page_matches p q)
    /\ (NoDup (map uap_id (filter with_id (ua_pages data))) ->
        forall p, In p (ua_pages data) -> with_id p = true ->
          exists q, In q (audit_pages uniqueId db') /\ page_matches p q
                    /\ uap_id p = Some (page_id q))
    /\ filter (fun q => negb (Prisma.child_of uniqueId (page_auditUniqueId q)))
         (rows (db_auditedPage db'))
       = filter
           (fun q => negb (Prisma.child_of uniqueId (page_auditUniqueId q)))
           (rows (db_auditedPage db)).
Proof.
  intros now uniqueId data db db' audit H with_id.
  unfold AuditService.updateAudit, AuditService.updateAudit_try, transaction
    in H.
  match type of H with
  | AuditService.catch_P2025 _ _ (match ?m with _ => _ end) = _ =>
      destruct m as [[x d]|e] eqn:E
  end.
  2:{ unfold AuditService.catch_P2025 in H.
      destruct (is_P2025 e); discriminate. }
  simpl in H. inversion H; subst; clear H.
  apply bind_Return in E as (a & d1 & E1 & E).
  apply bind_Return in E as ([] & d2 & E2 & E).
  unfold ret in E. inversion E; subst; clear E.
  unfold AuditService.updateAuditEditDate, modify in E2.
  inversion E2; subst; clear E2.
  pose proof (audit_update_returns _ _ _ _ _ _ _ E1) as (a0 & Hf & Haud).
  apply audit_update_pages in E1 as (d4 & d5 & d6 & E4 & E5 & E6 & E7).
  fold with_id in E5, E6, E7.
  set (U := filter with_id (ua_pages data)) in *.
  set (Nw := filter (fun p => negb (JS.truthy_number (uap_id p)))
               (ua_pages data)) in *.
  unfold AuditService.pages_deleteMany, modify in E5.
  inversion E5; subst d5; clear E5.
  pose proof (pages_updates_rows _ _ _ _ E6) as R6. simpl in R6.
  destruct (pages_create_rows _ _ _ _ E7) as (ids & Hlen & R7).
  rewrite E4 in R6.
  set (gone := fun p =>
         Prisma.child_of uniqueId (page_auditUniqueId p)
         && Prisma.notInZ (page_id p) (map uap_id U)) in *.
  set (W := fun q => fold_left (fun q p => page_written uniqueId p q) U q)
    in *.
  assert (Hrows : rows (db_auditedPage d1)
                  = map W (filter (fun p => negb (gone p))
                             (rows (db_auditedPage db)))
                    ++ map (fun x => mkAuditedPage (fst x) (uap_name (snd x))
                                       (uap_url (snd x)) (Some uniqueId))
                         (combine ids Nw)).
  { rewrite R7, R6. reflexivity. }
  assert (Hu : audit_editUniqueId a0 = uniqueId).
  { unfold Prisma.findUnique in Hf. apply find_some in Hf as [_ Hh].
    now apply String.eqb_eq. }
  assert (HU : forall p, In p U <-> In p (ua_pages data) /\ with_id p = true).
  { intros p. unfold U. apply filter_In. }
  assert (HN : forall p, In p Nw <-> In p (ua_pages data) /\ with_id p = false).
  { intros p. unfold Nw. rewrite filter_In, negb_true_iff. tauto. }
  split; [|split; [|split; [|split]]].
  - subst audit. unfold include, audit_pages. simpl. now rewrite Hu.
  - intros q Hq. unfold audit_pages, Prisma.findMany in Hq. simpl in Hq.
    apply filter_In in Hq as [Hq Hc]. rewrite Hrows in Hq.
    apply in_app_or in Hq as [Hq|Hq].
    + apply in_map_iff in Hq as (q0 & <- & Hq0).
      apply filter_In in Hq0 as [Hq0 Hkeep].
      destruct (pages_written_keep uniqueId U q0) as [Eid Eau].
      fold (W q0) in Eid, Eau. rewrite Eau in Hc.
      apply negb_true_iff in Hkeep. unfold gone in Hkeep.
      rewrite Hc in Hkeep. simpl in Hkeep.
      unfold Prisma.notInZ in Hkeep. apply negb_false_iff in Hkeep.
      destruct (pages_written_match uniqueId U q0 Hc Hkeep)
        as (p & Hp & Hid & Hm).
      exists p. split; [now apply HU|]. split; [exact Hm|].
      intros _. fold (W q0). now rewrite Eid.
    + apply in_map_iff in Hq as ([id p] & <- & Hin).
      apply in_combine_r in Hin. apply HN in Hin as [Hin Hno].
      exists p. split; [exact Hin|]. split; [now split|].
      simpl. intros Hy. congruence.
  - intros p Hp Hno.
    assert (Hin : In p Nw) by now apply HN.
    destruct (combine_In_snd ids Nw p Hlen Hin) as (id & Hc).
    exists (mkAuditedPage id (uap_name p) (uap_url p) (Some uniqueId)).
    split; [|now split].
    unfold audit_pages, Prisma.findMany. simpl. apply filter_In. split.
    + rewrite Hrows. apply in_or_app. right.
      apply in_map_iff. now exists (id, p).
    + simpl. apply String.eqb_refl.
  - intros Hnd p Hp Hyes.
    assert (Hin : In p U) by now apply HU.
    destruct (pages_updates_stored _ _ _ _ E6 Hnd p Hin)
      as (q & Hq & Hau & Hid & Hm).
    exists q. split; [|now split].
    unfold audit_pages, Prisma.findMany. simpl. apply filter_In. split.
    + rewrite R7. apply in_or_app. now left.
    + now apply child_of_iff.
  - simpl. rewrite Hrows, filter_app.
    assert (Hcreated :
      filter (fun q => negb (Prisma.child_of uniqueId (page_auditUniqueId q)))
        (map (fun x => mkAuditedPage (fst x) (uap_name (snd x))
                         (uap_url (snd x)) (Some uniqueId))
           (combine ids Nw)) = []).
    { generalize (combine ids Nw). intros l.
      induction l as [|x l IH]; [reflexivity|].
      simpl. rewrite String.eqb_refl. simpl. exact IH. }
    rewrite Hcreated, app_nil_r.
    generalize (rows (db_auditedPage db)). intros l.
    induction l as [|q l IH]; [reflexivity|].
    simpl. unfold gone at 1.
    destruct (Prisma.child_of uniqueId (page_auditUniqueId q)) eqn:Ec; simpl.
    + destruct (Prisma.notInZ (page_id q) (map uap_id U)); simpl;
        [exact IH|].
      destruct (pages_written_keep uniqueId U q) as [_ Eau].
      fold (W q) in Eau. rewrite Eau, Ec. simpl. exact IH.
    + destruct (pages_written_keep uniqueId U q) as [_ Eau].
      fold (W q) in Eau. rewrite Eau, Ec. simpl.
      rewrite IH. f_equal. unfold W. apply pages_written_other.
      intros p _. now rewrite Ec.
Qed.

Lemma updateAuditResults_needs_every_page_witness :
  AuditsController.updateAuditResults 40 "edit-1"
    (mkUpdateResultsDto
       [sample_item;
        mkUpdateResultsItem 1 1 "https://example.org/plan" COMPLIANT
          JS.undefined JS.undefined JS.undefined JS.undefined JS.undefined])
    audited_sample_db
  = (Throw P2025, audited_sample_db)
  /\ AuditsController.updateAuditResults 40 "edit-1"
       (mkUpdateResultsDto
          [sample_item;
           mkUpdateResultsItem 2147483648 1 "https://example.org/" COMPLIANT
             JS.undefined JS.undefined JS.undefined JS.undefined
             JS.undefined])
       audited_sample_db
     = (Throw P2020, audited_sample_db).
Proof.
  split.
  - apply (updateAuditResults_needs_every_page 40 "edit-1" _
             audited_sample_db).
    + eexists. split; [left; reflexivity | reflexivity].
    + intros item [<-|[<-|[]]]; reflexivity.
    + eexists. split; [right; left; reflexivity|].
      intros (p & [<-|[<-|[]]] & _ & Hu); discriminate.
  - apply (updateAuditResults_needs_every_page 40 "edit-1" _
             audited_sample_db).
    + eexists. split; [left; reflexivity | reflexivity].
    + intros item [<-|[<-|[]]]; eexists; (split; [left; reflexivity|]);
        split; reflexivity.
    + eexists. split; [right; left; reflexivity | reflexivity].
Defined.

Lemma createAudit_then_getAudit_witness :
  exists created,
    AuditsController.createAudit "edit-2" "consult-2" invited_create
      created_sample_db
    = (Return created, invited_sample_db)
    /\ AuditsController.getAudit "edit-2" invited_sample_db
       = (Return created, invited_sample_db)
    /\ map recipent_email (inc_recipients created)
       = ["ada@example.org"; "bob@example.org"].
Proof.
  eexists. split; [vm_compute; reflexivity|]. split; [|reflexivity].
  apply (createAudit_then_getAudit "edit-2" "consult-2" invited_create
           created_sample_db).
  vm_compute. reflexivity.
Defined.

Lemma createAudit_rejects_repeated_recipient_witness :
  AuditsController.createAudit "edit-2" "consult-2" repeated_create
    created_sample_db
  = (Throw P2002, created_sample_db).
Proof.
  apply createAudit_rejects_repeated_recipient. left. intros H.
  inversion H as [|? ? Hn _]. apply Hn. left. reflexivity.
Defined.

Lemma updateAudit_returns_the_earlier_edition_date_witness :
  exists audit db' after,
    AuditsController.updateAudit 40 "edit-1" clearing_update dinum_sample_db
    = (Return audit, db')
    /\ audit_procedureName (inc_audit audit) = "Site web"
    /\ audit_initiator (inc_audit audit) = Some "DINUM"
    /\ audit_contactName (inc_audit audit) = None
    /\ audit_editionDate (inc_audit audit) = Some 35
    /\ AuditService.getAuditWithEditUniqueId "edit-1" db' = Some after
    /\ audit_editionDate (inc_audit after) = Some 40.
Proof.
  destruct (AuditsController.updateAudit 40 "edit-1" clearing_update
              dinum_sample_db) as [[audit|e] db'] eqn:E;
    [|vm_compute in E; discriminate].
  destruct (updateAudit_returns_the_earlier_edition_date 40 "edit-1"
              clearing_update dinum_sample_db db' audit E)
    as (before & after & Hb & Ha & Hs & Hd & Hp & _).
  exists audit, db', after. split; [reflexivity|].
  vm_compute in Hb. inversion Hb; subst before; clear Hb.
  rewrite Hs.
  split; [reflexivity|]. split; [reflexivity|]. split; [reflexivity|].
  split; [reflexivity|]. split; [exact Ha|].
  apply Hp. discriminate.
Defined.

Lemma updateAudit_foreign_page_id_answers_gone_witness :
  AuditsController.updateAudit 40 "edit-1" foreign_page_update
    audited_sample_db
  = (Throw GoneException, audited_sample_db).
Proof.
  apply (updateAudit_foreign_page_id_answers_gone 40 "edit-1"
           foreign_page_update audited_sample_db
           (mkUpdateAuditPage (Some 99) "Accueil" "https://example.org/") []).
  - eexists. split; [left; reflexivity | reflexivity].
  - eexists. split; [left; reflexivity | reflexivity].
  - reflexivity.
  - intros q [<-|[<-|[]]] _; discriminate.
Defined.

Lemma deleted_audit_stays_gone_witness :
  AuditsController.getAudit "edit-1"
    (snd (AuditsController.createAudit "edit-2" "consult-2" invited_create
            deleted_sample_db))
  = (Throw GoneException,
     snd (AuditsController.createAudit "edit-2" "consult-2" invited_create
            deleted_sample_db)).
Proof.
  apply (deleted_audit_stays_gone [] "edit-1" deleted_sample_db).
  - eexists. split; [left; reflexivity | reflexivity].
  - intros (a & [] & _).
  - apply (handled_more [] _ deleted_sample_db); [apply handled_none|].
    apply handled_createAudit.
Defined.

Lemma deleteAudit_deletes_the_audit_alone_witness :
  AuditsController.deleteAudit "edit-1" audited_sample_db
  = (Return tt, deleted_sample_db)
  /\ ~ live "edit-1" deleted_sample_db
  /\ db_auditTrace deleted_sample_db = db_auditTrace audited_sample_db.
Proof.
  assert (H : AuditsController.deleteAudit "edit-1" audited_sample_db
              = (Return tt, deleted_sample_db)) by (vm_compute; reflexivity).
  split; [exact H|].
  destruct (deleteAudit_deletes_the_audit_alone [] "edit-1" audited_sample_db
              deleted_sample_db H) as (H1 & H2 & _).
  now split.
Defined.

Lemma updateResults_then_getResults_witness :
  exists entry,
    In entry
      (AuditService.getResultsWithEditUniqueId
         [mkCriterion 1 1; mkCriterion 1 2] "edit-1" revised_sample_db)
    /\ re_pageUrl entry = "https://example.org/"
    /\ re_topic entry = 1
    /\ re_criterium entry = 1
    /\ re_status entry = NOT_COMPLIANT
    /\ re_compliantComment entry = Some "ok"
    /\ re_errorDescription entry = Some "no alt"
    /\ re_recommandation entry = None
    /\ re_userImpact entry = Some BLOCKING.
Proof.
  destruct (updateResults_then_getResults [mkCriterion 1 1; mkCriterion 1 2]
              40 "edit-1" (mkUpdateResultsDto [revised_item])
              commented_sample_db revised_sample_db [] [] revised_item)
    as (H1 & H2 & H3).
  - vm_compute. reflexivity.
  - reflexivity.
  - intros j [].
  - destruct H3 as (entry & Hin & Hshows); [left; reflexivity|].
    exists entry. split; [exact Hin|].
    destruct (H1 entry Hin Hshows) as (Hs & _ & _ & He & Hi & Hr & _).
    destruct (H2 (fun j (Hj : In j []) => match Hj with end) entry Hin Hshows)
      as (was & Hwas & Hc & _).
    destruct Hshows as (Hu & Ht & Hc').
    split; [exact Hu|]. split; [exact Ht|]. split; [exact Hc'|].
    split; [exact Hs|]. split.
    + destruct was as [r0|].
      * destruct Hwas as [[<-|[]] _]. exact Hc.
      * specialize (Hwas _ (or_introl eq_refl)). discriminate.
    + split; [apply He; discriminate|].
      split; [apply Hr; discriminate | apply Hi; discriminate].
Defined.

Lemma updateResults_stores_what_the_catalogue_lacks_witness :
  AuditService.getResultsWithEditUniqueId [mkCriterion 3 1] "edit-1"
    audited_sample_db
  = AuditService.getResultsWithEditUniqueId [mkCriterion 3 1] "edit-1"
      paged_sample_db.
Proof.
  apply (updateResults_stores_what_the_catalogue_lacks [mkCriterion 3 1] 20
           "edit-1" sample_results paged_sample_db audited_sample_db).
  - vm_compute. reflexivity.
  - intros item [<-|[<-|[<-|[]]]] [H|[]]; discriminate.
Defined.

Lemma report_numbers_ignore_row_order_witness :
  exists report report',
    AuditService.getAuditReportData sample_topics "consult-1"
      published_sample_db = Some report
    /\ AuditService.getAuditReportData sample_topics "consult-1"
         (with_result_rows
            (List.rev (rows (db_criterionResult published_sample_db)))
            published_sample_db) = Some report'
    /\ report_accessibilityRate report' = report_accessibilityRate report
    /\ report_topicDistributions report' = report_topicDistributions report.
Proof.
  destruct (report_numbers_ignore_row_order sample_topics "consult-1"
              published_sample_db
              (List.rev (rows (db_criterionResult published_sample_db)))
              (Permutation_rev _)) as [_ Hn].
  destruct (AuditService.getAuditReportData sample_topics "consult-1"
              published_sample_db) as [report|] eqn:E;
    [|vm_compute in E; discriminate].
  destruct (AuditService.getAuditReportData sample_topics "consult-1"
              (with_result_rows
                 (List.rev (rows (db_criterionResult published_sample_db)))
                 published_sample_db)) as [report'|] eqn:E';
    [|vm_compute in E'; discriminate].
  exists report, report'. split; [reflexivity|]. split; [reflexivity|].
  destruct (Hn report report' eq_refl eq_refl)
    as (H1 & _ & _ & _ & _ & _ & H7 & _).
  now split.
Defined.

Lemma publishAudit_publishes_untested_criteria_witness :
  exists audit db',
    AuditsController.publishAudit 30 "edit-1" audited_sample_db
    = (Return audit, db')
    /\ audit_publicationDate (inc_audit audit) = Some 30
    /\ In (mkResultEntry None None NOT_TESTED None None None None None 1 3
             "https://example.org/contact")
         (AuditService.getResultsWithEditUniqueId
            [mkCriterion 1 1; mkCriterion 1 3] "edit-1" db').
Proof.
  apply (publishAudit_publishes_untested_criteria
           [mkCriterion 1 1; mkCriterion 1 3] 30 "edit-1" audited_sample_db
           (mkAuditedPage 2 "Contact" "https://example.org/contact"
              (Some "edit-1"))
           (mkCriterion 1 3)).
  - eexists. split; [left; reflexivity | reflexivity].
  - right. left. reflexivity.
  - right. left. reflexivity.
  - intros r [<-|[<-|[<-|[]]]] (_ & _ & H); discriminate.
  - intros r [<-|[<-|[<-|[]]]] _; discriminate.
Defined.

Lemma updateAudit_pages_are_the_payload_witness :
  exists audit db',
    AuditService.updateAudit 40 "edit-1" renaming_update audited_sample_db
    = (Return (Some audit), db')
    /\ inc_pages audit = audit_pages "edit-1" db'
    /\ map (fun q => (page_id q, page_url q)) (inc_pages audit)
       = [(1, "https://example.org/home"); (2, "https://example.org/contact");
          (3, "https://example.org/plan")].
Proof.
  destruct (AuditService.updateAudit 40 "edit-1" renaming_update
              audited_sample_db) as [[[audit|]|e] db'] eqn:E;
    try (vm_compute in E; discriminate).
  exists audit, db'. split; [reflexivity|].
  split.
  - exact (proj1 (updateAudit_pages_are_the_payload 40 "edit-1"
                    renaming_update audited_sample_db db' audit E)).
  - vm_compute in E. inversion E. reflexivity.
Defined.

(** ** Objects with index keys *)

Lemma get_set_same {V} (o : ResultsStore.indexed V) (k : N) (v : V) :
  ResultsStore.get (ResultsStore.set o k v) k = Some v.
Proof.
  induction o as [|[k' w] o IH]; simpl.
  - now rewrite N.eqb_refl.
  - destruct (N.ltb k k'); simpl; [now rewrite N.eqb_refl|].
    destruct (N.eqb k' k) eqn:E; simpl.
    + now rewrite N.eqb_refl.
    + now rewrite E.
Qed.

Lemma get_set_other {V} (o : ResultsStore.indexed V) (k k' : N) (v : V) :
  k' <> k -> ResultsStore.get (ResultsStore.set o k v) k' = ResultsStore.get o k'.
Proof.
  intros Hn. induction o as [|[k0 w] o IH]; simpl.
  - apply N.eqb_neq in Hn. rewrite N.eqb_sym. now rewrite Hn.
  - destruct (N.ltb k k0); simpl.
    + assert (E : N.eqb k k' = false) by (apply N.eqb_neq; congruence).
      now rewrite E.
    + destruct (N.eqb k0 k) eqn:E; simpl.
      * apply N.eqb_eq in E. subst k0.
        assert (E : N.eqb k k' = false) by (apply N.eqb_neq; congruence).
        now rewrite E.
      * destruct (N.eqb k0 k'); [reflexivity | exact IH].
Qed.

Lemma get_set {V} (o : ResultsStore.indexed V) (k k' : N) (v : V) :
  ResultsStore.get (ResultsStore.set o k v) k'
  = if N.eqb k k' then Some v else ResultsStore.get o k'.
Proof.
  destruct (N.eqb k k') eqn:E.
  - apply N.eqb_eq in E. subst. apply get_set_same.
  - apply N.eqb_neq in E. apply get_set_other. congruence.
Qed.

Lemma keys_set_In {V} (o : ResultsStore.indexed V) (k k' : N) (v : V) :
  In k' (ResultsStore.keys (ResultsStore.set o k v))
  <-> k' = k \/ In k' (ResultsStore.keys o).
Proof.
  unfold ResultsStore.keys. induction o as [|[k0 w] o IH]; simpl.
  - intuition.
  - destruct (N.ltb k k0); simpl; [intuition|].
    destruct (N.eqb k0 k) eqn:E; simpl.
    + apply N.eqb_eq in E. subst. intuition.
    + rewrite IH. intuition.
Qed.

Lemma set_ascending {V} (o : ResultsStore.indexed V) (k : N) (v : V) :
  ascending o -> ascending (ResultsStore.set o k v).
Proof.
  unfold ascending. induction o as [|[k0 w] o IH]; simpl; intros H.
  - repeat constructor.
  - inversion H as [|? ? Hs Hf]; subst.
    destruct (N.ltb k k0) eqn:El; simpl.
    + apply N.ltb_lt in El. constructor; [exact H|].
      constructor; [exact El|].
      apply Forall_forall. intros x Hx.
      rewrite Forall_forall in Hf. specialize (Hf x Hx). lia.
    + destruct (N.eqb k0 k) eqn:E; simpl.
      * apply N.eqb_eq in E. subst. now constructor.
      * constructor; [now apply IH|].
        apply Forall_forall. intros x Hx.
        apply (keys_set_In o k x v) in Hx as [->|Hx].
        -- apply N.ltb_ge in El. apply N.eqb_neq in E. lia.
        -- rewrite Forall_forall in Hf. now apply Hf.
Qed.

Lemma get_None_keys {V} (o : ResultsStore.indexed V) (k : N) :
  ResultsStore.get o k = None <-> ~ In k (ResultsStore.keys o).
Proof.
  unfold ResultsStore.keys. induction o as [|[k0 w] o IH]; simpl; [tauto|].
  destruct (N.eqb k0 k) eqn:E.
  - apply N.eqb_eq in E. split; [discriminate | intros H; exfalso; auto].
  - apply N.eqb_neq in E. rewrite IH. tauto.
Qed.

Lemma get_In {V} (o : ResultsStore.indexed V) (k : N) (v : V) :
  ascending o -> (ResultsStore.get o k = Some v <-> In (k, v) o).
Proof.
  unfold ascending, ResultsStore.keys.
  induction o as [|[k0 w] o IH]; simpl; intros H.
  - split; [discriminate | contradiction].
  - inversion H as [|? ? Hs Hf]; subst.
    destruct (N.eqb k0 k) eqn:E.
    + apply N.eqb_eq in E. subst. split.
      * intros E. inversion E. now left.
      * intros [E|Hin]; [now inversion E|]. exfalso.
        rewrite Forall_forall in Hf.
        assert (Hk : In k (map fst o)) by (apply in_map_iff; now exists (k, v)).
        specialize (Hf k Hk). lia.
    + apply N.eqb_neq in E. rewrite (IH Hs). split; [now right|].
      intros [E'|Hin]; [inversion E'; congruence | exact Hin].
Qed.

(** Two such objects with the same properties are the same list. *)
Lemma ascending_ext {V} (o o' : ResultsStore.indexed V) :
  ascending o -> ascending o' ->
  (forall k, ResultsStore.get o k = ResultsStore.get o' k) -> o = o'.
Proof.
  unfold ascending, ResultsStore.keys. revert o'.
  induction o as [|[k v] o IH]; intros [|[k' v'] o'] H H' He.
  - reflexivity.
  - specialize (He k'). simpl in He. rewrite N.eqb_refl in He. discriminate.
  - specialize (He k). simpl in He. rewrite N.eqb_refl in He. discriminate.
  - simpl in H, H'.
    inversion H as [|? ? Hs Hf]; inversion H' as [|? ? Hs' Hf']; subst.
    rewrite Forall_forall in Hf, Hf'.
    assert (Hk : k = k').
    { pose proof (He k) as E1. pose proof (He k') as E2. simpl in E1, E2.
      rewrite N.eqb_refl in E1, E2.
      destruct (N.eqb k' k) eqn:E; [apply N.eqb_eq in E; congruence|].
      destruct (N.eqb k k') eqn:E'; [apply N.eqb_eq in E'; congruence|].
      exfalso.
      assert (In k (map fst o')).
      { destruct (in_dec N.eq_dec k (map fst o')) as [Hi|Hi]; [exact Hi|].
        apply get_None_keys in Hi. unfold ResultsStore.keys in *. congruence. }
      assert (In k' (map fst o)).
      { destruct (in_dec N.eq_dec k' (map fst o)) as [Hi|Hi]; [exact Hi|].
        apply get_None_keys in Hi. unfold ResultsStore.keys in *. congruence. }
      specialize (Hf k' H1). specialize (Hf' k H0). lia. }
    subst k'.
    assert (Hv : v = v').
    { specialize (He k). simpl in He. rewrite N.eqb_refl in He. congruence. }
    subst v'. f_equal. apply IH; try assumption.
    intros k0. specialize (He k0). simpl in He.
    destruct (N.eqb k k0) eqn:E; [|exact He].
    apply N.eqb_eq in E. subst k0.
    assert (H1 : ResultsStore.get o k = None).
    { apply get_None_keys. intros Hi. specialize (Hf k Hi). lia. }
    assert (H2 : ResultsStore.get o' k = None).
    { apply get_None_keys. intros Hi. specialize (Hf' k Hi). lia. }
    congruence.
Qed.

Lemma get_delete {V} (o : ResultsStore.indexed V) (k k' : N) :
  ResultsStore.get (ResultsStore.delete o k) k'
  = if N.eqb k k' then None else ResultsStore.get o k'.
Proof.
  unfold ResultsStore.delete. induction o as [|[k0 w] o IH]; simpl.
  - now destruct (N.eqb k k').
  - destruct (N.eqb k0 k) eqn:E; simpl.
    + apply N.eqb_eq in E. subst k0. rewrite IH.
      destruct (N.eqb k k'); reflexivity.
    + destruct (N.eqb k0 k') eqn:E'; [|exact IH].
      apply N.eqb_eq in E'. subst k0. now rewrite N.eqb_sym, E.
Qed.

Lemma ascending_nil {V} : ascending (@nil (N * V)).
Proof. constructor. Qed.


(** ** The data of the store *)

Lemma placed_at_iff (p t c : N) (r : ResultsStore.CriteriumResult) :
  placed_at p t c r = true
  <-> ResultsStore.pageId r = p /\ ResultsStore.topic r = t
      /\ ResultsStore.criterium r = c.
Proof.
  unfold placed_at. rewrite !andb_true_iff, !N.eqb_eq. tauto.
Qed.

Lemma lookup_index_result d r p t c :
  lookup (ResultsStore.index_result d r) p t c
  = if placed_at p t c r then Some r else lookup d p t c.
Proof.
  unfold lookup, ResultsStore.index_result, placed_at.
  rewrite get_set.
  destruct (N.eqb (ResultsStore.pageId r) p) eqn:Ep; simpl; [|reflexivity].
  apply N.eqb_eq in Ep. subst p. rewrite get_set.
  destruct (N.eqb (ResultsStore.topic r) t) eqn:Et; simpl.
  - apply N.eqb_eq in Et. subst t. rewrite get_set.
    destruct (N.eqb (ResultsStore.criterium r) c) eqn:Ec; [reflexivity|].
    destruct (ResultsStore.get d (ResultsStore.pageId r)) as [page|];
      [|reflexivity].
    now destruct (ResultsStore.get page (ResultsStore.topic r)).
  - now destruct (ResultsStore.get d (ResultsStore.pageId r)).
Qed.

Lemma well_indexed_nil : well_indexed [].
Proof. split; [constructor | discriminate]. Qed.

Lemma well_indexed_index_result d r :
  well_indexed d -> well_indexed (ResultsStore.index_result d r).
Proof.
  intros [Hd Hw]. unfold ResultsStore.index_result.
  set (page := match ResultsStore.get d (ResultsStore.pageId r) with
               | Some o => o | None => [] end).
  set (criteria := match ResultsStore.get page (ResultsStore.topic r) with
                   | Some o => o | None => [] end).
  assert (Hpage : ascending page
            /\ forall t cr, ResultsStore.get page t = Some cr ->
                 ascending cr
                 /\ forall c r0, ResultsStore.get cr c = Some r0 ->
                      placed_at (ResultsStore.pageId r) t c r0 = true).
  { unfold page.
    destruct (ResultsStore.get d (ResultsStore.pageId r)) as [pg|] eqn:E.
    - exact (Hw _ _ E).
    - split; [constructor | discriminate]. }
  destruct Hpage as [Hpa Hpw].
  assert (Hcrit : ascending criteria
            /\ forall c r0, ResultsStore.get criteria c = Some r0 ->
                 placed_at (ResultsStore.pageId r) (ResultsStore.topic r) c r0
                 = true).
  { unfold criteria.
    destruct (ResultsStore.get page (ResultsStore.topic r)) as [cr|] eqn:E.
    - exact (Hpw _ _ E).
    - split; [constructor | discriminate]. }
  destruct Hcrit as [Hca Hcw].
  split; [now apply set_ascending|].
  intros p pg Hg. rewrite get_set in Hg.
  destruct (N.eqb (ResultsStore.pageId r) p) eqn:Ep; [|exact (Hw _ _ Hg)].
  apply N.eqb_eq in Ep. subst p. inversion Hg; subst pg; clear Hg.
  split; [now apply set_ascending|].
  intros t cr Hg. rewrite get_set in Hg.
  destruct (N.eqb (ResultsStore.topic r) t) eqn:Et; [|exact (Hpw _ _ Hg)].
  apply N.eqb_eq in Et. subst t. inversion Hg; subst cr; clear Hg.
  split; [now apply set_ascending|].
  intros c r0 Hg. rewrite get_set in Hg.
  destruct (N.eqb (ResultsStore.criterium r) c) eqn:Ec; [|exact (Hcw _ _ Hg)].
  apply N.eqb_eq in Ec. subst c. inversion Hg; subst r0.
  apply placed_at_iff. now repeat split.
Qed.

Lemma find_app_Some {A} (f : A -> bool) (l l' : list A) (x : A) :
  find f l = Some x -> find f (l ++ l') = Some x.
Proof.
  induction l as [|y l IH]; simpl; [discriminate|].
  destruct (f y); [auto | exact IH].
Qed.

Lemma fold_index_result rs :
  forall d,
    well_indexed d ->
    well_indexed (fold_left ResultsStore.index_result rs d)
    /\ forall p t c,
         lookup (fold_left ResultsStore.index_result rs d) p t c
         = match find (placed_at p t c) (List.rev rs) with
           | Some r => Some r
           | None => lookup d p t c
           end.
Proof.
  induction rs as [|r rs IH]; intros d Hd; simpl.
  - now split.
  - destruct (IH _ (well_indexed_index_result d r Hd)) as [Hw Hl].
    split; [exact Hw|]. intros p t c. rewrite Hl.
    destruct (find (placed_at p t c) (List.rev rs)) as [r1|] eqn:Ef.
    + rewrite find_app_Some with (x := r1); [reflexivity | exact Ef].
    + rewrite find_app_None by exact Ef. simpl. rewrite lookup_index_result.
      now destruct (placed_at p t c r).
Qed.

(** ** Fetching, then reading *)

Lemma values_In {V} (o : ResultsStore.indexed V) (v : V) :
  ascending o ->
  (In v (ResultsStore.values o) <-> exists k, ResultsStore.get o k = Some v).
Proof.
  intros H. unfold ResultsStore.values. rewrite in_map_iff. split.
  - intros ([k v'] & E & Hin). simpl in E. subst v'. exists k.
    now apply get_In.
  - intros (k & Hg). exists (k, v). split; [reflexivity|]. now apply get_In.
Qed.

Lemma all_In d (r : ResultsStore.CriteriumResult) :
  well_indexed d ->
  (In r
     (List.concat (List.concat
        (map (fun page =>
                map (fun criteria => ResultsStore.values criteria)
                  (ResultsStore.values page))
           (ResultsStore.values d))))
   <-> exists p t c, lookup d p t c = Some r).
Proof.
  intros [Hd Hw]. rewrite in_concat. split.
  - intros (l & Hl & Hr). apply in_concat in Hl as (ll & Hll & Hl).
    apply in_map_iff in Hll as (page & <- & Hpage).
    apply in_map_iff in Hl as (criteria & <- & Hcr).
    apply (values_In d page Hd) in Hpage as (p & Hp).
    destruct (Hw p page Hp) as [Hpa Hpw].
    apply (values_In page criteria Hpa) in Hcr as (t & Ht).
    destruct (Hpw t criteria Ht) as [Hca _].
    apply (values_In criteria r Hca) in Hr as (c & Hc).
    exists p, t, c. unfold lookup. now rewrite Hp, Ht.
  - intros (p & t & c & Hl). unfold lookup in Hl.
    destruct (ResultsStore.get d p) as [page|] eqn:Hp; [|discriminate].
    destruct (ResultsStore.get page t) as [criteria|] eqn:Ht; [|discriminate].
    destruct (Hw p page Hp) as [Hpa Hpw].
    destruct (Hpw t criteria Ht) as [Hca _].
    exists (ResultsStore.values criteria). split.
    + apply in_concat.
      exists (map (fun criteria => ResultsStore.values criteria)
                (ResultsStore.values page)).
      split.
      * apply in_map_iff. exists page. split; [reflexivity|].
        apply values_In; [exact Hd | now exists p].
      * apply in_map_iff. exists criteria. split; [reflexivity|].
        apply values_In; [exact Hpa | now exists t].
    + apply values_In; [exact Hca | now exists c].
Qed.

Lemma getCriteriumResult_lookup (s : ResultsStore.ResultsStoreState) p t c :
  ResultsStore.getCriteriumResult s p t c
  = match ResultsStore.data s with
    | Some d => lookup d p t c
    | None => None
    end.
Proof. reflexivity. Qed.

Lemma lookup_placed d p t c r :
  well_indexed d -> lookup d p t c = Some r -> placed_at p t c r = true.
Proof.
  intros [_ Hw] Hl. unfold lookup in Hl.
  destruct (ResultsStore.get d p) as [page|] eqn:Hp; [|discriminate].
  destruct (ResultsStore.get page t) as [criteria|] eqn:Ht; [|discriminate].
  destruct (Hw p page Hp) as [_ Hpw].
  destruct (Hpw t criteria Ht) as [_ Hcw]. exact (Hcw c r Hl).
Qed.

Lemma keys_index_result d r p :
  In p (ResultsStore.keys (ResultsStore.index_result d r))
  <-> p = ResultsStore.pageId r \/ In p (ResultsStore.keys d).
Proof. unfold ResultsStore.index_result. apply keys_set_In. Qed.

Lemma keys_fold_index_result rs :
  forall d p,
    In p (ResultsStore.keys (fold_left ResultsStore.index_result rs d))
    <-> In p (map ResultsStore.pageId rs) \/ In p (ResultsStore.keys d).
Proof.
  induction rs as [|r rs IH]; intros d p; simpl; [tauto|].
  rewrite IH, keys_index_result. intuition.
Qed.

Lemma ascending_NoDup {V} (o : ResultsStore.indexed V) :
  ascending o -> NoDup (ResultsStore.keys o).
Proof.
  unfold ascending. induction 1 as [|k ks Hs IH Hf]; constructor; [|exact IH].
  intros Hin. rewrite Forall_forall in Hf. specialize (Hf k Hin). lia.
Qed.

(** Once the results are fetched, [getCriteriumResult(p, t, c)] is the last
    element of the response with page id [p], topic [t] and criterion [c]
    (a later element replaces an earlier one with the same three numbers),
    and undefined when the response has none.  [allResults] holds exactly
    these elements, [pagesCount] is the number of distinct page ids of the
    response, [everyCriteriumAreTested] is true if and only if none of
    these elements is NOT_TESTED, every result is filed under its own
    numbers, and the saved statuses are as they were. *)
Theorem fetchResults_then_getCriteriumResult :
  forall (response : list ResultsStore.CriteriumResult)
    (s : ResultsStore.Stores),
    let fetched := ResultsStore.fetchResults (Return response) s in
    let s' := ResultsStore.results (snd fetched) in
    fst fetched = Return tt
    /\ (forall p t c,
          ResultsStore.getCriteriumResult s' p t c
          = find (placed_at p t c) (List.rev response))
    /\ (forall r,
          (exists rs, ResultsStore.allResults s' = Some rs /\ In r rs)
          <-> find (placed_at (ResultsStore.pageId r) (ResultsStore.topic r)
                      (ResultsStore.criterium r)) (List.rev response) = Some r)
    /\ ResultsStore.pagesCount s'
       = List.length (nodup N.eq_dec (map ResultsStore.pageId response))
    /\ (ResultsStore.everyCriteriumAreTested s' = true
        <-> forall p t c r,
              find (placed_at p t c) (List.rev response) = Some r ->
              ResultsStore.status r <> NOT_TESTED)
    /\ well_indexed_store (snd fetched)
    /\ ResultsStore.previousStatuses s'
       = ResultsStore.previousStatuses (ResultsStore.results s).
Proof.
  intros response s fetched s'.
  destruct (fold_index_result response [] well_indexed_nil) as [Hw Hl].
  assert (Hlook : forall p t c,
            ResultsStore.getCriteriumResult s' p t c
            = find (placed_at p t c) (List.rev response)).
  { intros p t c. rewrite getCriteriumResult_lookup. simpl. rewrite Hl.
    now destruct (find _ _). }
  assert (Hall : forall r,
            (exists rs, ResultsStore.allResults s' = Some rs /\ In r rs)
            <-> exists p t c, find (placed_at p t c) (List.rev response) = Some r).
  { intros r. unfold ResultsStore.allResults. simpl. split.
    - intros (rs & E & Hin). inversion E; subst rs; clear E.
      apply (all_In _ r Hw) in Hin as (p & t & c & Hin).
      exists p, t, c. rewrite <- Hlook. rewrite getCriteriumResult_lookup.
      exact Hin.
    - intros (p & t & c & Hf). eexists. split; [reflexivity|].
      apply (all_In _ r Hw). exists p, t, c.
      rewrite <- Hlook, getCriteriumResult_lookup in Hf. exact Hf. }
  split; [reflexivity|]. split; [exact Hlook|]. split; [|split; [|split]].
  - intros r. rewrite Hall. split.
    + intros (p & t & c & Hf). pose proof Hf as Hp.
      apply find_some in Hp as [_ Hp]. apply placed_at_iff in Hp as (<- & <- & <-).
      exact Hf.
    + intros Hf. eauto.
  - unfold ResultsStore.pagesCount. simpl.
    apply Permutation_length, NoDup_Permutation.
    + apply ascending_NoDup. exact (proj1 Hw).
    + apply NoDup_nodup.
    + intros p. rewrite keys_fold_index_result, nodup_In. simpl. tauto.
  - unfold ResultsStore.everyCriteriumAreTested.
    destruct (ResultsStore.allResults s') as [rs|] eqn:Ea; [|discriminate].
    rewrite negb_true_iff, existsb_false_iff. split.
    + intros H p t c r Hf Hs.
      assert (Hin : In r rs).
      { destruct (proj2 (Hall r)) as (rs' & E & Hin); [eauto|]. congruence. }
      specialize (H r Hin). cbv beta in H. rewrite Hs in H. discriminate.
    + intros H r Hin.
      destruct (proj1 (Hall r)) as (p & t & c & Hf); [eauto|].
      specialize (H p t c r Hf).
      destruct (ResultsStore.status r); simpl; congruence.
  - split; [exact Hw | reflexivity].
Qed.


(** ** Writing the properties of an object one after the other *)

Lemma set_set_same {V} (o : ResultsStore.indexed V) (k : N) (v v' : V) :
  ResultsStore.set (ResultsStore.set o k v) k v' = ResultsStore.set o k v'.
Proof.
  induction o as [|[k0 w] o IH]; simpl.
  - now rewrite N.ltb_irrefl, N.eqb_refl.
  - destruct (N.ltb k k0) eqn:El; simpl.
    + now rewrite N.ltb_irrefl, N.eqb_refl.
    + destruct (N.eqb k0 k) eqn:E; simpl.
      * now rewrite N.ltb_irrefl, N.eqb_refl.
      * now rewrite El, E, IH.
Qed.

Lemma set_get_same {V} (o : ResultsStore.indexed V) (k : N) (v : V) :
  ascending o -> ResultsStore.get o k = Some v -> ResultsStore.set o k v = o.
Proof.
  unfold ascending, ResultsStore.keys.
  induction o as [|[k0 w] o IH]; simpl; intros H Hg; [discriminate|].
  inversion H as [|? ? Hs Hf]; subst.
  destruct (N.eqb k0 k) eqn:E.
  - apply N.eqb_eq in E. subst k0. inversion Hg; subst w.
    now rewrite N.ltb_irrefl.
  - assert (Hin : In k (map fst o)).
    { destruct (in_dec N.eq_dec k (map fst o)) as [Hi|Hi]; [exact Hi|].
      apply get_None_keys in Hi. unfold ResultsStore.keys in Hi. congruence. }
    rewrite Forall_forall in Hf. specialize (Hf k Hin).
    assert (El : N.ltb k k0 = false) by (apply N.ltb_ge; lia).
    rewrite El. now rewrite IH.
Qed.

Lemma set_after_head {V} (o : ResultsStore.indexed V) (k0 k : N) (w v : V) :
  (k0 < k)%N ->
  ResultsStore.set ((k0, w) :: o) k v = (k0, w) :: ResultsStore.set o k v.
Proof.
  intros H. simpl.
  assert (El : N.ltb k k0 = false) by (apply N.ltb_ge; lia).
  assert (E : N.eqb k0 k = false) by (apply N.eqb_neq; lia).
  now rewrite El, E.
Qed.

Lemma fold_set_after_head {V} (l : list (N * V)) :
  forall (o : ResultsStore.indexed V) (k0 : N) (w : V),
    Forall (fun k => (k0 < k)%N) (map fst l) ->
    fold_left (fun o p => ResultsStore.set o (fst p) (snd p)) l ((k0, w) :: o)
    = (k0, w)
      :: fold_left (fun o p => ResultsStore.set o (fst p) (snd p)) l o.
Proof.
  induction l as [|[k v] l IH]; intros o k0 w H; [reflexivity|].
  simpl in H. inversion H; subst. simpl fold_left.
  assert (El : N.ltb k k0 = false) by (apply N.ltb_ge; lia).
  assert (E : N.eqb k0 k = false) by (apply N.eqb_neq; lia).
  simpl ResultsStore.set at 2. rewrite El, E. now apply IH.
Qed.

(** Writing each property of an object that lists the same names gives
    the object written. *)
Lemma fold_set_same_keys {V} (l : ResultsStore.indexed V) :
  forall o : ResultsStore.indexed V,
    ascending l -> ResultsStore.keys o = ResultsStore.keys l ->
    fold_left (fun o p => ResultsStore.set o (fst p) (snd p)) l o = l.
Proof.
  unfold ascending, ResultsStore.keys.
  induction l as [|[k v] l IH]; intros o H Hk.
  - destruct o; [reflexivity | discriminate].
  - destruct o as [|[k0 w] o]; [discriminate|]. simpl in Hk.
    inversion Hk; subst k0. simpl in H. inversion H as [|? ? Hs Hf]; subst.
    simpl fold_left. simpl ResultsStore.set.
    rewrite N.ltb_irrefl, N.eqb_refl.
    rewrite fold_set_after_head by exact Hf. f_equal. now apply IH.
Qed.

Lemma set_append {V} (o : ResultsStore.indexed V) (k : N) (v : V) :
  Forall (fun k' => (k' < k)%N) (map fst o) ->
  ResultsStore.set o k v = o ++ [(k, v)].
Proof.
  induction o as [|[k0 w] o IH]; intros H; [reflexivity|].
  simpl in H. inversion H; subst.
  rewrite set_after_head by assumption. simpl. f_equal. now apply IH.
Qed.

(** Writing the properties of an object, in their order, to the empty
    object gives the object. *)
Lemma fold_set_from_nil {V} (l : ResultsStore.indexed V) :
  ascending l ->
  fold_left (fun o p => ResultsStore.set o (fst p) (snd p)) l [] = l.
Proof.
  intros H.
  assert (G : forall acc,
            StronglySorted N.lt (map fst (acc ++ l)) ->
            fold_left (fun o p => ResultsStore.set o (fst p) (snd p)) l acc
            = acc ++ l).
  { clear H. induction l as [|[k v] l IH]; intros acc Hs.
    - now rewrite app_nil_r.
    - simpl fold_left. rewrite set_append.
      + rewrite IH; rewrite <- app_assoc; [reflexivity | exact Hs].
      + clear IH. induction acc as [|[k0 w] acc IHa]; [constructor|].
        simpl in Hs. inversion Hs as [|? ? Hs' Hf]; subst.
        simpl. constructor; [|now apply IHa].
        rewrite Forall_forall in Hf. apply Hf.
        rewrite map_app. apply in_or_app. right. now left. }
  exact (G [] H).
Qed.

Lemma map_values_keys {V W} (f : V -> W) (o : ResultsStore.indexed V) :
  ResultsStore.keys (map_values f o) = ResultsStore.keys o.
Proof. unfold ResultsStore.keys, map_values. now rewrite map_map. Qed.

Lemma map_values_ascending {V W} (f : V -> W) (o : ResultsStore.indexed V) :
  ascending o -> ascending (map_values f o).
Proof. unfold ascending. now rewrite map_values_keys. Qed.

Lemma map_values_values {V W} (f : V -> W) (o : ResultsStore.indexed V) :
  ResultsStore.values (map_values f o) = map f (ResultsStore.values o).
Proof. unfold ResultsStore.values, map_values. now rewrite !map_map. Qed.

Lemma get_map_values {V W} (f : V -> W) (o : ResultsStore.indexed V) (k : N) :
  ResultsStore.get (map_values f o) k = option_map f (ResultsStore.get o k).
Proof.
  induction o as [|[k0 w] o IH]; simpl; [reflexivity|].
  destruct (N.eqb k0 k); [reflexivity | exact IH].
Qed.

(** ** Writing a batch of updates of one topic *)

Lemma assign_each_topic (rs : list ResultsStore.CriteriumResult) :
  forall d p t page criteria,
    ascending d -> ascending page ->
    ResultsStore.get d p = Some page ->
    ResultsStore.get page t = Some criteria ->
    (forall r, In r rs ->
       ResultsStore.pageId r = p /\ ResultsStore.topic r = t) ->
    ResultsStore.assign_each d (map ResultsStore.Whole rs)
    = (ResultsStore.set d p
         (ResultsStore.set page t
            (fold_left
               (fun o r => ResultsStore.set o (ResultsStore.criterium r) r)
               rs criteria)),
       None).
Proof.
  induction rs as [|r rs IH]; intros d p t page criteria Hd Hpa Hp Ht Hrs.
  - simpl. rewrite (set_get_same page t criteria Hpa Ht).
    now rewrite (set_get_same d p page Hd Hp).
  - destruct (Hrs r (or_introl eq_refl)) as [Er Et].
    simpl. rewrite Er, Et, Hp, Ht.
    rewrite (IH _ p t
               (ResultsStore.set page t
                  (ResultsStore.set criteria (ResultsStore.criterium r) r))
               (ResultsStore.set criteria (ResultsStore.criterium r) r)).
    + now rewrite !set_set_same.
    + now apply set_ascending.
    + now apply set_ascending.
    + apply get_set_same.
    + apply get_set_same.
    + intros r' Hr'. apply Hrs. now right.
Qed.

Lemma fold_set_results {V} (g : ResultsStore.CriteriumResult -> V)
  (f : ResultsStore.CriteriumResult -> ResultsStore.CriteriumResult)
  (l : ResultsStore.indexed ResultsStore.CriteriumResult) :
  (forall c r, In (c, r) l -> ResultsStore.criterium (f r) = c) ->
  forall o,
    fold_left (fun o r => ResultsStore.set o (ResultsStore.criterium r) (g r))
      (map f (ResultsStore.values l)) o
    = fold_left (fun o p => ResultsStore.set o (fst p) (snd p))
        (map_values (fun r => g (f r)) l) o.
Proof.
  induction l as [|[c r] l IH]; intros Hk o; [reflexivity|].
  simpl. rewrite (Hk c r (or_introl eq_refl)).
  apply IH. intros c' r' Hin. apply Hk. now right.
Qed.

(** The results of a topic are stored under their criterion. *)
Lemma topic_keyed d p t page criteria :
  well_indexed d ->
  ResultsStore.get d p = Some page ->
  ResultsStore.get page t = Some criteria ->
  ascending d /\ ascending page /\ ascending criteria
  /\ forall c r, In (c, r) criteria -> placed_at p t c r = true.
Proof.
  intros [Hd Hw] Hp Ht. destruct (Hw p page Hp) as [Hpa Hpw].
  destruct (Hpw t criteria Ht) as [Hca Hcw].
  repeat split; try assumption.
  intros c r Hin. apply (Hcw c r). now apply get_In.
Qed.

Lemma with_status_placed p t c r st :
  placed_at p t c (ResultsStore.with_status r st) = placed_at p t c r.
Proof. reflexivity. Qed.

Lemma with_status_back r st :
  ResultsStore.with_status (ResultsStore.with_status r st)
    (ResultsStore.status r) = r.
Proof. now destruct r. Qed.

Lemma updateResults_topic (s : ResultsStore.Stores) (now : string)
  (f : ResultsStore.CriteriumResult -> ResultsStore.CriteriumResult)
  d p t page criteria :
  ResultsStore.data (ResultsStore.results s) = Some d ->
  well_indexed d ->
  ResultsStore.get d p = Some page ->
  ResultsStore.get page t = Some criteria ->
  (forall r c, placed_at p t c (f r) = placed_at p t c r) ->
  ResultsStore.updateResults (Return tt) now
    (map (fun r => ResultsStore.Whole (f r)) (ResultsStore.values criteria)) s
  = (Return tt,
     updated s now
       (ResultsStore.set d p
          (ResultsStore.set page t (map_values f criteria)))).
Proof.
  intros Hdata Hw Hp Ht Hf.
  destruct (topic_keyed d p t page criteria Hw Hp Ht)
    as (Hd & Hpa & Hca & Hkey).
  unfold ResultsStore.updateResults. rewrite Hdata.
  rewrite <- (map_map f ResultsStore.Whole).
  rewrite (assign_each_topic _ d p t page criteria Hd Hpa Hp Ht).
  - rewrite (fold_set_results (fun r => r) f criteria).
    + rewrite fold_set_same_keys; [reflexivity | |].
      * now apply map_values_ascending.
      * now rewrite map_values_keys.
    + intros c r Hin. specialize (Hkey c r Hin).
      rewrite <- (Hf r c) in Hkey. now apply placed_at_iff in Hkey.
  - intros r' Hin. apply in_map_iff in Hin as (r & <- & Hin).
    unfold ResultsStore.values in Hin.
    apply in_map_iff in Hin as ([c r0] & E & Hin). simpl in E. subst r0.
    specialize (Hkey c r Hin). rewrite <- (Hf r c) in Hkey.
    apply placed_at_iff in Hkey. tauto.
Qed.


(** ** Saving the statuses of a topic *)

Lemma fold_setWith_topic (rs : list ResultsStore.CriteriumResult) :
  forall (r : ResultsStore.CriteriumResult)
    (prev : ResultsStore.indexed
              (ResultsStore.indexed
                 (ResultsStore.indexed CriterionResultStatus)))
    (p t : N),
    (forall r', In r' (r :: rs) ->
       ResultsStore.pageId r' = p /\ ResultsStore.topic r' = t) ->
    let oa := match ResultsStore.get prev p with Some o => o | None => [] end in
    let ob := match ResultsStore.get oa t with Some o => o | None => [] end in
    fold_left
      (fun previous r' =>
         ResultsStore.setWith previous (ResultsStore.pageId r')
           (ResultsStore.topic r') (ResultsStore.criterium r')
           (ResultsStore.status r'))
      (r :: rs) prev
    = ResultsStore.set prev p
        (ResultsStore.set oa t
           (fold_left
              (fun o r' =>
                 ResultsStore.set o (ResultsStore.criterium r')
                   (ResultsStore.status r'))
              (r :: rs) ob)).
Proof.
  induction rs as [|r1 rs IH]; intros r prev p t Hrs oa ob.
  - destruct (Hrs r (or_introl eq_refl)) as [Ep Et]. simpl.
    unfold ResultsStore.setWith. rewrite Ep, Et. reflexivity.
  - destruct (Hrs r (or_introl eq_refl)) as [Ep Et].
    change (fold_left ?f (r :: r1 :: rs) prev)
      with (fold_left f (r1 :: rs) (f prev r)).
    cbv beta. rewrite (IH r1 _ p t).
    2:{ intros r' Hr'. apply Hrs. now right. }
    unfold ResultsStore.setWith. rewrite Ep, Et.
    fold oa. fold ob. rewrite !get_set_same. rewrite !set_set_same.
    reflexivity.
Qed.

Lemma setTopicStatus_unfold (patch : result unit) (now : string) (p t : N)
  (st : CriterionResultStatus) (s : ResultsStore.Stores) :
  ResultsStore.setTopicStatus patch now p t st s
  = ResultsStore.updateResults patch now
      (map (fun r => ResultsStore.Whole (ResultsStore.with_status r st))
         (ResultsStore.getTopicResults (ResultsStore.results s) p t))
      (if status_eqb st NOT_APPLICABLE
       then
         ResultsStore.mkStores
           (ResultsStore.mkResultsStoreState
              (ResultsStore.data (ResultsStore.results s))
              (fold_left
                 (fun previous r =>
                    ResultsStore.setWith previous (ResultsStore.pageId r)
                      (ResultsStore.topic r) (ResultsStore.criterium r)
                      (ResultsStore.status r))
                 (ResultsStore.getTopicResults (ResultsStore.results s) p t)
                 (ResultsStore.previousStatuses (ResultsStore.results s))))
           (ResultsStore.auditStore_editionDate s)
       else s).
Proof. reflexivity. Qed.

Lemma getTopicResults_values (s : ResultsStore.ResultsStoreState) (p t : N) :
  ResultsStore.getTopicResults s p t
  = match topic_results s p t with
    | Some criteria => ResultsStore.values criteria
    | None => []
    end.
Proof.
  unfold ResultsStore.getTopicResults, topic_results.
  destruct (ResultsStore.data s) as [d|]; [|reflexivity].
  destruct (ResultsStore.get d p) as [page|]; [|reflexivity].
  now destruct (ResultsStore.get page t).
Qed.

(** ** set-topic-status *)

Lemma lookup_set_topic d p t page X p' t' c :
  ResultsStore.get d p = Some page ->
  lookup (ResultsStore.set d p (ResultsStore.set page t X)) p' t' c
  = if N.eqb p p' && N.eqb t t' then ResultsStore.get X c
    else lookup d p' t' c.
Proof.
  intros Hp. unfold lookup. rewrite get_set.
  destruct (N.eqb p p') eqn:Ep; simpl; [|reflexivity].
  apply N.eqb_eq in Ep. subst p'. rewrite get_set, Hp.
  now destruct (N.eqb t t').
Qed.

Lemma well_indexed_set_topic d p t page X :
  well_indexed d ->
  ResultsStore.get d p = Some page ->
  ascending X ->
  (forall c r, ResultsStore.get X c = Some r -> placed_at p t c r = true) ->
  well_indexed (ResultsStore.set d p (ResultsStore.set page t X)).
Proof.
  intros [Hd Hw] Hp HX HXk. destruct (Hw p page Hp) as [Hpa Hpw].
  split; [now apply set_ascending|].
  intros p' pg Hg. rewrite get_set in Hg.
  destruct (N.eqb p p') eqn:Ep; [|exact (Hw _ _ Hg)].
  apply N.eqb_eq in Ep. subst p'. inversion Hg; subst pg; clear Hg.
  split; [now apply set_ascending|].
  intros t' cr Hg. rewrite get_set in Hg.
  destruct (N.eqb t t') eqn:Et; [|exact (Hpw _ _ Hg)].
  apply N.eqb_eq in Et. subst t'. inversion Hg; subst cr. now split.
Qed.

Lemma get_fold_set_other {V}
  (g : ResultsStore.CriteriumResult -> V)
  (rs : list ResultsStore.CriteriumResult) (k : N) :
  (forall r, In r rs -> ResultsStore.criterium r <> k) ->
  forall o,
    ResultsStore.get
      (fold_left
         (fun o r => ResultsStore.set o (ResultsStore.criterium r) (g r))
         rs o) k
    = ResultsStore.get o k.
Proof.
  induction rs as [|r rs IH]; intros Hk o; [reflexivity|].
  simpl. rewrite IH by (intros r' Hr'; apply Hk; now right).
  apply get_set_other. intros E. apply (Hk r (or_introl eq_refl)). congruence.
Qed.

(** Each result of the topic has its status saved under its criterion. *)
Lemma saved_by_criterion {V} (g : ResultsStore.CriteriumResult -> V)
  (l : ResultsStore.indexed ResultsStore.CriteriumResult) :
  ascending l ->
  (forall c r, In (c, r) l -> ResultsStore.criterium r = c) ->
  forall o c r,
    In (c, r) l ->
    ResultsStore.get
      (fold_left
         (fun o r => ResultsStore.set o (ResultsStore.criterium r) (g r))
         (ResultsStore.values l) o) c
    = Some (g r).
Proof.
  unfold ascending, ResultsStore.keys.
  induction l as [|[k v] l IH]; intros Hs Hk o c r Hin; [destruct Hin|].
  simpl in Hs. inversion Hs as [|? ? Hs' Hf]; subst.
  simpl. rewrite (Hk k v (or_introl eq_refl)).
  destruct Hin as [E|Hin].
  - inversion E; subst k v. rewrite get_fold_set_other; [apply get_set_same|].
    intros r' Hr'. unfold ResultsStore.values in Hr'.
    apply in_map_iff in Hr' as ([c' r0] & E' & Hr'). simpl in E'. subst r0.
    rewrite (Hk c' r' (or_intror Hr')).
    rewrite Forall_forall in Hf.
    assert (In c' (map fst l)) by (apply in_map_iff; now exists (c', r')).
    specialize (Hf c' H). lia.
  - apply IH; [exact Hs' | | exact Hin].
    intros c' r' Hin'. apply Hk. now right.
Qed.

(** When its request succeeds, set-topic-status gives the status to every
    result of the topic on the page and changes nothing else in them, and
    leaves the results of every other page and topic as they were.  With
    NOT_APPLICABLE it saves the status that each result of the topic had;
    with any other status it leaves the saved statuses as they were. *)
Theorem setTopicStatus_sets_the_topic :
  forall (s : ResultsStore.Stores) (now : string) (p t : N)
    (st : CriterionResultStatus) d,
    ResultsStore.data (ResultsStore.results s) = Some d ->
    well_indexed d ->
    let out := ResultsStore.setTopicStatus (Return tt) now p t st s in
    let before := ResultsStore.results s in
    let after := ResultsStore.results (snd out) in
    fst out = Return tt
    /\ ResultsStore.getTopicResults after p t
       = map (fun r => ResultsStore.with_status r st)
           (ResultsStore.getTopicResults before p t)
    /\ (forall c,
          ResultsStore.getCriteriumResult after p t c
          = option_map (fun r => ResultsStore.with_status r st)
              (ResultsStore.getCriteriumResult before p t c))
    /\ (forall p' t' c, p' <> p \/ t' <> t ->
          ResultsStore.getCriteriumResult after p' t' c
          = ResultsStore.getCriteriumResult before p' t' c)
    /\ well_indexed_store (snd out)
    /\ (st <> NOT_APPLICABLE ->
        ResultsStore.previousStatuses after
        = ResultsStore.previousStatuses before)
    /\ (st = NOT_APPLICABLE ->
        forall c r,
          ResultsStore.getCriteriumResult before p t c = Some r ->
          exists saved,
            saved_statuses after p t = Some saved
            /\ ResultsStore.get saved c = Some (ResultsStore.status r)).
Proof.
  intros s now p t st d Hdata Hw out before after.
  assert (Hcases :
    (topic_results before p t = None /\ snd out = updated s now d
     /\ fst out = Return tt)
    \/ exists page criteria,
         ResultsStore.get d p = Some page
         /\ ResultsStore.get page t = Some criteria
         /\ fst out = Return tt
         /\ ResultsStore.data after
            = Some (ResultsStore.set d p
                      (ResultsStore.set page t
                         (map_values
                            (fun r => ResultsStore.with_status r st)
                            criteria)))
         /\ ResultsStore.previousStatuses after
            = if status_eqb st NOT_APPLICABLE
              then
                fold_left
                  (fun previous r =>
                     ResultsStore.setWith previous (ResultsStore.pageId r)
                       (ResultsStore.topic r) (ResultsStore.criterium r)
                       (ResultsStore.status r))
                  (ResultsStore.values criteria)
                  (ResultsStore.previousStatuses before)
              else ResultsStore.previousStatuses before).
  { unfold after, before, out. rewrite setTopicStatus_unfold.
    rewrite getTopicResults_values. unfold topic_results. rewrite Hdata.
    destruct (ResultsStore.get d p) as [page|] eqn:Hp.
    - destruct (ResultsStore.get page t) as [criteria|] eqn:Ht.
      + right. exists page, criteria. split; [reflexivity|].
        split; [exact Ht|].
        destruct (status_eqb st NOT_APPLICABLE) eqn:Est;
          rewrite (updateResults_topic _ now
                     (fun r => ResultsStore.with_status r st)
                     d p t page criteria);
          try assumption; try reflexivity; simpl; now repeat split.
      + left. split; [reflexivity|].
        unfold ResultsStore.updateResults.
        destruct (status_eqb st NOT_APPLICABLE); cbn [map fold_left];
          cbn [ResultsStore.data ResultsStore.results]; rewrite ?Hdata;
          cbn; split; reflexivity.
    - left. split; [reflexivity|].
      unfold ResultsStore.updateResults.
      destruct (status_eqb st NOT_APPLICABLE); cbn [map fold_left];
        cbn [ResultsStore.data ResultsStore.results]; rewrite ?Hdata;
        cbn; split; reflexivity. }
  destruct Hcases as [(Hnone & Hout & Hfst)|
                      (page & criteria & Hp & Ht & Hfst & Hd' & Hprev)].
  - assert (Hafter : ResultsStore.data after = Some d
                     /\ ResultsStore.previousStatuses after
                        = ResultsStore.previousStatuses before).
    { unfold after. rewrite Hout. now split. }
    destruct Hafter as [Hda Hpa].
    assert (Htr : topic_results after p t = None).
    { unfold topic_results in *. rewrite Hda. unfold before in Hnone.
      now rewrite Hdata in Hnone. }
    assert (Hlk : forall c, lookup d p t c = None).
    { intros c. unfold topic_results, before in Hnone.
      rewrite Hdata in Hnone. unfold lookup.
      destruct (ResultsStore.get d p); [|reflexivity]. now rewrite Hnone. }
    split; [exact Hfst|]. split.
    { rewrite !getTopicResults_values, Hnone, Htr. reflexivity. }
    split.
    { intros c. rewrite !getCriteriumResult_lookup. unfold before.
      rewrite Hda, Hdata, Hlk. reflexivity. }
    split.
    { intros p' t' c _. rewrite !getCriteriumResult_lookup. unfold before.
      now rewrite Hda, Hdata. }
    split.
    { unfold well_indexed_store. fold after. now rewrite Hda. }
    split; [intros _; exact Hpa|].
    intros _ c r Hr. rewrite getCriteriumResult_lookup in Hr.
    unfold before in Hr. rewrite Hdata, Hlk in Hr. discriminate.
  - destruct (topic_keyed d p t page criteria Hw Hp Ht)
      as (Hd & Hpag & Hca & Hkey).
    set (f := fun r => ResultsStore.with_status r st) in *.
    assert (Hlk : forall p' t' c,
              ResultsStore.getCriteriumResult after p' t' c
              = if N.eqb p p' && N.eqb t t'
                then option_map f (ResultsStore.get criteria c)
                else lookup d p' t' c).
    { intros p' t' c. rewrite getCriteriumResult_lookup, Hd'.
      rewrite (lookup_set_topic d p t page _ p' t' c Hp).
      now rewrite get_map_values. }
    assert (Hbefore : forall c,
              ResultsStore.getCriteriumResult before p t c
              = ResultsStore.get criteria c).
    { intros c. rewrite getCriteriumResult_lookup. unfold before.
      rewrite Hdata. unfold lookup. now rewrite Hp, Ht. }
    split; [exact Hfst|]. split.
    { rewrite !getTopicResults_values. unfold topic_results, before.
      rewrite Hd', Hdata, Hp, Ht, !get_set_same.
      apply map_values_values. }
    split.
    { intros c. rewrite Hlk, !N.eqb_refl. simpl. now rewrite Hbefore. }
    split.
    { intros p' t' c Hne. rewrite Hlk.
      destruct (N.eqb p p' && N.eqb t t') eqn:E.
      - apply andb_true_iff in E as [E1 E2]. apply N.eqb_eq in E1, E2.
        subst. destruct Hne; congruence.
      - rewrite getCriteriumResult_lookup. unfold before. now rewrite Hdata. }
    split.
    { unfold well_indexed_store. fold after. rewrite Hd'.
      apply well_indexed_set_topic; try assumption.
      - now apply map_values_ascending.
      - intros c r Hg. rewrite get_map_values in Hg.
        destruct (ResultsStore.get criteria c) as [r0|] eqn:Eg;
          [|discriminate].
        inversion Hg; subst r. unfold f. rewrite with_status_placed.
        apply Hkey. now apply get_In. }
    split.
    { intros Hst. rewrite Hprev.
      destruct (status_eqb st NOT_APPLICABLE) eqn:E; [|reflexivity].
      apply status_eqb_eq in E. contradiction. }
    intros Hst c r Hr. rewrite Hbefore in Hr.
    apply (get_In criteria c r Hca) in Hr.
    unfold saved_statuses. rewrite Hprev, Hst. simpl.
    destruct criteria as [|[c0 r0] criteria']; [destruct Hr|].
    change (ResultsStore.values ((c0, r0) :: criteria'))
      with (r0 :: ResultsStore.values criteria').
    rewrite (fold_setWith_topic (ResultsStore.values criteria') r0 _ p t).
    + rewrite !get_set_same. eexists. split; [reflexivity|].
      change (r0 :: ResultsStore.values criteria')
        with (ResultsStore.values ((c0, r0) :: criteria')).
      apply (saved_by_criterion ResultsStore.status
               ((c0, r0) :: criteria') Hca).
      * intros c' r' Hin. specialize (Hkey c' r' Hin).
        apply placed_at_iff in Hkey. tauto.
      * exact Hr.
    + intros r' Hin.
      change (r0 :: ResultsStore.values criteria')
        with (ResultsStore.values ((c0, r0) :: criteria')) in Hin.
      unfold ResultsStore.values in Hin.
      apply in_map_iff in Hin as ([c' r1] & E & Hin). simpl in E. subst r1.
      specialize (Hkey c' r' Hin). apply placed_at_iff in Hkey. tauto.
Qed.

(** ** set-topic-status "not applicable", then revert-topic-status *)

Lemma has_saved (s : ResultsStore.ResultsStoreState) (p t : N) :
  ResultsStore.has (ResultsStore.previousStatuses s) p t
  = is_some (saved_statuses s p t).
Proof.
  unfold ResultsStore.has, saved_statuses.
  now destruct (ResultsStore.get (ResultsStore.previousStatuses s) p).
Qed.

Lemma map_values_id {V} (o : ResultsStore.indexed V) :
  map_values (fun v => v) o = o.
Proof.
  unfold map_values. induction o as [|[k v] o IH]; simpl; [reflexivity|].
  now rewrite IH.
Qed.

Lemma revertTopicStatus_nothing_saved (patch : result unit) (now : string)
  (p t : N) (s : ResultsStore.Stores) :
  saved_statuses (ResultsStore.results s) p t = None ->
  ResultsStore.revertTopicStatus patch now p t s
  = ResultsStore.setTopicStatus patch now p t NOT_TESTED s.
Proof.
  intros H. unfold ResultsStore.revertTopicStatus.
  now rewrite has_saved, H.
Qed.

Lemma setTopicStatus_no_result (now : string) (p t : N)
  (st : CriterionResultStatus) (s : ResultsStore.Stores) d :
  ResultsStore.data (ResultsStore.results s) = Some d ->
  ResultsStore.getTopicResults (ResultsStore.results s) p t = [] ->
  ResultsStore.setTopicStatus (Return tt) now p t st s
  = (Return tt, updated s now d).
Proof.
  intros Hdata Hnone. rewrite setTopicStatus_unfold, Hnone.
  unfold ResultsStore.updateResults.
  destruct (status_eqb st NOT_APPLICABLE); cbn [map fold_left];
    cbn [ResultsStore.data ResultsStore.results]; rewrite ?Hdata; reflexivity.
Qed.

(** What set-topic-status "not applicable" leaves when the topic has a
    result and no status of the topic was saved before. *)
Lemma setTopicStatus_not_applicable (now : string) (p t : N)
  (s : ResultsStore.Stores) d page criteria c0 r0 :
  ResultsStore.data (ResultsStore.results s) = Some d ->
  well_indexed d ->
  ResultsStore.get d p = Some page ->
  ResultsStore.get page t = Some ((c0, r0) :: criteria) ->
  (forall saved,
     saved_statuses (ResultsStore.results s) p t = Some saved ->
     ResultsStore.keys saved = ResultsStore.keys ((c0, r0) :: criteria)) ->
  let all := (c0, r0) :: criteria in
  let prev := ResultsStore.previousStatuses (ResultsStore.results s) in
  let oa := match ResultsStore.get prev p with Some o => o | None => [] end in
  ResultsStore.setTopicStatus (Return tt) now p t NOT_APPLICABLE s
  = (Return tt,
     ResultsStore.mkStores
       (ResultsStore.mkResultsStoreState
          (Some
             (ResultsStore.set d p
                (ResultsStore.set page t
                   (map_values
                      (fun r => ResultsStore.with_status r NOT_APPLICABLE)
                      all))))
          (ResultsStore.set prev p
             (ResultsStore.set oa t (map_values ResultsStore.status all))))
       (match ResultsStore.auditStore_editionDate s with
        | Some _ => Some (Some now)
        | None => None
        end)).
Proof.
  intros Hdata Hw Hp Ht Hsaved all prev oa.
  destruct (topic_keyed d p t page all Hw Hp Ht) as (Hd & Hpag & Hca & Hkey).
  rewrite setTopicStatus_unfold, getTopicResults_values.
  unfold topic_results. rewrite Hdata, Hp, Ht.
  change (status_eqb NOT_APPLICABLE NOT_APPLICABLE) with true. cbv iota.
  rewrite (updateResults_topic _ now
             (fun r => ResultsStore.with_status r NOT_APPLICABLE)
             d p t page all); try assumption; try reflexivity.
  unfold updated. cbn [ResultsStore.results ResultsStore.previousStatuses
                         ResultsStore.auditStore_editionDate].
  f_equal. f_equal. f_equal.
  change (ResultsStore.values ((c0, r0) :: criteria))
    with (r0 :: ResultsStore.values criteria).
  rewrite (fold_setWith_topic (ResultsStore.values criteria) r0 _ p t).
  - fold prev. fold oa.
    assert (Hob : ResultsStore.get oa t
                  = saved_statuses (ResultsStore.results s) p t).
    { unfold saved_statuses. fold prev. unfold oa.
      now destruct (ResultsStore.get prev p). }
    rewrite Hob.
    change (r0 :: ResultsStore.values criteria)
      with (ResultsStore.values all).
    rewrite <- (map_id (ResultsStore.values all)).
    rewrite (fold_set_results ResultsStore.status (fun r => r) all).
    + destruct (saved_statuses (ResultsStore.results s) p t) as [saved|]
        eqn:Es.
      * rewrite fold_set_same_keys; [reflexivity | |].
        -- now apply map_values_ascending.
        -- rewrite map_values_keys. now apply Hsaved.
      * rewrite fold_set_from_nil; [reflexivity|].
        now apply map_values_ascending.
    + intros c r Hin. specialize (Hkey c r Hin).
      apply placed_at_iff in Hkey. tauto.
  - intros r' Hin.
    change (r0 :: ResultsStore.values criteria)
      with (ResultsStore.values all) in Hin.
    unfold ResultsStore.values in Hin.
    apply in_map_iff in Hin as ([c' r1] & E & Hin). simpl in E. subst r1.
    specialize (Hkey c' r' Hin). apply placed_at_iff in Hkey. tauto.
Qed.

(** The same for a topic that has a result, when the statuses saved for the
    topic, if some are, are saved under the criteria of its results. *)
Lemma not_applicable_then_revert (s : ResultsStore.Stores)
  (now later : string) (p t : N) d page criteria c0 r0 :
  ResultsStore.data (ResultsStore.results s) = Some d ->
  well_indexed d ->
  ResultsStore.get d p = Some page ->
  ResultsStore.get page t = Some ((c0, r0) :: criteria) ->
  (forall saved,
     saved_statuses (ResultsStore.results s) p t = Some saved ->
     ResultsStore.keys saved = ResultsStore.keys ((c0, r0) :: criteria)) ->
  let set_ :=
    ResultsStore.setTopicStatus (Return tt) now p t NOT_APPLICABLE s in
  let reverted :=
    ResultsStore.revertTopicStatus (Return tt) later p t (snd set_) in
  fst set_ = Return tt
  /\ fst reverted = Return tt
  /\ ResultsStore.data (ResultsStore.results (snd reverted)) = Some d
  /\ saved_statuses (ResultsStore.results (snd reverted)) p t = None.
Proof.
  intros Hdata Hw Hp Ht Hsaved set_ reverted.
    destruct (topic_keyed d p t page _ Hw Hp Ht) as (Hd & Hpag & Hca & Hkey).
    pose proof (setTopicStatus_not_applicable now p t s d page criteria c0 r0
                  Hdata Hw Hp Ht Hsaved) as E1.
    cbv zeta in E1. fold set_ in E1.
    set (all := (c0, r0) :: criteria) in *.
    set (na := fun r => ResultsStore.with_status r NOT_APPLICABLE) in *.
    set (prev := ResultsStore.previousStatuses (ResultsStore.results s)) in *.
    set (oa := match ResultsStore.get prev p with
               | Some o => o | None => [] end) in *.
    set (d1 := ResultsStore.set d p
                 (ResultsStore.set page t (map_values na all))) in *.
    set (prev1 := ResultsStore.set prev p
                    (ResultsStore.set oa t
                       (map_values ResultsStore.status all))) in *.
    assert (Hupd :
      map (fun entry =>
          match
            ResultsStore.getCriteriumResult (ResultsStore.results (snd set_))
              p t (fst entry)
          with
          | Some r => ResultsStore.Whole (ResultsStore.with_status r (snd entry))
          | None => ResultsStore.StatusOnly (snd entry)
          end)
        (map_values ResultsStore.status all)
      = map ResultsStore.Whole (ResultsStore.values all)).
    { unfold map_values, ResultsStore.values. rewrite !map_map.
      apply map_ext_in. intros [c r] Hin. cbn [fst snd].
      rewrite getCriteriumResult_lookup, E1.
      cbn [snd ResultsStore.results ResultsStore.data]. unfold d1.
      rewrite (lookup_set_topic d p t page _ p t c Hp), !N.eqb_refl.
      cbn [andb]. rewrite get_map_values.
      rewrite (proj2 (get_In all c r Hca) Hin). cbn [option_map]. unfold na.
      now rewrite with_status_back. }
    assert (E2 : reverted
                 = (Return tt,
                    ResultsStore.mkStores
                      (ResultsStore.mkResultsStoreState (Some d)
                         (ResultsStore.unset prev1 p t))
                      (match ResultsStore.auditStore_editionDate s with
                       | Some _ => Some (Some later)
                       | None => None
                       end))).
    { assert (Hhas : ResultsStore.has prev1 p t = true).
      { unfold ResultsStore.has, prev1. now rewrite !get_set_same. }
      unfold reverted, ResultsStore.revertTopicStatus.
      rewrite E1 in *. cbn [snd] in *.
      cbn [ResultsStore.results ResultsStore.previousStatuses] in *.
      rewrite Hhas. unfold ResultsStore.entries.
      match goal with
      | |- context [map ?f ?l] =>
          match l with
          | match ResultsStore.get prev1 p with _ => _ end =>
              replace l with (map_values ResultsStore.status all)
                by (unfold prev1; now rewrite !get_set_same)
          end
      end.
      rewrite Hupd.
      unfold ResultsStore.updateResults.
      cbn [ResultsStore.results ResultsStore.data].
      rewrite (assign_each_topic (ResultsStore.values all) d1 p t
                 (ResultsStore.set page t (map_values na all))
                 (map_values na all)).
      - rewrite <- (map_id (ResultsStore.values all)) at 1.
        rewrite (fold_set_results (fun r => r) (fun r => r) all).
        + rewrite fold_set_same_keys.
          * rewrite map_values_id. unfold d1. rewrite !set_set_same.
            rewrite (set_get_same page t all Hpag Ht).
            rewrite (set_get_same d p page Hd Hp).
            cbn. now destruct (ResultsStore.auditStore_editionDate s).
          * now apply map_values_ascending.
          * now rewrite !map_values_keys.
        + intros c r Hin. specialize (Hkey c r Hin).
          apply placed_at_iff in Hkey. tauto.
      - unfold d1. now apply set_ascending.
      - now apply set_ascending.
      - unfold d1. apply get_set_same.
      - apply get_set_same.
      - intros r' Hin. unfold ResultsStore.values in Hin.
        apply in_map_iff in Hin as ([c' r1] & E & Hin). simpl in E. subst r1.
        specialize (Hkey c' r' Hin). apply placed_at_iff in Hkey. tauto. }
    rewrite E1, E2. cbn [fst snd ResultsStore.results ResultsStore.data].
    repeat split.
    unfold saved_statuses, ResultsStore.unset.
    cbn [ResultsStore.previousStatuses]. unfold prev1 at 1.
    rewrite get_set_same. rewrite get_set_same.
    rewrite get_delete. now rewrite N.eqb_refl.
Qed.

(** set-topic-status with NOT_APPLICABLE and then revert-topic-status, the
    two requests succeeding, on a topic with no status saved: the data are
    again what they were and no status of the topic is saved any more. *)
Theorem revertTopicStatus_undoes_not_applicable :
  forall (s : ResultsStore.Stores) (now later : string) (p t : N) d,
    ResultsStore.data (ResultsStore.results s) = Some d ->
    well_indexed d ->
    saved_statuses (ResultsStore.results s) p t = None ->
    let set_ :=
      ResultsStore.setTopicStatus (Return tt) now p t NOT_APPLICABLE s in
    let reverted :=
      ResultsStore.revertTopicStatus (Return tt) later p t (snd set_) in
    fst set_ = Return tt
    /\ fst reverted = Return tt
    /\ ResultsStore.data (ResultsStore.results (snd reverted)) = Some d
    /\ saved_statuses (ResultsStore.results (snd reverted)) p t = None.
Proof.
  intros s now later p t d Hdata Hw Hsaved set_ reverted.
  destruct (ResultsStore.getTopicResults (ResultsStore.results s) p t)
    as [|r1 rest] eqn:Eres.
  - (* no result in the topic *)
    assert (E1 : set_ = (Return tt, updated s now d)).
    { unfold set_. now apply setTopicStatus_no_result. }
    assert (E2 : reverted = (Return tt, updated (updated s now d) later d)).
    { unfold reverted. rewrite E1. cbn [snd].
      rewrite revertTopicStatus_nothing_saved by exact Hsaved.
      apply setTopicStatus_no_result; [reflexivity|].
      rewrite getTopicResults_values in *. unfold topic_results in *.
      cbn [updated ResultsStore.results ResultsStore.data].
      now rewrite Hdata in Eres. }
    rewrite E1, E2. cbn. repeat split. exact Hsaved.
  - rewrite getTopicResults_values in Eres. unfold topic_results in Eres.
    rewrite Hdata in Eres.
    destruct (ResultsStore.get d p) as [page|] eqn:Hp; [|discriminate].
    destruct (ResultsStore.get page t) as [criteria|] eqn:Ht; [|discriminate].
    destruct criteria as [|[c0 r0] criteria]; [discriminate|].
    apply (not_applicable_then_revert s now later p t d page criteria c0 r0);
      try assumption.
    intros saved Hs. congruence.
Qed.

(** set-topic-status with NOT_APPLICABLE twice in a row overwrites the
    statuses saved the first time with NOT_APPLICABLE: revert-topic-status
    then leaves a result of the topic NOT_APPLICABLE, whatever status it had
    at first. *)
Theorem second_not_applicable_forgets_the_statuses :
  forall (s : ResultsStore.Stores) (now now' later : string) (p t c : N) d
    (r : ResultsStore.CriteriumResult),
    ResultsStore.data (ResultsStore.results s) = Some d ->
    well_indexed d ->
    saved_statuses (ResultsStore.results s) p t = None ->
    ResultsStore.getCriteriumResult (ResultsStore.results s) p t c = Some r ->
    let first :=
      ResultsStore.setTopicStatus (Return tt) now p t NOT_APPLICABLE s in
    let second :=
      ResultsStore.setTopicStatus (Return tt) now' p t NOT_APPLICABLE
        (snd first) in
    let reverted :=
      ResultsStore.revertTopicStatus (Return tt) later p t (snd second) in
    fst reverted = Return tt
    /\ ResultsStore.getCriteriumResult (ResultsStore.results (snd reverted))
         p t c
       = Some (ResultsStore.with_status r NOT_APPLICABLE).
Proof.
  intros s now now' later p t c d r Hdata Hw Hsaved Hr first second reverted.
  rewrite getCriteriumResult_lookup, Hdata in Hr. unfold lookup in Hr.
  destruct (ResultsStore.get d p) as [page|] eqn:Hp; [|discriminate].
  destruct (ResultsStore.get page t) as [criteria|] eqn:Ht; [|discriminate].
  destruct criteria as [|[c0 r0] criteria]; [discriminate|].
  destruct (topic_keyed d p t page _ Hw Hp Ht) as (Hd & Hpag & Hca & Hkey).
  assert (Hnone : forall saved,
            saved_statuses (ResultsStore.results s) p t = Some saved ->
            ResultsStore.keys saved = ResultsStore.keys ((c0, r0) :: criteria))
    by (intros saved Hs; congruence).
  assert (E1 := setTopicStatus_not_applicable now p t s d page criteria c0 r0
                  Hdata Hw Hp Ht Hnone).
  cbv zeta in E1. fold first in E1.
  set (all := (c0, r0) :: criteria) in *.
  set (na := fun r => ResultsStore.with_status r NOT_APPLICABLE) in *.
  match type of E1 with
  | first = (_, ?s1') => set (s1 := s1') in *
  end.
  unfold reverted, second. rewrite E1. cbn [snd].
  set (d1 := ResultsStore.set d p
               (ResultsStore.set page t (map_values na all))).
  assert (Hw1 : well_indexed d1).
  { apply well_indexed_set_topic; try assumption.
    - now apply map_values_ascending.
    - intros c' r' Hg. rewrite get_map_values in Hg.
      destruct (ResultsStore.get all c') as [r1|] eqn:Eg; [|discriminate].
      inversion Hg; subst r'. unfold na. rewrite with_status_placed.
      apply Hkey. now apply get_In. }
  destruct (not_applicable_then_revert s1 now' later p t d1
              (ResultsStore.set page t (map_values na all))
              (map_values na criteria) c0 (na r0))
    as (_ & Hok & Hback & _).
  - reflexivity.
  - exact Hw1.
  - unfold d1. apply get_set_same.
  - apply get_set_same.
  - intros saved Hs. unfold saved_statuses, s1 in Hs.
    cbn [ResultsStore.results ResultsStore.previousStatuses] in Hs.
    rewrite !get_set_same in Hs. inversion Hs; subst saved.
    change ((c0, na r0) :: map_values na criteria) with (map_values na all).
    change ((c0, ResultsStore.status r0)
            :: map_values ResultsStore.status criteria)
      with (map_values ResultsStore.status all).
    now rewrite !map_values_keys.
  - split; [exact Hok|].
    rewrite getCriteriumResult_lookup, Hback. unfold d1.
    rewrite (lookup_set_topic d p t page _ p t c Hp), !N.eqb_refl.
    cbn [andb]. rewrite get_map_values. fold all in Hr. now rewrite Hr.
Qed.

(** ** The data stay well indexed *)

Lemma assign_Whole d r :
  ResultsStore.assign d (ResultsStore.Whole r)
  = if ResultsStore.has d (ResultsStore.pageId r) (ResultsStore.topic r)
    then Return (ResultsStore.index_result d r)
    else Throw ResultsStore.TypeError.
Proof.
  unfold ResultsStore.assign, ResultsStore.has, ResultsStore.index_result.
  destruct (ResultsStore.get d (ResultsStore.pageId r)) as [page|];
    [|reflexivity].
  now destruct (ResultsStore.get page (ResultsStore.topic r)).
Qed.

Lemma assign_each_well_indexed updates :
  forall d, well_indexed d ->
    well_indexed (fst (ResultsStore.assign_each d updates)).
Proof.
  induction updates as [|u updates IH]; intros d Hw; [exact Hw|].
  simpl. destruct u as [r|st]; [|exact Hw].
  rewrite assign_Whole.
  destruct (ResultsStore.has d _ _); [|exact Hw].
  apply IH. now apply well_indexed_index_result.
Qed.

Lemma updateResults_well_indexed patch now updates s :
  well_indexed_store s ->
  well_indexed_store (snd (ResultsStore.updateResults patch now updates s)).
Proof.
  intros Hw. unfold ResultsStore.updateResults.
  destruct patch as [[]|e]; [|exact Hw].
  unfold well_indexed_store in Hw.
  destruct (ResultsStore.data (ResultsStore.results s)) as [d|] eqn:Ed.
  - pose proof (assign_each_well_indexed updates d Hw) as H.
    destruct (ResultsStore.assign_each d updates) as [d' [e|]]; exact H.
  - unfold well_indexed_store. cbn [snd]. now rewrite Ed.
Qed.

Lemma change_images_well_indexed p t c change s :
  well_indexed_store s ->
  well_indexed_store (snd (ResultsStore.change_images p t c change s)).
Proof.
  intros Hw. unfold ResultsStore.change_images.
  unfold well_indexed_store in Hw.
  destruct (ResultsStore.data (ResultsStore.results s)) as [d|] eqn:Ed.
  2:{ unfold well_indexed_store. cbn [snd]. now rewrite Ed. }
  assert (Hs : well_indexed_store s)
    by (unfold well_indexed_store; now rewrite Ed).
  destruct (ResultsStore.get d p) as [page|] eqn:Hp; [|exact Hs].
  destruct (ResultsStore.get page t) as [criteria|] eqn:Ht; [|exact Hs].
  destruct (ResultsStore.get criteria c) as [r|] eqn:Hc; [|exact Hs].
  destruct (topic_keyed d p t page criteria Hw Hp Ht) as (_ & _ & Hca & Hkey).
  unfold well_indexed_store. cbn [snd ResultsStore.results ResultsStore.data].
  apply well_indexed_set_topic; try assumption.
  - now apply set_ascending.
  - intros c' r' Hg. rewrite get_set in Hg.
    destruct (N.eqb c c') eqn:E.
    + apply N.eqb_eq in E. subst c'. inversion Hg; subst r'.
      change (placed_at p t c r = true). apply Hkey. now apply get_In.
    + apply Hkey. now apply get_In.
Qed.

(** The initial state is well indexed, and every action, whether it returns
    or throws and whatever its request gave, leaves the data well indexed:
    each object lists its properties in ascending order and each result is
    filed under its own page id, topic and criterion. *)
Theorem actions_keep_the_data_well_indexed :
  well_indexed_store (ResultsStore.mkStores ResultsStore.state None)
  /\ forall s : ResultsStore.Stores,
       well_indexed_store s ->
       (forall response,
          well_indexed_store (snd (ResultsStore.fetchResults response s)))
       /\ (forall patch now updates,
             well_indexed_store
               (snd (ResultsStore.updateResults patch now updates s)))
       /\ (forall patch now p t st,
             well_indexed_store
               (snd (ResultsStore.setTopicStatus patch now p t st s)))
       /\ (forall patch now p t,
             well_indexed_store
               (snd (ResultsStore.revertTopicStatus patch now p t s)))
       /\ (forall post p t c,
             well_indexed_store
               (snd (ResultsStore.uploadExampleImage post p t c s)))
       /\ (forall deleted p t c exampleId,
             well_indexed_store
               (snd (ResultsStore.deleteExampleImage deleted p t c exampleId
                       s))).
Proof.
  split; [exact I|]. intros s Hw.
  assert (Hset : forall patch now p t st,
            well_indexed_store
              (snd (ResultsStore.setTopicStatus patch now p t st s))).
  { intros patch now p t st. rewrite setTopicStatus_unfold.
    apply updateResults_well_indexed.
    destruct (status_eqb st NOT_APPLICABLE); exact Hw. }
  split; [|split; [|split; [exact Hset|split; [|split]]]].
  - intros [rs|e]; [|exact Hw].
    unfold well_indexed_store. simpl.
    exact (proj1 (fold_index_result rs [] well_indexed_nil)).
  - intros patch now updates. now apply updateResults_well_indexed.
  - intros patch now p t. unfold ResultsStore.revertTopicStatus.
    destruct (ResultsStore.has _ p t); [|apply Hset].
    match goal with
    | |- context [ResultsStore.updateResults patch now ?u s] =>
        pose proof (updateResults_well_indexed patch now u s Hw) as H;
        destruct (ResultsStore.updateResults patch now u s) as [[[]|e] s']
    end; exact H.
  - intros [img|e] p t c; [|exact Hw].
    now apply change_images_well_indexed.
  - intros [[]|e] p t c exampleId; [|exact Hw].
    now apply change_images_well_indexed.
Qed.

(** ** update-results that fails *)

Lemma assign_each_app d updates updates' :
  ResultsStore.assign_each d (updates ++ updates')
  = match ResultsStore.assign_each d updates with
    | (d', None) => ResultsStore.assign_each d' updates'
    | (d', Some e) => (d', Some e)
    end.
Proof.
  revert d. induction updates as [|u updates IH]; intros d; [reflexivity|].
  simpl. destruct (ResultsStore.assign d u); [apply IH | reflexivity].
Qed.

Lemma has_index_result d r p t :
  ResultsStore.has d (ResultsStore.pageId r) (ResultsStore.topic r) = true ->
  ResultsStore.has (ResultsStore.index_result d r) p t = ResultsStore.has d p t.
Proof.
  unfold ResultsStore.has, ResultsStore.index_result. intros H.
  destruct (ResultsStore.get d (ResultsStore.pageId r)) as [page|] eqn:Hp;
    [|discriminate].
  destruct (ResultsStore.get page (ResultsStore.topic r)) as [criteria|]
    eqn:Ht; [|discriminate].
  rewrite get_set.
  destruct (N.eqb (ResultsStore.pageId r) p) eqn:Ep; [|reflexivity].
  apply N.eqb_eq in Ep. subst p. rewrite Hp, get_set.
  destruct (N.eqb (ResultsStore.topic r) t) eqn:Et; [|reflexivity].
  apply N.eqb_eq in Et. subst t. now rewrite Ht.
Qed.

Lemma assign_each_known rs :
  forall d,
    (forall r, In r rs ->
       ResultsStore.has d (ResultsStore.pageId r) (ResultsStore.topic r)
       = true) ->
    ResultsStore.assign_each d (map ResultsStore.Whole rs)
    = (fold_left ResultsStore.index_result rs d, None)
    /\ forall p t,
         ResultsStore.has (fold_left ResultsStore.index_result rs d) p t
         = ResultsStore.has d p t.
Proof.
  induction rs as [|r rs IH]; intros d H; [now split|].
  cbn [map ResultsStore.assign_each fold_left].
  rewrite assign_Whole, (H r (or_introl eq_refl)).
  destruct (IH (ResultsStore.index_result d r)) as [E Hh].
  - intros r' Hr'. rewrite has_index_result by (apply H; now left).
    apply H. now right.
  - split; [exact E|]. intros p t. rewrite Hh.
    apply has_index_result. apply H. now left.
Qed.

(** What update-results leaves when it does not go through.  When the
    request fails, the exception goes on to the caller and nothing is
    written.  When there are no data yet ([null]), the action returns after
    the request and writes nothing, not even the edition date.  When an
    update is for a page or a topic that the data do not have, the
    assignment throws a TypeError: the updates before it are written, the
    ones after it are not, and the edition date of the audit store and the
    saved statuses are as they were, although the request went through. *)
Theorem updateResults_that_fails :
  forall (s : ResultsStore.Stores) (now : string),
    (forall e updates,
       ResultsStore.updateResults (Throw e) now updates s = (Throw e, s))
    /\ (ResultsStore.data (ResultsStore.results s) = None ->
        forall updates,
          ResultsStore.updateResults (Return tt) now updates s
          = (Return tt, s))
    /\ (forall d applied r rest,
          ResultsStore.data (ResultsStore.results s) = Some d ->
          well_indexed d ->
          (forall r', In r' applied ->
             ResultsStore.has d (ResultsStore.pageId r')
               (ResultsStore.topic r') = true) ->
          ResultsStore.has d (ResultsStore.pageId r) (ResultsStore.topic r)
          = false ->
          let out :=
            ResultsStore.updateResults (Return tt) now
              (map ResultsStore.Whole (applied ++ r :: rest)) s in
          fst out = Throw ResultsStore.TypeError
          /\ (forall p t c,
                ResultsStore.getCriteriumResult
                  (ResultsStore.results (snd out)) p t c
                = match find (placed_at p t c) (List.rev applied) with
                  | Some r' => Some r'
                  | None =>
                      ResultsStore.getCriteriumResult (ResultsStore.results s)
                        p t c
                  end)
          /\ ResultsStore.auditStore_editionDate (snd out)
             = ResultsStore.auditStore_editionDate s
          /\ ResultsStore.previousStatuses (ResultsStore.results (snd out))
             = ResultsStore.previousStatuses (ResultsStore.results s)).
Proof.
  intros s now. split; [reflexivity|]. split.
  - intros Hnone updates. unfold ResultsStore.updateResults.
    now rewrite Hnone.
  - intros d applied r rest Hdata Hw Hknown Hmissing out.
    destruct (assign_each_known applied d Hknown) as [E Hh].
    assert (Hout : out
                   = (Throw ResultsStore.TypeError,
                      ResultsStore.mkStores
                        (ResultsStore.mkResultsStoreState
                           (Some (fold_left ResultsStore.index_result applied d))
                           (ResultsStore.previousStatuses
                              (ResultsStore.results s)))
                        (ResultsStore.auditStore_editionDate s))).
    { unfold out, ResultsStore.updateResults. rewrite Hdata.
      rewrite map_app, assign_each_app, E. cbn [map ResultsStore.assign_each].
      rewrite assign_Whole, Hh, Hmissing. reflexivity. }
    rewrite Hout. cbn [fst snd]. split; [reflexivity|].
    split; [|now split].
    intros p t c. rewrite !getCriteriumResult_lookup.
    cbn [ResultsStore.results ResultsStore.data]. rewrite Hdata.
    exact (proj2 (fold_index_result applied d Hw) p t c).
Qed.

(** ** Example images *)

Lemma findIndex_ge {A} (f : A -> bool) (l : list A) :
  -1 <= ResultsStore.findIndex f l.
Proof.
  induction l as [|x l IH]; simpl; [lia|].
  destruct (f x); [lia|].
  destruct (ResultsStore.findIndex f l <? 0) eqn:E; [lia|].
  apply Z.ltb_ge in E. lia.
Qed.

Lemma findIndex_none {A} (f : A -> bool) (l : list A) :
  (forall x, In x l -> f x = false) -> ResultsStore.findIndex f l = -1.
Proof.
  induction l as [|x l IH]; intros H; simpl; [reflexivity|].
  rewrite (H x (or_introl eq_refl)).
  rewrite IH by (intros y Hy; apply H; now right). reflexivity.
Qed.

Lemma findIndex_first {A} (f : A -> bool) (before after : list A) (x : A) :
  (forall y, In y before -> f y = false) -> f x = true ->
  ResultsStore.findIndex f (before ++ x :: after)
  = Z.of_nat (List.length before).
Proof.
  induction before as [|y before IH]; intros Hb Hx; simpl.
  - now rewrite Hx.
  - rewrite (Hb y (or_introl eq_refl)).
    rewrite IH; [|intros z Hz; apply Hb; now right | exact Hx].
    destruct (Z.of_nat (List.length before) <? 0) eqn:E.
    + apply Z.ltb_lt in E. lia.
    + lia.
Qed.

Lemma splice1_at {A} (before after : list A) (x : A) :
  ResultsStore.splice1 (before ++ x :: after) (Z.of_nat (List.length before))
  = before ++ after.
Proof.
  unfold ResultsStore.splice1.
  assert (E : (Z.of_nat (List.length before) <? 0) = false)
    by (apply Z.ltb_ge; lia).
  rewrite E, length_app. simpl List.length.
  rewrite Z.min_l by lia. rewrite Nat2Z.id.
  rewrite firstn_app, firstn_all, Nat.sub_diag. simpl firstn.
  rewrite app_nil_r.
  rewrite skipn_app, skipn_all2 by lia.
  replace (List.length before + 1 - List.length before)%nat with 1%nat by lia.
  reflexivity.
Qed.

Lemma splice1_last {A} (l : list A) :
  ResultsStore.splice1 l (-1) = removelast l.
Proof.
  induction l as [|x l IH] using rev_ind.
  - reflexivity.
  - rewrite removelast_last. unfold ResultsStore.splice1.
    change (-1 <? 0) with true. cbv iota.
    rewrite length_app. simpl List.length.
    rewrite Z.max_l by lia.
    replace (Z.to_nat (Z.of_nat (List.length l + 1) + -1))
      with (List.length l) by lia.
    rewrite firstn_app, firstn_all, Nat.sub_diag. simpl firstn.
    rewrite app_nil_r.
    rewrite skipn_all2 by (rewrite length_app; simpl; lia).
    now rewrite app_nil_r.
Qed.

Lemma with_images_same r :
  ResultsStore.with_images r (ResultsStore.exampleImages r) = r.
Proof. now destruct r. Qed.

(** What the change of the example images of a result leaves. *)
Lemma change_images_found p t c change s r :
  ResultsStore.getCriteriumResult (ResultsStore.results s) p t c = Some r ->
  let out := ResultsStore.change_images p t c change s in
  fst out = Return tt
  /\ forall p' t' c',
       ResultsStore.getCriteriumResult (ResultsStore.results (snd out))
         p' t' c'
       = if N.eqb p p' && N.eqb t t' && N.eqb c c'
         then Some (ResultsStore.with_images r
                      (change (ResultsStore.exampleImages r)))
         else ResultsStore.getCriteriumResult (ResultsStore.results s)
                p' t' c'.
Proof.
  intros Hr out. unfold out, ResultsStore.change_images.
  rewrite getCriteriumResult_lookup in Hr.
  destruct (ResultsStore.data (ResultsStore.results s)) as [d|] eqn:Ed;
    [|discriminate].
  unfold lookup in Hr.
  destruct (ResultsStore.get d p) as [page|] eqn:Hp; [|discriminate].
  destruct (ResultsStore.get page t) as [criteria|] eqn:Ht; [|discriminate].
  rewrite Hr. cbn [fst snd]. split; [reflexivity|].
  intros p' t' c'. rewrite !getCriteriumResult_lookup.
  cbn [ResultsStore.results ResultsStore.data]. rewrite Ed.
  rewrite (lookup_set_topic d p t page _ p' t' c' Hp).
  destruct (N.eqb p p' && N.eqb t t') eqn:E; [|reflexivity].
  cbn [andb]. rewrite get_set.
  destruct (N.eqb c c') eqn:Ec; [reflexivity|].
  apply andb_true_iff in E as [E1 E2]. apply N.eqb_eq in E1, E2. subst.
  unfold lookup. now rewrite Hp, Ht.
Qed.

(** When its request succeeds, delete-example-image on a result of the data
    removes from the images of the result the first one that has the id,
    and leaves every other result as it was.  When no image of the result
    has the id, [findIndex] gives -1 and [splice(-1, 1)] removes the last
    image of the result. *)
Theorem deleteExampleImage_takes_one_image_off :
  forall (s : ResultsStore.Stores) (p t c : N) (exampleId : Z)
    (r : ResultsStore.CriteriumResult),
    ResultsStore.getCriteriumResult (ResultsStore.results s) p t c = Some r ->
    let out :=
      ResultsStore.deleteExampleImage (Return tt) p t c exampleId s in
    fst out = Return tt
    /\ (exists images,
          ResultsStore.getCriteriumResult (ResultsStore.results (snd out))
            p t c
          = Some (ResultsStore.with_images r images)
          /\ (forall before x after,
                ResultsStore.exampleImages r = before ++ x :: after ->
                ResultsStore.example_id x = exampleId ->
                (forall y, In y before ->
                   ResultsStore.example_id y <> exampleId) ->
                images = before ++ after)
          /\ ((forall x, In x (ResultsStore.exampleImages r) ->
                 ResultsStore.example_id x <> exampleId) ->
              images = removelast (ResultsStore.exampleImages r)))
    /\ (forall p' t' c', p' <> p \/ t' <> t \/ c' <> c ->
          ResultsStore.getCriteriumResult (ResultsStore.results (snd out))
            p' t' c'
          = ResultsStore.getCriteriumResult (ResultsStore.results s)
              p' t' c').
Proof.
  intros s p t c exampleId r Hr out.
  set (change := fun images : list ResultsStore.ExampleImage =>
         ResultsStore.splice1 images
           (ResultsStore.findIndex
              (fun ex => Z.eqb (ResultsStore.example_id ex) exampleId)
              images)).
  destruct (change_images_found p t c change s r Hr) as [Hok Hl].
  change (ResultsStore.change_images p t c change s) with out in Hok, Hl.
  split; [exact Hok|]. split.
  - exists (change (ResultsStore.exampleImages r)). split; [|split].
    + rewrite Hl, !N.eqb_refl. reflexivity.
    + intros before x after E Hx Hb. unfold change. rewrite E.
      rewrite findIndex_first.
      * apply splice1_at.
      * intros y Hy. apply Z.eqb_neq. now apply Hb.
      * now apply Z.eqb_eq.
    + intros Hnone. unfold change. rewrite findIndex_none.
      * apply splice1_last.
      * intros x Hx. apply Z.eqb_neq. now apply Hnone.
  - intros p' t' c' Hne. rewrite Hl.
    destruct (N.eqb p p' && N.eqb t t' && N.eqb c c') eqn:E; [|reflexivity].
    rewrite !andb_true_iff, !N.eqb_eq in E. destruct E as [[E1 E2] E3].
    subst. destruct Hne as [H|[H|H]]; congruence.
Qed.

(** upload-example-image appends the image that the API returned to the
    images of the result.  Deleting this image afterwards by its id, an id
    that no other image of the result has, gives back the results as they
    were. *)
Theorem uploadExampleImage_then_delete :
  forall (s : ResultsStore.Stores) (p t c : N)
    (image : ResultsStore.ExampleImage) (r : ResultsStore.CriteriumResult),
    ResultsStore.getCriteriumResult (ResultsStore.results s) p t c = Some r ->
    (forall x, In x (ResultsStore.exampleImages r) ->
       ResultsStore.example_id x <> ResultsStore.example_id image) ->
    let uploaded := ResultsStore.uploadExampleImage (Return image) p t c s in
    let deleted :=
      ResultsStore.deleteExampleImage (Return tt) p t c
        (ResultsStore.example_id image) (snd uploaded) in
    fst uploaded = Return tt
    /\ ResultsStore.getCriteriumResult (ResultsStore.results (snd uploaded))
         p t c
       = Some (ResultsStore.with_images r
                 (ResultsStore.exampleImages r ++ [image]))
    /\ fst deleted = Return tt
    /\ forall p' t' c',
         ResultsStore.getCriteriumResult (ResultsStore.results (snd deleted))
           p' t' c'
         = ResultsStore.getCriteriumResult (ResultsStore.results s) p' t' c'.
Proof.
  intros s p t c image r Hr Hfresh uploaded deleted.
  destruct (change_images_found p t c (fun images => images ++ [image]) s r Hr)
    as [Hok Hl].
  change (ResultsStore.change_images p t c (fun images => images ++ [image]) s)
    with uploaded in Hok, Hl.
  assert (Hup : ResultsStore.getCriteriumResult
                  (ResultsStore.results (snd uploaded)) p t c
                = Some (ResultsStore.with_images r
                          (ResultsStore.exampleImages r ++ [image]))).
  { rewrite Hl, !N.eqb_refl. reflexivity. }
  set (change := fun images : list ResultsStore.ExampleImage =>
         ResultsStore.splice1 images
           (ResultsStore.findIndex
              (fun ex =>
                 Z.eqb (ResultsStore.example_id ex)
                   (ResultsStore.example_id image))
              images)).
  destruct (change_images_found p t c change (snd uploaded) _ Hup)
    as [Hok2 Hl2].
  change (ResultsStore.change_images p t c change (snd uploaded))
    with deleted in Hok2, Hl2.
  split; [exact Hok|]. split; [exact Hup|]. split; [exact Hok2|].
  intros p' t' c'. rewrite Hl2, Hl.
  destruct (N.eqb p p' && N.eqb t t' && N.eqb c c') eqn:E; [|reflexivity].
  rewrite !andb_true_iff, !N.eqb_eq in E. destruct E as [[E1 E2] E3]. subst.
  rewrite Hr. f_equal. cbn [ResultsStore.exampleImages ResultsStore.with_images].
  unfold change. rewrite findIndex_first.
  - rewrite splice1_at, app_nil_r. destruct r; reflexivity.
  - intros y Hy. apply Z.eqb_neq. now apply Hfresh.
  - apply Z.eqb_refl.
Qed.

(** ** The getters *)

(** [everyCriteriumAreTested] is true exactly when no result of the data is
    NOT_TESTED.  Before the data are fetched ([null]) it is true,
    [allResults] is undefined, [pagesCount] is 0 and [getTopicResults] is
    empty.  When there are data, [allResults] holds exactly the results
    that [getCriteriumResult] finds. *)
Theorem everyCriteriumAreTested_iff_no_result_not_tested :
  forall s : ResultsStore.Stores,
    well_indexed_store s ->
    let store := ResultsStore.results s in
    (ResultsStore.everyCriteriumAreTested store = true
     <-> forall p t c r,
           ResultsStore.getCriteriumResult store p t c = Some r ->
           ResultsStore.status r <> NOT_TESTED)
    /\ (ResultsStore.data store = None ->
        ResultsStore.everyCriteriumAreTested store = true
        /\ ResultsStore.allResults store = None
        /\ ResultsStore.pagesCount store = 0%nat
        /\ forall p t, ResultsStore.getTopicResults store p t = [])
    /\ (forall rs,
          ResultsStore.allResults store = Some rs ->
          forall r,
            In r rs
            <-> ResultsStore.getCriteriumResult store
                  (ResultsStore.pageId r) (ResultsStore.topic r)
                  (ResultsStore.criterium r) = Some r).
Proof.
  intros s Hw store. unfold well_indexed_store in Hw. fold store in Hw.
  unfold ResultsStore.everyCriteriumAreTested, ResultsStore.allResults,
    ResultsStore.pagesCount, ResultsStore.getTopicResults.
  assert (Hlk : forall p t c,
            ResultsStore.getCriteriumResult store p t c
            = match ResultsStore.data store with
              | Some d => lookup d p t c
              | None => None
              end) by reflexivity.
  destruct (ResultsStore.data store) as [d|] eqn:Ed.
  - assert (Hall : forall r,
        In r
          (List.concat (List.concat
             (map (fun page =>
                     map (fun criteria => ResultsStore.values criteria)
                       (ResultsStore.values page))
                (ResultsStore.values d))))
        <-> lookup d (ResultsStore.pageId r) (ResultsStore.topic r)
              (ResultsStore.criterium r) = Some r).
    { intros r. rewrite (all_In d r Hw). split; [|eauto].
      intros (p & t & c & Hl). pose proof (lookup_placed d p t c r Hw Hl) as Hp.
      apply placed_at_iff in Hp as (<- & <- & <-). exact Hl. }
    split; [|split; [discriminate|]].
    + rewrite negb_true_iff, existsb_false_iff. split.
      * intros H p t c r Hr Hs. rewrite Hlk in Hr.
        pose proof (lookup_placed d p t c r Hw Hr) as Hp.
        apply placed_at_iff in Hp as (<- & <- & <-).
        apply Hall in Hr. specialize (H r Hr). cbv beta in H.
        rewrite Hs in H. discriminate.
      * intros H r Hin. apply Hall in Hin. rewrite <- Hlk in Hin.
        specialize (H _ _ _ _ Hin).
        destruct (ResultsStore.status r); simpl; congruence.
    + intros rs E r. inversion E; subst rs. rewrite Hlk. apply Hall.
  - split; [|split].
    + split; [|reflexivity]. intros _ p t c r Hr. rewrite Hlk in Hr.
      discriminate.
    + intros _. repeat split.
    + discriminate.
Qed.

Lemma fetched_sample_data_well_indexed : well_indexed fetched_sample_data.
Proof.
  exact (proj1 (fold_index_result sample_response [] well_indexed_nil)).
Qed.

Lemma setTopicStatus_sets_the_topic_witness :
  let out :=
    ResultsStore.setTopicStatus (Return tt) "2023-05-02T09:00:00.000Z" 1 1
      COMPLIANT fetched_sample_stores in
  fst out = Return tt
  /\ map ResultsStore.status
       (ResultsStore.getTopicResults (ResultsStore.results (snd out)) 1 1)
     = [COMPLIANT; COMPLIANT]
  /\ ResultsStore.auditStore_editionDate (snd out)
     = Some (Some "2023-05-02T09:00:00.000Z").
Proof.
  cbv zeta.
  destruct (setTopicStatus_sets_the_topic fetched_sample_stores
              "2023-05-02T09:00:00.000Z" 1 1 COMPLIANT fetched_sample_data
              eq_refl fetched_sample_data_well_indexed) as (H1 & H2 & _).
  split; [exact H1|]. split; [now rewrite H2 | reflexivity].
Defined.

Lemma revertTopicStatus_undoes_not_applicable_witness :
  ResultsStore.data
    (ResultsStore.results
       (snd (ResultsStore.revertTopicStatus (Return tt)
               "2023-05-02T09:01:00.000Z" 1 1
               (snd (ResultsStore.setTopicStatus (Return tt)
                       "2023-05-02T09:00:00.000Z" 1 1 NOT_APPLICABLE
                       fetched_sample_stores)))))
  = Some fetched_sample_data.
Proof.
  apply (revertTopicStatus_undoes_not_applicable fetched_sample_stores
           "2023-05-02T09:00:00.000Z" "2023-05-02T09:01:00.000Z" 1 1
           fetched_sample_data eq_refl fetched_sample_data_well_indexed
           eq_refl).
Defined.

Lemma second_not_applicable_forgets_the_statuses_witness :
  let first :=
    ResultsStore.setTopicStatus (Return tt) "2023-05-02T09:00:00.000Z" 1 1
      NOT_APPLICABLE fetched_sample_stores in
  let second :=
    ResultsStore.setTopicStatus (Return tt) "2023-05-02T09:00:01.000Z" 1 1
      NOT_APPLICABLE (snd first) in
  let reverted :=
    ResultsStore.revertTopicStatus (Return tt) "2023-05-02T09:01:00.000Z" 1 1
      (snd second) in
  option_map ResultsStore.status
    (ResultsStore.getCriteriumResult (ResultsStore.results (snd reverted))
       1 1 1)
  = Some NOT_APPLICABLE.
Proof.
  cbv zeta.
  destruct (second_not_applicable_forgets_the_statuses fetched_sample_stores
              "2023-05-02T09:00:00.000Z" "2023-05-02T09:00:01.000Z"
              "2023-05-02T09:01:00.000Z" 1 1 1 fetched_sample_data
              (ResultsStore.mkCriteriumResult 1 1 1 COMPLIANT None None None
                 None None [])
              eq_refl fetched_sample_data_well_indexed eq_refl eq_refl)
    as [_ H].
  now rewrite H.
Defined.

Lemma deleteExampleImage_takes_one_image_off_witness :
  option_map ResultsStore.exampleImages
    (ResultsStore.getCriteriumResult
       (ResultsStore.results
          (snd (ResultsStore.deleteExampleImage (Return tt) 1 1 2 7
                  fetched_sample_stores)))
       1 1 2)
  = Some [].
Proof.
  destruct (deleteExampleImage_takes_one_image_off fetched_sample_stores
              1 1 2 7
              (ResultsStore.mkCriteriumResult 1 1 2 NOT_COMPLIANT None None
                 None None (Some BLOCKING)
                 [ResultsStore.mkExampleImage 7 "capture.png" "image/png" 2048
                    "uploads/capture.png" "uploads/capture-thumbnail.png"])
              eq_refl) as (_ & (images & Hget & Hfirst & _) & _).
  rewrite Hget. simpl. f_equal.
  apply (Hfirst [] _ [] eq_refl eq_refl). intros y [].
Defined.

Lemma uploadExampleImage_then_delete_witness :
  let image :=
    ResultsStore.mkExampleImage 8 "menu.png" "image/png" 1024
      "uploads/menu.png" "uploads/menu-thumbnail.png" in
  let uploaded :=
    ResultsStore.uploadExampleImage (Return image) 1 1 2
      fetched_sample_stores in
  option_map ResultsStore.exampleImages
    (ResultsStore.getCriteriumResult (ResultsStore.results (snd uploaded))
       1 1 2)
  = Some [ResultsStore.mkExampleImage 7 "capture.png" "image/png" 2048
            "uploads/capture.png" "uploads/capture-thumbnail.png"; image]
  /\ ResultsStore.getCriteriumResult
       (ResultsStore.results
          (snd (ResultsStore.deleteExampleImage (Return tt) 1 1 2 8
                  (snd uploaded))))
       1 1 2
     = ResultsStore.getCriteriumResult
         (ResultsStore.results fetched_sample_stores) 1 1 2.
Proof.
  cbv zeta.
  destruct (uploadExampleImage_then_delete fetched_sample_stores 1 1 2
              (ResultsStore.mkExampleImage 8 "menu.png" "image/png" 1024
                 "uploads/menu.png" "uploads/menu-thumbnail.png")
              (ResultsStore.mkCriteriumResult 1 1 2 NOT_COMPLIANT None None
                 None None (Some BLOCKING)
                 [ResultsStore.mkExampleImage 7 "capture.png" "image/png" 2048
                    "uploads/capture.png" "uploads/capture-thumbnail.png"])
              eq_refl) as (_ & H2 & _ & H4).
  - intros x [<-|[]]. discriminate.
  - split; [now rewrite H2 | apply H4].
Defined.

Lemma everyCriteriumAreTested_iff_no_result_not_tested_witness :
  ResultsStore.everyCriteriumAreTested
    (ResultsStore.results fetched_sample_stores) = true
  /\ (ResultsStore.everyCriteriumAreTested
        (ResultsStore.results
           (snd (ResultsStore.setTopicStatus (Return tt)
                   "2023-05-02T09:00:00.000Z" 2 1 NOT_TESTED
                   fetched_sample_stores))) = true
      <-> forall p t c r,
            ResultsStore.getCriteriumResult
              (ResultsStore.results
                 (snd (ResultsStore.setTopicStatus (Return tt)
                         "2023-05-02T09:00:00.000Z" 2 1 NOT_TESTED
                         fetched_sample_stores))) p t c = Some r ->
            ResultsStore.status r <> NOT_TESTED).
Proof.
  split; [reflexivity|].
  apply (everyCriteriumAreTested_iff_no_result_not_tested
           (snd (ResultsStore.setTopicStatus (Return tt)
                   "2023-05-02T09:00:00.000Z" 2 1 NOT_TESTED
                   fetched_sample_stores))).
  exact (proj1 (fold_index_result
                  (sample_response
                   ++ [ResultsStore.mkCriteriumResult 2 1 1 NOT_TESTED None
                         None None None None []])
                  [] well_indexed_nil)).
Defined.

Lemma updateResults_that_fails_witness :
  let out :=
    ResultsStore.updateResults (Return tt) "2023-05-02T09:00:00.000Z"
      [ResultsStore.Whole
         (ResultsStore.mkCriteriumResult 1 1 1 NOT_COMPLIANT None None None
            None None []);
       ResultsStore.Whole
         (ResultsStore.mkCriteriumResult 9 1 1 COMPLIANT None None None None
            None []);
       ResultsStore.Whole
         (ResultsStore.mkCriteriumResult 2 1 1 COMPLIANT None None None None
            None [])]
      fetched_sample_stores in
  fst out = Throw ResultsStore.TypeError
  /\ option_map ResultsStore.status
       (ResultsStore.getCriteriumResult (ResultsStore.results (snd out))
          1 1 1)
     = Some NOT_COMPLIANT
  /\ option_map ResultsStore.status
       (ResultsStore.getCriteriumResult (ResultsStore.results (snd out))
          2 1 1)
     = Some NOT_APPLICABLE
  /\ ResultsStore.auditStore_editionDate (snd out)
     = Some (Some "2023-05-01T08:00:00.000Z").
Proof.
  cbv zeta.
  destruct (updateResults_that_fails fetched_sample_stores
              "2023-05-02T09:00:00.000Z") as (_ & _ & H).
  destruct (H fetched_sample_data
              [ResultsStore.mkCriteriumResult 1 1 1 NOT_COMPLIANT None None
                 None None None []]
              (ResultsStore.mkCriteriumResult 9 1 1 COMPLIANT None None None
                 None None [])
              [ResultsStore.mkCriteriumResult 2 1 1 COMPLIANT None None None
                 None None []]
              eq_refl fetched_sample_data_well_indexed)
    as (H1 & H2 & H3 & _).
  - intros r' [<-|[]]. reflexivity.
  - reflexivity.
  - split; [exact H1|]. split; [now rewrite H2|].
    split; [now rewrite H2 | exact H3].
Defined.

(** ** The unique keys hold in every store reached *)

Lemma NoDup_map_filter {A B} (key : A -> B) (keep : A -> bool)
  (l : list A) :
  NoDup (map key l) -> NoDup (map key (filter keep l)).
Proof.
  induction l as [|x l IH]; simpl; intros H; [constructor|].
  inversion H as [|? ? Hn Hd]; subst.
  destruct (keep x); simpl; [|now apply IH].
  constructor; [|now apply IH].
  intros Hin. apply Hn. apply in_map_iff in Hin as (y & E & Hy).
  apply filter_In in Hy as [Hy _]. apply in_map_iff. now exists y.
Qed.

Lemma NoDup_map_inj {A B} (f : A -> B) (l : list A) (x y : A) :
  NoDup (map f l) -> In x l -> In y l -> f x = f y -> x = y.
Proof.
  induction l as [|z l IH]; simpl; intros H Hx Hy E; [destruct Hx|].
  inversion H as [|? ? Hn Hd]; subst.
  destruct Hx as [<-|Hx], Hy as [<-|Hy].
  - reflexivity.
  - exfalso. apply Hn. rewrite E. now apply in_map.
  - exfalso. apply Hn. rewrite <- E. now apply in_map.
  - now apply IH.
Qed.

Lemma NoDup_map_snoc {A B} (f : A -> B) (l : list A) (x : A) :
  NoDup (map f l) -> ~ In (f x) (map f l) -> NoDup (map f (l ++ [x])).
Proof.
  intros H Hn. rewrite map_app. simpl. apply NoDup_app.
  - exact H.
  - constructor; [intros [] | constructor].
  - intros a Ha [<-|[]]. contradiction.
Qed.

(** A list without two elements that agree on [f] has no two elements that
    agree on [g], if agreeing on [g] means agreeing on [f]. *)
Lemma NoDup_map_rel {A B C} (f : A -> B) (g : A -> C) (l : list A) :
  NoDup (map f l) ->
  (forall x y, In x l -> In y l -> g x = g y -> f x = f y) ->
  NoDup (map g l).
Proof.
  induction l as [|x l IH]; simpl; intros H Hr; [constructor|].
  inversion H as [|? ? Hn Hd]; subst. constructor.
  - intros Hin. apply in_map_iff in Hin as (y & E & Hy).
    apply Hn. rewrite (Hr x y (or_introl eq_refl) (or_intror Hy) (eq_sym E)).
    now apply in_map.
  - apply IH; [exact Hd|]. intros a b Ha Hb. apply Hr; now right.
Qed.

Lemma filter_comm {A} (p q : A -> bool) (l : list A) :
  filter p (filter q l) = filter q (filter p l).
Proof.
  induction l as [|x l IH]; simpl; [reflexivity|].
  destruct (p x) eqn:Ep, (q x) eqn:Eq; simpl; rewrite ?Ep, ?Eq, IH;
    reflexivity.
Qed.

Lemma filter_map_stable {A} (p : A -> bool) (h : A -> A) (l : list A) :
  (forall x, p (h x) = p x) -> filter p (map h l) = map h (filter p l).
Proof.
  intros Hp. induction l as [|x l IH]; simpl; [reflexivity|].
  rewrite Hp. destruct (p x); simpl; now rewrite IH.
Qed.

Lemma map_updateMany {R B} (g : R -> B) (w : R -> bool) (f : R -> R)
  (t : Table R) :
  (forall r, g (f r) = g r) ->
  map g (rows (Prisma.updateMany w f t)) = map g (rows t).
Proof.
  intros Hg. unfold Prisma.updateMany. simpl. rewrite map_map.
  apply map_ext. intros r. destruct (w r); [apply Hg | reflexivity].
Qed.

(** *** The tokens of the audits *)

Lemma unique_tokens_updateMany (w : Audit -> bool) (f : Audit -> Audit)
  (db db' : DB) :
  (forall a, audit_editUniqueId (f a) = audit_editUniqueId a) ->
  (forall a, audit_consultUniqueId (f a) = audit_consultUniqueId a) ->
  db_audit db' = Prisma.updateMany w f (db_audit db) ->
  unique_tokens db -> unique_tokens db'.
Proof.
  intros He Hc E [H1 H2]. unfold unique_tokens. rewrite E.
  rewrite !map_updateMany by assumption. now split.
Qed.

Lemma unique_tokens_same (db db' : DB) :
  db_audit db' = db_audit db -> unique_tokens db -> unique_tokens db'.
Proof. intros E H. unfold unique_tokens. now rewrite E. Qed.

Lemma createAudit_tokens_free (e c : string) (body : CreateAuditDto)
  (db db1 : DB) (created : AuditWithIncludes) :
  AuditService.createAudit e c body db = (Return created, db1) ->
  forall a, In a (rows (db_audit db)) ->
    audit_editUniqueId a <> e /\ audit_consultUniqueId a <> c.
Proof.
  unfold AuditService.createAudit, transaction. intros H a Ha.
  cbv [bind gets] in H.
  destruct (existsb _ (rows (db_auditTrace db))
            || existsb _ (rows (db_audit db))) eqn:Et; [discriminate|].
  apply orb_false_iff in Et as [_ Et]. rewrite existsb_false_iff in Et.
  specialize (Et a Ha). cbv beta in Et.
  apply orb_false_iff in Et as [E1 E2].
  apply String.eqb_neq in E1, E2. now split.
Qed.

Lemma createAudit_unique_tokens (e c : string) (body : CreateAuditDto)
  (db : DB) :
  unique_tokens db ->
  unique_tokens (snd (AuditService.createAudit e c body db)).
Proof.
  intros [H1 H2].
  destruct (AuditService.createAudit e c body db) as [[created|ex] db1] eqn:E.
  - pose proof (createAudit_tokens_free _ _ _ _ _ _ E) as Hfree.
    apply createAudit_effect in E as (_ & Ha & He & Hc). simpl.
    unfold unique_tokens. rewrite Ha. unfold Prisma.create. simpl. split.
    + apply NoDup_map_snoc; [exact H1|]. rewrite He. intros Hin.
      apply in_map_iff in Hin as (a & Ea & Hin).
      now destruct (Hfree a Hin).
    + apply NoDup_map_snoc; [exact H2|]. rewrite Hc. intros Hin.
      apply in_map_iff in Hin as (a & Ea & Hin).
      now destruct (Hfree a Hin).
  - unfold AuditService.createAudit in E.
    apply transaction_fail_keeps in E. subst. now split.
Qed.

Lemma updateAudit_unique_tokens (now : DateTime) (u : string)
  (data : UpdateAuditDto) (db : DB) :
  unique_tokens db ->
  unique_tokens (snd (AuditService.updateAudit now u data db)).
Proof.
  intros H.
  destruct (AuditService.updateAudit now u data db) as [[[audit|]|ex] db1]
    eqn:E.
  - apply updateAudit_effect in E as (_ & Ha & _). simpl.
    unfold stamped in Ha. destruct H as [H1 H2].
    unfold unique_tokens. rewrite Ha.
    rewrite !map_updateMany by (intros; reflexivity). now split.
  - pose proof (updateAudit_unchanged now u data db) as Hs.
    rewrite E in Hs. simpl in Hs. simpl. now rewrite Hs by discriminate.
  - pose proof (updateAudit_unchanged now u data db) as Hs.
    rewrite E in Hs. simpl in Hs. simpl. now rewrite Hs by discriminate.
Qed.

Lemma updateResults_unique_tokens (now : DateTime) (u : string)
  (body : UpdateResultsDto) (db : DB) :
  unique_tokens db ->
  unique_tokens (snd (AuditService.updateResults now u body db)).
Proof.
  intros H. rewrite updateResults_eq.
  destruct (forallb _ _); [|exact H]. simpl.
  eapply (unique_tokens_updateMany _ _ db); [| |reflexivity|exact H];
    reflexivity.
Qed.

Lemma publishAudit_unique_tokens (now : DateTime) (u : string) (db : DB) :
  unique_tokens db ->
  unique_tokens (snd (AuditService.publishAudit now u db)).
Proof.
  intros H.
  destruct (Prisma.findUnique (editUniqueId_is u) (db_audit db)) as [a|] eqn:E.
  - rewrite (service_publishAudit_found now u db a E). simpl.
    eapply (unique_tokens_updateMany _ _ db); [| |reflexivity|exact H];
      reflexivity.
  - now rewrite (service_publishAudit_missing now u db E).
Qed.

Lemma deleteAudit_unique_tokens (u : string) (db : DB) :
  unique_tokens db -> unique_tokens (snd (AuditService.deleteAudit u db)).
Proof.
  intros [H1 H2].
  destruct (Prisma.findUnique (editUniqueId_is u) (db_audit db)) as [a|] eqn:E.
  - assert (Hl : live u db).
    { apply find_some in E as [Hin Hh]. exists a. split; [exact Hin|].
      now apply String.eqb_eq. }
    destruct (deleteAudit_live u db Hl) as (db2 & Hd & _ & Ha).
    rewrite Hd. simpl. unfold unique_tokens. rewrite Ha. simpl.
    split; now apply NoDup_map_filter.
  - apply findUnique_audit_none_iff in E.
    rewrite (service_deleteAudit_missing u db E). now split.
Qed.

(** *** The pages and the results *)

Lemma unique_pages_and_results_ext (db db' : DB) :
  db_auditedPage db' = db_auditedPage db ->
  db_criterionResult db' = db_criterionResult db ->
  unique_pages_and_results db -> unique_pages_and_results db'.
Proof.
  intros Hp Hr (H1 & H2 & H3 & H4).
  unfold unique_pages_and_results, audit_pages, audit_rows.
  rewrite Hp, Hr. repeat split; assumption.
Qed.

Lemma pages_deleteMany_unique (uniqueId : string)
  (updatedPages : list UpdateAuditPage) (db db' : DB) :
  AuditService.pages_deleteMany uniqueId updatedPages db = Return (tt, db') ->
  unique_pages_and_results db -> unique_pages_and_results db'.
Proof.
  unfold AuditService.pages_deleteMany, modify. intros H (H1 & H2 & H3 & H4).
  inversion H; subst; clear H.
  unfold unique_pages_and_results, audit_pages, audit_rows, Prisma.findMany.
  simpl. split; [|split; [|split]].
  - now apply NoDup_map_filter.
  - intros p Hin. apply filter_In in Hin as [Hin _]. now apply H2.
  - intros u. rewrite filter_comm. apply NoDup_map_filter. apply H3.
  - intros u. rewrite filter_comm. apply NoDup_map_filter. apply H4.
Qed.

(** The result with another page url. *)
Lemma key_of_moved (r : CriterionResult) (url : string) :
  result_key
    (mkCriterionResult (cr_id r) (cr_status r) (cr_compliantComment r)
       (cr_errorDescription r) (cr_userImpact r) (cr_recommandation r)
       (cr_notApplicableComment r) (cr_topic r) (cr_criterium r) url
       (cr_auditUniqueId r))
  = (url, cr_topic r, cr_criterium r).
Proof. reflexivity. Qed.

Lemma pages_update_unique (uniqueId : string) (p : UpdateAuditPage)
  (db db' : DB) :
  AuditService.pages_update uniqueId p db = Return (tt, db') ->
  foreign_keys db ->
  unique_pages_and_results db -> unique_pages_and_results db'.
Proof.
  unfold AuditService.pages_update. intros H [_ Hfk] (H1 & H2 & H3 & H4).
  set (hit := fun q =>
         Prisma.child_of uniqueId (page_auditUniqueId q)
         && Prisma.is_id (page_id q) (uap_id p)) in *.
  destruct (Prisma.findUnique hit (db_auditedPage db)) as [q0|] eqn:Ef;
    [|discriminate].
  destruct (existsb _ _) eqn:Eclash; [discriminate|].
  inversion H; subst db'; clear H.
  apply find_some in Ef as [Hq0 Hhit0].
  rewrite existsb_false_iff in Eclash.
  (* the one page that is written *)
  assert (Hone : forall q, In q (rows (db_auditedPage db)) ->
                   hit q = true -> q = q0).
  { intros q Hq Hh. apply (NoDup_map_inj page_id _ q q0 H1 Hq Hq0).
    unfold hit in Hh, Hhit0.
    apply andb_true_iff in Hh as [_ Hh]. apply andb_true_iff in Hhit0 as [_ Hi].
    unfold Prisma.is_id in *. destruct (uap_id p); [|discriminate].
    apply Z.eqb_eq in Hh, Hi. congruence. }
  assert (Hau : forall q, hit q = true -> page_auditUniqueId q = Some uniqueId).
  { intros q Hh. apply andb_true_iff in Hh as [Hc _]. now apply child_of_iff. }
  (* the new url is the url of no other page of the audit *)
  assert (Hfree : forall q, In q (rows (db_auditedPage db)) ->
                    page_auditUniqueId q = Some uniqueId ->
                    page_url q = uap_url p -> hit q = true).
  { intros q Hq Hqa Hurl. specialize (Eclash q Hq). cbv beta in Eclash.
    unfold url_auditUniqueId in Eclash.
    rewrite Hurl, String.eqb_refl, Hqa in Eclash. simpl in Eclash.
    rewrite String.eqb_refl in Eclash. simpl in Eclash.
    apply negb_false_iff in Eclash. unfold hit. rewrite Hqa. simpl.
    rewrite String.eqb_refl. simpl.
    exact Eclash. }
  set (W := fun q =>
         if hit q
         then mkAuditedPage (page_id q) (uap_name p) (uap_url p)
                (page_auditUniqueId q)
         else q).
  assert (HWa : forall q, page_auditUniqueId (W q) = page_auditUniqueId q).
  { intros q. unfold W. now destruct (hit q). }
  assert (HWi : forall q, page_id (W q) = page_id q).
  { intros q. unfold W. now destruct (hit q). }
  unfold unique_pages_and_results, audit_pages, audit_rows, Prisma.findMany.
  simpl. fold W. split; [|split; [|split]].
  - rewrite map_map. erewrite map_ext; [exact H1|]. exact HWi.
  - intros q Hin. apply in_map_iff in Hin as (q1 & <- & Hin).
    rewrite HWi. now apply H2.
  - intros u.
    rewrite filter_map_stable by (intros q; now rewrite HWa).
    rewrite map_map.
    apply (NoDup_map_rel page_id).
    + apply NoDup_map_filter. exact H1.
    + intros x y Hx Hy E.
      pose proof Hx as Hx'. pose proof Hy as Hy'.
      apply filter_In in Hx as [Hx Hcx], Hy as [Hy Hcy].
      apply child_of_iff in Hcx, Hcy.
      unfold W in E.
      destruct (hit x) eqn:Ex, (hit y) eqn:Ey; simpl in E.
      * rewrite (Hone x Hx Ex), (Hone y Hy Ey). reflexivity.
      * exfalso. pose proof (Hau x Ex) as Hxa.
        assert (Hy1 : hit y = true).
        { apply (Hfree y Hy); [congruence | now symmetry]. }
        congruence.
      * exfalso. pose proof (Hau y Ey) as Hya.
        assert (Hx1 : hit x = true).
        { apply (Hfree x Hx); [congruence | exact E]. }
        congruence.
      * f_equal.
        exact (NoDup_map_inj page_url _ x y (H3 u) Hx' Hy' E).
  - intros u.
    set (R := fun r =>
           existsb (fun q => hit q && references r q)
             (rows (db_auditedPage db))).
    set (G := fun r =>
           if R r
           then mkCriterionResult (cr_id r) (cr_status r)
                  (cr_compliantComment r) (cr_errorDescription r)
                  (cr_userImpact r) (cr_recommandation r)
                  (cr_notApplicableComment r) (cr_topic r) (cr_criterium r)
                  (uap_url p) (cr_auditUniqueId r)
           else r).
    change (NoDup
              (map result_key
                 (filter (fun r => String.eqb (cr_auditUniqueId r) u)
                    (map G (rows (db_criterionResult db)))))).
    assert (HGa : forall r, cr_auditUniqueId (G r) = cr_auditUniqueId r).
    { intros r. unfold G. now destruct (R r). }
    rewrite filter_map_stable by (intros r; now rewrite HGa).
    rewrite map_map.
    assert (HR : forall r, R r = true ->
                   cr_auditUniqueId r = uniqueId
                   /\ cr_pageUrl r = page_url q0).
    { intros r Hr. apply existsb_exists in Hr as (q & Hq & Hh).
      apply andb_true_iff in Hh as [Hh Href].
      rewrite (Hone q Hq Hh) in Href. unfold references in Href.
      apply andb_true_iff in Href as [Hu Hc].
      rewrite (Hau q0 Hhit0) in Hc. simpl in Hc.
      apply String.eqb_eq in Hu, Hc. now split. }
    assert (Hmoved : forall r, In r (rows (db_criterionResult db)) ->
                       cr_auditUniqueId r = uniqueId ->
                       cr_pageUrl r = uap_url p -> R r = true).
    { intros r Hr Hra Hurl. destruct (Hfk r Hr) as (q & Hq & Href).
      apply existsb_exists. exists q. split; [exact Hq|].
      rewrite Href, andb_true_r. apply (Hfree q Hq).
      - unfold references in Href. apply andb_true_iff in Href as [_ Hc].
        apply child_of_iff in Hc. congruence.
      - unfold references in Href. apply andb_true_iff in Href as [Hu _].
        apply String.eqb_eq in Hu. congruence. }
    apply (NoDup_map_rel result_key); [exact (H4 u)|].
    intros x y Hx Hy E.
    apply filter_In in Hx as [Hx Hax], Hy as [Hy Hay].
    apply String.eqb_eq in Hax, Hay.
    unfold G in E.
    destruct (R x) eqn:Ex, (R y) eqn:Ey.
    + rewrite !key_of_moved in E. inversion E.
      destruct (HR x Ex) as [_ Ux]. destruct (HR y Ey) as [_ Uy].
      unfold result_key. congruence.
    + exfalso. rewrite key_of_moved in E. unfold result_key in E.
      inversion E. destruct (HR x Ex) as [Ax _].
      assert (R y = true) by (apply (Hmoved y Hy); congruence).
      congruence.
    + exfalso. rewrite key_of_moved in E. unfold result_key in E.
      inversion E. destruct (HR y Ey) as [Ay _].
      assert (R x = true) by (apply (Hmoved x Hx); congruence).
      congruence.
    + exact E.
Qed.

Lemma pages_create_unique (uniqueId : string) (p : UpdateAuditPage)
  (db db' : DB) :
  AuditService.pages_create uniqueId p db = Return (tt, db') ->
  unique_pages_and_results db -> unique_pages_and_results db'.
Proof.
  unfold AuditService.pages_create. cbv [bind gets].
  intros H (H1 & H2 & H3 & H4).
  destruct (existsb _ _) eqn:Eclash; [discriminate|].
  cbv [modify] in H. inversion H; subst db'; clear H.
  rewrite existsb_false_iff in Eclash.
  unfold unique_pages_and_results, audit_pages, audit_rows, Prisma.findMany.
  simpl. split; [|split; [|split]].
  - apply NoDup_map_snoc; [exact H1|]. simpl. intros Hin.
    apply in_map_iff in Hin as (q & E & Hq). specialize (H2 q Hq). lia.
  - intros q Hin. apply in_app_or in Hin as [Hin|[<-|[]]].
    + specialize (H2 q Hin). lia.
    + simpl. lia.
  - intros u. rewrite filter_app. simpl.
    destruct (String.eqb uniqueId u) eqn:Eu.
    + apply String.eqb_eq in Eu. subst u.
      apply NoDup_map_snoc; [apply H3|]. simpl. intros Hin.
      apply in_map_iff in Hin as (q & E & Hq).
      apply filter_In in Hq as [Hq Hc].
      specialize (Eclash q Hq). unfold url_auditUniqueId in Eclash.
      rewrite E, String.eqb_refl, Hc in Eclash. discriminate.
    + rewrite app_nil_r. apply H3.
  - exact H4.
Qed.

Lemma audit_rows_In (u : string) (db : DB) (r : CriterionResult) :
  In r (audit_rows u db)
  <-> In r (rows (db_criterionResult db)) /\ cr_auditUniqueId r = u.
Proof.
  unfold audit_rows. rewrite filter_In, String.eqb_eq. tauto.
Qed.

(** One upsert of a result keeps the result keys of each audit apart. *)
Lemma upsert_table_unique (uniqueId : string) (item : UpdateResultsItem)
  (t : Table CriterionResult) (u : string) :
  NoDup (map result_key
           (filter (fun r => String.eqb (cr_auditUniqueId r) u) (rows t))) ->
  NoDup (map result_key
           (filter (fun r => String.eqb (cr_auditUniqueId r) u)
              (rows (upsert_table uniqueId t item)))).
Proof.
  intros H. destruct (existsb (hits uniqueId item) (rows t)) eqn:E.
  - rewrite upsert_table_present by exact E. simpl.
    assert (Hk : forall r, result_key (overwrite_step uniqueId r item)
                           = result_key r
                           /\ cr_auditUniqueId (overwrite_step uniqueId r item)
                              = cr_auditUniqueId r).
    { intros r. unfold overwrite_step. destruct (hits uniqueId item r) eqn:Eh;
        [|now split].
      apply hits_iff in Eh as (Ha & Hu & Ht & Hc).
      unfold result_key, row_data. simpl. split; congruence. }
    rewrite filter_map_stable by (intros r; now rewrite (proj2 (Hk r))).
    rewrite map_map. erewrite map_ext; [exact H|].
    intros r. apply Hk.
  - rewrite upsert_table_absent by exact E. simpl. rewrite filter_app. simpl.
    destruct (String.eqb uniqueId u) eqn:Eu; [|now rewrite app_nil_r].
    apply String.eqb_eq in Eu. subst u.
    apply NoDup_map_snoc; [exact H|]. intros Hin.
    apply in_map_iff in Hin as (r & Er & Hr).
    apply filter_In in Hr as [Hr Ha]. apply String.eqb_eq in Ha.
    rewrite existsb_false_iff in E. specialize (E r Hr).
    assert (Hh : hits uniqueId item r = true).
    { apply hits_iff. unfold result_key, row_data in Er. simpl in Er.
      inversion Er. repeat split; congruence. }
    congruence.
Qed.

Lemma apply_batch_unique (uniqueId : string) (b : list UpdateResultsItem)
  (u : string) :
  forall t,
    NoDup (map result_key
             (filter (fun r => String.eqb (cr_auditUniqueId r) u) (rows t))) ->
    NoDup (map result_key
             (filter (fun r => String.eqb (cr_auditUniqueId r) u)
                (rows (apply_batch uniqueId b t)))).
Proof.
  induction b as [|i b IH]; intros t H; [exact H|].
  change (apply_batch uniqueId (i :: b) t)
    with (apply_batch uniqueId b (upsert_table uniqueId t i)).
  apply IH. now apply upsert_table_unique.
Qed.

Lemma updateResults_unique (now : DateTime) (u : string)
  (body : UpdateResultsDto) (db : DB) :
  unique_pages_and_results db ->
  unique_pages_and_results (snd (AuditService.updateResults now u body db)).
Proof.
  intros H. rewrite updateResults_eq.
  destruct (forallb _ _); [|exact H]. simpl.
  destruct H as (H1 & H2 & H3 & H4).
  split; [exact H1|]. split; [exact H2|]. split; [exact H3|].
  intros v. unfold audit_rows. simpl. apply apply_batch_unique. apply H4.
Qed.

Lemma publishAudit_unique (now : DateTime) (u : string) (db : DB) :
  unique_pages_and_results db ->
  unique_pages_and_results (snd (AuditService.publishAudit now u db)).
Proof.
  intros H.
  destruct (Prisma.findUnique (editUniqueId_is u) (db_audit db)) as [a|] eqn:E.
  - rewrite (service_publishAudit_found now u db a E). simpl.
    now apply (unique_pages_and_results_ext db).
  - now rewrite (service_publishAudit_missing now u db E).
Qed.

Lemma deleteAudit_unique (u : string) (db : DB) :
  unique_pages_and_results db ->
  unique_pages_and_results (snd (AuditService.deleteAudit u db)).
Proof.
  intros (H1 & H2 & H3 & H4).
  destruct (Prisma.findUnique (editUniqueId_is u) (db_audit db)) as [a|] eqn:E.
  - unfold AuditService.deleteAudit, AuditService.audit_delete, transaction,
      bind, gets, modify.
    rewrite E. simpl.
    unfold unique_pages_and_results, audit_pages, audit_rows, Prisma.findMany.
    simpl. split; [|split; [|split]].
    + now apply NoDup_map_filter.
    + intros p Hin. apply filter_In in Hin as [Hin _]. now apply H2.
    + intros v. rewrite filter_comm. apply NoDup_map_filter. apply H3.
    + intros v. rewrite filter_comm. apply NoDup_map_filter. apply H4.
  - apply findUnique_audit_none_iff in E.
    rewrite (service_deleteAudit_missing u db E). repeat split; assumption.
Qed.

Lemma createAudit_unique (e c : string) (body : CreateAuditDto) (db : DB) :
  unique_pages_and_results db ->
  unique_pages_and_results (snd (AuditService.createAudit e c body db)).
Proof.
  intros H.
  destruct (AuditService.createAudit e c body db) as [[created|ex] db1] eqn:E.
  - unfold AuditService.createAudit, transaction in E.
    cbv [bind gets] in E.
    destruct (existsb _ (rows (db_auditTrace db))
              || existsb _ (rows (db_audit db))); [discriminate|].
    cbv [modify] in E.
    destruct (for_each _ _ _) as [[[] d2]|e'] eqn:Ef; [|discriminate].
    apply recipients_create_frame_pages in Ef as [Hp Hr].
    inversion E; subst. simpl.
    now apply (unique_pages_and_results_ext db).
  - unfold AuditService.createAudit in E.
    apply transaction_fail_keeps in E. now subst.
Qed.

Lemma audit_update_unique (uniqueId : string) (data : UpdateAuditDto)
  (updatedPages newPages : list UpdateAuditPage) (db db' : DB)
  (audit : AuditWithIncludes) :
  AuditService.audit_update uniqueId data updatedPages newPages db
  = Return (audit, db') ->
  foreign_keys db ->
  unique_pages_and_results db -> unique_pages_and_results db'.
Proof.
  unfold AuditService.audit_update. intros H Hfk Hun.
  apply bind_Return in H as (found & d0 & H0 & H).
  unfold gets in H0. inversion H0; subst; clear H0.
  destruct (Prisma.findUnique _ _) as [a|] eqn:Ef; [|discriminate].
  apply bind_Return in H as ([] & d1 & H1 & H).
  unfold modify in H1. inversion H1; subst; clear H1.
  apply bind_Return in H as ([] & d2 & H2 & H).
  rewrite update_recipients_eq in H2. inversion H2; subst; clear H2.
  apply bind_Return in H as ([] & d3 & H3 & H).
  rewrite update_tools_eq in H3. inversion H3; subst; clear H3.
  apply bind_Return in H as ([] & d4 & H4 & H).
  rewrite update_environments_eq in H4. inversion H4; subst; clear H4.
  apply bind_Return in H as ([] & d5 & H5 & H).
  apply bind_Return in H as ([] & d6 & H6 & H).
  apply bind_Return in H as ([] & d7 & H7 & H).
  unfold gets in H. inversion H; subst; clear H.
  match type of H5 with
  | AuditService.pages_deleteMany _ _ ?d = _ =>
      assert (Hfk4 : foreign_keys d);
      [|assert (Hun4 : unique_pages_and_results d)]
  end.
  { apply (foreign_keys_ext d0); [reflexivity..| |exact Hfk].
    intros u. apply (live_updateMany (editUniqueId_is uniqueId)
                       (AuditService.update_scalars data));
      reflexivity. }
  { apply (unique_pages_and_results_ext d0); [reflexivity..|exact Hun]. }
  pose proof (pages_deleteMany_foreign_keys _ _ _ _ H5 Hfk4) as Hfk5.
  pose proof (pages_deleteMany_unique _ _ _ _ H5 Hun4) as Hun5.
  assert (H6' : foreign_keys d6 /\ unique_pages_and_results d6).
  { apply (for_each_preserves
             (fun d => foreign_keys d /\ unique_pages_and_results d) _ _) with
      (db := d5) (db' := d6) in H6; [exact H6| |now split].
    intros x d d' Hx [Hk Hu]. split.
    - exact (pages_update_foreign_keys uniqueId x d d' Hx Hk).
    - exact (pages_update_unique uniqueId x d d' Hx Hk Hu). }
  exact (for_each_preserves unique_pages_and_results _ _
           (fun x d d' Hx => pages_create_unique uniqueId x d d' Hx)
           d6 db' H7 (proj2 H6')).
Qed.

Lemma updateAudit_unique (now : DateTime) (u : string)
  (data : UpdateAuditDto) (db : DB) :
  foreign_keys db ->
  unique_pages_and_results db ->
  unique_pages_and_results (snd (AuditService.updateAudit now u data db)).
Proof.
  intros Hfk Hun.
  destruct (AuditService.updateAudit now u data db) as [[[audit|]|ex] db1]
    eqn:E.
  - simpl. unfold AuditService.updateAudit, AuditService.updateAudit_try,
      transaction in E.
    match type of E with
    | AuditService.catch_P2025 _ _ (match ?m with _ => _ end) = _ =>
        destruct m as [[x d]|e] eqn:Em
    end.
    2:{ unfold AuditService.catch_P2025 in E.
        destruct (is_P2025 e); discriminate. }
    simpl in E. inversion E; subst; clear E.
    apply bind_Return in Em as (a & d1 & E1 & Em).
    apply bind_Return in Em as ([] & d2 & E2 & Em).
    unfold ret in Em. inversion Em; subst; clear Em.
    unfold AuditService.updateAuditEditDate, modify in E2.
    inversion E2; subst; clear E2.
    apply audit_update_unique in E1; [|exact Hfk|exact Hun].
    now apply (unique_pages_and_results_ext d1).
  - pose proof (updateAudit_unchanged now u data db) as H.
    rewrite E in H. simpl in H. simpl. rewrite H by discriminate. exact Hun.
  - pose proof (updateAudit_unchanged now u data db) as H.
    rewrite E in H. simpl in H. simpl. rewrite H by discriminate. exact Hun.
Qed.

(** What every handler preserves, beside the traces and the foreign keys:
    the unique keys of the audits, the pages and the results. *)
Lemma handled_keeps_unique_keys (CRITERIA : list Criterion) (db db' : DB) :
  handled CRITERIA db db' ->
  foreign_keys db -> unique_keys db -> unique_keys db'.
Proof.
  intros Hs Hfk [Ht Hu].
  destruct Hs.
  - split; [now apply createAudit_unique_tokens | now apply createAudit_unique].
  - unfold AuditsController.getAudit.
    destruct (AuditService.getAuditWithEditUniqueId u db);
      [|rewrite sendAuditNotFoundStatus_eq]; now split.
  - pose proof (updateAudit_unique_tokens now u body db Ht) as H1.
    pose proof (updateAudit_unique now u body db Hfk Hu) as H2.
    unfold AuditsController.updateAudit.
    destruct (AuditService.updateAudit now u body db) as [[[a|]|ex] d];
      [now split | | now split].
    rewrite sendAuditNotFoundStatus_eq. now split.
  - now split.
  - unfold AuditsController.updateAuditResults.
    destruct (AuditService.getAuditWithEditUniqueId u db).
    + split; [now apply updateResults_unique_tokens
             | now apply updateResults_unique].
    + rewrite sendAuditNotFoundStatus_eq. now split.
  - pose proof (publishAudit_unique_tokens now u db Ht) as H1.
    pose proof (publishAudit_unique now u db Hu) as H2.
    unfold AuditsController.publishAudit.
    destruct (negb (AuditService.isAuditComplete u db)); [now split|].
    destruct (AuditService.publishAudit now u db) as [[[a|]|ex] d];
      [now split | | now split].
    rewrite sendAuditNotFoundStatus_eq. now split.
  - pose proof (deleteAudit_unique_tokens u db Ht) as H1.
    pose proof (deleteAudit_unique u db Hu) as H2.
    unfold AuditsController.deleteAudit.
    destruct (AuditService.deleteAudit u db) as [[[|]|ex] d];
      [now split | | now split].
    rewrite sendAuditNotFoundStatus_eq. now split.
Qed.

Lemma reachable_invariants (CRITERIA : list Criterion) (db : DB) :
  reachable CRITERIA db ->
  (traced db /\ foreign_keys db) /\ unique_keys db.
Proof.
  intros Hr. induction Hr as [|db db' Hr [IH1 IH2] Hs].
  - split.
    + split; [intros a []|]. split; [intros p u [] | intros r []].
    + split; [split; constructor|].
      split; [constructor|]. split; [intros p []|].
      split; intros u; constructor.
  - split.
    + exact (handled_keeps_invariants CRITERIA db db' Hs IH1).
    + exact (handled_keeps_unique_keys CRITERIA db db' Hs (proj2 IH1) IH2).
Qed.

Lemma NoDup_flat_map_keys {A C K KA KC} (fa : A -> KA) (fc : C -> KC)
  (k : A -> C -> K) (l : list A) (cs : list C) :
  (forall a c a' c', k a c = k a' c' -> fa a = fa a' /\ fc c = fc c') ->
  NoDup (map fa l) -> NoDup (map fc cs) ->
  NoDup (flat_map (fun a => map (k a) cs) l).
Proof.
  intros Hk Hl Hc. induction l as [|a l IH]; simpl; [constructor|].
  inversion Hl as [|? ? Hn Hd]; subst. apply NoDup_app.
  - clear IH Hn Hd Hl. induction cs as [|c cs IHc]; simpl; [constructor|].
    inversion Hc as [|? ? Hnc Hdc]; subst. constructor; [|now apply IHc].
    intros Hin. apply in_map_iff in Hin as (c' & E & Hc').
    apply Hnc. destruct (Hk _ _ _ _ E) as [_ <-]. now apply in_map.
  - now apply IH.
  - intros x Hx Hx'. apply in_map_iff in Hx as (c & <- & Hc1).
    apply in_flat_map in Hx' as (a' & Ha' & Hx').
    apply in_map_iff in Hx' as (c' & E & Hc2).
    apply Hn. destruct (Hk _ _ _ _ E) as [<- _]. now apply in_map.
Qed.

(** In every store the handlers can reach from the empty one the unique keys
    of the schema hold: no two audits have the same edit token or the same
    consult token, no two pages have the same id, no two pages of an audit
    have the same url, and no two results of an audit are for the same page
    url, topic and criterion.  So get-audit returns the one audit that has
    the token, the stored rows that get-results reads are one per page,
    topic and criterion, and, the catalogue listing no criterion twice,
    get-results lists no page and criterion twice. *)
Theorem reachable_stores_keep_the_unique_keys :
  forall (CRITERIA : list Criterion) (db : DB),
    reachable CRITERIA db ->
    unique_keys db
    /\ (forall a, In a (rows (db_audit db)) ->
          AuditService.getAuditWithEditUniqueId (audit_editUniqueId a) db
          = Some (include a db))
    /\ (forall uniqueId, one_row_per_key (audit_results uniqueId db))
    /\ (forall uniqueId,
          NoDup (map criterion_key CRITERIA) ->
          NoDup (map entry_key
                   (AuditService.getResultsWithEditUniqueId CRITERIA uniqueId
                      db))).
Proof.
  intros CRITERIA db Hr.
  destruct (reachable_invariants CRITERIA db Hr) as [_ Hu].
  split; [exact Hu|].
  destruct Hu as [[Ht _] (_ & _ & H3 & H4)].
  split; [|split].
  - intros a Ha. unfold AuditService.getAuditWithEditUniqueId.
    destruct (Prisma.findUnique _ _) as [a'|] eqn:E.
    + apply find_some in E as [Ha' E]. apply String.eqb_eq in E.
      now rewrite (NoDup_map_inj audit_editUniqueId _ a' a Ht Ha' Ha E).
    + pose proof (find_none _ _ E a Ha) as Hn. unfold editUniqueId_is in Hn.
      now rewrite String.eqb_refl in Hn.
  - intros u r r' Hin Hin' Hurl Htopic Hcrit.
    apply audit_results_In in Hin as (Hin & Ha & _).
    apply audit_results_In in Hin' as (Hin' & Ha' & _).
    apply (NoDup_map_inj result_key (audit_rows u db) r r' (H4 u)).
    + now apply audit_rows_In.
    + now apply audit_rows_In.
    + unfold result_key. congruence.
  - intros u Hc. rewrite getResults_unfold.
    set (k := fun (page : AuditedPage) (c : Criterion) =>
           (page_url page, criterion_topic c, criterion_criterium c)).
    match goal with
    | |- NoDup (map entry_key (flat_map ?f ?l)) =>
        replace (map entry_key (flat_map f l))
          with (flat_map (fun page => map (k page) CRITERIA) l)
    end.
    + apply (NoDup_flat_map_keys page_url criterion_key k);
        [|apply H3|exact Hc].
      intros a c a' c' E. unfold k in E. inversion E.
      unfold criterion_key. split; congruence.
    + generalize (audit_pages u db). intros pages.
      induction pages as [|page pages IH]; simpl; [reflexivity|].
      rewrite map_app, <- IH. f_equal. rewrite map_map.
      apply map_ext. intros c.
      destruct (find _ (audit_results u db)) as [r|] eqn:E; [|reflexivity].
      apply find_some in E as [_ E]. apply row_of_iff in E.
      destruct E as (E1 & E2 & E3). unfold k, entry_key, existing. simpl.
      congruence.
Qed.

Lemma reachable_sample : reachable [] audited_sample_db.
Proof.
  assert (E : audited_sample_db
              = snd (AuditsController.updateAuditResults 20 "edit-1"
                       sample_results
                       (snd (AuditsController.updateAudit 10 "edit-1"
                               sample_update
                               (snd (AuditsController.createAudit "edit-1"
                                       "consult-1" sample_create empty_db))))))
    by (vm_compute; reflexivity).
  rewrite E.
  eapply reachable_next; [|apply handled_updateAuditResults].
  eapply reachable_next; [|apply handled_updateAudit].
  eapply reachable_next; [apply reachable_empty | apply handled_createAudit].
Qed.

Lemma reachable_stores_keep_the_unique_keys_witness :
  reachable [] audited_sample_db
  /\ NoDup (map page_url (audit_pages "edit-1" audited_sample_db))
  /\ one_row_per_key (audit_results "edit-1" audited_sample_db).
Proof.
  split; [exact reachable_sample|].
  destruct (reachable_stores_keep_the_unique_keys [] audited_sample_db
              reachable_sample) as ((_ & _ & _ & H3 & _) & _ & H & _).
  split; [apply H3 | apply H].
Defined.
